(* ===== verification/_CoqProject ===== *)
-Q . S2P
Prelude.v
GoIO.v
Crypto.v
GoStrings.v
GoNet.v
Padding.v
Frame.v
Target.v
Allowlist.v
ShareString.v
Hostnames.v
Certificate.v
Logger.v
GoOS.v
StreamFrame.v
FrameLog.v
PskConfig.v
Session.v
SessionInv.v
SessionSafe.v
SessionSys.v
SessionPump.v
SessionProps.v
SessionLeak.v
SessionLive.v
SessionTake.v
Pipe.v
SessionRefine.v
SessionTrace.v
SessionArrive.v
SessionTraffic.v
SessionFetch.v
Camouflage.v
Persist.v
Startup.v
Listener.v
ClientConfig.v
Connect.v
Probe.v
Handshake.v
Deadlines.v
Client.v
Dial.v
ClientInv.v
ClientLoop.v
ClientSteps.v
ClientProps.v
ClientTraffic.v
ClientFrame.v
StreamWriter.v
ClientRefine.v
ClientArrive.v
ClientTake.v
Tunnel.v
TunnelProps.v
TunnelLive.v
Socks5.v
ClientModes.v
