(* ===== verification/Prelude.v ===== *)
(** * mxtr-proxy: a verified model

    mxtr-proxy relays TCP connections of authenticated clients through one TLS
    connection per client. A client and the server share a PSK; inside the
    outer TLS they run a handshake, derive two AEAD keys, and multiplex any
    number of streams over sealed frames. To anybody else the server looks like
    a web server. The sources are two Go programs: the server, under
    src/cmd/mxtr-server/ (main.go, session_v2.go, allowlist.go, psk_config.go,
    share_string.go, logger.go), and a test client,
    src/cmd/mxtr-testclient-v2/main.go.

    ** How the parts fit together

    Start-up reads options, environment and disk and fixes the identity of the
    server: PSK, configuration, cloak family, certificate name, share string.
    The listener hands every TLS connection to [handleTCPv2], which runs the
    handshake: a peer that is not admitted gets one HTTP reply of the cloak
    family; an admitted one becomes a session, a set of goroutines that share
    the memory of the process. The client runs the other half of the handshake
    and its own goroutines, and offers the streams as a SOCKS5 proxy.

    ** Files

    Foundations
    - Prelude: Go byte strings, lengths, slices that panic, big-endian integers,
      results (value, error, panic), the state-and-error monad, sums over maps.
    - GoIO: readers cut into arbitrary segments, [io.ReadFull], writers that
      fail after any number of bytes; the class [SegIndep] of readers whose
      outcome does not depend on the cut.
    - GoStrings, GoNet: what the code uses of strings, strconv, encoding/hex
      and net (addresses in text, [ParseIP], [SplitHostPort]). Unicode tables
      are the class [UnicodeTables].
    - GoOS: path/filepath, and a Unix file system: names over inodes, system
      calls that may fail, between which other processes act, every call
      recorded.
    - Crypto: the primitives as classes with laws ([CryptoSuite], [AeadLaws],
      [NonceBinding], [CryptoLaws]) and a toy instance that satisfies them.

    Server
    - Padding ([nextPadSize], [pickPadRung]), Frame ([writeFrame], [readFrame],
      the buffer pools), StreamFrame ([writeStreamFrame], parsing of the
      plaintext), Target ([parseTarget]), Allowlist, ShareString (base58,
      [buildShareString]), PskConfig ([derivePskConfig], the heartbeat
      schedule), Camouflage (families and rendering), Probe ([looksLikeHTTP],
      [drainHTTPRequest]), Handshake ([readClientHandshake],
      [writeServerHandshake], the first half of [handleTCPv2], and the client's
      half).
    - Deadlines: the listener's dispatcher and the handshake again, with a clock
      and a peer whose bytes arrive at given times.
    - Hostnames, Certificate (the self-signed template), Logger, Persist
      ([atomicReplaceSecure] and the two persisted choices), Startup ([main] up
      to the listener), Listener ([runTCP], [dispatchTLSConn]: the accept loop,
      its semaphore and a goroutine per connection, as steps).
    - Session: the second half of [handleTCPv2] and everything it starts. A
      state ([sys]) is a table of threads and the shared memory ([mem]: sessions,
      streams, global counter, admission gate); [step] runs one atomic action of
      one thread with one answer of the environment ([env]: what a read, write,
      dial returned). One constructor of [thread] per goroutine: read loop,
      OPEN task, upstream reader, pump, PONG task, heartbeat; the reaper and
      arriving connections are actions. Each stream carries a history (bytes
      received, dequeued, written, credited) that no step reads.
    - SessionInv, SessionSafe, SessionSys: the invariant and its preservation;
      SessionPump: every open stream has its pump; SessionProps, SessionLeak,
      SessionLive: the properties. SessionTake: the read loop gets through any
      frame by itself.
    - FrameLog (runs of sealed frames by stream), SessionTrace, SessionArrive,
      SessionTraffic, SessionFetch: what a session has read, accepted, written
      and fetched, stream by stream, in terms of the frames on its connection.
    - Pipe: the contract of a stream (a byte pipe with credit) as an abstract
      transition system, and the class [PipeRefinement]; SessionRefine: the
      upload side of the server implements it.

    Client
    - Client: [readLoop], [open], [close], [deliver], [markClosed],
      [acquireWindow], [Read] and the two goroutines of [handleSocks5], in the
      style of Session; ClientInv, ClientLoop, ClientSteps: the invariant;
      ClientProps: the properties; ClientRefine: the download side implements
      the byte pipe.
    - ClientTraffic, ClientArrive: the same account of frames for the client;
      ClientTake: its read loop gets through any frame, and a handler through
      its channel, by themselves.
    - ClientFrame: the client's copy of the frame codec. StreamWriter:
      [streamWriter.Write], the writer of the one-shot modes, down to the bytes
      and in steps ([cw_step]), with what the other goroutines may do to the
      state it shares in between ([cw_event], [cw_other]). Socks5:
      [handleSocks5] up to the bridge; ClientModes: [runHTTPOnce] and the modes
      of [main].
    - Dial: [dialSession] as a whole, from the configuration to the session.
    - ClientConfig: net/url as far as it is used, [parseShareString], the
      configuration part of [main], the dialling decisions of [dialSession];
      Connect: the server's start-up and the client's configuration together.

    Both
    - Tunnel: a server and any number of clients, each pair joined by two queues
      of sealed frames ([world], [wstep]); a frame is read only under the nonce
      it was sealed with. TunnelProps, TunnelLive: the properties of the whole.

    ** What the theorems show

    - End to end (TunnelProps, TunnelLive): over client, frames and server together, an
      upload reaches the upstream connection and a download the local one in
      order, and nothing is missing between the two ends of an open stream; the
      counters of the two ends stay in step; what a client has sent on an open
      stream can always reach the upstream connection, by steps of the session
      and the pump alone, and what was read upstream the local connection, by
      steps of the client alone, unless another stream's channel is full
      (TunnelLive); no queue of the server exceeds the
      initial window, and with few streams no frame meets a buffer cap; after a
      session of the client nothing of it is left.
    - Data: an upload is written upstream, and a download to the local
      connection, in order and without loss or duplication until a close
      (SessionProps, ClientProps), which is the content of the two refinement
      theorems: at any time it is written, in the hand of the goroutine that
      writes it, or in a queue, and that goroutine exists; the frame, stream frame and codec layers are exact inverses and
      do not depend on pools or segmentation (Frame, StreamFrame, ClientFrame).
    - Flow control: credit granted never exceeds bytes delivered, the client
      never overruns it, no wake-up is lost (on the client: unless the server
      repeats an OPEN_OK), the pump alone can drain a queue; [streamWriter.Write]
      keeps the contract of [io.Writer] whatever happens around it
      (StreamWriter).
    - Resources: the byte budgets equal the bytes queued, a teardown leaves
      nothing behind when clients do not reuse ids, it terminates, and the
      nonces of a session never repeat.
    - Admission: who is admitted, that both ends then hold the same keys, that
      anybody else gets one well-formed HTTP reply, what the allowlist lets
      through, that only allowed addresses are dialled; the listener's
      semaphore counts its goroutines and none is left behind; a peer without
      the PSK is held thirty seconds at most, and a prompt one with it is
      admitted; a dial meets an accept with the same keys and counters, and
      closes what it opened on every error (Dial).
    - Local requests: what the SOCKS5 front end accepts, and what it answers
      to anything else (Socks5); that the one-shot modes ask the target they are
      given, and over TLS only after its certificate was verified (ClientModes).
    - Start-up: no panic, a well-formed server, the same secret, configuration
      and names after a restart, a crash-safe replacement of the state files under interference,
      and what the log level keeps off the terminal; the printed share string
      leads a client to the server that printed it (Connect); what the
      certificate says, and until when.
    - Counterexamples: runs in which the global budget leaks, a late close hits
      a new stream, one stopped reader stalls a client session, and a repeated
      OPEN_OK leaves a sender parked. They are
      closed terms that replay against the model.

    ** Conventions and bounds

    Go integers are [Z]; wrap-around is written where the code can reach it
    (sequence numbers, stream ids, the client's window). [None] of a partial
    slice or index and [Panic] of a result are run-time panics. Random draws are
    arguments. Recursion that is not structural has fuel, with a lemma that the
    fuel given is enough: two digits per input byte for base58, twenty digits
    for a decimal, the number of bytes for a read loop; links of the file
    system are followed forty times, as in Linux.
    The theorems of TunnelProps are for sessions of at most 2^31 SOCKS5
    requests ([few]), where the client's stream ids do not repeat; the statement
    on the buffer caps is for 32 streams with data queued in a session and 64
    over all, which is where 4 MiB each add up to the caps.
    Atomicity: a step of Session or Client is a critical section, an atomic
    operation, one map operation, or one blocking call; [Range] visits keys in
    any order. Two places are coarser than that: a change of a queue and the
    atomic updates of the session's and the global byte counter beside it are
    one step, so the cap checks of other sessions never see a counter between
    the two; and a frame write is one step with the test of the closed flag
    before it, under the write lock, so a close that falls in between counts as
    coming after the frame.

    ** Not modelled

    - TLS, X.509 and sockets: the outer TLS is a byte stream in each direction;
      handshakes, key generation and signatures are outcomes. Inside
      [runHTTPOnce] the inner crypto/tls connection and the copy to standard
      output are not modelled.
    - Time in the sessions: there, delays and deadlines appear as the order of
      steps, except in the heartbeat arithmetic and in Deadlines. Deadlines does
      not cost the close_notify that [tls.Conn.Close] writes, for which
      crypto/tls allows itself five seconds.
    - The text of log messages: a message is a constructor of [event].
    - secureCreateExclFile on Windows, where the open flag is absent.

    ** Plan

    Next: the listener and the dial as the origin of the pairs of Tunnel; the
    text of log messages that carry user input. *)

From Stdlib Require Export ZArith Lia.
From Stdlib Require Import Strings.String Strings.Byte.
From stdpp Require Export base numbers list gmap option sorting.

Export Corelib.Init.Byte(byte(..)).
Export Stdlib.Strings.String.StringSyntax.
Export Corelib.Init.Byte.ByteSyntaxNotations.
#[global] Delimit Scope byte_scope with byte.
#[global] Bind Scope byte_scope with byte.

#[global] Open Scope Z_scope.

Declare Scope mxtr_scope.
Delimit Scope mxtr_scope with mxtr.
#[global] Open Scope mxtr_scope.

(** ** Bytes, byte strings and lengths *)

Abbreviation bytes := (list byte).

(** Go string literals: a Go string is a byte sequence. *)
Definition str (s : string) : bytes := String.list_byte_of_string s.
Notation "'go!' s" := (str s%string) (at level 1, s at level 0, only parsing) : mxtr_scope.

Definition b2z (b : byte) : Z := Z.of_N (Byte.to_N b).

(** [byte(z)]: conversion to an 8-bit integer, with Go's wrap-around. *)
Definition z2b (z : Z) : byte :=
  match Byte.of_N (Z.to_N (z mod 256)) with
  | Some b => b
  | None => x00
  end.

#[export] Instance byte_eq_dec : EqDecision byte := Byte.byte_eq_dec.
#[export] Instance byte_inhabited : Inhabited byte := populate x00.

(** [len(l)] as a Go int. *)
Definition len {A} (l : list A) : Z := Z.of_nat (length l).

#[global] Arguments len {A} l : simpl never.
#[global] Arguments b2z b : simpl never.
#[global] Arguments z2b z : simpl never.

Definition zeros (n : Z) : bytes := replicate (Z.to_nat n) x00.

Lemma b2z_range b : 0 <= b2z b < 256.
Proof. unfold b2z. pose proof (Byte.to_N_bounded b). lia. Qed.

Lemma b2z_z2b z : b2z (z2b z) = z mod 256.
Proof.
  unfold b2z, z2b. pose proof (Z.mod_pos_bound z 256 ltac:(lia)).
  destruct (Byte.of_N _) as [b|] eqn:E.
  - apply Byte.to_of_N in E. rewrite E. lia.
  - apply Byte.of_N_None_iff in E. lia.
Qed.

#[export] Instance b2z_inj : Inj (=) (=) b2z.
Proof.
  intros a b H. unfold b2z in H. apply N2Z.inj in H.
  pose proof (Byte.of_to_N a). pose proof (Byte.of_to_N b). congruence.
Qed.

Lemma z2b_b2z b : z2b (b2z b) = b.
Proof. apply (inj b2z). rewrite b2z_z2b. apply Z.mod_small, b2z_range. Qed.

Lemma z2b_inj_small x y :
  0 <= x < 256 -> 0 <= y < 256 -> z2b x = z2b y -> x = y.
Proof.
  intros Hx Hy H%(f_equal b2z). rewrite !b2z_z2b in H.
  by rewrite !Z.mod_small in H by done.
Qed.

(** ** Length lemmas: rewriting base [golen] *)

Create Rewrite HintDb golen.
Create HintDb mxtr.

Lemma len_nil {A} : len (@nil A) = 0.
Proof. done. Qed.
Lemma len_cons {A} (x : A) l : len (x :: l) = 1 + len l.
Proof. unfold len. cbn [length]. lia. Qed.
Lemma len_app {A} (l k : list A) : len (l ++ k) = len l + len k.
Proof. unfold len. rewrite length_app. lia. Qed.
Lemma len_nonneg {A} (l : list A) : 0 <= len l.
Proof. unfold len. lia. Qed.
Lemma len_zero_nil {A} (l : list A) : len l = 0 -> l = [].
Proof. unfold len. destruct l; [done | cbn; lia]. Qed.
Lemma len_zeros n : 0 <= n -> len (zeros n) = n.
Proof. intros. unfold len, zeros. rewrite length_replicate. lia. Qed.
Lemma len_take {A} (l : list A) n : len (take n l) = Z.min (Z.of_nat n) (len l).
Proof. unfold len. rewrite length_take. lia. Qed.
Lemma len_drop {A} (l : list A) n : len (drop n l) = Z.max 0 (len l - Z.of_nat n).
Proof. unfold len. rewrite length_drop. lia. Qed.
Lemma len_fmap {A B} (f : A -> B) l : len (f <$> l) = len l.
Proof. unfold len. by rewrite length_fmap. Qed.
Lemma len_rev {A} (l : list A) : len (rev l) = len l.
Proof. unfold len. by rewrite length_rev. Qed.
Lemma len_replicate {A} n (x : A) : len (replicate n x) = Z.of_nat n.
Proof. unfold len. by rewrite length_replicate. Qed.

#[export] Hint Rewrite @len_nil @len_cons @len_app @len_take @len_drop @len_fmap
  @len_rev @len_replicate : golen.
#[export] Hint Resolve len_nonneg b2z_range : mxtr.

(** [zlen]: normalise lengths everywhere, then linear arithmetic. *)
Ltac len_facts :=
  repeat match goal with
  | |- context [len ?l] =>
      lazymatch goal with
      | _ : 0 <= len l |- _ => fail
      | _ => pose proof (len_nonneg l)
      end
  | _ : context [len ?l] |- _ =>
      lazymatch goal with
      | _ : 0 <= len l |- _ => fail
      | _ => pose proof (len_nonneg l)
      end
  end.
Ltac zlen := autorewrite with golen in *; len_facts; try lia.

(** Z division and modulo by constants inside [lia]. *)
Ltac zdivlia := Z.to_euclidean_division_equations; lia.

(** ** Proof automation *)

(** Turn the boolean comparisons of the context into arithmetic facts. *)
Ltac bool_facts :=
  repeat match goal with
  | H : (_ && _) = true |- _ => apply andb_true_iff in H; destruct H
  | H : (_ || _) = false |- _ => apply orb_false_iff in H; destruct H
  | H : negb _ = true |- _ => apply negb_true_iff in H
  | H : negb _ = false |- _ => apply negb_false_iff in H
  | H : (_ <? _) = true |- _ => apply Z.ltb_lt in H
  | H : (_ <? _) = false |- _ => apply Z.ltb_ge in H
  | H : (_ <=? _) = true |- _ => apply Z.leb_le in H
  | H : (_ <=? _) = false |- _ => apply Z.leb_gt in H
  | H : (_ =? _) = true |- _ => apply Z.eqb_eq in H
  | H : (_ =? _) = false |- _ => apply Z.eqb_neq in H
  | H : bool_decide _ = true |- _ => apply bool_decide_eq_true in H
  | H : bool_decide _ = false |- _ => apply bool_decide_eq_false in H
  end.

(** Case analysis on the innermost scrutinee of the goal, resp. of a hypothesis. *)
Ltac gcase :=
  match goal with
  | |- context [match ?x with _ => _ end] =>
      lazymatch x with
      | context [match _ with _ => _ end] => fail
      | _ => let E := fresh "E" in destruct x eqn:E; bool_facts
      end
  end.
Ltac hcase H :=
  match type of H with
  | context [match ?x with _ => _ end] =>
      lazymatch x with
      | context [match _ with _ => _ end] => fail
      | _ => let E := fresh "E" in destruct x eqn:E; bool_facts
      end
  end.

(** ** Slices

    [l[lo:hi]] panics when the bounds are out of range; [None] is the panic. *)

Definition slice {A} (lo hi : Z) (l : list A) : option (list A) :=
  if (0 <=? lo) && (lo <=? hi) && (hi <=? len l)
  then Some (take (Z.to_nat (hi - lo)) (drop (Z.to_nat lo) l))
  else None.

(** [l[i]], panicking out of range. *)
Definition at_ {A} (i : Z) (l : list A) : option A :=
  if 0 <=? i then l !! Z.to_nat i else None.

Lemma slice_Some {A} lo hi (l : list A) :
  0 <= lo -> lo <= hi -> hi <= len l ->
  slice lo hi l = Some (take (Z.to_nat (hi - lo)) (drop (Z.to_nat lo) l)).
Proof.
  intros. unfold slice. rewrite !(proj2 (Z.leb_le _ _)) by done. done.
Qed.

Lemma slice_len {A} lo hi (l r : list A) : slice lo hi l = Some r -> len r = hi - lo.
Proof. unfold slice. intros H. case_match; simplify_eq. zlen. Qed.

(** A slice that cuts out the middle part of a concatenation. *)
Lemma slice_mid {A} lo hi (a b c : list A) :
  len a = lo -> len b = hi - lo -> slice lo hi (a ++ b ++ c) = Some b.
Proof.
  intros Ha Hb. rewrite slice_Some by zlen.
  f_equal. unfold len in *.
  rewrite drop_app_length' by lia. by rewrite take_app_length' by lia.
Qed.

Lemma slice_prefix {A} hi (b c : list A) : len b = hi -> slice 0 hi (b ++ c) = Some b.
Proof. intros. apply (slice_mid 0 hi [] b c); zlen. Qed.

Lemma slice_suffix {A} lo hi (a b : list A) :
  len a = lo -> hi = lo + len b -> slice lo hi (a ++ b) = Some b.
Proof. intros. rewrite <-(app_nil_r b) at 1. apply slice_mid; zlen. Qed.

Lemma slice_cons {A} lo hi (x : A) l :
  1 <= lo -> slice lo hi (x :: l) = slice (lo - 1) (hi - 1) l.
Proof.
  intros. unfold slice. rewrite len_cons.
  assert (E : (0 <=? lo) && (lo <=? hi) && (hi <=? 1 + len l) =
              (0 <=? lo - 1) && (lo - 1 <=? hi - 1) && (hi - 1 <=? len l)) by lia.
  rewrite E. gcase; [| done].
  replace (Z.to_nat lo) with (S (Z.to_nat (lo - 1))) by lia. cbn.
  by replace (hi - lo) with (hi - 1 - (lo - 1)) by lia.
Qed.

Lemma at_Some {A} i (l : list A) : 0 <= i < len l -> is_Some (at_ i l).
Proof.
  intros. unfold at_. rewrite (proj2 (Z.leb_le _ _)) by lia.
  apply lookup_lt_is_Some_2. unfold len in *. lia.
Qed.

Lemma at_mid {A} i (a : list A) x b : len a = i -> at_ i (a ++ x :: b) = Some x.
Proof.
  intros. unfold at_. rewrite (proj2 (Z.leb_le _ _)) by zlen.
  unfold len in *. rewrite lookup_app_r by lia.
  by replace (Z.to_nat i - length a)%nat with 0%nat by lia.
Qed.

(** ** Big-endian integers ([encoding/binary.BigEndian]) *)

(** [be_put n z]: the [n] bytes of [PutUintXX], each [byte(z >> 8k)]. *)
Fixpoint be_put (n : nat) (z : Z) : bytes :=
  match n with
  | O => []
  | S n' => be_put n' (Z.shiftr z 8) ++ [z2b z]
  end.

(** [be_get bs]: [UintXX], the bytes combined with shifts. *)
Definition be_get (bs : bytes) : Z :=
  fold_left (fun acc b => Z.lor (Z.shiftl acc 8) (b2z b)) bs 0.

Lemma be_step acc b : 0 <= acc -> Z.lor (Z.shiftl acc 8) (b2z b) = acc * 256 + b2z b.
Proof.
  intros Hacc. pose proof (b2z_range b).
  rewrite Z.shiftl_mul_pow2 by lia. change (2 ^ 8) with 256.
  rewrite <-Z.add_lor_land, (Z.add_comm (Z.lor _ _)).
  enough (Z.land (acc * 256) (b2z b) = 0) by lia.
  apply Z.bits_inj'. intros i Hi. rewrite Z.land_spec, Z.bits_0.
  destruct (decide (i < 8)).
  - change 256 with (2 ^ 8). by rewrite Z.mul_pow2_bits_low by lia.
  - rewrite (Z.bits_above_log2 (b2z b)), andb_false_r; [done | lia |].
    destruct (decide (b2z b = 0)) as [-> | Hb]; [cbn; lia |].
    apply Z.log2_lt_pow2; [lia |].
    apply (Z.lt_le_trans _ (2 ^ 8)); [lia | apply Z.pow_le_mono_r; lia].
Qed.

Lemma be_get_snoc bs b : be_get (bs ++ [b]) = be_get bs * 256 + b2z b /\ 0 <= be_get bs.
Proof.
  assert (H : 0 <= be_get bs).
  { induction bs as [|c bs IH] using rev_ind; [done |].
    unfold be_get in *. rewrite fold_left_app. cbn.
    rewrite be_step by done. pose proof (b2z_range c). lia. }
  split; [|done]. unfold be_get in *. rewrite fold_left_app. cbn. by apply be_step.
Qed.

Lemma be_get_nonneg bs : 0 <= be_get bs.
Proof. apply (be_get_snoc bs x00). Qed.

Lemma be_get_bound bs : 0 <= be_get bs < 256 ^ len bs.
Proof.
  induction bs as [|c bs IH] using rev_ind; [done |].
  destruct (be_get_snoc bs c) as [-> _]. pose proof (b2z_range c).
  rewrite len_app. change (len [c]) with 1.
  rewrite Z.pow_add_r by zlen. lia.
Qed.

Lemma length_be_put n z : length (be_put n z) = n.
Proof.
  revert z. induction n as [|n IH]; intros; [done |].
  cbn. rewrite length_app, IH. cbn. lia.
Qed.
Lemma len_be_put n z : len (be_put n z) = Z.of_nat n.
Proof. unfold len. by rewrite length_be_put. Qed.
#[export] Hint Rewrite len_be_put : golen.

Lemma be_get_put n z : 0 <= z -> be_get (be_put n z) = z mod 256 ^ Z.of_nat n.
Proof.
  revert z. induction n as [|n IH]; intros z Hz; [cbn; by rewrite Z.mod_1_r |].
  cbn [be_put]. rewrite (proj1 (be_get_snoc _ _)), b2z_z2b.
  rewrite Z.shiftr_div_pow2 by lia. change (2 ^ 8) with 256.
  rewrite IH by (apply Z.div_pos; lia).
  rewrite Nat2Z.inj_succ, Z.pow_succ_r by lia.
  rewrite Z.rem_mul_r by (try apply Z.pow_pos_nonneg; lia). lia.
Qed.

Lemma be_get_put_small n z : 0 <= z < 256 ^ Z.of_nat n -> be_get (be_put n z) = z.
Proof. intros. rewrite be_get_put by lia. by apply Z.mod_small. Qed.

Lemma be_put_get bs : be_put (length bs) (be_get bs) = bs.
Proof.
  induction bs as [|c bs IH] using rev_ind; [done |].
  rewrite length_app, Nat.add_comm. cbn [Nat.add length be_put].
  destruct (be_get_snoc bs c) as [-> Hnn]. pose proof (b2z_range c).
  rewrite Z.shiftr_div_pow2 by lia. change (2 ^ 8) with 256.
  assert (E : (be_get bs * 256 + b2z c) / 256 = be_get bs) by zdivlia.
  rewrite E, IH. do 2 f_equal. apply (inj b2z). rewrite b2z_z2b. zdivlia.
Qed.

Lemma be_put_inj n x y :
  0 <= x < 256 ^ Z.of_nat n -> 0 <= y < 256 ^ Z.of_nat n ->
  be_put n x = be_put n y -> x = y.
Proof.
  intros Hx Hy H%(f_equal be_get). by rewrite !be_get_put_small in H by done.
Qed.

#[global] Arguments be_put : simpl never.
#[global] Arguments be_get bs : simpl never.

(** ** Results: value, Go error, or run-time panic *)

Inductive res (E A : Type) : Type :=
  | Ok (a : A)
  | Err (e : E)
  | Panic.
Arguments Ok {E A} a.
Arguments Err {E A} e.
Arguments Panic {E A}.

#[export] Instance res_ret {E} : MRet (res E) := fun _ => Ok.
#[export] Instance res_bind {E} : MBind (res E) := fun _ _ f m =>
  match m with Ok a => f a | Err e => Err e | Panic => Panic end.

(** A slice or index expression inside fallible code. *)
Definition must {E A} (o : option A) : res E A :=
  match o with Some a => Ok a | None => Panic end.

(** A guard: [if c { return err }]. *)
Definition fail_if {E} (c : bool) (e : E) : res E unit :=
  if c then Err e else Ok tt.

Definition is_panic {E A} (r : res E A) : bool :=
  match r with Panic => true | _ => false end.

(** Stateful fallible code: the state survives an error. *)
Definition io (S E A : Type) : Type := S -> res E A * S.

#[export] Instance io_ret {S E} : MRet (io S E) := fun _ a s => (Ok a, s).
#[export] Instance io_bind {S E} : MBind (io S E) := fun _ _ f m s =>
  match m s with
  | (Ok a, s') => f a s'
  | (Err e, s') => (Err e, s')
  | (Panic, s') => (Panic, s')
  end.
Definition lift {S E A} (r : res E A) : io S E A := fun s => (r, s).

(** [mapErr]: rename the error of an inner call. *)
Definition map_err {S E F A} (f : E -> F) (m : io S E A) : io S F A := fun s =>
  match m s with
  | (Ok a, s') => (Ok a, s')
  | (Err e, s') => (Err (f e), s')
  | (Panic, s') => (Panic, s')
  end.

(** ** List lemmas *)

Lemma list_filter_ext_in {A} (P1 P2 : A -> Prop)
    `{!∀ x, Decision (P1 x), !∀ x, Decision (P2 x)} (l : list A) :
  (forall x, x ∈ l -> P1 x <-> P2 x) -> filter P1 l = filter P2 l.
Proof.
  induction l as [|x l IH]; intros Heq; [done |].
  rewrite !filter_cons, IH by (intros; apply Heq; by right).
  specialize (Heq x ltac:(by left)). by repeat case_decide; tauto.
Qed.

(** ** Sums over finite maps *)

Definition map_sum {K A} `{Countable K} (f : K -> A -> Z) (m : gmap K A) : Z :=
  map_fold (fun k x acc => f k x + acc) 0 m.

Section MapSum.
Context {K A : Type} `{Countable K}.
Implicit Types (m : gmap K A) (f g : K -> A -> Z).

Lemma map_sum_empty f : map_sum f (∅ : gmap K A) = 0.
Proof. unfold map_sum. by rewrite map_fold_empty. Qed.

Lemma map_sum_insert_fresh f m k x :
  m !! k = None -> map_sum f (<[k := x]> m) = f k x + map_sum f m.
Proof. intros Hk. unfold map_sum. apply (map_fold_insert_L (fun k x acc => f k x + acc)); [| done]. intros. lia. Qed.

Lemma map_sum_delete f m k x :
  m !! k = Some x -> map_sum f (delete k m) = map_sum f m - f k x.
Proof.
  intros Hk. rewrite <-(insert_delete_id m k x) at 2 by done.
  rewrite map_sum_insert_fresh by apply lookup_delete_eq. lia.
Qed.

Lemma map_sum_insert f m k x y :
  m !! k = Some x -> map_sum f (<[k := y]> m) = map_sum f m - f k x + f k y.
Proof.
  intros Hk. rewrite <-insert_delete_eq, map_sum_insert_fresh by apply lookup_delete_eq.
  rewrite (map_sum_delete f m k x) by done. lia.
Qed.

Lemma map_sum_alter f m k x h :
  m !! k = Some x -> map_sum f (alter h k m) = map_sum f m - f k x + f k (h x).
Proof.
  intros Hk. assert (E : alter h k m = <[k := h x]> m).
  { apply map_eq. intros j. destruct (decide (j = k)) as [-> | Hne].
    - by rewrite lookup_alter_eq, lookup_insert_eq, Hk.
    - by rewrite lookup_alter_ne, lookup_insert_ne by done. }
  rewrite E. by apply map_sum_insert.
Qed.

Lemma map_sum_le f g m :
  map_Forall (fun k x => f k x <= g k x) m -> map_sum f m <= map_sum g m.
Proof.
  induction m as [|k x m Hk IH] using map_ind; intros Hm; [done |].
  apply map_Forall_insert in Hm as [Hx Hm]; [| done].
  rewrite !map_sum_insert_fresh by done. specialize (IH Hm). lia.
Qed.

Lemma map_sum_ext f g m :
  map_Forall (fun k x => f k x = g k x) m -> map_sum f m = map_sum g m.
Proof.
  intros Hm. apply Z.le_antisymm; apply map_sum_le; eapply map_Forall_impl; eauto;
    cbn; intros; lia.
Qed.

Lemma map_sum_nonneg f m : map_Forall (fun k x => 0 <= f k x) m -> 0 <= map_sum f m.
Proof.
  induction m as [|k x m Hk IH] using map_ind; intros Hm; [done |].
  apply map_Forall_insert in Hm as [Hx Hm]; [| done].
  rewrite map_sum_insert_fresh by done. specialize (IH Hm). lia.
Qed.

Lemma map_sum_ge_one f m k x :
  map_Forall (fun k x => 0 <= f k x) m -> m !! k = Some x -> f k x <= map_sum f m.
Proof.
  intros Hm Hk. rewrite <-(insert_delete_id m k x) by done.
  rewrite map_sum_insert_fresh by apply lookup_delete_eq.
  pose proof (map_sum_nonneg f (delete k m) ltac:(by apply map_Forall_delete)). lia.
Qed.

Lemma map_sum_zero m : map_sum (fun _ _ => 0) m = 0.
Proof.
  induction m as [|k x m Hk IH] using map_ind; [done |]. rewrite map_sum_insert_fresh by done. lia.
Qed.

Lemma map_sum_scale f c m : map_sum (fun k x => c * f k x) m = c * map_sum f m.
Proof.
  induction m as [|k x m Hk IH] using map_ind; [rewrite !map_sum_empty; lia |].
  rewrite !map_sum_insert_fresh by done. lia.
Qed.
End MapSum.

(** At most one entry counts. *)
Lemma map_sum_once {K A} `{Countable K} (f : K -> A -> Z) (m : gmap K A) b : 0 <= b ->
  (forall k x, m !! k = Some x -> f k x <= b) ->
  (forall k1 k2 x1 x2, m !! k1 = Some x1 -> m !! k2 = Some x2 -> f k1 x1 <> 0 -> f k2 x2 <> 0 -> k1 = k2) ->
  map_sum f m <= b.
Proof.
  intros Hb. induction m as [|k x m Hk IH] using map_ind; intros Hf Hu; [done |].
  rewrite map_sum_insert_fresh by done.
  assert (Hne : forall k' x', m !! k' = Some x' -> <[k := x]> m !! k' = Some x' /\ k <> k').
  { intros k' x' Hx'. assert (k <> k') by (intros ->; congruence). by rewrite lookup_insert_ne. }
  destruct (decide (f k x = 0)) as [-> | Hx].
  - rewrite Z.add_0_l. apply IH.
    + intros k' x' [Hx' _]%Hne. by apply Hf.
    + intros k1 k2 x1 x2 [H1 _]%Hne [H2 _]%Hne. by apply Hu.
  - rewrite (map_sum_ext _ (fun _ _ => 0)), map_sum_zero; [specialize (Hf k x (lookup_insert_eq _ _ _)); lia |].
    intros k' x' [Hx' Hk']%Hne. destruct (decide (f k' x' = 0)) as [? | Hx0]; [done |].
    destruct Hk'. by apply (Hu k k' x x' (lookup_insert_eq _ _ _) Hx').
Qed.
