(* ===== verification/GoIO.v ===== *)
(** * Byte streams: [io.Reader], [io.ReadFull] and connection writers

    A connection is read as a sequence of segments (what successive [Read]
    calls can return) followed by a terminal error; two connections with the
    same bytes and the same terminal error are equivalent, however the bytes
    are cut. [SegIndep] is the property of a parser that it cannot tell such
    connections apart; it is closed under the monad's operations. *)

From S2P Require Import Prelude.

(** The errors a connection ends with; [Timeout] is an expired deadline. *)
Inductive ioerr := EOF | UnexpectedEOF | Timeout | ConnClosed.

#[export] Instance ioerr_eq_dec : EqDecision ioerr.
Proof. solve_decision. Defined.

Record reader := Reader { rd_segs : list bytes; rd_end : ioerr }.

(** The bytes still to come, whatever their segmentation. *)
Definition rd_data (r : reader) : bytes := concat (rd_segs r).

(** [Read(p)] with [len(p) = n]: at most one segment. *)
Definition read (n : Z) : io reader ioerr bytes := fun r =>
  match rd_segs r with
  | [] => (Err (rd_end r), r)
  | s :: rest =>
      if len s <=? n then (Ok s, Reader rest (rd_end r))
      else (Ok (take (Z.to_nat n) s),
            Reader (drop (Z.to_nat n) s :: rest) (rd_end r))
  end.

(** The loop of [io.ReadAtLeast]; every round consumes a segment or is the
    last, so [S (length (rd_segs r))] rounds are enough. *)
Fixpoint read_loop (fuel : nat) (want : Z) (acc : bytes) (r : reader)
  : bytes * option ioerr * reader :=
  if want <=? len acc then (acc, None, r) else
  match fuel with
  | O => (acc, None, r)
  | S fuel' =>
      match read (want - len acc) r with
      | (Ok b, r') => read_loop fuel' want (acc ++ b) r'
      | (Err e, r') => (acc, Some e, r')
      | (Panic, r') => (acc, None, r')
      end
  end.

(** [io.ReadFull(r, buf)] with [len(buf) = n]. An error carries the bytes
    already placed in [buf]. *)
Definition readFull (n : Z) : io reader (ioerr * bytes) bytes := fun r =>
  let '(got, e, r') := read_loop (S (length (rd_segs r))) n [] r in
  if n <=? len got then (Ok got, r')
  else match e with
       | Some EOF =>
           if 0 <? len got then (Err (UnexpectedEOF, got), r')
           else (Err (EOF, got), r')
       | Some e' => (Err (e', got), r')
       | None => (Err (UnexpectedEOF, got), r')
       end.

(** The buffer after a short [ReadFull] into [make([]byte, n)]. *)
Definition short_buf (n : Z) (got : bytes) : bytes := got ++ zeros (n - len got).

(** ** What [readFull] returns, in terms of the bytes to come *)

Definition readFull_err (e : ioerr) (got : bytes) : ioerr :=
  match e with
  | EOF => if 0 <? len got then UnexpectedEOF else EOF
  | e => e
  end.

Lemma rd_data_cons s rest e : rd_data (Reader (s :: rest) e) = s ++ rd_data (Reader rest e).
Proof. done. Qed.

Lemma read_loop_spec fuel want acc r :
  (length (rd_segs r) < fuel)%nat -> 0 <= want ->
  len acc <= want ->
  exists r', rd_end r' = rd_end r /\
    read_loop fuel want acc r =
      (if len acc + len (rd_data r) <? want
       then (acc ++ rd_data r, Some (rd_end r), r')
       else (acc ++ take (Z.to_nat (want - len acc)) (rd_data r), None, r'))
    /\ rd_data r' = drop (Z.to_nat (want - len acc)) (rd_data r).
Proof.
  revert acc r. induction fuel as [|fuel IH]; [lia |].
  intros acc [segs e] Hf Hw Hacc. cbn [read_loop].
  destruct (want <=? len acc) eqn:E1; bool_facts.
  { exists (Reader segs e). replace (want - len acc) with 0 by lia. cbn.
    rewrite take_0, drop_0, app_nil_r.
    rewrite (proj2 (Z.ltb_ge _ _)) by zlen. done. }
  unfold read. cbn [rd_segs rd_end]. destruct segs as [|s rest].
  { change (rd_data (Reader [] e)) with (@nil byte). rewrite len_nil, Z.add_0_r.
    rewrite (proj2 (Z.ltb_lt _ _)) by lia. rewrite drop_nil, app_nil_r.
    by exists (Reader [] e). }
  rewrite rd_data_cons, len_app.
  destruct (len s <=? want - len acc) eqn:E2; bool_facts.
  - destruct (IH (acc ++ s) (Reader rest e)) as (r' & He & Hl & Hd); [cbn in *; lia | lia | zlen |].
    exists r'. rewrite He, Hl, Hd, len_app, Z.add_assoc. unfold len in *.
    split; [done |]. split.
    + gcase; rewrite <-app_assoc; [done |].
      rewrite take_app_ge by lia. do 5 f_equal. lia.
    + rewrite drop_app_ge by lia. f_equal. lia.
  - exists (Reader (drop (Z.to_nat (want - len acc)) s :: rest) e). split; [done |].
    destruct fuel as [|fuel']; [cbn in Hf; lia |]. cbn [read_loop].
    assert (Hl : len (acc ++ take (Z.to_nat (want - len acc)) s) = want) by zlen.
    rewrite Hl, Z.leb_refl. rewrite (proj2 (Z.ltb_ge _ _)) by zlen.
    unfold len in *. rewrite take_app_le, drop_app_le by lia. done.
Qed.

Lemma readFull_spec n r :
  0 <= n ->
  exists r', rd_end r' = rd_end r /\ rd_data r' = drop (Z.to_nat n) (rd_data r) /\
  readFull n r =
    (if n <=? len (rd_data r) then Ok (take (Z.to_nat n) (rd_data r))
     else Err (readFull_err (rd_end r) (rd_data r), rd_data r), r').
Proof.
  intros Hn. unfold readFull.
  destruct (read_loop_spec (S (length (rd_segs r))) n [] r) as (r' & He & Hl & Hd);
    [lia | done | done |].
  exists r'. rewrite Hl. rewrite len_nil, Z.sub_0_r in *. cbn [app].
  split_and!; [done | done |]. unfold readFull_err.
  rewrite Z.add_0_l. destruct (n <=? len (rd_data r)) eqn:E; bool_facts.
  - rewrite (proj2 (Z.ltb_ge _ _)) by lia. by rewrite (proj2 (Z.leb_le _ _)) by zlen.
  - rewrite (proj2 (Z.ltb_lt _ _)) by lia. rewrite (proj2 (Z.leb_gt _ _)) by lia.
    destruct (rd_end r); cbn; repeat case_match; done.
Qed.

(** The two shapes used by the parsers' lemmas. *)
Lemma readFull_ok n r a b :
  rd_data r = a ++ b -> len a = n ->
  exists r', readFull n r = (Ok a, r') /\ rd_data r' = b /\ rd_end r' = rd_end r.
Proof.
  intros Hd Ha. pose proof (len_nonneg a).
  destruct (readFull_spec n r) as (r' & He & Hd' & Hr); [lia |].
  exists r'. rewrite Hr, Hd', Hd. rewrite (proj2 (Z.leb_le _ _)) by zlen.
  unfold len in *. rewrite take_app_length', drop_app_length' by lia. done.
Qed.

Lemma readFull_short n r :
  len (rd_data r) < n ->
  exists r', readFull n r = (Err (readFull_err (rd_end r) (rd_data r), rd_data r), r').
Proof.
  intros Hd. pose proof (len_nonneg (rd_data r)).
  destruct (readFull_spec n r) as (r' & He & Hd' & Hr); [lia |].
  exists r'. rewrite Hr. by rewrite (proj2 (Z.leb_gt _ _)) by lia.
Qed.

(** ** Segmentation independence *)

#[export] Instance reader_equiv : Equiv reader := fun r1 r2 =>
  rd_data r1 = rd_data r2 /\ rd_end r1 = rd_end r2.

#[export] Instance reader_equivalence : Equivalence (≡@{reader}).
Proof.
  split.
  - by intros r.
  - by intros r1 r2 [??].
  - intros r1 r2 r3 [??] [??]. split; congruence.
Qed.

#[export] Instance rd_data_proper : Proper ((≡) ==> (=)) rd_data.
Proof. by intros r1 r2 [??]. Qed.

(** Equal results, equivalent connections left over. *)
Definition same_outcome {E A} (x y : res E A * reader) : Prop :=
  x.1 = y.1 /\ x.2 ≡ y.2.

Class SegIndep {E A} (m : io reader E A) : Prop :=
  seg_indep : Proper ((≡) ==> same_outcome) m.

#[export] Instance seg_ret {E A} (a : A) : SegIndep (E:=E) (mret a).
Proof. intros r1 r2 H. by split. Qed.

#[export] Instance seg_lift {E A} (x : res E A) : SegIndep (lift x).
Proof. intros r1 r2 H. by split. Qed.

#[export] Instance seg_bind {E A B} (m : io reader E A) (f : A -> io reader E B) :
  SegIndep m -> (forall a, SegIndep (f a)) -> SegIndep (m ≫= f).
Proof.
  intros Hm Hf r1 r2 H. specialize (Hm r1 r2 H). unfold mbind, io_bind.
  destruct (m r1) as [x1 s1], (m r2) as [x2 s2]. destruct Hm as [E1 E2]. cbn in E1, E2. subst x2.
  destruct x1; [by apply Hf | done | done].
Qed.

#[export] Instance seg_map_err {E F A} (g : E -> F) (m : io reader E A) :
  SegIndep m -> SegIndep (map_err g m).
Proof.
  intros Hm r1 r2 H. specialize (Hm r1 r2 H). unfold map_err.
  destruct (m r1) as [x1 s1], (m r2) as [x2 s2]. destruct Hm as [E1 E2]. cbn in E1, E2. subst x2.
  by destruct x1.
Qed.

#[export] Instance seg_if {E A} (b : bool) (m1 m2 : io reader E A) :
  SegIndep m1 -> SegIndep m2 -> SegIndep (if b then m1 else m2).
Proof. by destruct b. Qed.

(** A negative count is never asked for; it behaves like an empty read. *)
#[export] Instance seg_readFull n : SegIndep (readFull n).
Proof.
  intros r1 r2 [Hd He]. destruct (decide (0 <= n)) as [Hn | Hn].
  - destruct (readFull_spec n r1 Hn) as (s1 & He1 & Hd1 & ->).
    destruct (readFull_spec n r2 Hn) as (s2 & He2 & Hd2 & ->).
    split; cbn; [by rewrite Hd, He |]. split; congruence.
  - unfold readFull. cbn [read_loop]. change (len (@nil byte)) with 0.
    rewrite (proj2 (Z.leb_le n 0)) by lia. rewrite len_nil.
    rewrite (proj2 (Z.leb_le n 0)) by lia. by split.
Qed.

(** ** Writers

    A healthy connection takes every byte; a failing one ([Some k]) takes [k]
    more bytes and then reports an error, so partial writes are modelled. *)

Record writer := Writer { w_out : bytes; w_room : option Z }.

Definition write (p : bytes) : io writer ioerr unit := fun w =>
  match w_room w with
  | None => (Ok tt, Writer (w_out w ++ p) None)
  | Some k =>
      if len p <=? k then (Ok tt, Writer (w_out w ++ p) (Some (k - len p)))
      else (Err ConnClosed, Writer (w_out w ++ take (Z.to_nat k) p) (Some 0))
  end.

(** Only a prefix of what is written reaches the peer. *)
Lemma write_prefix p w : exists q, w_out (write p w).2 = w_out w ++ q /\ q `prefix_of` p.
Proof.
  unfold write. repeat case_match; cbn; eexists; split; try done.
  exists (drop (Z.to_nat z) p). by rewrite take_drop.
Qed.
