(* ===== verification/Crypto.v ===== *)
(** * The cryptographic primitives the program calls

    HMAC-SHA256 ([crypto/hmac], [crypto/sha256]), HKDF-SHA256 and
    ChaCha20-Poly1305 ([golang.org/x/crypto]) are not part of the repository.
    They are an interface: a class of operations, and a class of the laws the
    program relies on. [Toy] is a concrete instance, used to evaluate the
    definitions at concrete inputs. *)

From S2P Require Import Prelude.

(** [cipher.AEAD]: [Seal(nonce, plaintext)] and [Open(nonce, ciphertext)],
    with no associated data, as the program always calls them. *)
Record aead := Aead {
  seal : bytes -> bytes -> bytes;
  open : bytes -> bytes -> option bytes;
}.

Class CryptoSuite := {
  hmac_sha256 : bytes -> bytes -> bytes;                  (* key, message *)
  hkdf_sha256 : bytes -> bytes -> bytes -> nat -> bytes;  (* secret, salt, info, length *)
  chacha20poly1305 : bytes -> aead;                       (* key *)
}.

(** A correct AEAD: decryption inverts encryption, accepts nothing else for
    that nonce, and the ciphertext carries a 16-byte tag. *)
Class AeadLaws (a : aead) : Prop := {
  open_seal n p : open a n (seal a n p) = Some p;
  open_inv n c p : open a n c = Some p -> c = seal a n p;
  seal_len n p : len (seal a n p) = len p + 16;
}.

(** Authentication binds the 12-byte nonce. *)
Class NonceBinding (a : aead) : Prop :=
  nonce_binding n1 n2 p :
    len n1 = 12 -> len n2 = 12 -> n1 <> n2 -> open a n2 (seal a n1 p) = None.

Class CryptoLaws (C : CryptoSuite) : Prop := {
  hmac_len k m : len (hmac_sha256 k m) = 32;
  hkdf_len k salt info n : length (hkdf_sha256 k salt info n) = n;
  #[global] chacha_laws k :: AeadLaws (chacha20poly1305 k);
}.

Lemma open_len a `{AeadLaws a} n c p : open a n c = Some p -> len c = len p + 16.
Proof. intros ->%open_inv. apply seal_len. Qed.

(** ** A concrete instance *)

Module Toy.

(** Key and nonce in the clear as the tag: no secrecy, but every law. *)
Definition tag (k n : bytes) : bytes := take 16 (n ++ k ++ zeros 16).

Definition toy_seal (k n p : bytes) : bytes := p ++ tag k n.
Definition toy_open (k n c : bytes) : option bytes :=
  let body := take (length c - 16) c in
  if bool_decide (drop (length c - 16) c = tag k n) then Some body else None.

Definition toy_aead (k : bytes) : aead := Aead (toy_seal k) (toy_open k).

Definition toy_mac (k m : bytes) : bytes := be_put 32 (be_get (m ++ k)).
Definition toy_kdf (k salt info : bytes) (n : nat) : bytes :=
  take n (salt ++ info ++ k ++ replicate n x2a).

#[export] Instance suite : CryptoSuite := {|
  hmac_sha256 := toy_mac;
  hkdf_sha256 := toy_kdf;
  chacha20poly1305 := toy_aead;
|}.

Lemma tag_length k n : length (tag k n) = 16%nat.
Proof. unfold tag, zeros. rewrite length_take, !length_app, length_replicate. lia. Qed.

#[export] Instance toy_aead_laws k : AeadLaws (toy_aead k).
Proof.
  split; cbn; unfold toy_seal, toy_open.
  - intros n p. rewrite length_app, tag_length.
    replace (length p + 16 - 16)%nat with (length p) by lia.
    rewrite take_app_length, drop_app_length. by rewrite bool_decide_true.
  - intros n c p H. case_bool_decide as E; simplify_eq. rewrite <-E. by rewrite take_drop.
  - intros n p. unfold len. rewrite length_app, tag_length. lia.
Qed.

#[export] Instance toy_binding k : NonceBinding (toy_aead k).
Proof.
  intros n1 n2 p H1 H2 Hne. cbn. unfold toy_open, toy_seal.
  rewrite bool_decide_false; [done |].
  rewrite length_app, tag_length.
  replace (length p + 16 - 16)%nat with (length p) by lia.
  rewrite drop_app_length. intros E. apply Hne.
  unfold tag, len in *. apply (f_equal (take 12)) in E.
  rewrite !take_take in E. cbn [Nat.min] in E.
  by rewrite !take_app_length' in E by lia.
Qed.

#[export] Instance suite_laws : CryptoLaws suite.
Proof.
  split; cbn.
  - intros. unfold toy_mac. by rewrite len_be_put.
  - intros. unfold toy_kdf. rewrite length_take, !length_app, length_replicate. lia.
  - apply _.
Qed.

End Toy.
