(* ===== verification/GoStrings.v ===== *)
(** * Go string functions ([strings], [strconv], [encoding/hex])

    Strings are byte lists. Where the standard library consults the Unicode
    tables (only on strings with a byte of 0x80 or more) the table-driven
    result is an operation of [UnicodeTables]; the ASCII paths are defined
    here as the library defines them. *)

From S2P Require Import Prelude.

(** The table-driven paths of [strings.ToLower], [strings.TrimSpace] (both
    ends, resp. right end only) and [strings.Fields]. *)
Class UnicodeTables := {
  u_lower : bytes -> bytes;
  u_trim : bytes -> bytes;
  u_trim_right : bytes -> bytes;
  u_fields : bytes -> list bytes;
}.

(** Tables of a build that leaves non-ASCII text alone. *)
Definition ascii_tables : UnicodeTables := {|
  u_lower := fun s => s; u_trim := fun s => s; u_trim_right := fun s => s;
  u_fields := fun s => [s] |}.

Definition ch (c : byte) (lo hi : byte) : bool := (b2z lo <=? b2z c) && (b2z c <=? b2z hi).
Definition is_digit (c : byte) : bool := ch c "0" "9".
Definition is_lower (c : byte) : bool := ch c "a" "z".
Definition is_upper (c : byte) : bool := ch c "A" "Z".
Definition ascii_only (s : bytes) : bool := forallb (fun c => b2z c <? 128) s.

(** tab, newline, vertical tab, form feed, carriage return, space *)
Definition ascii_space (c : byte) : bool := ch c x09 x0d || bool_decide (c = x20).

Definition has_prefix (p s : bytes) : bool := bool_decide (take (length p) s = p).
Definition has_suffix (p s : bytes) : bool :=
  bool_decide ((length p <= length s)%nat /\ drop (length s - length p) s = p).
Definition trim_prefix (p s : bytes) : bytes :=
  if has_prefix p s then drop (length p) s else s.
Definition trim_suffix (p s : bytes) : bytes :=
  if has_suffix p s then take (length s - length p) s else s.

(** [strings.Contains]. *)
Fixpoint contains (sub s : bytes) : bool :=
  has_prefix sub s || match s with [] => false | _ :: s' => contains sub s' end.

(** [strings.IndexByte] and [LastIndexByte]. *)
Fixpoint index_byte (c : byte) (s : bytes) : option nat :=
  match s with
  | [] => None
  | x :: s' => if bool_decide (x = c) then Some 0%nat else S <$> index_byte c s'
  end.
Definition last_index_byte (c : byte) (s : bytes) : option nat :=
  (fun i => (length s - 1 - i)%nat) <$> index_byte c (rev s).

(** [strings.Split(s, sep)] for a one-byte separator. *)
Fixpoint split_on (c : byte) (s : bytes) : list bytes :=
  match s with
  | [] => [[]]
  | x :: s' =>
      if bool_decide (x = c) then [] :: split_on c s'
      else match split_on c s' with
           | w :: ws => (x :: w) :: ws
           | [] => [[x]]
           end
  end.

Definition lower_byte (c : byte) : byte := if is_upper c then z2b (b2z c + 32) else c.

Definition to_lower `{UnicodeTables} (s : bytes) : bytes :=
  if ascii_only s then lower_byte <$> s else u_lower s.

Fixpoint drop_while (p : byte -> bool) (s : bytes) : bytes :=
  match s with
  | [] => []
  | c :: s' => if p c then drop_while p s' else s
  end.

(** [strings.TrimSpace] and [bytes.TrimSpace]. *)
Definition trim_space `{UnicodeTables} (s : bytes) : bytes :=
  let s1 := drop_while ascii_space s in
  match s1 with
  | [] => []
  | c :: _ =>
      if 128 <=? b2z c then u_trim s1
      else
        let r := drop_while ascii_space (rev s1) in
        match r with
        | [] => []
        | d :: _ => if 128 <=? b2z d then u_trim_right (rev r) else rev r
        end
  end.

(** [strings.Trim(s, cutset)] for an ASCII cutset. *)
Definition trim_set (cut : bytes) (s : bytes) : bytes :=
  let p c := bool_decide (c ∈ cut) in
  rev (drop_while p (rev (drop_while p s))).

(** The ASCII path of [strings.Fields]: [cur] is the field being read. *)
Fixpoint fields_go (cur : bytes) (s : bytes) : list bytes :=
  match s with
  | [] => if bool_decide (cur = []) then [] else [rev cur]
  | c :: s' =>
      if ascii_space c
      then (if bool_decide (cur = []) then [] else [rev cur]) ++ fields_go [] s'
      else fields_go (c :: cur) s'
  end.
Definition fields `{UnicodeTables} (s : bytes) : list bytes :=
  if ascii_only s then fields_go [] s else u_fields s.

(** ** Decimal ([strconv.Itoa], [strconv.Atoi], the verb %d) *)

Definition digit (d : Z) : byte := z2b (48 + d).

(** Least significant digit first; twenty digits hold any 64-bit integer. *)
Fixpoint digits_rev (fuel : nat) (n : Z) : bytes :=
  match fuel with
  | O => []
  | S f => if n <? 10 then [digit n] else digit (n mod 10) :: digits_rev f (n / 10)
  end.
Definition itoa (n : Z) : bytes :=
  if n <? 0 then "-"%byte :: rev (digits_rev 20 (- n)) else rev (digits_rev 20 n).

Fixpoint parse_digits (acc : Z) (s : bytes) : option Z :=
  match s with
  | [] => Some acc
  | c :: s' => if is_digit c then parse_digits (acc * 10 + (b2z c - 48)) s' else None
  end.
Definition atoi (s : bytes) : option Z :=
  let '(neg, ds) :=
    match s with
    | c :: s' => if bool_decide (c = "-"%byte) then (true, s')
                 else if bool_decide (c = "+"%byte) then (false, s') else (false, s)
    | [] => (false, [])
    end in
  match ds with
  | [] => None
  | _ =>
      n ← parse_digits 0 ds;
      let v := if neg : bool then - n else n in
      if (- 2 ^ 63 <=? v) && (v <? 2 ^ 63) then Some v else None
  end.

(** ** Hexadecimal ([encoding/hex]) *)

Definition hex_digit (d : Z) : byte := z2b (if d <? 10 then 48 + d else 87 + d).
Definition hex_encode (s : bytes) : bytes :=
  s ≫= fun b => [hex_digit (b2z b / 16); hex_digit (b2z b mod 16)].

Definition from_hex (c : byte) : option Z :=
  if is_digit c then Some (b2z c - 48)
  else if ch c "a" "f" then Some (b2z c - 87)
  else if ch c "A" "F" then Some (b2z c - 55)
  else None.
Fixpoint hex_decode (s : bytes) : option bytes :=
  match s with
  | [] => Some []
  | a :: b :: s' =>
      h ← from_hex a; l ← from_hex b; r ← hex_decode s'; Some (z2b (h * 16 + l) :: r)
  | [_] => None
  end.

(** ** Prefixes and suffixes *)

Lemma has_prefix_spec p s : has_prefix p s = true <-> p `prefix_of` s.
Proof.
  unfold has_prefix. rewrite bool_decide_eq_true. split.
  - intros E. exists (drop (length p) s). by rewrite <-E at 1; rewrite take_drop.
  - intros [k ->]. by rewrite take_app_length.
Qed.

Lemma has_suffix_spec p s : has_suffix p s = true <-> p `suffix_of` s.
Proof.
  unfold has_suffix. rewrite bool_decide_eq_true. split.
  - intros [Hl E]. exists (take (length s - length p) s). by rewrite <-E at 2; rewrite take_drop.
  - intros [k ->]. rewrite length_app. split; [lia |].
    rewrite drop_app_length'; [done | lia].
Qed.

Lemma contains_spec sub s : contains sub s = true <-> exists a b, s = a ++ sub ++ b.
Proof.
  induction s as [|x s IH]; cbn; rewrite orb_true_iff, has_prefix_spec.
  - split.
    + intros [[k E] | ?]; [| done]. by exists [], k.
    + intros (a & b & E). destruct a; [| done]. left. by exists b.
  - rewrite IH. split.
    + intros [[k E] | (a & b & ->)]; [by exists [], k |]. by exists (x :: a), b.
    + intros ([|y a] & b & E); [left; by exists b |]. simplify_eq/=. right. by exists a, b.
Qed.

Lemma contains_false sub s a b : contains sub s = false -> s = a ++ sub ++ b -> False.
Proof.
  intros H E. assert (contains sub s = true) by (apply contains_spec; eauto). congruence.
Qed.

(** ** Splitting *)

Lemma split_on_not_nil c s : split_on c s <> [].
Proof. destruct s; cbn; repeat gcase; done. Qed.

(** [strings.Join(ws, sep)]. *)
Fixpoint join (c : byte) (ws : list bytes) : bytes :=
  match ws with
  | [] => []
  | [w] => w
  | w :: ws' => w ++ c :: join c ws'
  end.

Lemma join_split c s : join c (split_on c s) = s.
Proof.
  induction s as [|x s IH]; [done |]. cbn.
  pose proof (split_on_not_nil c s).
  destruct (split_on c s) as [|w ws] eqn:E; [done |].
  gcase; [subst x; cbn in *; by rewrite IH |].
  destruct ws; cbn in *; by rewrite IH.
Qed.

Lemma split_on_no_sep c s : Forall (fun w => c ∉ w) (split_on c s).
Proof.
  induction s as [|x s IH]; cbn; [repeat constructor; set_solver |].
  gcase; [constructor; [set_solver | done] |].
  destruct (split_on c s) as [|w ws]; inversion IH; subst; repeat constructor; set_solver.
Qed.

Lemma split_on_app c a b :
  c ∉ a -> split_on c (a ++ c :: b) = a :: split_on c b.
Proof.
  induction a as [|x a IH]; intros Ha; cbn.
  - by rewrite bool_decide_true.
  - rewrite bool_decide_false by set_solver. rewrite IH by set_solver. done.
Qed.

Lemma split_on_single c a : c ∉ a -> split_on c a = [a].
Proof.
  induction a as [|x a IH]; intros Ha; cbn; [done |].
  rewrite bool_decide_false by set_solver. by rewrite IH by set_solver.
Qed.

Lemma index_byte_Some c s i :
  index_byte c s = Some i -> s !! i = Some c /\ c ∉ take i s.
Proof.
  revert i. induction s as [|x s IH]; intros i; cbn; [done |].
  gcase; [intros; simplify_eq; split; [done | set_solver] |].
  intros (j & Hj & ->)%fmap_Some. apply IH in Hj as [??]. split; [done | set_solver].
Qed.

Lemma index_byte_app c a b : c ∉ a -> index_byte c (a ++ c :: b) = Some (length a).
Proof.
  induction a as [|x a IH]; intros Ha; cbn; [by rewrite bool_decide_true |].
  rewrite bool_decide_false by set_solver. by rewrite IH by set_solver.
Qed.

Lemma index_byte_None c s : index_byte c s = None <-> c ∉ s.
Proof.
  induction s as [|x s IH]; cbn; [split; [set_solver | done] |].
  gcase; [split; set_solver |].
  rewrite fmap_None, IH. set_solver.
Qed.

Lemma last_index_byte_app c a b : c ∉ b -> last_index_byte c (a ++ c :: b) = Some (length a).
Proof.
  intros Hb. unfold last_index_byte.
  rewrite rev_app_distr. cbn [rev]. rewrite <-app_assoc. cbn [app].
  rewrite index_byte_app by (by rewrite list_elem_of_In, <-in_rev, <-list_elem_of_In).
  cbn. f_equal. rewrite length_rev, length_app. cbn. lia.
Qed.

Lemma split_on_sep c a b : split_on c (a ++ c :: b) = split_on c a ++ split_on c b.
Proof.
  induction a as [|x a IH]; cbn; [by rewrite bool_decide_true |].
  rewrite IH. gcase; [done |].
  pose proof (split_on_not_nil c a). by destruct (split_on c a).
Qed.

Lemma join_app c ws vs : ws <> [] -> vs <> [] -> join c (ws ++ vs) = join c ws ++ c :: join c vs.
Proof.
  induction ws as [|w ws IH]; intros Hw Hv; [done |].
  destruct ws as [|w' ws]; cbn.
  - by destruct vs.
  - cbn in IH. rewrite IH by done. by rewrite <-app_assoc.
Qed.

(** A label-boundary suffix, in terms of strings and in terms of labels. *)
Lemma suffix_labels c v h :
  (h = v \/ (c :: v) `suffix_of` h) <-> split_on c v `suffix_of` split_on c h.
Proof.
  split.
  - intros [-> | [a ->]]; [done |]. rewrite split_on_sep. by apply suffix_app_r.
  - intros [k E]. destruct (decide (k = [])) as [-> | Hk].
    + left. rewrite <-(join_split c h), E. by rewrite app_nil_l, join_split.
    + right. exists (join c k). rewrite <-(join_split c h), E.
      rewrite join_app by (done || apply split_on_not_nil). by rewrite join_split.
Qed.

(** ** Decimal round trip *)

Lemma digit_value d : 0 <= d < 10 -> is_digit (digit d) = true /\ b2z (digit d) - 48 = d.
Proof.
  intros Hd. unfold is_digit, ch, digit. rewrite b2z_z2b, Z.mod_small by lia.
  change (b2z "0") with 48. change (b2z "9") with 57.
  split; [apply andb_true_iff; split; apply Z.leb_le; lia | lia].
Qed.

Lemma parse_digits_app a b acc :
  parse_digits acc (a ++ b) = parse_digits acc a ≫= fun v => parse_digits v b.
Proof. revert acc. induction a as [|c a IH]; intros acc; cbn; [done |]. by destruct (is_digit c). Qed.

Lemma digits_rev_spec fuel n :
  0 <= n < 10 ^ Z.of_nat fuel -> (0 < fuel)%nat ->
  parse_digits 0 (rev (digits_rev fuel n)) = Some n /\ digits_rev fuel n <> [] /\
  Forall (fun c => is_digit c = true) (digits_rev fuel n).
Proof.
  revert n. induction fuel as [|fuel IH]; intros n Hn Hf; [lia |]. cbn [digits_rev].
  destruct (n <? 10) eqn:E; bool_facts.
  - destruct (digit_value n) as [H1 H2]; [lia |]. split_and!; [| done | by repeat constructor].
    cbn. by rewrite H1, H2.
  - rewrite Nat2Z.inj_succ, Z.pow_succ_r in Hn by lia.
    destruct fuel as [|fuel]; [cbn in Hn; lia |].
    destruct (IH (n / 10)) as (IH1 & _ & IH3); [zdivlia | lia |].
    destruct (digit_value (n mod 10)) as [H1 H2]; [zdivlia |].
    cbn [rev]. split_and!; [| done | by constructor].
    rewrite parse_digits_app, IH1. cbn [mbind option_bind parse_digits]. rewrite H1, H2. f_equal. zdivlia.
Qed.

Lemma itoa_spec n : 0 <= n < 2 ^ 63 ->
  parse_digits 0 (itoa n) = Some n /\ itoa n <> [] /\ Forall (fun c => is_digit c = true) (itoa n).
Proof.
  intros Hn. unfold itoa. rewrite (proj2 (Z.ltb_ge _ _)) by lia.
  destruct (digits_rev_spec 20 n) as (H1 & H2 & H3); [lia | lia |].
  split_and!; [done | | by apply Forall_rev].
  intros E. apply (f_equal (@rev byte)) in E. rewrite rev_involutive in E. done.
Qed.

Lemma itoa_len n : 0 <= n -> (length (itoa n) <= 20)%nat.
Proof.
  intros Hn. unfold itoa. rewrite (proj2 (Z.ltb_ge _ _)) by lia. rewrite length_rev.
  generalize 20%nat. intros f. revert n Hn. induction f as [|f IH]; intros n Hn; cbn; [lia |].
  destruct (n <? 10); cbn; [lia |]. specialize (IH (n / 10) ltac:(zdivlia)). lia.
Qed.

Lemma atoi_itoa n : 0 <= n < 2 ^ 63 -> atoi (itoa n) = Some n.
Proof.
  intros Hn. destruct (itoa_spec n Hn) as (H1 & H2 & H3).
  destruct (itoa n) as [|c s] eqn:E; [done |]. apply Forall_cons in H3 as [Hc _].
  unfold atoi. assert (c <> "-"%byte /\ c <> "+"%byte) as [? ?] by (split; intros ->; done).
  rewrite !bool_decide_false by done. rewrite H1. cbn.
  rewrite (proj2 (Z.leb_le _ _)), (proj2 (Z.ltb_lt _ _)) by lia. done.
Qed.

Lemma hex_digit_spec d : 0 <= d < 16 ->
  from_hex (hex_digit d) = Some d /\ ascii_space (hex_digit d) = false /\ b2z (hex_digit d) < 128.
Proof.
  intros Hd. assert (H : Forall (fun n => from_hex (hex_digit (Z.of_nat n)) = Some (Z.of_nat n) /\
    ascii_space (hex_digit (Z.of_nat n)) = false /\ b2z (hex_digit (Z.of_nat n)) < 128) (seq 0 16))
    by (apply (bool_decide_unpack _); vm_compute; exact I).
  rewrite Forall_forall in H. specialize (H (Z.to_nat d)). rewrite Z2Nat.id in H by lia.
  apply H, elem_of_seq. lia.
Qed.

Lemma b2z_nibbles b : 0 <= b2z b / 16 < 16 /\ 0 <= b2z b mod 16 < 16.
Proof.
  pose proof (b2z_range b). split; [| apply Z.mod_pos_bound; lia].
  split; [apply Z.div_pos; lia | apply Z.div_lt_upper_bound; lia].
Qed.

Lemma hex_decode_encode s : hex_decode (hex_encode s) = Some s.
Proof.
  induction s as [|b s IH]; [done |]. destruct (b2z_nibbles b) as [H1 H2].
  change (hex_encode (b :: s)) with (hex_digit (b2z b / 16) :: hex_digit (b2z b mod 16) :: hex_encode s).
  cbn [hex_decode]. rewrite (proj1 (hex_digit_spec _ H1)), (proj1 (hex_digit_spec _ H2)), IH. cbn. do 2 f_equal.
  rewrite <-(z2b_b2z b) at 3. f_equal. pose proof (Z.div_mod (b2z b) 16 ltac:(done)). lia.
Qed.

Lemma hex_encode_bytes s : Forall (fun c => ascii_space c = false /\ b2z c < 128) (hex_encode s).
Proof.
  induction s as [|b s IH]; [by constructor |]. destruct (b2z_nibbles b) as [H1 H2].
  change (hex_encode (b :: s)) with (hex_digit (b2z b / 16) :: hex_digit (b2z b mod 16) :: hex_encode s).
  constructor; [by apply hex_digit_spec |]. constructor; [by apply hex_digit_spec | done].
Qed.

Lemma has_prefix_app p s : has_prefix p (p ++ s) = true.
Proof. apply has_prefix_spec. by exists s. Qed.

Lemma has_prefix_cons a p b s : has_prefix (a :: p) (b :: s) = bool_decide (a = b) && has_prefix p s.
Proof.
  unfold has_prefix. cbn [length take]. destruct (decide (a = b)) as [-> | Hne].
  - rewrite (bool_decide_true (b = b)) by done. cbn. apply bool_decide_ext. split; [by intros [=] | by intros ->].
  - rewrite (bool_decide_false (a = b)) by done. apply bool_decide_false. intros [=]. congruence.
Qed.
