(* ===== verification/GoNet.v ===== *)
(** * IP literals and host:port strings ([net.ParseIP], [net.IP.String],
    [net.SplitHostPort], the address classes)

    The functions of the Go standard library the program calls, written after
    [net/ip.go], [net/netip/netip.go] and [net/ipsock.go]. An address is its
    16-byte form. *)

From S2P Require Import Prelude GoStrings.

(** ** [netip.ParseAddr] *)

(** The loop of [parseIPv4Fields]: fields read so far (last first), current
    value, its digit count, and whether the previous character was a dot (or
    there is none). *)
Fixpoint v4_loop (s : bytes) (fields : list Z) (val digLen : Z) (afterDot : bool) : option (list Z) :=
  match s with
  | [] =>
      if (len fields =? 3) then Some (rev (val :: fields)) else None
  | c :: s' =>
      if is_digit c then
        if (digLen =? 1) && (val =? 0) then None
        else
          let val' := val * 10 + (b2z c - 48) in
          if 255 <? val' then None else v4_loop s' fields val' (digLen + 1) false
      else if bool_decide (c = "."%byte) then
        if afterDot || bool_decide (s' = []) then None
        else if len fields =? 3 then None
        else v4_loop s' (val :: fields) 0 0 true
      else None
  end.
Definition parse_v4_fields (s : bytes) : option bytes :=
  match v4_loop s [] 0 0 true with Some fs => Some (z2b <$> fs) | None => None end.

Definition v4_prefix : bytes := replicate 10 x00 ++ [xff; xff].

(** One group of hex digits: value, digit count and the rest of the string;
    [None] when the group is too long. *)
Fixpoint hex_group (s : bytes) (off acc : Z) : option (Z * Z * bytes) :=
  match s with
  | c :: s' =>
      match from_hex c with
      | Some d => if 3 <? off then None else hex_group s' (off + 1) (acc * 16 + d)
      | None => Some (off, acc, s)
      end
  | [] => Some (off, acc, s)
  end.

(** The group loop of [parseIPv6]: [acc] holds the bytes parsed so far and
    [ell] the position of the ellipsis. Eight rounds fill an address. *)
Fixpoint v6_loop (fuel : nat) (s : bytes) (acc : bytes) (ell : option nat)
  : option (bytes * option nat * bytes) :=
  match fuel with
  | O => Some (acc, ell, s)
  | S fuel' =>
      if 16 <=? len acc then Some (acc, ell, s) else
      '(off, v, s1) ← hex_group s 0 0;
      if off =? 0 then None else
      match s1 with
      | [] => Some (acc ++ be_put 2 v, ell, [])
      | c :: s2 =>
          if bool_decide (c = "."%byte) then
            if bool_decide (ell = None) && negb (len acc =? 12) then None
            else if 16 <? len acc + 4 then None
            else fs ← parse_v4_fields s; Some (acc ++ fs, ell, [])
          else
            let acc' := acc ++ be_put 2 v in
            if negb (bool_decide (c = ":"%byte)) then None
            else match s2 with
            | [] => None
            | d :: s3 =>
                if bool_decide (d = ":"%byte) then
                  if bool_decide (is_Some ell) then None
                  else if bool_decide (s3 = []) then Some (acc', Some (length acc'), [])
                  else v6_loop fuel' s3 acc' (Some (length acc'))
                else v6_loop fuel' s2 acc' ell
            end
      end
  end.

Definition parse_v6 (s : bytes) : option bytes :=
  if bool_decide ("%"%byte ∈ s) then None (* a zone: ParseIP refuses it *) else
  let '(ell, s1) :=
    match s with
    | c :: d :: s' => if bool_decide (c = ":"%byte /\ d = ":"%byte) then (Some 0%nat, s') else (None, s)
    | _ => (None, s)
    end in
  if bool_decide (is_Some ell) && bool_decide (s1 = []) then Some (replicate 16 x00) else
  '(acc, ell', rest) ← v6_loop 8 s1 [] ell;
  if negb (bool_decide (rest = [])) then None
  else if len acc <? 16 then
    e ← ell';
    Some (take e acc ++ replicate (16 - length acc) x00 ++ drop e acc)
  else if bool_decide (is_Some ell') then None
  else Some acc.

(** The first dot, colon or percent sign selects the parser. *)
Fixpoint addr_kind (s : bytes) : option byte :=
  match s with
  | [] => None
  | c :: s' => if bool_decide (c ∈ [".";":";"%"]%byte) then Some c else addr_kind s'
  end.

Definition ParseIP (s : bytes) : option bytes :=
  match addr_kind s with
  | Some c =>
      if bool_decide (c = "."%byte) then (fun v4 => v4_prefix ++ v4) <$> parse_v4_fields s
      else if bool_decide (c = ":"%byte) then parse_v6 s
      else None
  | None => None
  end.

(** ** [net.IP] methods *)

(** [To4]: the last four bytes of an IPv4-mapped address. *)
Definition To4 (ip : bytes) : option bytes :=
  if bool_decide (length ip = 4%nat) then Some ip
  else if bool_decide (length ip = 16%nat /\ take 12 ip = v4_prefix) then Some (drop 12 ip)
  else None.

Definition v4_string (p : bytes) : bytes := join "." (itoa <$> (b2z <$> p)).

(** [appendHex]: no leading zeros. *)
Fixpoint hex_digits_rev (fuel : nat) (n : Z) : bytes :=
  match fuel with
  | O => []
  | S f => if n <? 16 then [hex_digit n] else hex_digit (n mod 16) :: hex_digits_rev f (n / 16)
  end.
Definition hex16 (n : Z) : bytes := rev (hex_digits_rev 4 n).

Fixpoint v6_groups (ip : bytes) : list Z :=
  match ip with
  | a :: b :: rest => be_get [a; b] :: v6_groups rest
  | _ => []
  end.

Fixpoint zero_run (gs : list Z) : nat :=
  match gs with
  | g :: gs' => if g =? 0 then S (zero_run gs') else O
  | [] => O
  end.

(** The first longest run of at least two zero groups: start and end. *)
Fixpoint best_run (fuel i : nat) (gs : list Z) (best : nat * nat) : nat * nat :=
  match fuel with
  | O => best
  | S f =>
      let l := zero_run (drop i gs) in
      let best' := if (2 <=? l)%nat && (best.2 - best.1 <? l)%nat then (i, (i + l)%nat) else best in
      best_run f (S i) gs best'
  end.

Definition v6_string (ip : bytes) : bytes :=
  let gs := v6_groups ip in
  let '(zs, ze) := best_run 8 0 gs (255, 255)%nat in
  if bool_decide (zs = 255%nat) then join ":" (hex16 <$> gs)
  else join ":" (hex16 <$> take zs gs) ++ go! "::" ++ join ":" (hex16 <$> drop ze gs).

(** [IP.String]: dotted for IPv4 and IPv4-mapped addresses. *)
Definition IP_String (ip : bytes) : bytes :=
  match To4 ip with
  | Some p => v4_string p
  | None => v6_string ip
  end.

(** [IP.Equal] on 16-byte forms. *)
Definition IP_Equal (a b : bytes) : bool := bool_decide (a = b).

Definition byte_at (ip : bytes) (i : nat) : Z := default 0 (b2z <$> ip !! i).

Definition IsLoopback (ip : bytes) : bool :=
  match To4 ip with
  | Some p => byte_at p 0 =? 127
  | None => bool_decide (ip = replicate 15 x00 ++ [x01])
  end.
Definition IsUnspecified (ip : bytes) : bool :=
  bool_decide (ip = v4_prefix ++ replicate 4 x00) || bool_decide (ip = replicate 16 x00).
Definition IsMulticast (ip : bytes) : bool :=
  match To4 ip with
  | Some p => Z.land (byte_at p 0) 240 =? 224
  | None => byte_at ip 0 =? 255
  end.
Definition IsLinkLocalUnicast (ip : bytes) : bool :=
  match To4 ip with
  | Some p => (byte_at p 0 =? 169) && (byte_at p 1 =? 254)
  | None => (byte_at ip 0 =? 254) && (Z.land (byte_at ip 1) 192 =? 128)
  end.
Definition IsLinkLocalMulticast (ip : bytes) : bool :=
  match To4 ip with
  | Some p => (byte_at p 0 =? 224) && (byte_at p 1 =? 0) && (byte_at p 2 =? 0)
  | None => (byte_at ip 0 =? 255) && (Z.land (byte_at ip 1) 15 =? 2)
  end.
Definition IsPrivate (ip : bytes) : bool :=
  match To4 ip with
  | Some p =>
      (byte_at p 0 =? 10) || ((byte_at p 0 =? 172) && (Z.land (byte_at p 1) 240 =? 16))
      || ((byte_at p 0 =? 192) && (byte_at p 1 =? 168))
  | None => Z.land (byte_at ip 0) 254 =? 252
  end.

(** ** [net.SplitHostPort] *)

Definition SplitHostPort (hp : bytes) : option (bytes * bytes) :=
  i ← last_index_byte ":" hp;
  '(host, j, k) ←
    (if bool_decide (head hp = Some "["%byte) then
       e ← index_byte "]" hp;
       if bool_decide (S e = i) then Some (take (e - 1) (drop 1 hp), 1%nat, S e) else None
     else
       let host := take i hp in
       if bool_decide (":"%byte ∈ host) then None else Some (host, 0%nat, 0%nat));
  if bool_decide ("["%byte ∈ drop j hp) then None
  else if bool_decide ("]"%byte ∈ drop k hp) then None
  else Some (host, drop (S i) hp).

(** ** Samples of the library's documented behaviour *)

Example ParseIP_v4 : ParseIP (go! "192.0.2.1") = Some (v4_prefix ++ [xc0; x00; x02; x01]).
Proof. vm_compute. reflexivity. Qed.
Example ParseIP_v4_leading_zero : ParseIP (go! "192.0.02.1") = None.
Proof. vm_compute. reflexivity. Qed.
Example ParseIP_v6 : ParseIP (go! "2001:db8::68") =
  Some ([x20; x01; x0d; xb8] ++ replicate 11 x00 ++ [x68]).
Proof. vm_compute. reflexivity. Qed.
Example ParseIP_v4in6 : ParseIP (go! "::ffff:192.0.2.1") = Some (v4_prefix ++ [xc0; x00; x02; x01]).
Proof. vm_compute. reflexivity. Qed.
Example ParseIP_zone : ParseIP (go! "fe80::1%eth0") = None.
Proof. vm_compute. reflexivity. Qed.
Example ParseIP_host : ParseIP (go! "matrix.org") = None.
Proof. vm_compute. reflexivity. Qed.
Example IP_String_v6 :
  IP_String ([x20; x01; x0d; xb8] ++ replicate 11 x00 ++ [x68]) = go! "2001:db8::68".
Proof. vm_compute. reflexivity. Qed.
Example IP_String_zero : IP_String (replicate 16 x00) = go! "::".
Proof. vm_compute. reflexivity. Qed.
Example SplitHostPort_v6 : SplitHostPort (go! "[2001:db8::1]:443") = Some (go! "2001:db8::1", go! "443").
Proof. vm_compute. reflexivity. Qed.
Example SplitHostPort_colons : SplitHostPort (go! "2001:db8::1:443") = None.
Proof. vm_compute. reflexivity. Qed.
