(* ===== verification/Padding.v ===== *)
(** * The padding ladder ([padSizes], [nextPadSize], [bumpProbability],
    [pickPadRung] of cmd/mxtr-server/main.go)

    [mrand.IntN(n)] is a raw draw reduced modulo [n]: every draw gives a legal
    result and every legal result has a draw. *)

From S2P Require Import Prelude.

Definition maxPlaintextSize : Z := 16384 - 2.
Definition maxPaddedSize : Z := 16384.
Definition maxCiphertextLen : Z := maxPaddedSize + 16.

Definition intN (n raw : Z) : Z := raw mod n.

Definition padSizes : list Z :=
  [256; 384; 512; 768; 1024; 1536; 2048; 3072; 4096; 6144; 8192; 12288; 16384].

(** The loop over the rungs: the first that fits, or the fall-through value. *)
Fixpoint first_fit (n dflt : Z) (rungs : list Z) : Z :=
  match rungs with
  | [] => dflt
  | s :: rest => if n <=? s then s else first_fit n dflt rest
  end.

Definition nextPadSize (n : Z) : Z := first_fit n (List.last padSizes 0) padSizes.

Definition bumpProbability (minSize : Z) : Z :=
  if minSize <? 1024 then 30
  else if minSize <? 4096 then 18
  else 8.

(** The loop that finds [base] and returns the rung above it. *)
Fixpoint rung_above (base : Z) (rungs : list Z) : Z :=
  match rungs with
  | s :: (s' :: _) as rest => if s =? base then s' else rung_above base rest
  | _ => base
  end.

Definition pickPadRung (raw minSize : Z) : Z :=
  let base := nextPadSize minSize in
  if bumpProbability minSize <=? intN 100 raw then base
  else rung_above base padSizes.

(** ** Properties *)

Lemma nextPadSize_in n : nextPadSize n ∈ padSizes.
Proof.
  unfold nextPadSize, padSizes. cbn.
  repeat (gcase; [set_solver |]). set_solver.
Qed.

Lemma first_fit_least n d rungs s :
  Sorted Z.lt rungs -> s ∈ rungs -> n <= s ->
  n <= first_fit n d rungs <= s.
Proof.
  intros Hs. apply Sorted_StronglySorted in Hs; [| intros ???; lia].
  induction Hs as [|x l Hs IH Hx]; intros Hin Hn; [by apply not_elem_of_nil in Hin |].
  cbn. rewrite Forall_forall in Hx. apply elem_of_cons in Hin as [-> | Hin]; gcase; try lia.
  - by specialize (Hx s Hin); lia.
  - by apply IH.
Qed.

Lemma padSizes_sorted : Sorted Z.lt padSizes.
Proof. repeat constructor. Qed.

(** The chosen rung is the least one that holds [n] bytes. *)
Lemma nextPadSize_least n s : s ∈ padSizes -> n <= s -> n <= nextPadSize n <= s.
Proof. intros. by apply first_fit_least; [apply padSizes_sorted | |]. Qed.

Lemma nextPadSize_fits n : n <= maxPaddedSize -> n <= nextPadSize n <= maxPaddedSize.
Proof. intros. apply nextPadSize_least; [unfold padSizes, maxPaddedSize; set_solver | done]. Qed.

(** The rung above: the next element of the ladder, itself only at the top. *)
Lemma rung_above_spec base :
  base ∈ padSizes ->
  rung_above base padSizes ∈ padSizes /\
  base <= rung_above base padSizes /\
  (rung_above base padSizes = base <-> base = maxPaddedSize) /\
  forall s, s ∈ padSizes -> base < s -> rung_above base padSizes <= s.
Proof.
  intros Hb. assert (Hall : Forall (fun b =>
    (rung_above b padSizes ∈ padSizes /\ b <= rung_above b padSizes /\
     (rung_above b padSizes = b <-> b = maxPaddedSize)) /\
    Forall (fun s => b < s -> rung_above b padSizes <= s) padSizes) padSizes).
  { unfold padSizes, maxPaddedSize. cbn.
    repeat constructor; cbn; try lia; set_solver by lia. }
  rewrite Forall_forall in Hall. destruct (Hall base Hb) as [(? & ? & ?) Hf].
  rewrite Forall_forall in Hf. split_and!; auto.
Qed.

Lemma pickPadRung_in raw n : pickPadRung raw n ∈ padSizes.
Proof.
  unfold pickPadRung. gcase; [apply nextPadSize_in |].
  by apply rung_above_spec, nextPadSize_in.
Qed.

Lemma padSizes_bounds s : s ∈ padSizes -> 256 <= s <= maxPaddedSize.
Proof.
  assert (H : Forall (fun s => 256 <= s <= maxPaddedSize) padSizes)
    by (unfold padSizes, maxPaddedSize; repeat constructor; lia).
  rewrite Forall_forall in H. apply H.
Qed.

Lemma pickPadRung_bounds raw n :
  n <= maxPaddedSize -> n <= pickPadRung raw n <= maxPaddedSize.
Proof.
  intros Hn. pose proof (nextPadSize_fits n Hn).
  split; [| apply padSizes_bounds, pickPadRung_in].
  unfold pickPadRung. gcase; [lia |].
  pose proof (rung_above_spec (nextPadSize n) (nextPadSize_in n)). lia.
Qed.

#[export] Hint Resolve nextPadSize_in pickPadRung_in : mxtr.

(** How many of the 100 draws move a frame of [n] bytes off its own rung. *)
Definition bumping_draws (n : Z) : list Z :=
  filter (fun r => pickPadRung r n <> nextPadSize n) (seqZ 0 100).

Lemma pickPadRung_bumps r n :
  0 <= r < 100 ->
  pickPadRung r n <> nextPadSize n <->
  r < bumpProbability n /\ nextPadSize n <> maxPaddedSize.
Proof.
  intros Hr. unfold pickPadRung, intN. rewrite Z.mod_small by done.
  pose proof (rung_above_spec (nextPadSize n) (nextPadSize_in n)) as (_ & _ & Htop & _).
  gcase; [split; [done | lia] |]. rewrite Htop. split; [by split | by intros []].
Qed.

Lemma bumpProbability_cases n :
  bumpProbability n = 30 \/ bumpProbability n = 18 \/ bumpProbability n = 8.
Proof. unfold bumpProbability. repeat gcase; auto. Qed.

(** Out of the 100 equally likely draws, exactly [bumpProbability n] move the
    frame one rung up, unless it already sits on the top rung. *)
Lemma bumping_draws_count n :
  len (bumping_draws n) =
    if nextPadSize n =? maxPaddedSize then 0 else bumpProbability n.
Proof.
  unfold bumping_draws.
  assert (E : filter (fun r => pickPadRung r n <> nextPadSize n) (seqZ 0 100) =
              filter (fun r => r < bumpProbability n /\ nextPadSize n <> maxPaddedSize) (seqZ 0 100)).
  { apply list_filter_ext_in. intros r Hr%elem_of_seqZ. apply pickPadRung_bumps. lia. }
  rewrite E. gcase.
  - rewrite (list_filter_ext_in _ (fun _ => False)); [done |]. intros. lia.
  - rewrite (list_filter_ext_in _ (fun r => r < bumpProbability n)) by (intros; tauto).
    destruct (bumpProbability_cases n) as [-> | [-> | ->]]; done.
Qed.
