(* ===== verification/Frame.v ===== *)
(** * AEAD frames ([frameNonce], the buffer pools, [writeFrame], [readFrame]
    of cmd/mxtr-server/main.go)

    A frame on the wire is a 2-byte length and a ciphertext; the plaintext
    under it is a 2-byte real length, the payload and random padding up to a
    rung of the ladder. *)

From S2P Require Import Prelude GoIO Crypto Padding.

(** ** Definitions *)

(** [var n [12]byte; PutUint64(n[4:], seq)]. *)
Definition frameNonce (seq : Z) : bytes := zeros 4 ++ be_put 8 seq.

(** [sync.Pool] per ladder rung. [Get] hands out any buffer that was put
    back, or a fresh one: [pick] is that choice. Buffers come back with
    whatever they last held. *)
Record pools := Pools {
  innerPools : gmap Z (list bytes);
  ctPools : gmap Z (list bytes);
}.

Definition fresh_pools : pools := {|
  innerPools := list_to_map ((fun sz => (sz, [])) <$> padSizes);
  ctPools := list_to_map ((fun sz => (sz + 16, [])) <$> padSizes);
|}.

Definition pool_get (m : gmap Z (list bytes)) (size : Z) (pick : option nat)
  : bytes * gmap Z (list bytes) :=
  match m !! size with
  | None => (zeros size, m)
  | Some items =>
      match pick with
      | None => (zeros size, m)
      | Some i =>
          match items !! i with
          | None => (zeros size, m)
          | Some b => (b, <[size := delete i items]> m)
          end
      end
  end.

Definition pool_put (m : gmap Z (list bytes)) (buf : bytes) : gmap Z (list bytes) :=
  match m !! len buf with
  | Some items => <[len buf := buf :: items]> m
  | None => m
  end.

Definition getInnerBuf (size : Z) (pick : option nat) (ps : pools) : bytes * pools :=
  let '(b, m) := pool_get (innerPools ps) size pick in (b, Pools m (ctPools ps)).
Definition putInnerBuf (buf : bytes) (ps : pools) : pools :=
  Pools (pool_put (innerPools ps) buf) (ctPools ps).
Definition getCtBuf (size : Z) (pick : option nat) (ps : pools) : bytes * pools :=
  let '(b, m) := pool_get (ctPools ps) size pick in (b, Pools (innerPools ps) m).
Definition putCtBuf (buf : bytes) (ps : pools) : pools :=
  Pools (innerPools ps) (pool_put (ctPools ps) buf).

(** [copy(dst[off:], src)]. *)
Definition copy_at (off : Z) (src dst : bytes) : bytes :=
  let n := Z.to_nat (Z.min (len src) (len dst - off)) in
  take (Z.to_nat off) dst ++ take n src ++ drop (Z.to_nat off + n) dst.

(** The bytes a [rand.Read] of [n] bytes delivers from source [f]. *)
Definition rand_bytes (f : nat -> byte) (n : Z) : bytes := f <$> seq 0 (Z.to_nat n).

(** Everything [writeFrame] does not determine: the padding draw, the random
    source ([None]: the source fails), and which pooled buffers it gets. *)
Record wf_oracle := WfOracle {
  roll : Z;
  entropy : option (nat -> byte);
  pick_inner : option nat;
  pick_ct : option nat;
}.

Inductive frame_err :=
  | TooLarge (n : Z)
  | RandFailed
  | FrameIO (e : ioerr)
  | BadCipherLen (n : Z)
  | DecryptFailed (seq : Z)
  | MissingPrefix
  | BadRealLen (realLen avail : Z).

Record wstate := WState { ws_pools : pools; ws_conn : writer }.

Definition writeFrame (a : aead) (o : wf_oracle) (seq : Z) (pt : bytes)
  : io wstate frame_err unit := fun st =>
  if maxPlaintextSize <? len pt then (Err (TooLarge (len pt)), st) else
  let innerSize := pickPadRung (roll o) (len pt + 2) in
  let '(inner0, ps1) := getInnerBuf innerSize (pick_inner o) (ws_pools st) in
  let inner1 := copy_at 0 (be_put 2 (len pt)) inner0 in
  let inner2 := copy_at 2 pt inner1 in
  match entropy o with
  | None => (Err RandFailed, WState (putInnerBuf inner2 ps1) (ws_conn st))
  | Some f =>
      let inner := copy_at (2 + len pt) (rand_bytes f (len inner2 - (2 + len pt))) inner2 in
      let '(ctbuf, ps2) := getCtBuf (innerSize + 16) (pick_ct o) ps1 in
      (* Seal appends into ctbuf[:0]; the buffer then holds the ciphertext *)
      let ct := seal a (frameNonce seq) inner in
      let ps3 := putInnerBuf inner (putCtBuf ct ps2) in
      match write (be_put 2 (len ct)) (ws_conn st) with
      | (Ok _, c1) =>
          match write ct c1 with
          | (Ok _, c2) => (Ok tt, WState ps3 c2)
          | (Err e, c2) => (Err (FrameIO e), WState ps3 c2)
          | (Panic, c2) => (Panic, WState ps3 c2)
          end
      | (Err e, c1) => (Err (FrameIO e), WState ps3 c1)
      | (Panic, c1) => (Panic, WState ps3 c1)
      end
  end.

Definition readFrame (a : aead) (seq : Z) : io reader frame_err bytes :=
  lenBuf ← map_err (fun e => FrameIO e.1) (readFull 2);
  let clen := be_get lenBuf in
  _ ← lift (fail_if ((clen =? 0) || (maxCiphertextLen <? clen)) (BadCipherLen clen));
  ct ← map_err (fun e => FrameIO e.1) (readFull clen);
  inner ← lift (match open a (frameNonce seq) ct with
                | Some p => Ok p
                | None => Err (DecryptFailed seq)
                end);
  _ ← lift (fail_if (len inner <? 2) MissingPrefix);
  pre ← lift (must (slice 0 2 inner));
  let realLen := be_get pre in
  _ ← lift (fail_if (len inner - 2 <? realLen) (BadRealLen realLen (len inner - 2)));
  lift (must (slice 2 (2 + realLen) inner)).

(** ** The frame as a pure function of what matters

    The wire image of one frame: no pool, no buffer. *)

Definition inner_frame (f : nat -> byte) (size : Z) (pt : bytes) : bytes :=
  be_put 2 (len pt) ++ pt ++ rand_bytes f (size - (2 + len pt)).

Definition frame_wire (a : aead) (seq : Z) (f : nat -> byte) (size : Z) (pt : bytes) : bytes :=
  let ct := seal a (frameNonce seq) (inner_frame f size pt) in
  be_put 2 (len ct) ++ ct.

(** ** Nonces *)

Lemma len_frameNonce s : len (frameNonce s) = 12.
Proof. unfold frameNonce, zeros. zlen. Qed.
#[export] Hint Rewrite len_frameNonce : golen.

Lemma frameNonce_inj s1 s2 :
  0 <= s1 < 2 ^ 64 -> 0 <= s2 < 2 ^ 64 -> frameNonce s1 = frameNonce s2 -> s1 = s2.
Proof. intros ?? H%app_inv_head. by apply be_put_inj in H. Qed.

(** ** Buffer lemmas *)

Lemma len_copy_at off src dst :
  0 <= off <= len dst -> len (copy_at off src dst) = len dst.
Proof. intros. unfold copy_at. zlen. Qed.

Lemma copy_at_full off src dst :
  len src + off = len dst -> 0 <= off ->
  copy_at off src dst = take (Z.to_nat off) dst ++ src.
Proof.
  intros. unfold copy_at. rewrite Z.min_l by lia. unfold len in *.
  rewrite (take_ge src), drop_ge by lia. by rewrite app_nil_r.
Qed.

Lemma take_copy_at off src dst :
  0 <= off -> off + len src <= len dst ->
  take (Z.to_nat (off + len src)) (copy_at off src dst) = take (Z.to_nat off) dst ++ src.
Proof.
  intros. unfold copy_at. rewrite Z.min_l by lia. unfold len in *.
  rewrite app_assoc, take_app_length' by (rewrite length_app, !length_take; lia).
  by rewrite (take_ge src) by lia.
Qed.

Lemma len_rand_bytes f n : 0 <= n -> len (rand_bytes f n) = n.
Proof. intros. unfold rand_bytes. rewrite len_fmap. unfold len. rewrite length_seq. lia. Qed.

Lemma len_inner_frame f size pt :
  len pt + 2 <= size -> len (inner_frame f size pt) = size.
Proof. intros. unfold inner_frame. zlen. rewrite len_rand_bytes by lia. lia. Qed.

(** Whatever the pooled buffer held, filling it gives the inner frame. *)
Lemma fill_buffer f pt buf :
  len pt + 2 <= len buf ->
  let b2 := copy_at 2 pt (copy_at 0 (be_put 2 (len pt)) buf) in
  copy_at (2 + len pt) (rand_bytes f (len b2 - (2 + len pt))) b2 =
  inner_frame f (len buf) pt.
Proof.
  intros Hl b2.
  assert (Hb : len b2 = len buf)
    by (unfold b2; rewrite len_copy_at; rewrite len_copy_at; zlen).
  rewrite copy_at_full; [| rewrite len_rand_bytes; zlen | zlen].
  rewrite Hb. unfold inner_frame. rewrite app_assoc. f_equal.
  unfold b2. rewrite take_copy_at; [| lia | rewrite len_copy_at; zlen].
  f_equal. apply (take_copy_at 0 (be_put 2 (len pt)) buf); zlen.
Qed.

(** ** Pools *)

(** Every pooled buffer has the size of its pool. *)
Definition pool_ok (m : gmap Z (list bytes)) : Prop :=
  map_Forall (fun size items => Forall (fun b => len b = size) items) m.
Definition pools_ok (ps : pools) : Prop :=
  pool_ok (innerPools ps) /\ pool_ok (ctPools ps).

Lemma pool_get_ok m size pick :
  pool_ok m -> 0 <= size ->
  len (pool_get m size pick).1 = size /\ pool_ok (pool_get m size pick).2.
Proof.
  intros Hm Hs. unfold pool_get.
  destruct (m !! size) as [items|] eqn:E; [| split; [by apply len_zeros | done]].
  destruct pick as [i|]; [| split; [by apply len_zeros | done]].
  destruct (items !! i) as [b|] eqn:Ei; [| split; [by apply len_zeros | done]].
  pose proof (Hm _ _ E) as Hi. cbn in Hi. split; cbn.
  - by apply (Forall_lookup_1 _ _ _ _ Hi Ei).
  - apply map_Forall_insert_2; [| done].
    rewrite Forall_forall in Hi |- *. intros x Hx. apply Hi.
    rewrite list_elem_of_lookup in *. destruct Hx as [j Hx].
    rewrite list_lookup_delete in Hx. case_decide; eauto.
Qed.

Lemma pool_put_ok m buf : pool_ok m -> pool_ok (pool_put m buf).
Proof.
  intros Hm. unfold pool_put. destruct (m !! len buf) as [items|] eqn:E; [| done].
  apply map_Forall_insert_2; [| done]. constructor; [done |]. by apply (Hm _ _ E).
Qed.

Lemma fresh_pools_ok : pools_ok fresh_pools.
Proof.
  split; intros k items H; cbn [fresh_pools innerPools ctPools] in H;
    apply elem_of_list_to_map_2, list_elem_of_fmap in H as (s & E & _);
    by simplify_eq.
Qed.

#[export] Hint Resolve pool_put_ok fresh_pools_ok : mxtr.

(** ** [writeFrame] *)

Section WriteFrame.
Context (a : aead).

(** All the outcomes of [writeFrame] on well-formed pools: the pools stay
    well formed and the bytes offered to the connection are [frame_wire],
    whatever buffers the pools handed out. *)
Lemma writeFrame_cases o s pt st :
  pools_ok (ws_pools st) ->
  exists ps, pools_ok ps /\
  writeFrame a o s pt st =
    if maxPlaintextSize <? len pt then (Err (TooLarge (len pt)), st)
    else match entropy o with
    | None => (Err RandFailed, WState ps (ws_conn st))
    | Some f =>
        let wire := frame_wire a s f (pickPadRung (roll o) (len pt + 2)) pt in
        match write (take 2 wire) (ws_conn st) with
        | (Ok _, c1) =>
            match write (drop 2 wire) c1 with
            | (Ok _, c2) => (Ok tt, WState ps c2)
            | (Err e, c2) => (Err (FrameIO e), WState ps c2)
            | (Panic, c2) => (Panic, WState ps c2)
            end
        | (Err e, c1) => (Err (FrameIO e), WState ps c1)
        | (Panic, c1) => (Panic, WState ps c1)
        end
    end.
Proof.
  intros [Hi Hc]. unfold writeFrame.
  destruct (maxPlaintextSize <? len pt) eqn:Elen; bool_facts.
  { exists (ws_pools st). by split. }
  set (size := pickPadRung (roll o) (len pt + 2)).
  assert (Hsize : len pt + 2 <= size).
  { apply pickPadRung_bounds. unfold maxPlaintextSize, maxPaddedSize in *. lia. }
  pose proof (len_nonneg pt).
  unfold getInnerBuf, getCtBuf, putInnerBuf, putCtBuf.
  destruct (pool_get (innerPools (ws_pools st)) size (pick_inner o)) as [b0 m] eqn:Eg.
  pose proof (pool_get_ok _ size (pick_inner o) Hi ltac:(lia)) as [Hb Hm].
  rewrite Eg in Hb, Hm. cbn in Hb, Hm. cbn [innerPools ctPools].
  destruct (entropy o) as [f|]; [| eexists; split; [| done]; split; cbn; auto with mxtr].
  rewrite fill_buffer by lia. rewrite Hb.
  destruct (pool_get (ctPools (ws_pools st)) (size + 16) (pick_ct o)) as [b1 m'] eqn:Ec.
  pose proof (pool_get_ok _ (size + 16) (pick_ct o) Hc ltac:(lia)) as [_ Hm'].
  rewrite Ec in Hm'. cbn in Hm'. unfold frame_wire. cbn zeta.
  eexists. split; [| reflexivity]. split; cbn; auto with mxtr.
Qed.

(** On a connection that takes every byte the frame goes out whole. *)
Lemma writeFrame_healthy o s pt st f :
  pools_ok (ws_pools st) -> w_room (ws_conn st) = None ->
  entropy o = Some f -> len pt <= maxPlaintextSize ->
  exists ps, pools_ok ps /\
  writeFrame a o s pt st =
    (Ok tt, WState ps (Writer (w_out (ws_conn st) ++
       frame_wire a s f (pickPadRung (roll o) (len pt + 2)) pt) None)).
Proof.
  intros Hp Hr Hf Hl. destruct (writeFrame_cases o s pt st Hp) as (ps & Hps & ->).
  exists ps. split; [done |].
  rewrite (proj2 (Z.ltb_ge _ _)) by lia. rewrite Hf. cbn zeta.
  destruct st as [ps0 [out room]]. cbn in Hr. subst room. unfold write. cbn [ws_conn w_room w_out].
  by rewrite <-app_assoc, take_drop.
Qed.
End WriteFrame.

(** ** [readFrame] *)

Section ReadFrame.
Context (a : aead).

#[export] Instance seg_readFrame s : SegIndep (readFrame a s).
Proof. unfold readFrame. apply _. Qed.

(** One frame's worth of input: what [readFrame] makes of a ciphertext. *)
Definition open_inner (s : Z) (ct : bytes) : res frame_err bytes :=
  match open a (frameNonce s) ct with
  | None => Err (DecryptFailed s)
  | Some inner =>
      if len inner <? 2 then Err MissingPrefix
      else
        let realLen := be_get (take 2 inner) in
        if len inner - 2 <? realLen then Err (BadRealLen realLen (len inner - 2))
        else Ok (take (Z.to_nat realLen) (drop 2 inner))
  end.

(** [readFrame] by cases on the bytes to come. *)
Lemma readFrame_cases s r :
  (readFrame a s r).1 =
  let d := rd_data r in
  if len d <? 2 then Err (FrameIO (readFull_err (rd_end r) d))
  else
    let clen := be_get (take 2 d) in
    if (clen =? 0) || (maxCiphertextLen <? clen) then Err (BadCipherLen clen)
    else if len (drop 2 d) <? clen then Err (FrameIO (readFull_err (rd_end r) (drop 2 d)))
    else open_inner s (take (Z.to_nat clen) (drop 2 d)).
Proof.
  cbn zeta. unfold readFrame, mbind, io_bind, map_err.
  destruct (len (rd_data r) <? 2) eqn:E1; bool_facts.
  { destruct (readFull_short 2 r E1) as [r' ->]. done. }
  destruct (readFull_spec 2 r ltac:(lia)) as (r1 & He1 & Hd1 & ->).
  rewrite (proj2 (Z.leb_le _ _)) by lia. change (Z.to_nat 2) with 2%nat in *.
  unfold lift, fail_if. destruct ((be_get _ =? 0) || _); [done |].
  set (clen := be_get (take 2 (rd_data r))). pose proof (be_get_nonneg (take 2 (rd_data r))).
  destruct (readFull_spec clen r1 ltac:(lia)) as (r2 & He2 & Hd2 & ->).
  rewrite Hd1, He1. destruct (len (drop 2 (rd_data r)) <? clen) eqn:E2; bool_facts.
  { by rewrite (proj2 (Z.leb_gt _ _)) by lia. }
  rewrite (proj2 (Z.leb_le _ _)) by lia. unfold open_inner.
  destruct (open a _ _) as [inner|]; [| done].
  destruct (len inner <? 2) eqn:E3; bool_facts; [done |].
  rewrite slice_Some by zlen. cbn [must]. rewrite drop_0.
  change (Z.to_nat (2 - 0)) with 2%nat. pose proof (be_get_nonneg (take 2 inner)).
  destruct (_ - 2 <? be_get _) eqn:E4; bool_facts; [done |].
  rewrite slice_Some by zlen. cbn [must fst]. do 3 f_equal. lia.
Qed.

Lemma open_inner_no_panic s ct : open_inner s ct <> Panic.
Proof. unfold open_inner. repeat gcase; done. Qed.

Lemma readFrame_never_panics s r : (readFrame a s r).1 <> Panic.
Proof.
  rewrite readFrame_cases. cbn zeta.
  repeat (gcase; [done |]). apply open_inner_no_panic.
Qed.

(** What is left after a successful read. *)
Lemma readFrame_rest s r pt r' :
  readFrame a s r = (Ok pt, r') ->
  rd_end r' = rd_end r /\
  rd_data r' = drop (Z.to_nat (2 + be_get (take 2 (rd_data r)))) (rd_data r).
Proof.
  unfold readFrame, mbind, io_bind, map_err, lift. intros Hrd.
  destruct (readFull_spec 2 r ltac:(lia)) as (r1 & He1 & Hd1 & E). rewrite E in Hrd. clear E.
  destruct (2 <=? _); [| done]. change (Z.to_nat 2) with 2%nat in *.
  unfold fail_if in Hrd. destruct ((be_get _ =? 0) || _); [done |].
  set (clen := be_get (take 2 (rd_data r))) in *. pose proof (be_get_nonneg (take 2 (rd_data r))).
  destruct (readFull_spec clen r1 ltac:(lia)) as (r2 & He2 & Hd2 & E). rewrite E in Hrd. clear E.
  destruct (clen <=? _); [| done].
  destruct (open a _ _) as [inner|]; [| done].
  destruct (len inner <? 2); [done |].
  destruct (must (slice 0 2 inner)); [| done..].
  destruct (_ <? _); [done |].
  destruct (must (slice 2 _ inner)); simplify_eq.
  split; [congruence |]. rewrite Hd2, Hd1, drop_drop. f_equal. lia.
Qed.
End ReadFrame.

#[export] Hint Resolve open_inner_no_panic : mxtr.

(** ** Round trip, acceptance and replay *)

Section FrameTheorems.
Context (a : aead) {AL : AeadLaws a}.

Lemma open_inner_seal s pt pad :
  len pt <= maxPlaintextSize ->
  open_inner a s (seal a (frameNonce s) (be_put 2 (len pt) ++ pt ++ pad)) = Ok pt.
Proof.
  intros Hl. unfold maxPlaintextSize in Hl. unfold open_inner. rewrite open_seal.
  rewrite (proj2 (Z.ltb_ge _ _)) by zlen.
  rewrite take_app_length', drop_app_length' by (by rewrite length_be_put).
  rewrite be_get_put_small by zlen.
  rewrite (proj2 (Z.ltb_ge _ _)) by zlen.
  rewrite take_app_length'; [done | unfold len; lia].
Qed.

Lemma open_inner_Ok s ct pt :
  open_inner a s ct = Ok pt ->
  exists pad, ct = seal a (frameNonce s) (be_put 2 (len pt) ++ pt ++ pad).
Proof.
  unfold open_inner. destruct (open a _ ct) as [inner|] eqn:Eo; [| done].
  apply open_inv in Eo. cbn zeta. gcase; [done |].
  gcase; [done |]. intros [= <-].
  set (n := be_get (take 2 inner)) in *. pose proof (be_get_nonneg (take 2 inner)) as Hn.
  fold n in Hn. exists (drop (Z.to_nat n) (drop 2 inner)).
  rewrite take_drop. rewrite Eo. do 2 f_equal.
  rewrite len_take, Z2Nat.id, Z.min_l by (rewrite ?len_drop; lia).
  rewrite <-(take_drop 2 inner) at 1. f_equal.
  unfold n. rewrite <-(be_put_get (take 2 inner)) at 1. f_equal.
  unfold len in *. rewrite length_take. lia.
Qed.

Lemma len_frame_ct s f raw pt :
  len pt <= maxPlaintextSize ->
  len (seal a (frameNonce s) (inner_frame f (pickPadRung raw (len pt + 2)) pt)) =
    pickPadRung raw (len pt + 2) + 16.
Proof.
  intros. rewrite seal_len, len_inner_frame; [done |].
  apply pickPadRung_bounds. unfold maxPlaintextSize, maxPaddedSize in *. lia.
Qed.

(** A well-sized ciphertext at the head of the connection is what
    [readFrame] opens. *)
Lemma readFrame_at s r ct rest :
  rd_data r = be_put 2 (len ct) ++ ct ++ rest ->
  0 < len ct <= maxCiphertextLen ->
  (readFrame a s r).1 = open_inner a s ct.
Proof.
  intros Hd Hl. unfold maxCiphertextLen, maxPaddedSize in Hl.
  rewrite readFrame_cases, Hd. cbn zeta.
  rewrite (proj2 (Z.ltb_ge _ _)) by zlen.
  rewrite take_app_length', drop_app_length' by (by rewrite length_be_put).
  rewrite be_get_put_small by lia.
  rewrite (proj2 (Z.eqb_neq _ _)) by lia. unfold maxCiphertextLen, maxPaddedSize.
  rewrite (proj2 (Z.ltb_ge _ _)) by lia. cbn [orb].
  rewrite (proj2 (Z.ltb_ge _ _)) by zlen.
  rewrite take_app_length'; [done | unfold len; lia].
Qed.

Lemma readFrame_at_rest s r ct rest pt :
  rd_data r = be_put 2 (len ct) ++ ct ++ rest ->
  0 < len ct <= maxCiphertextLen -> open_inner a s ct = Ok pt ->
  exists r', readFrame a s r = (Ok pt, r') /\ rd_data r' = rest /\ rd_end r' = rd_end r.
Proof.
  intros Hd Hl Ho. pose proof (readFrame_at s r ct rest Hd Hl) as E. rewrite Ho in E.
  destruct (readFrame a s r) as [x r'] eqn:Er. cbn in E. subst x. exists r'. split; [done |].
  apply readFrame_rest in Er as [He Hr]. split; [| done].
  rewrite Hr, Hd, take_app_length' by (by rewrite length_be_put).
  unfold maxCiphertextLen, maxPaddedSize in Hl.
  rewrite be_get_put_small by lia.
  rewrite app_assoc, drop_app_length'; [done |].
  rewrite length_app, length_be_put. unfold len. lia.
Qed.

Lemma readFrame_wire s f raw pt r rest :
  len pt <= maxPlaintextSize ->
  rd_data r = frame_wire a s f (pickPadRung raw (len pt + 2)) pt ++ rest ->
  exists r', readFrame a s r = (Ok pt, r') /\ rd_data r' = rest /\ rd_end r' = rd_end r.
Proof.
  intros Hl Hd. unfold frame_wire in Hd. cbn zeta in Hd. rewrite <-app_assoc in Hd.
  eapply readFrame_at_rest; [apply Hd | | by apply open_inner_seal].
  rewrite len_frame_ct by done.
  pose proof (padSizes_bounds _ (pickPadRung_in raw (len pt + 2))).
  unfold maxCiphertextLen. lia.
Qed.

(** [C28] Round trip: a frame written by [writeFrame] on a healthy connection
    is read back by [readFrame] at the same sequence number, exactly, with
    whatever follows left unread, however the transport cuts the bytes. *)
Theorem frame_roundtrip o s pt st segs rest e :
  pools_ok (ws_pools st) ->
  ws_conn st = Writer [] None ->
  is_Some (entropy o) ->
  len pt <= maxPlaintextSize ->
  concat segs = w_out (ws_conn (writeFrame a o s pt st).2) ++ rest ->
  (writeFrame a o s pt st).1 = Ok tt /\
  exists r', readFrame a s (Reader segs e) = (Ok pt, r') /\ rd_data r' = rest.
Proof.
  intros Hp Hc [f Hf] Hl.
  destruct (writeFrame_healthy a o s pt st f) as (ps & _ & ->); [done | by rewrite Hc | done | done |].
  rewrite Hc. cbn [fst snd ws_conn w_out app]. intros Hs. split; [done |].
  destruct (readFrame_wire s f (roll o) pt (Reader segs e) rest) as (r' & ? & ? & _); eauto.
Qed.

(** What [readFrame] returns fits in a frame. *)
Lemma readFrame_len s r pt : (readFrame a s r).1 = Ok pt -> len pt <= maxPlaintextSize.
Proof.
  rewrite readFrame_cases. cbn zeta. set (d := rd_data r). do 3 (gcase; [done |]). bool_facts.
  unfold open_inner. destruct (open a _ _) as [inner|] eqn:Eo; [| done]. apply open_len in Eo; [| done].
  repeat (gcase; [done |]). intros [= <-]. bool_facts.
  unfold maxPlaintextSize, maxCiphertextLen, maxPaddedSize in *.
  pose proof (be_get_nonneg (take 2 inner)). zlen.
Qed.

(** [C34] Acceptance: [readFrame] at sequence number [s] returns a plaintext
    exactly when the connection starts with a length-prefixed ciphertext
    sealed under the nonce of [s] around that plaintext; nothing else is
    accepted. *)
Theorem readFrame_accepts_iff s r pt :
  (readFrame a s r).1 = Ok pt <->
  exists pad rest,
    let ct := seal a (frameNonce s) (be_put 2 (len pt) ++ pt ++ pad) in
    rd_data r = be_put 2 (len ct) ++ ct ++ rest /\ len ct <= maxCiphertextLen.
Proof.
  split.
  - rewrite readFrame_cases. cbn zeta. set (d := rd_data r).
    do 3 (gcase; [done |]).
    intros [pad Hct]%open_inner_Ok. bool_facts. set (n := be_get (take 2 d)) in *.
    exists pad, (drop (Z.to_nat n) (drop 2 d)). rewrite <-Hct. pose proof (be_get_nonneg (take 2 d)) as Hn.
    fold n in Hn. rewrite len_take, Z2Nat.id, Z.min_l by zlen. split; [| done].
    rewrite take_drop. rewrite <-(take_drop 2 d) at 1. f_equal. unfold n.
    rewrite <-(be_put_get (take 2 d)) at 1. f_equal. unfold len in *. rewrite length_take. lia.
  - intros (pad & rest & Hd & Hl). rewrite (readFrame_at _ _ _ _ Hd).
    + apply open_inner_seal. rewrite seal_len in Hl.
      unfold maxCiphertextLen, maxPaddedSize, maxPlaintextSize in *. zlen.
    + rewrite seal_len in *. zlen.
Qed.

(** Replay and reordering: a frame sealed at one sequence number is
    refused at every other one, for all 64-bit sequence numbers. *)
Theorem readFrame_rejects_other_seq `{!NonceBinding a} s s' f raw pt r rest :
  0 <= s < 2 ^ 64 -> 0 <= s' < 2 ^ 64 -> s <> s' ->
  len pt <= maxPlaintextSize ->
  rd_data r = frame_wire a s f (pickPadRung raw (len pt + 2)) pt ++ rest ->
  (readFrame a s' r).1 = Err (DecryptFailed s').
Proof.
  intros Hs Hs' Hne Hl Hd. unfold frame_wire in Hd. cbn zeta in Hd. rewrite <-app_assoc in Hd.
  rewrite (readFrame_at _ _ _ _ Hd).
  - unfold open_inner. rewrite nonce_binding; [done | zlen | zlen |].
    intros E. by apply Hne, frameNonce_inj.
  - rewrite len_frame_ct by done.
    pose proof (padSizes_bounds _ (pickPadRung_in raw (len pt + 2))).
    unfold maxCiphertextLen. lia.
Qed.

(** Frame sizes on the wire: every frame [writeFrame] puts on a healthy
    connection is one of thirteen sizes, a rung plus the tag and the length
    field, whatever the payload. *)
Theorem writeFrame_wire_sizes o s pt st :
  pools_ok (ws_pools st) -> w_room (ws_conn st) = None -> is_Some (entropy o) ->
  len pt <= maxPlaintextSize ->
  exists rung, rung ∈ padSizes /\ len pt + 2 <= rung /\
    len (w_out (ws_conn (writeFrame a o s pt st).2)) =
      len (w_out (ws_conn st)) + 2 + rung + 16.
Proof.
  intros Hp Hr [f Hf] Hl.
  destruct (writeFrame_healthy a o s pt st f) as (ps & _ & ->); [done..|].
  exists (pickPadRung (roll o) (len pt + 2)). split; [auto with mxtr |].
  split; [apply pickPadRung_bounds; unfold maxPlaintextSize, maxPaddedSize in *; lia |].
  cbn [snd ws_conn w_out]. unfold frame_wire. cbn zeta.
  rewrite !len_app, len_be_put, len_frame_ct by done. lia.
Qed.
End FrameTheorems.

(** Pooled buffers never leak: what [writeFrame] returns and puts on the
    connection does not depend on which recycled buffers it is handed, nor on
    what they held. *)
Theorem writeFrame_pool_independent a o1 o2 s pt st1 st2 :
  pools_ok (ws_pools st1) -> pools_ok (ws_pools st2) ->
  ws_conn st1 = ws_conn st2 -> roll o1 = roll o2 -> entropy o1 = entropy o2 ->
  (writeFrame a o1 s pt st1).1 = (writeFrame a o2 s pt st2).1 /\
  ws_conn (writeFrame a o1 s pt st1).2 = ws_conn (writeFrame a o2 s pt st2).2.
Proof.
  intros H1 H2 Hc Hr He.
  destruct (writeFrame_cases a o1 s pt st1 H1) as (ps1 & _ & ->).
  destruct (writeFrame_cases a o2 s pt st2 H2) as (ps2 & _ & ->).
  rewrite Hc, Hr, He. cbn zeta. by repeat gcase.
Qed.

(** [readFrame] is total on hostile input: for every AEAD, sequence number
    and byte stream it returns a payload or an error, never an out-of-range
    slice, and the outcome depends only on the bytes, not on how the transport
    cuts them into reads. *)
Theorem readFrame_total_and_segment_independent a s r1 r2 :
  (readFrame a s r1).1 <> Panic /\
  (r1 ≡ r2 -> same_outcome (readFrame a s r1) (readFrame a s r2)).
Proof. split; [apply readFrame_never_panics | apply seg_readFrame]. Qed.

(** ** The theorems at concrete inputs *)

Module FrameWitness.
Definition key : aead := Toy.toy_aead (go! "session key").
#[export] Instance key_laws : AeadLaws key := Toy.toy_aead_laws _.
#[export] Instance key_binding : NonceBinding key := Toy.toy_binding _.
Definition oracle : wf_oracle := {|
  roll := 7; entropy := Some (fun i => z2b (Z.of_nat i * 37));
  pick_inner := Some 0%nat; pick_ct := None |}.
(** Pools that already hold a used inner buffer and a used ciphertext. *)
Definition dirty_pools : pools :=
  putInnerBuf (replicate 384 x41) (putCtBuf (replicate 400 x42) fresh_pools).
Lemma dirty_pools_ok : pools_ok dirty_pools.
Proof. split; cbn; apply pool_put_ok; apply fresh_pools_ok. Qed.
Definition start (ps : pools) : wstate := WState ps (Writer [] None).
Definition hello : bytes := go! "hello".
Definition wire : bytes := w_out (ws_conn (writeFrame key oracle 3 hello (start dirty_pools)).2).
End FrameWitness.
Import FrameWitness.

Lemma frame_roundtrip_witness :
  (writeFrame key oracle 3 hello (start dirty_pools)).1 = Ok tt /\
  exists r', readFrame key 3 (Reader [take 1 wire; []; drop 1 wire ++ [x01; x02]] EOF) = (Ok hello, r')
             /\ rd_data r' = [x01; x02].
Proof.
  apply (frame_roundtrip key oracle 3 hello (start dirty_pools)).
  - apply dirty_pools_ok.
  - reflexivity.
  - eexists; reflexivity.
  - vm_compute. discriminate.
  - vm_compute. reflexivity.
Defined.

Lemma readFrame_accepts_iff_witness :
  (readFrame key 3 (Reader [wire; [x01]] EOF)).1 = Ok hello /\
  exists pad rest,
    let ct := seal key (frameNonce 3) (be_put 2 (len hello) ++ hello ++ pad) in
    rd_data (Reader [wire; [x01]] EOF) = be_put 2 (len ct) ++ ct ++ rest /\ len ct <= maxCiphertextLen.
Proof.
  assert (H : (readFrame key 3 (Reader [wire; [x01]] EOF)).1 = Ok hello) by (vm_compute; reflexivity).
  split; [exact H |]. apply (readFrame_accepts_iff key 3 (Reader [wire; [x01]] EOF) hello). exact H.
Defined.

Lemma readFrame_rejects_other_seq_witness :
  (readFrame key 4 (Reader [wire] EOF)).1 = Err (DecryptFailed 4).
Proof.
  apply (readFrame_rejects_other_seq key 3 4 (fun i => z2b (Z.of_nat i * 37)) 7 hello
           (Reader [wire] EOF) []); try lia.
  - vm_compute. discriminate.
  - vm_compute. reflexivity.
Defined.

Lemma writeFrame_wire_sizes_witness :
  exists rung, rung ∈ padSizes /\ len hello + 2 <= rung /\
    len (w_out (ws_conn (writeFrame key oracle 3 hello (start dirty_pools)).2)) =
      len (w_out (ws_conn (start dirty_pools))) + 2 + rung + 16.
Proof.
  apply (writeFrame_wire_sizes key oracle 3 hello (start dirty_pools)).
  - apply dirty_pools_ok.
  - reflexivity.
  - eexists; reflexivity.
  - vm_compute. discriminate.
Defined.

Lemma writeFrame_pool_independent_witness :
  let o' := {| roll := 7; entropy := entropy oracle; pick_inner := None; pick_ct := Some 5%nat |} in
  (writeFrame key oracle 3 hello (start dirty_pools)).1 =
    (writeFrame key o' 3 hello (start fresh_pools)).1 /\
  ws_conn (writeFrame key oracle 3 hello (start dirty_pools)).2 =
    ws_conn (writeFrame key o' 3 hello (start fresh_pools)).2.
Proof.
  intros o'. apply writeFrame_pool_independent.
  - apply dirty_pools_ok.
  - apply fresh_pools_ok.
  - reflexivity.
  - reflexivity.
  - reflexivity.
Defined.

Lemma readFrame_total_and_segment_independent_witness :
  (readFrame key 3 (Reader [wire] EOF)).1 <> Panic /\
  same_outcome (readFrame key 3 (Reader [wire] EOF)) (readFrame key 3 (Reader [take 3 wire; []; drop 3 wire] EOF)).
Proof.
  destruct (readFrame_total_and_segment_independent key 3 (Reader [wire] EOF)
              (Reader [take 3 wire; []; drop 3 wire] EOF)) as [H1 H2].
  split; [exact H1 | apply H2]. split; vm_compute; reflexivity.
Defined.
