(* ===== verification/Target.v ===== *)
(** * Target addresses ([parseTarget] of cmd/mxtr-server/main.go and the OPEN
    payload built by [session.open] of cmd/mxtr-testclient-v2/main.go) *)

From S2P Require Import Prelude GoStrings GoNet.

Definition addrTypeIPv4 : Z := 1.
Definition addrTypeDomain : Z := 2.
Definition addrTypeIPv6 : Z := 3.

Inductive target_err :=
  | EmptySpec
  | BadIPv4Len (n : Z)
  | DomainTooShort
  | BadDomainLen
  | BadIPv6Len (n : Z)
  | UnknownAddrType (t : Z).

Definition parseTarget (p : bytes) : res target_err bytes :=
  if len p <? 1 then Err EmptySpec else
  t ← must (at_ 0 p);
  if b2z t =? addrTypeIPv4 then
    if negb (len p =? 1 + 4 + 2) then Err (BadIPv4Len (len p)) else
    ip ← must (slice 1 5 p);
    port ← must (slice 5 7 p);
    Ok (IP_String ip ++ go! ":" ++ itoa (be_get port))
  else if b2z t =? addrTypeDomain then
    if len p <? 2 then Err DomainTooShort else
    d ← must (at_ 1 p);
    let dlen := b2z d in
    if negb (len p =? 2 + dlen + 2) then Err BadDomainLen else
    dom ← must (slice 2 (2 + dlen) p);
    port ← must (slice (2 + dlen) (2 + dlen + 2) p);
    Ok (dom ++ go! ":" ++ itoa (be_get port))
  else if b2z t =? addrTypeIPv6 then
    if negb (len p =? 1 + 16 + 2) then Err (BadIPv6Len (len p)) else
    ip ← must (slice 1 17 p);
    port ← must (slice 17 19 p);
    Ok (go! "[" ++ IP_String ip ++ go! "]:" ++ itoa (be_get port))
  else Err (UnknownAddrType (b2z t)).

(** The client's OPEN payload for a host name. *)
Definition client_target (targetHost : bytes) (targetPort : Z) : option bytes :=
  if 255 <? len targetHost then None
  else Some ([z2b 2; z2b (len targetHost)] ++ targetHost ++ be_put 2 targetPort).

(** ** What the parser accepts *)

Inductive target_spec : bytes -> bytes -> Prop :=
  | spec_ipv4 ip port :
      len ip = 4 -> len port = 2 ->
      target_spec ([x01] ++ ip ++ port) (IP_String ip ++ go! ":" ++ itoa (be_get port))
  | spec_domain d dom port :
      b2z d = len dom -> len port = 2 ->
      target_spec ([x02; d] ++ dom ++ port) (dom ++ go! ":" ++ itoa (be_get port))
  | spec_ipv6 ip port :
      len ip = 16 -> len port = 2 ->
      target_spec ([x03] ++ ip ++ port) (go! "[" ++ IP_String ip ++ go! "]:" ++ itoa (be_get port)).

Lemma b2z_is (c : byte) (k : Z) : b2z c = k -> c = z2b k.
Proof. intros <-. by rewrite z2b_b2z. Qed.

(** A list of known length cut at a point. *)
Lemma cut {A} (l : list A) n : 0 <= n <= len l ->
  exists a b, l = a ++ b /\ len a = n /\ len b = len l - n.
Proof.
  intros. exists (take (Z.to_nat n) l), (drop (Z.to_nat n) l).
  split; [by rewrite take_drop |]. zlen.
Qed.

Lemma parseTarget_sound p a : parseTarget p = Ok a -> target_spec p a.
Proof.
  unfold parseTarget. destruct p as [|t p]; [done |].
  rewrite (proj2 (Z.ltb_ge _ _)) by zlen. cbn [at_ must mbind res_bind].
  change (at_ 0 (t :: p)) with (Some t). cbn [must mbind res_bind].
  repeat (gcase; try done); intros H; rewrite len_cons in *.
  - destruct (cut p 4) as (ip & port & -> & Hip & Hport); [lia |].
    rewrite !slice_cons, slice_prefix, slice_suffix in H by zlen. cbn in H.
    apply b2z_is in E. subst t. simplify_eq. constructor; lia.
  - destruct p as [|d p]; [rewrite len_nil in *; lia |].
    change (at_ 1 (t :: d :: p)) with (Some d) in H. cbn [must mbind res_bind] in H.
    rewrite len_cons in H. pose proof (b2z_range d).
    hcase H; [done |].
    destruct (cut p (b2z d)) as (dom & port & -> & Hd & Hport); [lia |].
    rewrite !slice_cons, slice_prefix, slice_suffix in H by zlen. cbn in H.
    apply b2z_is in E0. subst t. simplify_eq. constructor; lia.
  - destruct (cut p 16) as (ip & port & -> & Hip & Hport); [lia |].
    rewrite !slice_cons, slice_prefix, slice_suffix in H by zlen. cbn in H.
    apply b2z_is in E1. subst t. simplify_eq. constructor; lia.
Qed.

Lemma parseTarget_complete p a : target_spec p a -> parseTarget p = Ok a.
Proof.
  intros H. unfold parseTarget. destruct H as [ip port Hi Hp | d dom port Hd Hp | ip port Hi Hp];
    cbn [app]; rewrite (proj2 (Z.ltb_ge _ _)) by zlen;
    match goal with |- context [at_ 0 (?x :: ?l)] => change (at_ 0 (x :: l)) with (Some x) end;
    cbn [must mbind res_bind].
  - change (b2z x01 =? addrTypeIPv4) with true. cbn iota.
    rewrite (proj2 (Z.eqb_eq _ _)) by zlen. cbn [negb].
    by rewrite !slice_cons, slice_prefix, slice_suffix by zlen.
  - change (b2z x02 =? addrTypeIPv4) with false. change (b2z x02 =? addrTypeDomain) with true.
    cbn iota. rewrite (proj2 (Z.ltb_ge _ _)) by zlen.
    change (at_ 1 (x02 :: d :: dom ++ port)) with (Some d). cbn [must mbind res_bind].
    rewrite (proj2 (Z.eqb_eq _ _)) by zlen. cbn [negb].
    by rewrite !slice_cons, slice_prefix, slice_suffix by zlen.
  - change (b2z x03 =? addrTypeIPv4) with false. change (b2z x03 =? addrTypeDomain) with false.
    change (b2z x03 =? addrTypeIPv6) with true. cbn iota.
    rewrite (proj2 (Z.eqb_eq _ _)) by zlen. cbn [negb].
    by rewrite !slice_cons, slice_prefix, slice_suffix by zlen.
Qed.

Lemma parseTarget_no_panic p : parseTarget p <> Panic.
Proof.
  unfold parseTarget. destruct p as [|t p]; [done |].
  rewrite (proj2 (Z.ltb_ge _ _)) by zlen.
  change (at_ 0 (t :: p)) with (Some t). cbn [must mbind res_bind].
  pose proof (len_nonneg p).
  repeat (gcase; try done); bool_facts; rewrite len_cons in *.
  - rewrite !slice_Some by zlen. done.
  - destruct p as [|d p]; [rewrite len_nil in *; lia |].
    change (at_ 1 (t :: d :: p)) with (Some d). cbn [must mbind res_bind].
    rewrite len_cons in *. pose proof (b2z_range d). pose proof (len_nonneg p).
    gcase; [done |]. rewrite !slice_Some by zlen. done.
  - rewrite !slice_Some by zlen. done.
Qed.

(** Target parsing is exact and total: [parseTarget] accepts precisely the
    three wire forms (IPv4, length-prefixed domain, IPv6, each with a 2-byte
    port and no trailing bytes), renders each as the matching host:port
    string, and on every other input returns an error and never panics. *)
Theorem parseTarget_exact p :
  parseTarget p <> Panic /\ (forall a, parseTarget p = Ok a <-> target_spec p a).
Proof.
  split; [apply parseTarget_no_panic |].
  split; [apply parseTarget_sound | apply parseTarget_complete].
Qed.

(** The server decodes what the client encodes: for every host name of at
    most 255 bytes and every 16-bit port, [parseTarget] of the client's OPEN
    payload is host:port. *)
Theorem client_target_roundtrip host port :
  len host <= 255 -> 0 <= port < 65536 ->
  exists p, client_target host port = Some p /\
    parseTarget p = Ok (host ++ go! ":" ++ itoa port).
Proof.
  intros Hh Hp. pose proof (len_nonneg host). unfold client_target.
  rewrite (proj2 (Z.ltb_ge _ _)) by lia. eexists. split; [done |].
  apply parseTarget_complete.
  rewrite <-(be_get_put_small 2 port) at 2 by lia.
  apply (spec_domain (z2b (len host))); [| zlen].
  rewrite b2z_z2b. apply Z.mod_small. lia.
Qed.

Lemma client_target_roundtrip_witness :
  exists p, client_target (go! "matrix.org") 443 = Some p /\
    parseTarget p = Ok (go! "matrix.org" ++ go! ":" ++ itoa 443).
Proof. apply client_target_roundtrip; vm_compute; intuition discriminate. Defined.

Example parseTarget_v4_443 :
  parseTarget [x01; x7f; x00; x00; x01; x01; xbb] = Ok (go! "127.0.0.1:443").
Proof. vm_compute. reflexivity. Qed.
Example parseTarget_mapped :
  parseTarget ([x03] ++ v4_prefix ++ [x7f; x00; x00; x01; x01; xbb]) = Ok (go! "[127.0.0.1]:443").
Proof. vm_compute. reflexivity. Qed.
