(* ===== verification/Allowlist.v ===== *)
(** * The target allowlist (cmd/mxtr-server/allowlist.go) *)

From S2P Require Import Prelude GoStrings GoNet Target.

Record allowEntry := AllowEntry {
  value : bytes;   (* a lowercased domain, or [IP.String()] *)
  isIP : bool;
}.

(** The character loop of [isValidHostnameChars]. *)
Definition ldh_byte (c : byte) : bool :=
  is_lower c || is_digit c || bool_decide (c = "-"%byte) || bool_decide (c = "."%byte).

(** [label[0] == '-' || label[len(label)-1] == '-'], for a non-empty label. *)
Definition hyphen_edge (label : bytes) : bool :=
  bool_decide (head label = Some "-"%byte) || bool_decide (last label = Some "-"%byte).

Definition isValidHostnameChars (s : bytes) : bool :=
  forallb ldh_byte s &&
  forallb (fun label => bool_decide (label = []) || negb (hyphen_edge label)) (split_on "." s).

Section Allowlist.
Context `{UnicodeTables}.

(** One round of the loop of [parseAllowList]: [None] is [continue] without
    an entry. *)
Definition parse_entry (raw : bytes) : option allowEntry :=
  let entry := trim_space (to_lower raw) in
  let entry := trim_prefix (go! "*.") entry in
  let entry := trim_suffix (go! ".") entry in
  if bool_decide (entry = []) then None else
  match ParseIP entry with
  | Some ip => Some (AllowEntry (IP_String ip) true)
  | None =>
      if negb (contains (go! ".") entry) then None
      else if contains (go! "..") entry || negb (isValidHostnameChars entry) then None
      else Some (AllowEntry entry false)
  end.

Definition parseAllowList (spec : bytes) : list allowEntry :=
  if bool_decide (spec = []) then []
  else omap parse_entry (split_on "," spec).

(** The entries a warning is logged for: not empty, and not kept. *)
Definition ignored_entry (raw : bytes) : option bytes :=
  let entry := trim_suffix (go! ".") (trim_prefix (go! "*.") (trim_space (to_lower raw))) in
  if bool_decide (entry = []) then None
  else match parse_entry raw with Some _ => None | None => Some entry end.

Definition ignored_entries (spec : bytes) : list bytes :=
  if bool_decide (spec = []) then [] else omap ignored_entry (split_on "," spec).

(** The host the check is made on. *)
Definition norm_host (dialAddr : bytes) : bytes :=
  let host := match SplitHostPort dialAddr with
              | Some (h, _) => h
              | None => dialAddr
              end in
  trim_suffix (go! ".") (to_lower (trim_set (go! "[]") host)).

(** One round of the matching loop. *)
Definition entry_matches (host : bytes) (hostIP : option bytes) (e : allowEntry) : bool :=
  if isIP e then
    match hostIP, ParseIP (value e) with
    | Some h, Some v => IP_Equal h v
    | _, _ => false
    end
  else
    match hostIP with
    | Some _ => false
    | None => bool_decide (host = value e) || has_suffix (go! "." ++ value e) host
    end.

Definition isTargetAllowed (allowedDomains : list allowEntry) (dialAddr : bytes) : bool :=
  if bool_decide (allowedDomains = []) then true else
  let host := norm_host dialAddr in
  if bool_decide (host = []) || contains (go! "..") host then false
  else existsb (entry_matches host (ParseIP host)) allowedDomains.
End Allowlist.

(** ** Properties *)

Definition labels (h : bytes) : list bytes := split_on "." h.

(** What a parsed entry is: an address in canonical form, or a lower-case
    LDH name with a dot, no empty inner label and no hyphen at a label's edge,
    that is not itself an address. *)
Definition entry_wf (e : allowEntry) : Prop :=
  if isIP e then exists ip, value e = IP_String ip
  else
    value e <> [] /\ ParseIP (value e) = None /\
    Forall (fun c => ldh_byte c = true) (value e) /\
    "."%byte ∈ value e /\ contains (go! "..") (value e) = false /\
    Forall (fun label => label = [] \/ hyphen_edge label = false) (labels (value e)).

Section AllowlistProofs.
Context `{U : UnicodeTables}.

Lemma forallb_Forall {A} (f : A -> bool) l : forallb f l = true <-> Forall (fun x => f x = true) l.
Proof.
  induction l as [|x l IH]; cbn; [done |].
  by rewrite andb_true_iff, Forall_cons, IH.
Qed.

Lemma parse_entry_wf raw e : parse_entry raw = Some e -> entry_wf e.
Proof.
  unfold parse_entry.
  set (entry := trim_suffix _ (trim_prefix _ _)). clearbody entry.
  gcase; [done |].
  destruct (ParseIP entry) as [ip|] eqn:Ei; [intros [= <-]; cbn; by eexists |].
  repeat (gcase; [done |]). intros [= <-]. cbn.
  unfold isValidHostnameChars in *. bool_facts.
  match goal with Hd : contains (go! ".") _ = true |- _ =>
    apply contains_spec in Hd as (a & b & Hdot) end.
  match goal with Hl : forallb (fun label => _ || _) _ = true |- _ =>
    rename Hl into Hlab end.
  split_and!; [done | done | by apply forallb_Forall | | done |].
  - rewrite Hdot. cbn. set_solver.
  - apply forallb_Forall in Hlab. eapply Forall_impl; [exact Hlab |].
    cbn. intros w [Hw | Hw]%orb_true_iff; [left | right].
    + by apply bool_decide_eq_true in Hw.
    + by apply negb_true_iff in Hw.
Qed.

(** Every entry kept by [parseAllowList] is well formed, for every flag
    value: canonical addresses, or lower-case LDH names that contain a dot,
    no [..] and no label with a hyphen at its edge. *)
Lemma allow_entries_wf spec : Forall entry_wf (parseAllowList spec).
Proof.
  unfold parseAllowList. gcase; [done |].
  apply Forall_forall. intros e (raw & _ & He)%list_elem_of_omap.
  by eapply parse_entry_wf.
Qed.

Lemma domain_match_labels h v :
  bool_decide (h = v) || has_suffix (go! "." ++ v) h = true <->
  labels v `suffix_of` labels h.
Proof.
  rewrite orb_true_iff, bool_decide_eq_true, has_suffix_spec.
  apply (suffix_labels "."%byte v h).
Qed.

(** [C35] The allowlist decides by labels, never by raw suffix: with a
    non-empty list a target is allowed exactly when its host is non-empty,
    has no [..], and either is an address equal to an address entry, or is
    not an address and its labels end with all the labels of a domain
    entry. *)
Theorem isTargetAllowed_iff (l : list allowEntry) dialAddr :
  l <> [] ->
  isTargetAllowed l dialAddr = true <->
  let host := norm_host dialAddr in
  host <> [] /\ contains (go! "..") host = false /\
  exists e, e ∈ l /\
    if isIP e then exists ip, ParseIP host = Some ip /\ ParseIP (value e) = Some ip
    else ParseIP host = None /\ labels (value e) `suffix_of` labels host.
Proof.
  intros Hl. unfold isTargetAllowed. rewrite bool_decide_false by done. cbn zeta.
  set (host := norm_host dialAddr).
  destruct (bool_decide (host = []) || contains (go! "..") host) eqn:Eg.
  { split; [done |]. intros (Hne & Hdd & _).
    rewrite Hdd, bool_decide_false in Eg by done. done. }
  apply orb_false_iff in Eg as [Hne%bool_decide_eq_false Hdd].
  assert (Hm : forall e, entry_matches host (ParseIP host) e = true <->
    if isIP e then exists ip, ParseIP host = Some ip /\ ParseIP (value e) = Some ip
    else ParseIP host = None /\ labels (value e) `suffix_of` labels host).
  { intros e. unfold entry_matches. destruct (isIP e).
    - unfold IP_Equal. destruct (ParseIP host), (ParseIP (value e));
        rewrite ?bool_decide_eq_true; naive_solver.
    - destruct (ParseIP host); [naive_solver |].
      rewrite domain_match_labels. naive_solver. }
  rewrite existsb_exists. split.
  - intros (e & Hin & He). split_and!; [done | done |]. exists e.
    rewrite list_elem_of_In. split; [done |]. by apply Hm.
  - intros (_ & _ & e & Hin & He). exists e.
    rewrite <-list_elem_of_In. split; [done |]. by apply Hm.
Qed.

(** The allowlist fails open: when no entry of the flag survives
    parsing (for instance a single single-label entry), the list is empty
    and every target is allowed, exactly as if the flag were absent. *)
Theorem allowlist_fails_open spec dialAddr :
  Forall (fun raw => parse_entry raw = None) (split_on "," spec) ->
  parseAllowList spec = [] /\ isTargetAllowed (parseAllowList spec) dialAddr = true.
Proof.
  intros Hall.
  assert (E : parseAllowList spec = []).
  { unfold parseAllowList. gcase; [done |].
    apply elem_of_nil_inv. intros e (raw & Hr & He)%list_elem_of_omap.
    rewrite Forall_forall in Hall. rewrite (Hall raw Hr) in He. done. }
  by rewrite E.
Qed.
End AllowlistProofs.

#[local] Existing Instance ascii_tables.

Lemma isTargetAllowed_iff_witness :
  isTargetAllowed (parseAllowList (go! "matrix.org, 192.0.2.7")) (go! "Federation.Matrix.ORG.:8448") = true.
Proof.
  apply (isTargetAllowed_iff (parseAllowList (go! "matrix.org, 192.0.2.7"))).
  - vm_compute. discriminate.
  - split; [vm_compute; discriminate |]. split; [vm_compute; reflexivity |].
    exists (AllowEntry (go! "matrix.org") false).
    split; [vm_compute; left |]. split; [vm_compute; reflexivity |].
    exists [go! "federation"]. vm_compute. reflexivity.
Defined.

Lemma allowlist_fails_open_witness :
  parseAllowList (go! "com") = [] /\
  isTargetAllowed (parseAllowList (go! "com")) (go! "10.0.0.1:22") = true.
Proof.
  apply (allowlist_fails_open (go! "com")). change (split_on "," (go! "com")) with [go! "com"].
  constructor; [vm_compute; reflexivity | constructor].
Defined.

Example allow_no_sibling :
  isTargetAllowed (parseAllowList (go! "matrix.org")) (go! "evilmatrix.org:443") = false.
Proof. vm_compute. reflexivity. Qed.
Example allow_ip_entry_not_suffix :
  isTargetAllowed (parseAllowList (go! "1.2.3.4")) (go! "evil.com.1.2.3.4:443") = false.
Proof. vm_compute. reflexivity. Qed.
(** A single label followed by two dots is kept, against the intent of the
    single-label rule. *)
Example allow_trailing_dots :
  parseAllowList (go! "com..") = [AllowEntry (go! "com.") false] /\
  isTargetAllowed (parseAllowList (go! "com..")) (go! "evil.com..:443") = true.
Proof. vm_compute. done. Qed.
