(* ===== verification/ShareString.v ===== *)
(** * Share strings (cmd/mxtr-server/share_string.go and [base58Decode] of
    cmd/mxtr-testclient-v2/main.go) *)

From S2P Require Import Prelude GoStrings.

Definition b58Alphabet : bytes :=
  go! "123456789ABCDEFGHJKLMNPQRSTUVWXYZabcdefghijkmnopqrstuvwxyz".

(** [b58Alphabet[i]]; the index is a remainder modulo 58. *)
Definition b58_char (i : Z) : byte := default x31 (at_ i b58Alphabet).

(** The loop [for n.Sign() > 0], least significant digit first. Two digits per
    input byte are enough (58 * 58 > 256). *)
Fixpoint b58_loop (fuel : nat) (n : Z) : list Z :=
  if n <=? 0 then [] else
  match fuel with
  | O => []
  | S f => n mod 58 :: b58_loop f (n / 58)
  end.

Fixpoint count_leading (c : byte) (s : bytes) : nat :=
  match s with
  | x :: s' => if bool_decide (x = c) then S (count_leading c s') else O
  | [] => O
  end.

Definition base58Encode (input : bytes) : bytes :=
  if bool_decide (input = []) then [] else
  let nz := count_leading x00 input in
  let rest := drop nz input in
  let n := be_get rest in
  let digits := b58_char <$> b58_loop (2 * length rest) n in
  rev (digits ++ replicate nz (b58_char 0)).

(** [big.Int.Bytes]: big-endian, no leading zero byte. *)
Definition big_bytes (n : Z) : bytes :=
  drop_while (fun c => bool_decide (c = x00)) (be_put (Z.to_nat (Z.log2 n / 8 + 1)) n).

(** The digit loop; a character outside the alphabet is an error. *)
Fixpoint b58_value (acc : Z) (s : bytes) : option Z :=
  match s with
  | [] => Some acc
  | c :: s' =>
      match index_byte c b58Alphabet with
      | None => None
      | Some idx => b58_value (acc * 58 + Z.of_nat idx) s'
      end
  end.

Definition base58Decode (s : bytes) : option bytes :=
  if bool_decide (s = []) then None else
  let nz := count_leading (b58_char 0) s in
  n ← b58_value 0 s;
  Some (replicate nz x00 ++ big_bytes n).

Definition buildShareString (psk host portAddr sni : bytes) : bytes :=
  let port := match portAddr with
              | c :: rest => if bool_decide (c = ":"%byte) then rest else portAddr
              | [] => portAddr
              end in
  let host := if bool_decide (host = []) then go! "<YOUR-PUBLIC-HOST>" else host in
  let s := go! "mxtr://" ++ base58Encode psk ++ go! "@" ++ host ++ go! ":" ++ port in
  if bool_decide (sni = []) then s else s ++ go! "?sni=" ++ sni.

#[local] Arguments index_byte : simpl never.
#[local] Arguments b58Alphabet : simpl never.

(** ** The digit loop *)

(** Value of a little-endian digit list in base 58. *)
Fixpoint digits_value (ds : list Z) : Z :=
  match ds with
  | [] => 0
  | d :: ds' => d + 58 * digits_value ds'
  end.

Definition digit_ok (d : Z) : Prop := 0 <= d < 58.

(** Digits without a zero at the top. *)
Definition canonical (ds : list Z) : Prop :=
  Forall digit_ok ds /\ last ds <> Some 0.

Lemma b58_step_bound n m : 0 <= n < 58 * m -> 0 <= n / 58 < m.
Proof. intros. split; [apply Z.div_pos; lia | apply Z.div_lt_upper_bound; lia]. Qed.

Lemma b58_loop_spec fuel n :
  0 <= n < 58 ^ Z.of_nat fuel ->
  digits_value (b58_loop fuel n) = n /\ canonical (b58_loop fuel n).
Proof.
  revert n. induction fuel as [|f IH]; intros n Hn.
  { change (58 ^ Z.of_nat 0) with 1 in Hn. replace n with 0 by lia. done. }
  cbn [b58_loop]. destruct (n <=? 0) eqn:E; bool_facts.
  { replace n with 0 by lia. done. }
  rewrite Nat2Z.inj_succ, Z.pow_succ_r in Hn by apply Nat2Z.is_nonneg.
  destruct (IH (n / 58) (b58_step_bound _ _ Hn)) as [Hv [Hd Hl]]. clear IH Hn.
  pose proof (Z.div_mod n 58 ltac:(done)) as Hdm.
  pose proof (Z.mod_pos_bound n 58 ltac:(done)) as Hmod.
  split; [cbn [digits_value]; rewrite Hv; lia |]. split; [by constructor |].
  destruct (b58_loop f (n / 58)) as [|d ds] eqn:Eds; [| done].
  intros [= Hz]. change (digits_value []) with 0 in Hv. lia.
Qed.

Lemma digits_value_nonneg ds : Forall digit_ok ds -> 0 <= digits_value ds.
Proof. induction 1 as [|d ds Hd _ IH]; cbn; [done | unfold digit_ok in Hd; lia]. Qed.

Lemma canonical_pos d ds : canonical (d :: ds) -> 0 < digits_value (d :: ds).
Proof.
  intros [Hd Hl]. revert d Hd Hl. induction ds as [|e ds IH]; intros d Hd Hl;
    inversion Hd as [|? ? Hd0 Hds]; subst; unfold digit_ok in Hd0.
  - cbn in *. destruct (decide (d = 0)) as [-> | ?]; [done | lia].
  - specialize (IH e Hds Hl). cbn [digits_value] in *. lia.
Qed.

Lemma b58_loop_value fuel ds :
  canonical ds -> (length ds <= fuel)%nat -> b58_loop fuel (digits_value ds) = ds.
Proof.
  revert fuel. induction ds as [|d ds IH]; intros fuel Hc Hf; [by destruct fuel |].
  destruct fuel as [|f]; [cbn in Hf; lia |]. pose proof (canonical_pos d ds Hc) as Hpos.
  destruct Hc as [Hd Hl]. inversion Hd as [|? ? Hd0 Hds]; subst. unfold digit_ok in Hd0.
  pose proof (digits_value_nonneg ds Hds). cbn [b58_loop].
  rewrite (proj2 (Z.leb_gt _ _)) by lia. cbn [digits_value] in *.
  f_equal; [zdivlia |].
  replace ((d + 58 * digits_value ds) / 58) with (digits_value ds) by zdivlia.
  apply IH; [| cbn in Hf; lia]. split; [done |]. by destruct ds.
Qed.

Lemma canonical_inj ds es :
  canonical ds -> canonical es -> digits_value ds = digits_value es -> ds = es.
Proof.
  intros Hd He E. rewrite <-(b58_loop_value (length ds + length es) ds Hd) by lia.
  rewrite E. apply b58_loop_value; [done | lia].
Qed.

(** ** The alphabet *)

Lemma b58_chars :
  forallb (fun i => bool_decide (index_byte (b58_char i) b58Alphabet = Some (Z.to_nat i)))
    (seqZ 0 58) = true.
Proof. vm_compute. reflexivity. Qed.

Lemma index_b58_char i : digit_ok i -> index_byte (b58_char i) b58Alphabet = Some (Z.to_nat i).
Proof.
  intros Hi. pose proof b58_chars as H. rewrite forallb_forall in H.
  apply (bool_decide_eq_true _), H, list_elem_of_In, elem_of_seqZ. unfold digit_ok in Hi. lia.
Qed.

Lemma b58_char_index c k : index_byte c b58Alphabet = Some k ->
  digit_ok (Z.of_nat k) /\ c = b58_char (Z.of_nat k).
Proof.
  intros [Hk _]%index_byte_Some.
  assert (Hlt : (k < 58)%nat) by (apply lookup_lt_Some in Hk; exact Hk).
  split; [unfold digit_ok; lia |]. unfold b58_char, at_.
  rewrite (proj2 (Z.leb_le _ _)) by lia. by rewrite Nat2Z.id, Hk.
Qed.

Lemma b58_char_zero i : digit_ok i -> b58_char i = b58_char 0 -> i = 0.
Proof.
  intros Hi E. pose proof (index_b58_char i Hi) as H1.
  rewrite E, (index_b58_char 0) in H1 by (unfold digit_ok; lia).
  unfold digit_ok in Hi. injection H1. lia.
Qed.

Lemma b58_value_app acc a b :
  b58_value acc (a ++ b) = (v ← b58_value acc a; b58_value v b).
Proof.
  revert acc. induction a as [|c a IH]; intros acc; [done |]. cbn [app b58_value].
  destruct (index_byte c b58Alphabet); [apply IH | done].
Qed.

Lemma b58_value_digits ds acc :
  Forall digit_ok ds ->
  b58_value acc (rev (b58_char <$> ds)) = Some (acc * 58 ^ len ds + digits_value ds).
Proof.
  intros Hd. revert acc. induction Hd as [|d ds Hd0 Hd IH]; intros acc.
  - cbn. change (len []) with 0. f_equal. lia.
  - cbn [fmap list_fmap rev]. rewrite b58_value_app, IH. cbn [mbind option_bind b58_value].
    rewrite index_b58_char by done. unfold digit_ok in Hd0. rewrite Z2Nat.id by lia.
    cbn [digits_value]. rewrite len_cons, Z.pow_add_r by zlen. f_equal. lia.
Qed.

Lemma b58_value_inv s acc v :
  b58_value acc s = Some v ->
  exists ds, Forall digit_ok ds /\ s = rev (b58_char <$> ds).
Proof.
  revert acc v. induction s as [|c s IH]; intros acc v H; [by exists [] |]. cbn [b58_value] in H.
  destruct (index_byte c b58Alphabet) as [k|] eqn:Ek; [| done].
  apply b58_char_index in Ek as [Hk ->]. apply IH in H as (ds & Hds & ->).
  exists (ds ++ [Z.of_nat k]). rewrite Forall_app, fmap_app, rev_app_distr.
  split; [by rewrite Forall_singleton | done].
Qed.

(** ** Bytes without a leading zero *)

Definition no_lead (b : bytes) : Prop := head b <> Some x00.

Lemma be_put_pad k l : be_put (k + length l) (be_get l) = replicate k x00 ++ l.
Proof.
  induction l as [|c l IH] using rev_ind.
  - rewrite Nat.add_0_r, app_nil_r. induction k as [|k IHk]; [done |].
    change (be_put (S k) (be_get [])) with (be_put k (be_get []) ++ [x00]). rewrite IHk.
    change (replicate (S k) x00) with (replicate 1 x00 ++ replicate k x00).
    rewrite <-replicate_add, Nat.add_comm, replicate_add. done.
  - rewrite length_app, Nat.add_assoc, Nat.add_1_r.
    change (be_put (S ?n) ?z) with (be_put n (Z.shiftr z 8) ++ [z2b z]).
    destruct (be_get_snoc l c) as [-> Hnn]. pose proof (b2z_range c).
    rewrite Z.shiftr_div_pow2 by lia. change (2 ^ 8) with 256.
    assert (E : (be_get l * 256 + b2z c) / 256 = be_get l) by zdivlia.
    rewrite E, IH, app_assoc. do 2 f_equal. apply (inj b2z). rewrite b2z_z2b. zdivlia.
Qed.

Lemma be_get_zeros k l : be_get (replicate k x00 ++ l) = be_get l.
Proof. rewrite <-be_put_pad. apply be_get_put_small. 
  pose proof (be_get_bound l) as [H1 H2]. split; [done |].
  eapply Z.lt_le_trans; [exact H2 |]. apply Z.pow_le_mono_r; unfold len; lia.
Qed.

Lemma drop_zeros k l :
  no_lead l -> drop_while (fun c => bool_decide (c = x00)) (replicate k x00 ++ l) = l.
Proof.
  intros Hl. induction k as [|k IH]; cbn.
  - destruct l as [|c l]; [done |]. cbn. rewrite bool_decide_false; [done |].
    intros ->. by apply Hl.
  - done.
Qed.

Lemma be_get_lower c l : c <> x00 -> 256 ^ len l <= be_get (c :: l).
Proof.
  intros Hc. assert (1 <= b2z c).
  { pose proof (b2z_range c). destruct (decide (b2z c = 0)) as [E | ?]; [| lia].
    exfalso. apply Hc. by apply (inj b2z). }
  induction l as [|d l IH] using rev_ind.
  - destruct (be_get_snoc [] c) as [E _]. cbn [app] in E. rewrite E, len_nil, Z.pow_0_r.
    change (be_get []) with 0. lia.
  - rewrite app_comm_cons. destruct (be_get_snoc (c :: l) d) as [-> _].
    pose proof (b2z_range d). rewrite len_app. change (len [d]) with 1.
    rewrite Z.pow_add_r, Z.pow_1_r by zlen. lia.
Qed.

Lemma big_bytes_get l : no_lead l -> big_bytes (be_get l) = l.
Proof.
  intros Hl. unfold big_bytes. destruct l as [|c l]; [done |].
  assert (Hc : c <> x00) by (intros ->; by apply Hl).
  pose proof (be_get_lower c l Hc) as Hlow. pose proof (be_get_bound (c :: l)) as [_ Hup].
  pose proof (len_nonneg l). rewrite len_cons in Hup.
  assert (0 < be_get (c :: l)) by (assert (0 < 256 ^ len l) by (apply Z.pow_pos_nonneg; lia); lia).
  assert (Hlog : 8 * len l <= Z.log2 (be_get (c :: l))).
  { apply Z.log2_le_pow2; [lia |]. rewrite Z.pow_mul_r by lia. exact Hlow. }
  set (k := Z.to_nat (Z.log2 (be_get (c :: l)) / 8 + 1)).
  assert (Hk : (length (c :: l) <= k)%nat).
  { unfold k, len in *. cbn [length]. zdivlia. }
  replace k with ((k - length (c :: l)) + length (c :: l))%nat by lia.
  rewrite be_put_pad. by apply drop_zeros.
Qed.

Lemma log2_bytes n : 0 <= n -> n < 256 ^ (Z.log2 n / 8 + 1).
Proof.
  intros Hn. destruct (decide (n = 0)) as [-> | ?]; [done |].
  assert (Hlog : n < 2 ^ (Z.log2 n + 1)) by (rewrite Z.add_1_r; apply Z.log2_spec; lia).
  pose proof (Z.log2_nonneg n). pose proof (Z.div_mod (Z.log2 n) 8 ltac:(done)).
  pose proof (Z.mod_pos_bound (Z.log2 n) 8 ltac:(done)).
  eapply Z.lt_le_trans; [exact Hlog |]. change 256 with (2 ^ 8).
  rewrite <-Z.pow_mul_r by lia. apply Z.pow_le_mono_r; lia.
Qed.

Lemma drop_zeros_spec l :
  let r := drop_while (fun c => bool_decide (c = x00)) l in
  no_lead r /\ be_get r = be_get l.
Proof.
  cbn zeta. induction l as [|c l [IH1 IH2]]; [done |]. cbn [drop_while].
  destruct (bool_decide (c = x00)) eqn:E; bool_facts.
  - subst c. split; [done |]. rewrite IH2. symmetry. apply (be_get_zeros 1 l).
  - split; [| done]. intros [= ->]. done.
Qed.

Lemma big_bytes_spec n : 0 <= n -> no_lead (big_bytes n) /\ be_get (big_bytes n) = n.
Proof.
  intros Hn. unfold big_bytes.
  destruct (drop_zeros_spec (be_put (Z.to_nat (Z.log2 n / 8 + 1)) n)) as [H1 H2].
  split; [done |]. rewrite H2. apply be_get_put_small.
  pose proof (Z.log2_nonneg n). pose proof (Z.div_pos (Z.log2 n) 8 ltac:(lia) ltac:(lia)).
  rewrite Z2Nat.id by lia. split; [done | by apply log2_bytes].
Qed.

(** ** Leading characters *)

Lemma count_leading_app c k l :
  head l <> Some c -> count_leading c (replicate k c ++ l) = k.
Proof.
  intros Hl. induction k as [|k IH]; cbn.
  - destruct l as [|x l]; [done |]. cbn. rewrite bool_decide_false; [done |].
    intros ->. by apply Hl.
  - rewrite bool_decide_true by done. by rewrite IH.
Qed.

Lemma count_leading_split c s :
  exists t, s = replicate (count_leading c s) c ++ t /\ head t <> Some c.
Proof.
  induction s as [|x s (t & Ht & Hh)]; [by exists [] |]. cbn.
  destruct (bool_decide (x = c)) eqn:E; bool_facts.
  - subst x. exists t. split; [| done]. cbn. by rewrite <-Ht.
  - exists (x :: s). split; [done |]. by intros [= ->].
Qed.

Lemma rev_replicate {A} n (x : A) : rev (replicate n x) = replicate n x.
Proof.
  induction n as [|n IH]; [done |]. cbn. rewrite IH.
  change [x] with (replicate 1 x). by rewrite <-replicate_add, Nat.add_comm.
Qed.

Lemma head_rev {A} (l : list A) : head (rev l) = last l.
Proof. destruct l as [|x l] using rev_ind; [done |]. by rewrite rev_app_distr, last_snoc. Qed.

Lemma canonical_head ds :
  canonical ds -> head (rev (b58_char <$> ds)) <> Some (b58_char 0).
Proof.
  intros [Hd Hl]. rewrite head_rev, fmap_last. intros (d & Hld & E)%fmap_Some.
  apply Hl. rewrite Hld. f_equal. symmetry in E. apply b58_char_zero; [| done].
  rewrite Forall_forall in Hd. apply Hd. by apply last_Some_elem_of.
Qed.

Lemma b58_value_leading k s : b58_value 0 (replicate k (b58_char 0) ++ s) = b58_value 0 s.
Proof.
  induction k as [|k IH]; [done |]. cbn [replicate app b58_value].
  rewrite index_b58_char by (unfold digit_ok; lia). exact IH.
Qed.

(** ** Encoder and decoder in canonical form *)

(** A byte string is a number of zero bytes and a number; a base-58 string is
    as many ['1'] characters and the digits of that number. *)
Lemma base58Encode_canonical k l ds :
  no_lead l -> canonical ds -> digits_value ds = be_get l -> replicate k x00 ++ l <> [] ->
  base58Encode (replicate k x00 ++ l) = replicate k (b58_char 0) ++ rev (b58_char <$> ds).
Proof.
  intros Hl Hc Hv Hne. unfold base58Encode. rewrite bool_decide_false by done.
  rewrite count_leading_app, drop_app_length' by (done || by rewrite length_replicate).
  rewrite rev_app_distr, rev_replicate. do 2 f_equal. f_equal.
  assert (Hb : 0 <= be_get l < 58 ^ Z.of_nat (2 * length l)).
  { pose proof (be_get_bound l) as [H1 H2]. split; [done |].
    rewrite Nat2Z.inj_mul, Z.pow_mul_r by lia.
    eapply Z.lt_le_trans; [exact H2 |]. apply Z.pow_le_mono_l. unfold len. lia. }
  destruct (b58_loop_spec _ _ Hb) as [Hv' Hc']. apply canonical_inj; [done | done |].
  by rewrite Hv', Hv.
Qed.

Lemma base58Decode_canonical k l ds :
  no_lead l -> canonical ds -> digits_value ds = be_get l -> replicate k x00 ++ l <> [] ->
  base58Decode (replicate k (b58_char 0) ++ rev (b58_char <$> ds)) = Some (replicate k x00 ++ l).
Proof.
  intros Hl Hc Hv Hne. unfold base58Decode.
  assert (Hs : replicate k (b58_char 0) ++ rev (b58_char <$> ds) <> []).
  { intros [Hk Hd]%app_nil. destruct k as [|k]; [| done]. apply Hne. cbn [replicate app].
    apply (f_equal length) in Hd. rewrite length_rev, length_fmap in Hd.
    destruct ds; [| done]. cbn in Hv. destruct l as [|c l]; [done |]. exfalso.
    pose proof (be_get_lower c l ltac:(by intros ->)). pose proof (len_nonneg l).
    assert (0 < 256 ^ len l) by (apply Z.pow_pos_nonneg; lia). lia. }
  rewrite bool_decide_false by done. rewrite b58_value_leading, b58_value_digits by apply Hc.
  rewrite count_leading_app by by apply canonical_head.
  cbn [mbind option_bind]. rewrite Z.mul_0_l, Z.add_0_l, Hv. by rewrite big_bytes_get.
Qed.

(** Every byte string and every decodable string has that form. *)
Lemma bytes_canonical b :
  exists k l ds, b = replicate k x00 ++ l /\ no_lead l /\ canonical ds /\ digits_value ds = be_get l.
Proof.
  destruct (count_leading_split x00 b) as (l & Hb & Hl).
  pose proof (be_get_bound l) as [H1 H2].
  destruct (b58_loop_spec (2 * length l) (be_get l)) as [Hv Hc].
  { split; [done |]. rewrite Nat2Z.inj_mul, Z.pow_mul_r by lia.
    eapply Z.lt_le_trans; [exact H2 |]. apply Z.pow_le_mono_l. unfold len. lia. }
  by exists (count_leading x00 b), l, (b58_loop (2 * length l) (be_get l)).
Qed.

Lemma string_canonical s v :
  b58_value 0 s = Some v ->
  exists k l ds, s = replicate k (b58_char 0) ++ rev (b58_char <$> ds) /\
    no_lead l /\ canonical ds /\ digits_value ds = be_get l.
Proof.
  intros Hs. destruct (count_leading_split (b58_char 0) s) as (t & Ht & Hh).
  rewrite Ht, b58_value_leading in Hs. destruct (b58_value_inv _ _ _ Hs) as (ds & Hd & Et).
  assert (Hc : canonical ds).
  { split; [done |]. rewrite Et, head_rev, fmap_last in Hh. intros Hl. apply Hh. by rewrite Hl. }
  destruct (big_bytes_spec (digits_value ds) (digits_value_nonneg _ Hd)) as [Hn Hv].
  exists (count_leading (b58_char 0) s), (big_bytes (digits_value ds)), ds.
  split; [by rewrite <-Et |]. done.
Qed.

(** Encoding and decoding are inverse to each other. *)
Lemma base58_inverse b s :
  (b <> [] /\ base58Encode b = s) <-> (s <> [] /\ base58Decode s = Some b).
Proof.
  split.
  - intros [Hb <-]. destruct (bytes_canonical b) as (k & l & ds & -> & Hl & Hc & Hv).
    rewrite (base58Encode_canonical k l ds) by done.
    pose proof (base58Decode_canonical k l ds Hl Hc Hv Hb) as Hd. split; [| done].
    intros E. by rewrite E in Hd.
  - intros [Hs Hd]. assert (exists v, b58_value 0 s = Some v) as [v Hv].
    { unfold base58Decode in Hd. rewrite bool_decide_false in Hd by done.
      destruct (b58_value 0 s); [by eexists | done]. }
    destruct (string_canonical s v Hv) as (k & l & ds & -> & Hl & Hc & Hdv).
    assert (Hne : replicate k x00 ++ l <> []).
    { intros [Hk ->]%app_nil. destruct k; [| done]. apply Hs.
      destruct ds as [|d ds]; [done |]. pose proof (canonical_pos d ds Hc) as Hpos.
      by rewrite Hdv in Hpos. }
    rewrite (base58Decode_canonical k l ds) in Hd by done. injection Hd as <-.
    split; [done |]. by apply base58Encode_canonical.
Qed.


Example base58_sample :
  base58Encode (go! "Hello World!") = go! "2NEpo7TZRRrLZSi2U" /\
  base58Encode [x00; x00; x01] = go! "112" /\
  base58Decode (go! "0OIl") = None.
Proof. vm_compute. done. Qed.

(** ** The share string *)

Lemma b58_char_clean i : digit_ok i -> b58_char i <> "@"%byte /\ b58_char i <> ":"%byte.
Proof.
  intros Hi. split; intros E; pose proof (index_b58_char i Hi) as H; rewrite E in H; done.
Qed.

Lemma base58Encode_clean b :
  Forall (fun c => c <> "@"%byte /\ c <> ":"%byte) (base58Encode b).
Proof.
  destruct (decide (b = [])) as [-> | Hb]; [constructor |].
  destruct (bytes_canonical b) as (k & l & ds & -> & Hl & Hc & Hv).
  rewrite (base58Encode_canonical k l ds) by done. apply Forall_app. split.
  - apply Forall_replicate. apply b58_char_clean. unfold digit_ok. lia.
  - apply Forall_rev, Forall_fmap. destruct Hc as [Hd _].
    eapply Forall_impl; [exact Hd |]. intros d. apply b58_char_clean.
Qed.

Lemma drop_S_app {A} (a : list A) x b : drop (S (length a)) (a ++ x :: b) = b.
Proof. induction a; done. Qed.

(** What a client cuts out of a share string: the user info up to ['@'], the
    host and port up to ['?'], the port after the last [':']. *)
Definition share_fields (s : bytes) : option (bytes * bytes * bytes * option bytes) :=
  let body := trim_prefix (go! "mxtr://") s in
  i ← index_byte "@" body;
  let user := take i body in
  let rest := drop (S i) body in
  let '(auth, query) := match index_byte "?" rest with
                        | Some j => (take j rest, Some (drop (S j) rest))
                        | None => (rest, None)
                        end in
  k ← last_index_byte ":" auth;
  Some (user, take k auth, drop (S k) auth, query).

(** A share string carries what the server listens with: cutting it at
    its separators gives back a user info that decodes to the PSK, the host,
    the port of a [":port"] listen address, and the SNI query. *)
Theorem buildShareString_fields psk host port sni :
  psk <> [] -> host <> [] ->
  "?"%byte ∉ host ++ port -> ":"%byte ∉ port ->
  exists user, base58Decode user = Some psk /\
  share_fields (buildShareString psk host (":"%byte :: port) sni) =
    Some (user, host, port,
          if bool_decide (sni = []) then None else Some (go! "sni=" ++ sni)).
Proof.
  intros Hp Hh Hq Hc. exists (base58Encode psk).
  destruct (proj1 (base58_inverse psk (base58Encode psk)) (conj Hp eq_refl)) as [_ Hd].
  split; [exact Hd |].
  set (tail := if bool_decide (sni = []) then [] else "?"%byte :: go! "sni=" ++ sni).
  set (auth := host ++ ":"%byte :: port).
  assert (E : buildShareString psk host (":"%byte :: port) sni =
              go! "mxtr://" ++ base58Encode psk ++ "@"%byte :: auth ++ tail).
  { unfold buildShareString, tail, auth. rewrite (bool_decide_true (":"%byte = ":"%byte)) by done.
    rewrite (bool_decide_false (host = [])) by done.
    case_bool_decide; rewrite <-!app_assoc; cbn; rewrite ?app_nil_r, <-?app_assoc; done. }
  rewrite E. unfold share_fields.
  assert (Ht : forall x, trim_prefix (go! "mxtr://") (go! "mxtr://" ++ x) = x).
  { intros x. unfold trim_prefix.
    rewrite (proj2 (has_prefix_spec _ _)) by (by exists x). by rewrite drop_app_length. }
  assert (Hat : "@"%byte ∉ base58Encode psk).
  { pose proof (base58Encode_clean psk) as Hcl. rewrite Forall_forall in Hcl. by intros [? _]%Hcl. }
  rewrite Ht, index_byte_app by exact Hat.
  cbn [mbind option_bind]. rewrite drop_S_app, take_app_length.
  assert (Ha : "?"%byte ∉ auth) by (unfold auth; set_solver).
  assert (Hk : last_index_byte ":" auth = Some (length host)) by by apply last_index_byte_app.
  assert (Hf : take (length host) auth = host /\ drop (S (length host)) auth = port).
  { unfold auth. rewrite drop_S_app. split; [apply take_app_length | done]. }
  destruct Hf as [Hf1 Hf2]. unfold tail. case_bool_decide.
  - rewrite app_nil_r. rewrite (proj2 (index_byte_None _ _)) by done.
    rewrite Hk. cbn [mbind option_bind]. by rewrite Hf1, Hf2.
  - rewrite index_byte_app by done. rewrite take_app_length, drop_S_app, Hk.
    cbn [mbind option_bind]. by rewrite Hf1, Hf2.
Qed.

Lemma buildShareString_fields_witness :
  exists user, base58Decode user = Some (replicate 32 x07) /\
  share_fields (buildShareString (replicate 32 x07) (go! "203.0.113.7") (go! ":9290") (go! "a.example")) =
    Some (user, go! "203.0.113.7", go! "9290", Some (go! "sni=a.example")).
Proof.
  apply (buildShareString_fields (replicate 32 x07) (go! "203.0.113.7") (go! "9290") (go! "a.example"));
    vm_compute; first [discriminate | set_solver].
Defined.

(** A bare IPv6 host and an ["ip:port"] listen address do not survive: the
    host is cut at the wrong colon. *)
Example share_ipv6_unbracketed :
  share_fields (buildShareString [x01] (go! "2001:db8::1") (go! "0.0.0.0:9290") []) =
    Some (go! "2", go! "2001:db8::1:0.0.0.0", go! "9290", None).
Proof. vm_compute. reflexivity. Qed.
