(* ===== verification/Hostnames.v ===== *)
(** * Host names ([isValidHostname], [isPublicIPLiteral],
    [generateSyntheticCN] of cmd/mxtr-server/main.go, [isIPLiteral] of
    cmd/mxtr-testclient-v2/main.go) *)

From S2P Require Import Prelude GoStrings GoNet Padding.

(** The switch on the runes of a label; a rune above 127 is in no case, and
    neither are the bytes that make it up. *)
Definition label_byte (c : byte) : bool :=
  is_lower c || is_upper c || is_digit c || bool_decide (c = "-"%byte).

Definition label_ok (label : bytes) : bool :=
  negb ((len label =? 0) || (63 <? len label)) &&
  negb (bool_decide (head label = Some "-"%byte) || bool_decide (last label = Some "-"%byte)) &&
  forallb label_byte label.

Definition isValidHostname (s : bytes) : bool :=
  if (len s =? 0) || (253 <? len s) then false
  else match ParseIP s with
       | Some _ => false
       | None => forallb label_ok (split_on "." s)
       end.

Definition strip_brackets (s : bytes) : bytes := trim_prefix (go! "[") (trim_suffix (go! "]") s).

Definition isPublicIPLiteral (s : bytes) : bool :=
  match ParseIP (strip_brackets s) with
  | None => false
  | Some ip =>
      negb (IsLoopback ip || IsUnspecified ip || IsMulticast ip ||
            IsLinkLocalUnicast ip || IsLinkLocalMulticast ip || IsPrivate ip)
  end.

Definition isIPLiteral (s : bytes) : bool :=
  match ParseIP (strip_brackets s) with Some _ => true | None => false end.

(** ** Synthetic names *)

Definition cdnCities : list bytes := [
  go! "fra"; go! "ams"; go! "lon"; go! "par"; go! "mil"; go! "sg"; go! "hkg"; go! "tyo"; go! "syd"; go! "sjc";
  go! "lax"; go! "ord"; go! "dal"; go! "mia"; go! "jfk"; go! "sfo"; go! "dfw"; go! "atl"; go! "sea"; go! "dub";
  go! "mad"; go! "prg"; go! "mun"; go! "ber"; go! "vie"; go! "zur"; go! "war"; go! "hel"; go! "sto"; go! "osl";
  go! "cph"; go! "bru"; go! "bcn"; go! "vlc"; go! "lis"; go! "ath"; go! "ist"; go! "dxb"; go! "nrt"; go! "kix";
  go! "pek"; go! "sha"; go! "bom"; go! "del"; go! "blr"; go! "cgk"; go! "kul"; go! "mnl"; go! "akl"; go! "yyz";
  go! "hnd"; go! "gru"; go! "scl"; go! "mex"; go! "lhr"; go! "cdg"; go! "ham"; go! "tll"; go! "vno"; go! "rix"].

Definition edgeApexes : list bytes := [
  go! "hosted-edge.net"; go! "vmpool-cloud.com"; go! "dc-nodes.net"; go! "netregion-hosting.io";
  go! "corenet-dc.net"; go! "srvcloud-host.com"; go! "racknode-systems.io"; go! "edge-datacenter.net";
  go! "datacore-hosting.com"; go! "cloudspan-hosting.net"; go! "regionhost-dc.com"; go! "relaynode-mta.net";
  go! "vmcluster-host.net"; go! "gridnode-cloud.io"; go! "metro-edge-dc.com"; go! "northbridge-host.net"].

(** The four draws of [generateSyntheticCN]. *)
Record cn_draws := CnDraws { cn_city : Z; cn_num : Z; cn_apex : Z; cn_shape : Z }.

Definition generateSyntheticCN (d : cn_draws) : bytes :=
  let region := default [] (at_ (intN (len cdnCities) (cn_city d)) cdnCities) in
  let num := itoa (intN 999 (cn_num d) + 1) in
  let apex := default [] (at_ (intN (len edgeApexes) (cn_apex d)) edgeApexes) in
  let shape := intN 7 (cn_shape d) in
  if shape =? 0 then go! "srv" ++ num ++ go! "-" ++ region ++ go! "." ++ apex
  else if shape =? 1 then go! "node-" ++ region ++ go! "-" ++ num ++ go! "." ++ apex
  else if shape =? 2 then go! "host" ++ num ++ go! "." ++ region ++ go! "." ++ apex
  else if shape =? 3 then go! "edge-" ++ region ++ num ++ go! "." ++ apex
  else if shape =? 4 then region ++ go! "-gw" ++ num ++ go! "." ++ apex
  else if shape =? 5 then go! "vm" ++ num ++ go! "." ++ region ++ go! "." ++ apex
  else if shape =? 6 then go! "pop-" ++ region ++ go! "-" ++ num ++ go! "." ++ apex
  else go! "n" ++ num ++ go! "-" ++ region ++ go! "." ++ apex.

(** ** Validity of composed names *)

(** A label, or a piece of one that does not begin or end it badly. *)
Definition alnum (c : byte) : bool := is_lower c || is_digit c.

(** A closed decidable fact, by computing its decision. *)
Ltac by_decision := apply (bool_decide_unpack _); vm_compute; exact I.

(** Non-empty, over letters, digits and hyphens, alphanumeric at both ends. *)
Definition good_label (l : bytes) : Prop :=
  Forall (fun c => label_byte c = true) l /\
  (exists c, head l = Some c /\ alnum c = true) /\ (exists c, last l = Some c /\ alnum c = true).

#[export] Instance alnum_ends_dec (o : option byte) : Decision (exists c, o = Some c /\ alnum c = true).
Proof.
  destruct o as [c|]; [| right; by intros (? & ? & _)].
  destruct (alnum c) eqn:E; [left; by exists c |]. right. intros (? & [= <-] & ?). congruence.
Defined.
#[export] Instance good_label_dec l : Decision (good_label l).
Proof. unfold good_label. apply _. Defined.

Lemma alnum_label c : alnum c = true -> label_byte c = true.
Proof. unfold alnum, label_byte. intros [-> | ->]%orb_true_iff; [done |]. by rewrite !orb_true_r. Qed.

Lemma alnum_not c : alnum c = true -> c <> "-"%byte /\ c <> "."%byte.
Proof. intros H. split; intros ->; vm_compute in H; done. Qed.

Lemma good_label_app a b (m : bytes) :
  good_label a -> good_label b -> Forall (fun c => label_byte c = true) m -> good_label (a ++ m ++ b).
Proof.
  intros (Ha & (ca & Hh & Hca) & _) (Hb & _ & (cb & Hl & Hcb)) Hm. split_and!.
  - rewrite !Forall_app. done.
  - exists ca. destruct a; [done |]. done.
  - exists cb. rewrite !last_app, Hl. done.
Qed.

Lemma digits_good l : l <> [] -> Forall (fun c => is_digit c = true) l -> good_label l.
Proof.
  intros Hne H. assert (Hal : Forall (fun c => alnum c = true) l).
  { eapply Forall_impl; [exact H |]. intros c Hc. unfold alnum. by rewrite Hc, orb_true_r. }
  split_and!.
  - eapply Forall_impl; [exact Hal | apply alnum_label].
  - destruct l as [|c l]; [done |]. exists c. by inversion Hal.
  - destruct (last l) as [c|] eqn:E; [| by apply last_None in E].
    exists c. split; [done |]. rewrite Forall_forall in Hal. apply Hal. by apply last_Some_elem_of.
Qed.

Lemma good_label_ok l : good_label l -> len l <= 63 -> label_ok l = true.
Proof.
  intros (Hf & (c & Hh & Hc) & (d & Hl & Hd)) H63. unfold label_ok.
  destruct (alnum_not c Hc) as [Hc' _], (alnum_not d Hd) as [Hd' _].
  rewrite Hh, Hl, !bool_decide_false by congruence. rewrite (proj2 (Z.ltb_ge _ _)) by lia.
  destruct l as [|b l]; [done |]. rewrite (proj2 (Z.eqb_neq _ _)) by (rewrite len_cons; pose proof (len_nonneg l); lia).
  cbn [orb negb andb]. apply forallb_forall. intros x Hx. rewrite Forall_forall in Hf.
  by apply Hf, list_elem_of_In.
Qed.

(** A name that starts with a letter above ['f'] or has a dot before any
    colon is no address unless it starts with a digit. *)
Lemma ParseIP_name (l rest : bytes) :
  good_label l -> (exists c, head l = Some c /\ is_digit c = false) ->
  ParseIP (l ++ "."%byte :: rest) = None.
Proof.
  intros (Hf & _) (c & Hh & Hc). unfold ParseIP.
  assert (Hk : addr_kind (l ++ "."%byte :: rest) = Some "."%byte).
  { clear Hh Hc. induction l as [|x l IH]; [done |]. inversion Hf as [| ? ? Hx Hf']; subst. cbn.
    rewrite bool_decide_false; [by apply IH |].
    intros Hin. rewrite !elem_of_cons, elem_of_nil in Hin.
    destruct Hin as [-> | [-> | [-> | []]]]; vm_compute in Hx; done. }
  rewrite Hk, bool_decide_true by done. destruct l as [|x l]; [done |]. cbn in Hh. simplify_eq.
  unfold parse_v4_fields. cbn [app v4_loop]. rewrite Hc.
  inversion Hf as [| ? ? Hx _]; subst. rewrite bool_decide_false by (intros ->; vm_compute in Hx; done). done.
Qed.

Lemma good_no_dot l : good_label l -> "."%byte ∉ l.
Proof.
  intros (Hf & _) Hin. rewrite Forall_forall in Hf. specialize (Hf _ Hin). vm_compute in Hf. done.
Qed.

(** Labels joined by dots: a valid name when each is, and the first does not
    begin with a digit. *)
Lemma valid_labels l ls :
  Forall (fun l => good_label l /\ len l <= 63) (l :: ls) -> ls <> [] ->
  (exists c, head l = Some c /\ is_digit c = false) -> len (join "." (l :: ls)) <= 253 ->
  isValidHostname (join "." (l :: ls)) = true.
Proof.
  intros Hall Hls Hd Hlen. inversion Hall as [| ? ? [Hl _] Hrest]; subst.
  assert (Hj : join "." (l :: ls) = l ++ "."%byte :: join "." ls) by (by destruct ls).
  assert (Hsplit : forall ws, Forall (fun l => good_label l /\ len l <= 63) ws -> ws <> [] ->
    split_on "." (join "." ws) = ws).
  { induction ws as [|w ws IH]; intros H Hne; [done |]. inversion H as [| ? ? [Hw _] Hws]; subst.
    destruct ws as [|w2 ws]; [by apply split_on_single, good_no_dot |].
    change (join "." (w :: w2 :: ws)) with (w ++ "."%byte :: join "." (w2 :: ws)).
    rewrite split_on_app by (by apply good_no_dot). by rewrite IH. }
  unfold isValidHostname. rewrite Hj, ParseIP_name by done. rewrite <-Hj, Hsplit by done.
  rewrite (proj2 (Z.ltb_ge _ _)) by lia.
  destruct l as [|c l]; [destruct Hd as (? & ? & _); done |].
  rewrite (proj2 (Z.eqb_neq _ _)).
  2: { rewrite Hj. cbn [app]. rewrite len_cons. pose proof (len_nonneg (l ++ "."%byte :: join "." ls)). lia. }
  cbn [orb]. apply forallb_forall. intros x Hx. rewrite Forall_forall in Hall.
  destruct (Hall x) as [Hg H63]; [by apply list_elem_of_In |]. by apply good_label_ok.
Qed.

(** ** The synthetic names are valid *)

Lemma draw_in {A} (d : A) n l raw : n = len l -> 0 < n -> default d (at_ (intN n raw) l) ∈ l.
Proof.
  intros -> Hn. unfold intN. pose proof (Z.mod_pos_bound raw (len l) Hn).
  destruct (at_Some (raw mod len l) l) as [x Hx]; [lia |]. rewrite Hx. cbn.
  unfold at_ in Hx. case_match; [| done]. by apply list_elem_of_lookup_2 in Hx.
Qed.

(** Text to put in front of a good label. *)
Definition letters (p : bytes) : Prop := Forall (fun c => is_lower c = true) p /\ p <> [].
#[export] Instance letters_dec p : Decision (letters p).
Proof. unfold letters. apply _. Defined.

Lemma cities_ok r : r ∈ cdnCities -> good_label r /\ len r <= 3 /\ letters r.
Proof.
  assert (H : Forall (fun r => good_label r /\ len r <= 3 /\ letters r) cdnCities)
    by (by_decision).
  rewrite Forall_forall in H. apply H.
Qed.

Lemma apexes_ok a : a ∈ edgeApexes ->
  exists ls, a = join "." ls /\ ls <> [] /\ Forall (fun l => good_label l /\ len l <= 63) ls /\ len a <= 30.
Proof.
  assert (H : Forall (fun a => Forall (fun l => good_label l /\ len l <= 63) (split_on "." a) /\ len a <= 30)
    edgeApexes) by (by_decision).
  rewrite Forall_forall in H. intros Ha. destruct (H a Ha) as [Hl H30]. exists (split_on "." a).
  split_and!; [by rewrite join_split | apply split_on_not_nil | done | done].
Qed.

Lemma number_ok raw : good_label (itoa (intN 999 raw + 1)) /\ len (itoa (intN 999 raw + 1)) <= 20.
Proof.
  assert (0 <= intN 999 raw < 999) by (apply Z.mod_pos_bound; lia). split.
  - destruct (itoa_spec (intN 999 raw + 1)) as (_ & H1 & H2); [lia |]. by apply digits_good.
  - unfold len. pose proof (itoa_len (intN 999 raw + 1)). lia.
Qed.

(** Two or three labels in front of an apex. *)
Lemma name_valid l a : good_label l -> len l <= 63 -> (exists c, head l = Some c /\ is_digit c = false) ->
  a ∈ edgeApexes -> isValidHostname (l ++ go! "." ++ a) = true.
Proof.
  intros Hl H63 Hd (ls & -> & Hne & Hls & H30)%apexes_ok.
  replace (l ++ go! "." ++ join "." ls) with (join "." (l :: ls)) by (by destruct ls).
  apply valid_labels; [by constructor | done | done |].
  replace (join "." (l :: ls)) with (l ++ go! "." ++ join "." ls) by (by destruct ls).
  rewrite !len_app. change (len (go! ".")) with 1. lia.
Qed.

Lemma name3_valid l r a : good_label l -> len l <= 63 -> (exists c, head l = Some c /\ is_digit c = false) ->
  good_label r -> len r <= 63 -> a ∈ edgeApexes -> isValidHostname (l ++ go! "." ++ r ++ go! "." ++ a) = true.
Proof.
  intros Hl H63 Hd Hr Hr63 (ls & -> & Hne & Hls & H30)%apexes_ok.
  replace (l ++ go! "." ++ r ++ go! "." ++ join "." ls) with (join "." (l :: r :: ls)) by (by destruct ls).
  apply valid_labels; [by apply Forall_cons_2; [| apply Forall_cons_2] | done | done |].
  replace (join "." (l :: r :: ls)) with (l ++ go! "." ++ r ++ go! "." ++ join "." ls) by (by destruct ls).
  rewrite !len_app. change (len (go! ".")) with 1. lia.
Qed.

Lemma glue p (m b : bytes) : letters p -> good_label b -> Forall (fun c => label_byte c = true) m ->
  good_label (p ++ m ++ b) /\ exists c, head (p ++ m ++ b) = Some c /\ is_digit c = false.
Proof.
  intros [Hp Hne] Hb Hm. destruct p as [|c p]; [done |]. inversion Hp as [| ? ? Hc _]; subst.
  assert (Hg : good_label (c :: p)).
  { assert (Hal : Forall (fun c => alnum c = true) (c :: p)).
    { eapply Forall_impl; [exact Hp |]. intros x Hx. unfold alnum. by rewrite Hx. }
    split_and!.
    - eapply Forall_impl; [exact Hal | apply alnum_label].
    - exists c. by inversion Hal.
    - destruct (last (c :: p)) as [d|] eqn:E; [| by apply last_None in E].
      exists d. split; [done |]. rewrite Forall_forall in Hal. apply Hal. by apply last_Some_elem_of. }
  split; [by apply good_label_app |]. exists c. split; [done |].
  destruct (is_digit c) eqn:E; [| done]. unfold is_lower, is_digit, ch in *. bool_facts.
  change (b2z "a") with 97 in *. change (b2z "9") with 57 in *. lia.
Qed.

(** Every name [generateSyntheticCN] can produce, for every value of its
    draws, is a valid host name in the sense of the check of the [-sni] flag
    (and so no IP literal): a server with a self-signed certificate never
    refuses its own default SNI, and a persisted name is taken up again. *)
Lemma synthetic_valid d : isValidHostname (generateSyntheticCN d) = true.
Proof.
  unfold generateSyntheticCN.
  pose proof (cities_ok _ (draw_in [] (len cdnCities) cdnCities (cn_city d) eq_refl ltac:(done))) as (Hr & Hrl & Hrp).
  pose proof (draw_in [] (len edgeApexes) edgeApexes (cn_apex d) eq_refl ltac:(done)) as Ha.
  pose proof (number_ok (cn_num d)) as [Hn Hnl].
  set (r := default _ _) in *. set (a := default _ (at_ _ edgeApexes)) in *. set (n := itoa _) in *.
  assert (Hdash : Forall (fun c => label_byte c = true) (go! "-")) by (by repeat constructor).
  assert (Hnb : Forall (fun c => label_byte c = true) n) by apply Hn.
  assert (Hrb : Forall (fun c => label_byte c = true) r) by apply Hr.
  assert (HG : forall p m b, letters p -> good_label b -> Forall (fun c => label_byte c = true) m ->
    len (p ++ m ++ b) <= 63 -> isValidHostname ((p ++ m ++ b) ++ go! "." ++ a) = true).
  { intros p m b Hp Hb Hm H63. destruct (glue p m b Hp Hb Hm). by apply name_valid. }
  assert (Hc : forall p, letters p -> Forall (fun c => label_byte c = true) p).
  { intros p [Hp _]. eapply Forall_impl; [exact Hp |]. intros c Hx. apply alnum_label. unfold alnum. by rewrite Hx. }
  assert (H2 : forall p b, letters p -> good_label b -> len p <= 5 -> len b <= 20 ->
    good_label (p ++ b) /\ len (p ++ b) <= 63 /\ exists c, head (p ++ b) = Some c /\ is_digit c = false).
  { intros p b Hp Hb H5 H20. destruct (glue p [] b Hp Hb) as [??]; [constructor |].
    split_and!; [done | rewrite len_app; lia | done]. }
  repeat case_match.
  - specialize (HG (go! "srv") (n ++ go! "-") r ltac:(by_decision) Hr). rewrite <-!app_assoc in HG; rewrite <-?app_assoc.
    apply HG; [by apply Forall_app |]. rewrite !len_app. change (len (go! "srv")) with 3. change (len (go! "-")) with 1. lia.
  - specialize (HG (go! "node") (go! "-" ++ r ++ go! "-") n ltac:(by_decision) Hn).
    rewrite <-!app_assoc in HG; rewrite <-?app_assoc. apply HG; [by rewrite !Forall_app |].
    rewrite !len_app. change (len (go! "node")) with 4. change (len (go! "-")) with 1. lia.
  - destruct (H2 (go! "host") n ltac:(by_decision) Hn ltac:(done) Hnl) as (? & ? & ?).
    rewrite app_assoc. apply name3_valid; [done.. | lia | done].
  - specialize (HG (go! "edge") (go! "-" ++ r) n ltac:(by_decision) Hn).
    rewrite <-!app_assoc in HG; rewrite <-?app_assoc. apply HG; [by rewrite !Forall_app |].
    rewrite !len_app. change (len (go! "edge")) with 4. change (len (go! "-")) with 1. lia.
  - specialize (HG r (go! "-gw") n Hrp Hn). rewrite <-!app_assoc in HG; rewrite <-?app_assoc.
    apply HG; [by repeat constructor |]. rewrite !len_app. change (len (go! "-gw")) with 3. lia.
  - destruct (H2 (go! "vm") n ltac:(by_decision) Hn ltac:(done) Hnl) as (? & ? & ?).
    rewrite app_assoc. apply name3_valid; [done.. | lia | done].
  - specialize (HG (go! "pop") (go! "-" ++ r ++ go! "-") n ltac:(by_decision) Hn).
    rewrite <-!app_assoc in HG; rewrite <-?app_assoc. apply HG; [by rewrite !Forall_app |].
    rewrite !len_app. change (len (go! "pop")) with 3. change (len (go! "-")) with 1. lia.
  - specialize (HG (go! "n") (n ++ go! "-") r ltac:(by_decision) Hr). rewrite <-!app_assoc in HG; rewrite <-?app_assoc.
    apply HG; [by apply Forall_app |]. rewrite !len_app. change (len (go! "n")) with 1. change (len (go! "-")) with 1. lia.
Qed.
