(* ===== verification/Certificate.v ===== *)
(** * The self-signed certificate ([cdnOrgPool],
    [generateSelfSignedCertWithCN] of cmd/mxtr-server/main.go)

    The template that [x509.CreateCertificate] signs. Key generation, the
    random numbers and the signature are arguments. Times in nanoseconds. *)

From S2P Require Import Prelude GoStrings GoNet Padding Allowlist Hostnames.

Definition cdnOrgPool : list bytes := [
  go! "Edge Networks, Ltd."; go! "Internet Services Inc."; go! "Cloud Distribution AG";
  go! "Hyperion Hosting GmbH"; go! "Datacore Solutions LLC"; go! "Netregion B.V.";
  go! "Core Hosting s.r.o."; go! "VM Cloud Holdings"; go! "Server Networks Ltd.";
  go! "DC Nodes Inc."].

Definition hour : Z := 3600 * 10 ^ 9.

(** Of package x509. *)
Definition KeyUsageDigitalSignature : Z := 1.
Definition KeyUsageKeyEncipherment : Z := 4.
Inductive ext_key_usage := ExtKeyUsageServerAuth.

Record template := Template {
  SerialNumber : Z;
  CommonName : bytes;
  Organization : list bytes;
  NotBefore : Z;
  NotAfter : Z;
  KeyUsage : Z;
  ExtKeyUsage : list ext_key_usage;
  DNSNames : list bytes;
}.

(** What the run contributes: whether [ecdsa.GenerateKey] works, the draw of
    the organisation, the number of [rand.Int] before it is reduced ([None]:
    the source fails), what the two calls of [time.Now] return, and the signed
    certificate. *)
Record cert_env := CertEnv {
  ce_key : bool;
  ce_org : Z;
  ce_serial : option Z;
  ce_now1 : Z;                       (* for NotBefore *)
  ce_now2 : Z;                       (* for NotAfter *)
  CreateCertificate : template -> option bytes;
}.

Definition template_of (e : cert_env) (serial : Z) (cn : bytes) : template :=
  let org := default [] (at_ (intN (len cdnOrgPool) (ce_org e)) cdnOrgPool) in
  Template (serial mod Z.shiftl 1 128 + 1) cn [org] (ce_now1 e + -7 * 24 * hour) (ce_now2 e + 90 * 24 * hour)
    (Z.lor KeyUsageDigitalSignature KeyUsageKeyEncipherment) [ExtKeyUsageServerAuth] [cn].

(** The certificate with its template, and the name. *)
Definition generateSelfSignedCertWithCN (e : cert_env) (cn : bytes) : option (template * bytes * bytes) :=
  if negb (ce_key e) then None else
  serial ← ce_serial e;
  let t := template_of e serial cn in
  der ← CreateCertificate e t;
  Some (t, der, cn).

(** [x509.CreateCertificate] encodes times in whole seconds: the fraction is
    cut off. *)
Definition seconds (t : Z) : Z := t / 10 ^ 9 * 10 ^ 9.

(** The validity period of the certificate, as a client with its clock at [now]
    checks it. *)
Definition valid_at (now : Z) (t : template) : bool :=
  (seconds (NotBefore t) <=? now) && (now <=? seconds (NotAfter t)).

Lemma seconds_hours t k : seconds (t + k * 24 * hour) = seconds t + k * 24 * hour.
Proof.
  unfold seconds, hour. replace (t + k * 24 * (3600 * 10 ^ 9)) with (t + (k * 24 * 3600) * 10 ^ 9) by ring.
  rewrite Z.div_add by done. ring.
Qed.

Lemma seconds_le t : seconds t <= t < seconds t + 10 ^ 9.
Proof. unfold seconds. zdivlia. Qed.

(** ** What the certificate says *)

Lemma itoa_short n : 1 <= n <= 999 -> len (itoa n) <= 3.
Proof.
  intros Hn. assert (Ha : forallb (fun k => len (itoa (Z.of_nat k)) <=? 3) (seq 1 999) = true) by (vm_compute; reflexivity).
  rewrite forallb_forall in Ha. specialize (Ha (Z.to_nat n)). rewrite Z2Nat.id in Ha by lia.
  apply Z.leb_le, Ha, list_elem_of_In, elem_of_seq. lia.
Qed.

Lemma apex_short a : a ∈ edgeApexes -> len a <= 21.
Proof.
  assert (Ha : Forall (fun a => len a <= 21) edgeApexes) by by_decision. rewrite Forall_forall in Ha. apply Ha.
Qed.

(** X.520 allows a common name 64 characters. *)
Lemma synthetic_short d : len (generateSyntheticCN d) <= 64.
Proof.
  unfold generateSyntheticCN.
  pose proof (apex_short _ (draw_in [] (len edgeApexes) edgeApexes (cn_apex d) eq_refl ltac:(done))) as Ha.
  destruct (cities_ok _ (draw_in [] (len cdnCities) cdnCities (cn_city d) eq_refl ltac:(done))) as (_ & Hr & _).
  pose proof (itoa_short (intN 999 (cn_num d) + 1)) as Hn.
  assert (H9 : 1 <= intN 999 (cn_num d) + 1 <= 999).
  { unfold intN. pose proof (Z.mod_pos_bound (cn_num d) 999). lia. }
  specialize (Hn H9). revert Ha Hr Hn. generalize (itoa (intN 999 (cn_num d) + 1)).
  generalize (default [] (at_ (intN (len cdnCities) (cn_city d)) cdnCities)).
  generalize (default [] (at_ (intN (len edgeApexes) (cn_apex d)) edgeApexes)). intros a r n Ha Hr Hn.
  repeat match goal with |- context [if ?b then _ else _] => destruct b end; rewrite !len_app; unfold len in *; cbn; lia.
Qed.

Lemma org_in raw : default [] (at_ (intN (len cdnOrgPool) raw) cdnOrgPool) ∈ cdnOrgPool.
Proof. by apply (draw_in []). Qed.

(** [C37] The certificate of a fresh server is one a client could accept: for a
    name [generateSyntheticCN] has drawn, the template has a positive serial
    number of at most 17 bytes, an organisation of the pool, the name as its
    common name, within the length X.520 allows, and as its only DNS name, a
    valid host name; it is good for server authentication, and valid from a
    week before the first reading of the clock to ninety days after the second,
    both cut to the second, and at no other time. *)
Theorem self_signed_well_formed e d t der name :
  generateSelfSignedCertWithCN e (generateSyntheticCN d) = Some (t, der, name) ->
  name = generateSyntheticCN d /\ CreateCertificate e t = Some der /\
  1 <= SerialNumber t <= 2 ^ 128 /\ (exists org, Organization t = [org] /\ org ∈ cdnOrgPool) /\
  CommonName t = name /\ DNSNames t = [name] /\ len name <= 64 /\ isValidHostname name = true /\
  ExtKeyUsage t = [ExtKeyUsageServerAuth] /\ Z.testbit (KeyUsage t) 0 = true /\
  (forall now, valid_at now t = true <->
     seconds (ce_now1 e) - 7 * 24 * hour <= now <= seconds (ce_now2 e) + 90 * 24 * hour).
Proof.
  unfold generateSelfSignedCertWithCN. destruct (ce_key e); cbn [negb]; [| done].
  destruct (ce_serial e) as [s|]; [| done]. cbn [mbind option_bind].
  destruct (CreateCertificate e _) as [x|] eqn:Ec; [| done]. cbn [mbind option_bind]. intros [= <- <- <-].
  pose proof (Z.mod_pos_bound s (2 ^ 128) ltac:(done)) as Hs. split_and!; try done.
  - cbn [template_of SerialNumber]. change (Z.shiftl 1 128) with (2 ^ 128). lia.
  - cbn [template_of SerialNumber]. change (Z.shiftl 1 128) with (2 ^ 128). lia.
  - eexists. split; [done | apply org_in].
  - apply synthetic_short.
  - apply synthetic_valid.
  - intros now. unfold valid_at. cbn [template_of NotBefore NotAfter].
    rewrite andb_true_iff, !Z.leb_le, !seconds_hours. lia.
Qed.

(** A process serves the certificate of its start for as long as it runs: after
    ninety days it is one no client that checks it would accept. *)
Theorem self_signed_expires e cn t der name now :
  generateSelfSignedCertWithCN e cn = Some (t, der, name) -> ce_now2 e + 90 * 24 * hour < now -> valid_at now t = false.
Proof.
  unfold generateSelfSignedCertWithCN. destruct (ce_key e); cbn [negb]; [| done].
  destruct (ce_serial e) as [s|]; [| done]. cbn [mbind option_bind].
  destruct (CreateCertificate e _) as [x|]; [| done]. cbn [mbind option_bind]. intros [= <- <- <-] Hn.
  unfold valid_at. cbn [template_of NotBefore NotAfter]. rewrite !seconds_hours.
  pose proof (seconds_le (ce_now2 e)). rewrite (proj2 (Z.leb_gt now _)) by lia. apply andb_false_r.
Qed.

(** ** Witnesses *)

Module CertWitness.
Definition env : cert_env := CertEnv true 3 (Some (2 ^ 128 - 1)) (20000 * 24 * hour + 7)
  (20000 * 24 * hour + 10 ^ 9 + 9) (fun t => Some (CommonName t)).
Definition draws : cn_draws := CnDraws 4 998 6 1.
Definition cert : template * bytes * bytes :=
  default (template_of env 0 [], [], []) (generateSelfSignedCertWithCN env (generateSyntheticCN draws)).
End CertWitness.

Lemma self_signed_well_formed_witness :
  SerialNumber CertWitness.cert.1.1 = 2 ^ 128 /\ DNSNames CertWitness.cert.1.1 = [CertWitness.cert.2] /\
  isValidHostname CertWitness.cert.2 = true /\ valid_at (20089 * 24 * hour) CertWitness.cert.1.1 = true.
Proof.
  destruct (self_signed_well_formed CertWitness.env CertWitness.draws CertWitness.cert.1.1 CertWitness.cert.1.2 CertWitness.cert.2)
    as (_ & _ & _ & _ & _ & H1 & _ & H2 & _ & _ & H3).
  - vm_compute. reflexivity.
  - split; [vm_compute; reflexivity |]. split; [exact H1 |]. split; [exact H2 |]. apply H3. vm_compute. split; discriminate.
Defined.

Lemma self_signed_expires_witness : valid_at (20091 * 24 * hour) CertWitness.cert.1.1 = false.
Proof.
  apply (self_signed_expires CertWitness.env (generateSyntheticCN CertWitness.draws) CertWitness.cert.1.1 CertWitness.cert.1.2 CertWitness.cert.2).
  - vm_compute. reflexivity.
  - vm_compute. reflexivity.
Defined.
