(* ===== verification/Logger.v ===== *)
(** * Logging (cmd/mxtr-server/logger.go)

    The level gate, the slog handler that [configureLogger] installs, and the
    standard [log] package, whose output [slog.SetDefault] redirects into that
    handler at level Info. A message is one constructor of [event] per log
    call of the start-up code, with the arguments of the call. *)

From S2P Require Import Prelude GoStrings Allowlist.

Inductive LogLevel := LogOff | LogError | LogWarn | LogInfo | LogDebug.
#[export] Instance LogLevel_eq_dec : EqDecision LogLevel.
Proof. solve_decision. Defined.

(** The constants are an [iota]. *)
Definition level_num (l : LogLevel) : Z :=
  match l with LogOff => 0 | LogError => 1 | LogWarn => 2 | LogInfo => 3 | LogDebug => 4 end.

Definition parseLogLevel `{UnicodeTables} (s : bytes) : option LogLevel :=
  let t := to_lower (trim_space s) in
  let named w := bool_decide (t = w) in
  if named (go! "off") || named (go! "none") || named (go! "silent") then Some LogOff
  else if named (go! "error") || named (go! "err") then Some LogError
  else if named (go! "warn") || named (go! "warning") then Some LogWarn
  else if named (go! "info") then Some LogInfo
  else if named (go! "debug") || named (go! "trace") then Some LogDebug
  else None.

(** ** Messages *)

Inductive fatal :=
  | FBadLogLevel (s : bytes)
  | FRand
  | FBadHex
  | FShortPSK
  | FKeyMissing
  | FLoadCert
  | FSelfSigned
  | FPublicIP (host : bytes)
  | FSni (name : bytes).

Inductive event :=
  | EvAllowIgnored (entry : bytes)
  | EvAllowlist (l : list allowEntry)
  | EvStarting
  | EvPskLoaded (file : bytes)
  | EvPskNotPersisted (file : bytes)
  | EvPskPersisted (file : bytes)
  | EvCloakReused (idx : Z)
  | EvCloakUnparseable (path s : bytes)
  | EvCloakNotPersisted (path : bytes)
  | EvCloakPersisted (rotate : bool) (idx : Z) (path : bytes)
  | EvCnReused (cn : bytes)
  | EvCnInvalid (cn : bytes)
  | EvCnNotPersisted (path : bytes)
  | EvCnPersisted (rotate : bool) (cn path : bytes)
  | EvConfig (family : Z)
  | EvRealCert (cn : bytes)
  | EvSelfSigned (cn : bytes)
  | EvAutoIP (host : bytes)
  | EvShareString (s : bytes)
  | EvFatal (f : fatal).

(** ** Where a message goes *)

(** slog's severities. *)
Definition slogInfo : Z := 0.
Definition slogWarn : Z := 4.
Definition slogError : Z := 8.

(** The handler of the default slog logger: the one of the [log] package before
    [configureLogger] (it prints from Info up), then a text handler with a
    threshold on standard error, or on [discardWriter]. *)
Inductive handler := HDefault | HText (threshold : Z) | HDiscard (threshold : Z).

Record logger := Logger {
  currentLogLevel : LogLevel;
  lg_handler : handler;
  lg_out : list event;  (** what standard error has received *)
}.

Definition fresh_logger : logger := Logger LogInfo HDefault [].

Definition configureLogger (level : LogLevel) (g : logger) : logger :=
  Logger level
    (match level with
     | LogOff => HDiscard (slogError + 100)
     | LogError => HText slogError
     | LogWarn => HText slogWarn
     | LogInfo => HText slogInfo
     | LogDebug => HText (-4)
     end) (lg_out g).

Definition emit (ev : event) (g : logger) : logger :=
  Logger (currentLogLevel g) (lg_handler g) (lg_out g ++ [ev]).

Definition slog_log (severity : Z) (ev : event) (g : logger) : logger :=
  match lg_handler g with
  | HDefault => if slogInfo <=? severity then emit ev g else g
  | HText t => if t <=? severity then emit ev g else g
  | HDiscard _ => g
  end.

Definition logEnabled (level : LogLevel) (g : logger) : bool :=
  level_num level <=? level_num (currentLogLevel g).

Definition logWarnf (ev : event) (g : logger) : logger :=
  if logEnabled LogWarn g then slog_log slogWarn ev g else g.
Definition logInfof (ev : event) (g : logger) : logger :=
  if logEnabled LogInfo g then slog_log slogInfo ev g else g.
Definition logErrorf (ev : event) (g : logger) : logger :=
  if logEnabled LogError g then slog_log slogError ev g else g.

(** [log.Fatal]: straight to standard error, or through the slog handler at
    level Info once [slog.SetDefault] was called. *)
Definition log_Fatal (f : fatal) (g : logger) : logger :=
  match lg_handler g with
  | HDefault => emit (EvFatal f) g
  | HText t => if t <=? slogInfo then emit (EvFatal f) g else g
  | HDiscard _ => g
  end.

(** ** Properties *)

(** The names that select a level, up to case and surrounding space. *)
Definition level_names : list (bytes * LogLevel) :=
  [(go! "off", LogOff); (go! "none", LogOff); (go! "silent", LogOff); (go! "error", LogError);
   (go! "err", LogError); (go! "warn", LogWarn); (go! "warning", LogWarn); (go! "info", LogInfo);
   (go! "debug", LogDebug); (go! "trace", LogDebug)].

Definition reaches (g g' : logger) (ev : event) : Prop := lg_out g' = lg_out g ++ [ev].

(** The two gates in series of a configured logger (the level test of the
    helpers and the threshold of the slog handler) agree: an error, warning or
    informational message reaches standard error exactly when the configured
    level is at least Error, Warn or Info, and changes nothing otherwise. The
    message of a [log.Fatal] passes through the same handler at level Info: it
    is lost unless the level is Info or Debug, so with [-log-level=warn],
    [error] or [off] the process exits without saying why. *)
Theorem configured_logger_output level g0 ev f :
  let g := configureLogger level g0 in
  (if bool_decide (level = LogOff) then logErrorf ev g = g else reaches g (logErrorf ev g) ev) /\
  (if bool_decide (level = LogOff \/ level = LogError) then logWarnf ev g = g else reaches g (logWarnf ev g) ev) /\
  (if bool_decide (level = LogInfo \/ level = LogDebug) then reaches g (logInfof ev g) ev else logInfof ev g = g) /\
  (if bool_decide (level = LogInfo \/ level = LogDebug) then reaches g (log_Fatal f g) (EvFatal f)
   else log_Fatal f g = g).
Proof. by destruct level. Qed.

(** What a log call may have written. *)
Lemma logInfof_out ev g : logInfof ev g = g \/ logInfof ev g = emit ev g.
Proof. unfold logInfof, slog_log. repeat case_match; auto. Qed.
Lemma logWarnf_out ev g : logWarnf ev g = g \/ logWarnf ev g = emit ev g.
Proof. unfold logWarnf, slog_log. repeat case_match; auto. Qed.

Lemma logInfof_quiet ev g : level_num (currentLogLevel g) < 3 -> logInfof ev g = g.
Proof.
  intros H. unfold logInfof, logEnabled. change (level_num LogInfo) with 3.
  by rewrite (proj2 (Z.leb_gt _ _)).
Qed.
Lemma logWarnf_quiet ev g : level_num (currentLogLevel g) < 2 -> logWarnf ev g = g.
Proof.
  intros H. unfold logWarnf, logEnabled. change (level_num LogWarn) with 2.
  by rewrite (proj2 (Z.leb_gt _ _)).
Qed.
