(* ===== verification/GoOS.v ===== *)
(** * Files and paths (what the start-up code uses of [os] and [path/filepath])

    A Unix file system: directory entries over inodes, with what is known to be
    on the device; system calls that may fail, between which other processes
    act; every call of the program recorded, so that a crash can be placed
    between any two. *)

From S2P Require Import Prelude GoStrings Hostnames Logger.

(** ** [path/filepath] on Unix *)

Fixpoint clean_go (rooted : bool) (out comps : list bytes) : list bytes :=
  match comps with
  | [] => rev out
  | c :: rest =>
      if bool_decide (c = [] \/ c = go! ".") then clean_go rooted out rest
      else if bool_decide (c = go! "..") then
        match out with
        | d :: out' => if bool_decide (d = go! "..") then clean_go rooted (c :: out) rest
                       else clean_go rooted out' rest
        | [] => clean_go rooted (if rooted then [] else [c]) rest
        end
      else clean_go rooted (c :: out) rest
  end.

Definition filepath_Clean (path : bytes) : bytes :=
  let rooted := bool_decide (head path = Some "/"%byte) in
  let r := (if rooted then go! "/" else []) ++ join "/" (clean_go rooted [] (split_on "/" path)) in
  if bool_decide (r = []) then go! "." else r.

Definition filepath_Dir (path : bytes) : bytes :=
  filepath_Clean (match last_index_byte "/" path with Some i => take (S i) path | None => [] end).

Definition filepath_Join (a b : bytes) : bytes :=
  if bool_decide (a = []) then (if bool_decide (b = []) then [] else filepath_Clean b)
  else filepath_Clean (a ++ go! "/" ++ b).

Example clean_examples :
  filepath_Dir (go! "./mxtr-psk.hex") = go! "." /\ filepath_Dir (go! "mxtr-psk.hex") = go! "." /\
  filepath_Dir (go! "/etc/mxtr/psk") = go! "/etc/mxtr" /\ filepath_Dir (go! "/psk") = go! "/" /\
  filepath_Join (go! ".") (go! "mxtr-cert.cn") = go! "mxtr-cert.cn" /\
  filepath_Clean (go! "a//./b/../../../c/") = go! "../c" /\ filepath_Clean (go! "/../a") = go! "/a".
Proof. by vm_compute. Qed.

(** ** The file system *)

Lemma byte_of_to_N b : default x00 (Byte.of_N (Byte.to_N b)) = b.
Proof. by rewrite Byte.of_to_N. Qed.
#[export] Instance byte_countable : Countable byte :=
  inj_countable' Byte.to_N (fun n => default x00 (Byte.of_N n)) byte_of_to_N.

Inductive entry := Hard (i : Z) | Sym (target : bytes) | Dir.
#[export] Instance entry_eq_dec : EqDecision entry.
Proof. solve_decision. Defined.

(** [i_synced]: the data as a whole is on the device. *)
Record inode := Inode { i_data : bytes; i_synced : bool; i_mode : Z }.

Record fs := Fs { fs_names : gmap bytes entry; fs_inodes : gmap Z inode }.

Definition new_ino (m : gmap Z inode) : Z := 1 + map_fold (fun i _ acc => Z.max i acc) 0 m.

Inductive oserr := EEXIST | ENOENT | ENOTDIR | EIO.

(** One system call: what other processes did before it, whether it fails for
    a reason outside the model (permissions, space, a missing directory), and
    how far a failing call got. *)
Record tick := Tick { t_env : fs -> fs; t_ok : bool; t_n : nat }.
Definition calm : tick := Tick id true 0.

Record world := World {
  w_fs : fs;
  w_ticks : list tick;
  w_calls : list (fs * fs);  (** before and after each call of the program *)
  w_rand : list (option bytes);  (** the reads of crypto/rand, [None] an error *)
  w_cn : cn_draws;
  w_log : logger;
}.

Definition sys {A} (f : tick -> fs -> res oserr A * fs) : io world oserr A := fun w =>
  let t := hd calm (w_ticks w) in
  let before := t_env t (w_fs w) in
  let '(r, after) := f t before in
  (r, World after (tl (w_ticks w)) (w_calls w ++ [(before, after)]) (w_rand w) (w_cn w) (w_log w)).

(** Run on, keeping the error as a value. *)
Definition attempt {S E F A} (m : io S E A) : io S F (E + A) := fun s =>
  match m s with
  | (Ok a, s') => (Ok (inr a), s')
  | (Err e, s') => (Ok (inl e), s')
  | (Panic, s') => (Panic, s')
  end.

(** [os.OpenFile(path, O_CREATE|O_EXCL|O_WRONLY|O_NOFOLLOW, mode)]: any entry,
    a symbolic link included, makes it fail. *)
Definition os_OpenExcl (path : bytes) (mode : Z) : io world oserr Z :=
  sys (fun t s =>
    if negb (t_ok t) then (Err EIO, s) else
    match fs_names s !! path with
    | Some _ => (Err EEXIST, s)
    | None =>
        let i := new_ino (fs_inodes s) in
        (Ok i, Fs (<[path := Hard i]> (fs_names s)) (<[i := Inode [] false mode]> (fs_inodes s)))
    end).

(** [f.Write], [f.Sync] on the inode the descriptor holds. *)
Definition file_Write (i : Z) (data : bytes) : io world oserr unit :=
  sys (fun t s =>
    let put d := Fs (fs_names s)
      (alter (fun nd => Inode (i_data nd ++ d) false (i_mode nd)) i (fs_inodes s)) in
    if t_ok t then (Ok tt, put data) else (Err EIO, put (take (t_n t) data))).

Definition file_Sync (i : Z) : io world oserr unit :=
  sys (fun t s =>
    if t_ok t
    then (Ok tt, Fs (fs_names s) (alter (fun nd => Inode (i_data nd) true (i_mode nd)) i (fs_inodes s)))
    else (Err EIO, s)).

Definition os_Remove (path : bytes) : io world oserr unit :=
  sys (fun t s =>
    if negb (t_ok t) then (Err EIO, s) else
    match fs_names s !! path with
    | None => (Err ENOENT, s)
    | Some _ => (Ok tt, Fs (delete path (fs_names s)) (fs_inodes s))
    end).

(** [os.Rename]: replaces the entry of the new name whatever it is, except a
    directory; two names of one inode are left as they are (POSIX). *)
Definition same_inode (a b : entry) : bool :=
  match a, b with Hard i, Hard j => i =? j | _, _ => false end.

Definition rename_to (old new : bytes) (e : entry) (s : fs) : fs :=
  Fs (<[new := e]> (delete old (fs_names s))) (fs_inodes s).

Definition os_Rename (old new : bytes) : io world oserr unit :=
  sys (fun t s =>
    if negb (t_ok t) then (Err EIO, s) else
    match fs_names s !! old with
    | None => (Err ENOENT, s)
    | Some e =>
        match fs_names s !! new with
        | None => (Ok tt, rename_to old new e s)
        | Some Dir => (Err EEXIST, s)
        | Some d =>
            if bool_decide (e = Dir) then (Err ENOTDIR, s)
            else if same_inode e d then (Ok tt, s) else (Ok tt, rename_to old new e s)
        end
    end).

(** Opening for reading follows links, forty at most. *)
Fixpoint follow (fuel : nat) (s : fs) (path : bytes) : option bytes :=
  match fs_names s !! path with
  | Some (Hard i) => i_data <$> fs_inodes s !! i
  | Some (Sym target) => match fuel with S f => follow f s target | O => None end
  | Some Dir | None => None
  end.

Definition os_ReadFile (path : bytes) : io world oserr bytes :=
  sys (fun t s =>
    if negb (t_ok t) then (Err EIO, s) else
    match follow 40 s path with Some d => (Ok d, s) | None => (Err ENOENT, s) end).

(** [os.MkdirAll]: the prefixes of a path that are missing, shortest first, up
    to the first that is a file. *)
Definition dir_prefixes (dir : bytes) : list bytes :=
  filter (fun p => p <> []) ((fun k => join "/" (take k (split_on "/" dir))) <$> seq 1 (length (split_on "/" dir))).

Fixpoint mkdirs (ps : list bytes) (names : gmap bytes entry) : res oserr unit * gmap bytes entry :=
  match ps with
  | [] => (Ok tt, names)
  | p :: ps' =>
      match names !! p with
      | None => mkdirs ps' (<[p := Dir]> names)
      | Some (Hard _) => (Err ENOTDIR, names)
      | Some _ => mkdirs ps' names
      end
  end.

Definition os_MkdirAll (dir : bytes) : io world oserr unit :=
  sys (fun t s =>
    let ps := dir_prefixes dir in
    if t_ok t then let '(r, names) := mkdirs ps (fs_names s) in (r, Fs names (fs_inodes s))
    else (Err EIO, Fs (mkdirs (take (t_n t) ps) (fs_names s)).2 (fs_inodes s))).

(** [rand.Read] into a buffer of [n] bytes. *)
Definition rand_Read (n : nat) : io world oserr bytes := fun w =>
  let w' := World (w_fs w) (w_ticks w) (w_calls w) (tl (w_rand w)) (w_cn w) (w_log w) in
  match hd (Some []) (w_rand w) with
  | None => (Err EIO, w')
  | Some b => (Ok (take n (b ++ replicate n x00)), w')
  end.

Definition logged {E} (f : logger -> logger) : io world E unit := fun w =>
  (Ok tt, World (w_fs w) (w_ticks w) (w_calls w) (w_rand w) (w_cn w) (f (w_log w))).

(** ** Basic facts *)

Lemma new_ino_fresh m : m !! new_ino m = None.
Proof.
  assert (H : forall i x, m !! i = Some x -> i <= map_fold (fun i _ acc => Z.max i acc) 0 m).
  { apply (map_fold_weak_ind (fun acc m => forall i x, m !! i = Some x -> i <= acc)); clear m.
    - intros i x Hi. by rewrite lookup_empty in Hi.
    - intros i x m acc _ IH j y Hj. destruct (decide (i = j)) as [-> | Hne]; [lia |].
      rewrite lookup_insert_ne in Hj by done. specialize (IH _ _ Hj). lia. }
  destruct (m !! new_ino m) eqn:E; [| done]. apply H in E. unfold new_ino in E. lia.
Qed.
