(* ===== verification/StreamFrame.v ===== *)
(** * Multiplexed frames ([writeStreamFrame] and the header parsing of the read
    loop in cmd/mxtr-server/session_v2.go)

    Inside one AEAD plaintext: a 4-byte stream id, a type byte, a 2-byte
    payload length and the payload. *)

From S2P Require Import Prelude GoIO Crypto Padding Frame.

Definition v2FrameHeader : Z := 7.

Definition v2TypeOpen : Z := 1.
Definition v2TypeData : Z := 2.
Definition v2TypeClose : Z := 3.
Definition v2TypePing : Z := 4.
Definition v2TypePong : Z := 5.
Definition v2TypeOpenOK : Z := 6.
Definition v2TypeOpenErr : Z := 7.
Definition v2TypeWindowUpdate : Z := 8.

Record stream_frame := SFrame { sf_id : Z; sf_type : Z; sf_payload : bytes }.

#[export] Instance stream_frame_eq_dec : EqDecision stream_frame.
Proof. solve_decision. Defined.

(** The largest payload of one frame. *)
Definition maxStreamPayload : Z := maxPlaintextSize - v2FrameHeader.

(** [inner] of [writeStreamFrame]. *)
Definition encode_stream_frame (sf : stream_frame) : bytes :=
  be_put 4 (sf_id sf) ++ [z2b (sf_type sf)] ++ be_put 2 (len (sf_payload sf)) ++ sf_payload sf.

Inductive sf_err :=
  | ShortFrame (n : Z)
  | PayloadLen (n : Z).

(** The checks and slices of the read loop, in order. *)
Definition parse_stream_frame (pt : bytes) : res sf_err stream_frame :=
  _ ← fail_if (len pt <? v2FrameHeader) (ShortFrame (len pt));
  idb ← must (slice 0 4 pt);
  ty ← must (at_ 4 pt);
  lb ← must (slice 5 7 pt);
  let payloadLen := be_get lb in
  _ ← fail_if (len pt - v2FrameHeader <? payloadLen) (PayloadLen payloadLen);
  payload ← must (slice v2FrameHeader (v2FrameHeader + payloadLen) pt);
  mret (SFrame (be_get idb) (b2z ty) payload).

(** What [writeStreamFrame] keeps of a session: the write counter (a uint64)
    and the two clocks. *)
Record sw_state := SWState {
  sw_seqWrite : Z;
  sw_lastWriteAt : Z;
  sw_lastActivity : Z;
  sw_frame : wstate;
}.

Inductive wsf_err := PayloadTooLarge | WriteFailed (e : frame_err).

Definition writeStreamFrame (a : aead) (o : wf_oracle) (now : Z) (sf : stream_frame)
  : io sw_state wsf_err unit := fun s =>
  if maxPlaintextSize - v2FrameHeader <? len (sf_payload sf) then (Err PayloadTooLarge, s) else
  let seq := sw_seqWrite s in
  let seq' := (seq + 1) mod 2 ^ 64 in
  match writeFrame a o seq (encode_stream_frame sf) (sw_frame s) with
  | (Ok _, w) => (Ok tt, SWState seq' now now w)
  | (Err e, w) => (Err (WriteFailed e), SWState seq' (sw_lastWriteAt s) (sw_lastActivity s) w)
  | (Panic, w) => (Panic, SWState seq' (sw_lastWriteAt s) (sw_lastActivity s) w)
  end.

(** A run of writes, stopping at the first failure. *)
Fixpoint writeStreamFrames (a : aead) (os : list (wf_oracle * Z)) (sfs : list stream_frame)
  : io sw_state wsf_err unit :=
  match sfs, os with
  | sf :: sfs', (o, now) :: os' =>
      _ ← writeStreamFrame a o now sf;
      writeStreamFrames a os' sfs'
  | _, _ => mret tt
  end.

Inductive loop_err :=
  | LoopRead (e : frame_err)
  | LoopParse (e : sf_err).

(** The read loop over a byte stream: the frames it dispatches, in order, and
    why it stops. [seqRead] is a uint64. *)
Fixpoint readStreamFrames (fuel : nat) (a : aead) (seqRead : Z) (r : reader)
  : list stream_frame * option loop_err :=
  match fuel with
  | O => ([], None)
  | S fuel' =>
      match readFrame a seqRead r with
      | (Ok pt, r') =>
          match parse_stream_frame pt with
          | Ok sf =>
              let '(sfs, e) := readStreamFrames fuel' a ((seqRead + 1) mod 2 ^ 64) r' in
              (sf :: sfs, e)
          | Err e => ([], Some (LoopParse e))
          | Panic => ([], None)
          end
      | (Err e, _) => ([], Some (LoopRead e))
      | (Panic, _) => ([], None)
      end
  end.

(** ** Header lemmas *)

(** A frame whose fields fit their wire widths. *)
Definition sf_ok (sf : stream_frame) : Prop :=
  0 <= sf_id sf < 2 ^ 32 /\ 0 <= sf_type sf < 256 /\ len (sf_payload sf) <= maxStreamPayload.

Lemma len_encode sf : len (encode_stream_frame sf) = v2FrameHeader + len (sf_payload sf).
Proof. unfold encode_stream_frame, v2FrameHeader. zlen. Qed.

Lemma parse_encode_wide sf pad :
  0 <= sf_id sf < 2 ^ 32 -> 0 <= sf_type sf < 256 -> len (sf_payload sf) < 2 ^ 16 ->
  parse_stream_frame (encode_stream_frame sf ++ pad) = Ok sf.
Proof.
  destruct sf as [i t p]. cbn [sf_id sf_type sf_payload]. intros Hi Ht Hp.
  unfold parse_stream_frame, fail_if, v2FrameHeader in *.
  rewrite (proj2 (Z.ltb_ge _ _)) by (rewrite len_app, len_encode; unfold v2FrameHeader; zlen).
  cbn [mbind res_bind]. unfold encode_stream_frame. cbn [sf_id sf_type sf_payload].
  set (w := (be_put 4 i ++ [z2b t] ++ be_put 2 (len p) ++ p) ++ pad).
  assert (E1 : slice 0 4 w = Some (be_put 4 i))
    by (unfold w; rewrite <-!app_assoc; apply slice_prefix; zlen).
  assert (E2 : at_ 4 w = Some (z2b t))
    by (unfold w; rewrite <-!app_assoc; apply at_mid; zlen).
  assert (E3 : slice 5 7 w = Some (be_put 2 (len p)))
    by (unfold w; rewrite <-!app_assoc, (app_assoc _ [_]); apply slice_mid; zlen).
  assert (E4 : slice 7 (7 + len p) w = Some p)
    by (unfold w; rewrite <-!app_assoc, (app_assoc [_]), (app_assoc (be_put 4 i)); apply slice_mid; zlen).
  assert (Hw : 7 + len p <= len w) by (unfold w; zlen).
  rewrite E1, E2, E3. cbn [must mbind res_bind].
  rewrite (be_get_put_small 2) by zlen. rewrite (proj2 (Z.ltb_ge _ _)) by lia.
  rewrite E4. cbn [must mbind res_bind mret res_ret].
  rewrite be_get_put_small by (change (256 ^ Z.of_nat 4) with (2 ^ 32); lia).
  by rewrite b2z_z2b, Z.mod_small.
Qed.

Lemma parse_encode sf pad :
  sf_ok sf -> parse_stream_frame (encode_stream_frame sf ++ pad) = Ok sf.
Proof.
  intros (Hi & Ht & Hp). apply parse_encode_wide; [done | done |].
  unfold maxStreamPayload, maxPlaintextSize, v2FrameHeader in Hp. lia.
Qed.

Lemma parse_Ok pt sf :
  parse_stream_frame pt = Ok sf ->
  sf_ok sf \/ maxPlaintextSize < len pt.
Proof.
  unfold parse_stream_frame, fail_if, mbind, res_bind, mret, res_ret.
  destruct (len pt <? v2FrameHeader) eqn:E1; bool_facts; [done |].
  destruct (slice 0 4 pt) as [idb|] eqn:Ei; [| done].
  destruct (at_ 4 pt) as [ty|] eqn:Et; [| done].
  destruct (slice 5 7 pt) as [lb|] eqn:El; [| done]. cbn [must].
  destruct (_ <? be_get lb) eqn:E2; bool_facts; [done |].
  destruct (slice v2FrameHeader _ pt) as [p|] eqn:Ep; [| done]. cbn [must]. intros [= <-].
  apply slice_len in Ei, El, Ep. pose proof (be_get_bound idb) as Hb. rewrite Ei in Hb.
  change (256 ^ (4 - 0)) with (2 ^ 32) in Hb.
  destruct (decide (maxPlaintextSize < len pt)); [by right | left].
  unfold sf_ok, maxStreamPayload, v2FrameHeader in *. cbn. pose proof (b2z_range ty). lia.
Qed.

Lemma parse_no_panic pt : parse_stream_frame pt <> Panic.
Proof.
  unfold parse_stream_frame, fail_if, mbind, res_bind, v2FrameHeader.
  destruct (len pt <? 7) eqn:E1; bool_facts; [done |].
  rewrite (slice_Some 0 4) by lia. destruct (at_Some 4 pt) as [t ->]; [lia |].
  rewrite (slice_Some 5 7) by lia. cbn [must].
  set (lb := take _ _). pose proof (be_get_nonneg lb).
  destruct (_ <? be_get lb) eqn:E2; bool_facts; [done |].
  rewrite slice_Some by lia. done.
Qed.

Lemma parse_sound pt sf :
  parse_stream_frame pt = Ok sf ->
  0 <= sf_id sf < 2 ^ 32 /\ 0 <= sf_type sf < 256 /\ len (sf_payload sf) < 2 ^ 16 /\
  exists pad, pt = encode_stream_frame sf ++ pad.
Proof.
  unfold parse_stream_frame, fail_if, mbind, res_bind, mret, res_ret, v2FrameHeader.
  destruct (len pt <? 7) eqn:E1; bool_facts; [done |].
  rewrite (slice_Some 0 4), (slice_Some 5 7) by lia.
  destruct (at_ 4 pt) as [ty|] eqn:Et; [| done]. cbn [must].
  change (Z.to_nat 0) with 0%nat. change (Z.to_nat (4 - 0)) with 4%nat.
  change (Z.to_nat 5) with 5%nat. change (Z.to_nat (7 - 5)) with 2%nat.
  rewrite drop_0. set (lb := take 2 (drop 5 pt)).
  destruct (_ <? be_get lb) eqn:E2; bool_facts; [done |].
  pose proof (be_get_bound (take 4 pt)) as Hid. pose proof (be_get_bound lb) as Hlb.
  assert (Hl4 : len (take 4 pt) = 4) by zlen.
  assert (Hl2 : len lb = 2) by (unfold lb; zlen). rewrite Hl4 in Hid. rewrite Hl2 in Hlb.
  change (256 ^ 4) with (2 ^ 32) in Hid. change (256 ^ 2) with (2 ^ 16) in Hlb.
  rewrite slice_Some by lia. cbn [must]. intros [= <-]. cbn [sf_id sf_type sf_payload].
  pose proof (b2z_range ty). replace (7 + be_get lb - 7) with (be_get lb) by lia.
  change (Z.to_nat 7) with 7%nat.
  assert (Hp : len (take (Z.to_nat (be_get lb)) (drop 7 pt)) = be_get lb) by zlen.
  split_and!; [lia.. |]. exists (drop (Z.to_nat (be_get lb)) (drop 7 pt)).
  unfold encode_stream_frame. cbn [sf_id sf_type sf_payload]. rewrite Hp, z2b_b2z.
  assert (E4 : be_put 4 (be_get (take 4 pt)) = take 4 pt).
  { rewrite <-(be_put_get (take 4 pt)) at 2. f_equal. unfold len in Hl4. lia. }
  assert (E5 : be_put 2 (be_get lb) = lb).
  { rewrite <-(be_put_get lb) at 2. f_equal. unfold len in Hl2. lia. }
  rewrite E4, E5, <-!app_assoc, take_drop.
  assert (Hd : drop 4 pt = ty :: drop 5 pt).
  { unfold at_ in Et. cbn in Et. by apply drop_S. }
  rewrite <-(take_drop 4 pt) at 1. f_equal. rewrite Hd. cbn [app]. f_equal.
  unfold lb. rewrite <-(take_drop 2 (drop 5 pt)) at 1. by rewrite drop_drop.
Qed.

(** Header parsing is exact: a plaintext is accepted as the frame [sf]
    exactly when it is the encoding of [sf], with fields of their wire widths,
    followed by anything; every other plaintext gives an error, and no
    plaintext makes a slice panic. *)
Theorem parse_stream_frame_exact pt :
  (forall sf, parse_stream_frame pt = Ok sf <->
     0 <= sf_id sf < 2 ^ 32 /\ 0 <= sf_type sf < 256 /\ len (sf_payload sf) < 2 ^ 16 /\
     exists pad, pt = encode_stream_frame sf ++ pad) /\
  parse_stream_frame pt <> Panic.
Proof.
  split; [| apply parse_no_panic]. intros sf. split; [apply parse_sound |].
  intros (Hi & Ht & Hp & pad & ->). by apply parse_encode_wide.
Qed.

(** ** The writer *)

(** [writeStreamFrame] on every branch: an over-long payload changes
    nothing; otherwise the write counter advances by one (as a uint64), on
    failure as on success, so a nonce is never offered twice; the two clocks
    move on success only; the frame handed to [writeFrame] is the encoding,
    under the old counter. *)
Lemma writeStreamFrame_branches a o now sf s :
  let '(r, s') := writeStreamFrame a o now sf s in
  if maxStreamPayload <? len (sf_payload sf) then r = Err PayloadTooLarge /\ s' = s
  else
    let '(r0, w) := writeFrame a o (sw_seqWrite s) (encode_stream_frame sf) (sw_frame s) in
    sw_seqWrite s' = (sw_seqWrite s + 1) mod 2 ^ 64 /\ sw_frame s' = w /\
    match r0 with
    | Ok _ => r = Ok tt /\ sw_lastWriteAt s' = now /\ sw_lastActivity s' = now
    | Err e => r = Err (WriteFailed e) /\
        sw_lastWriteAt s' = sw_lastWriteAt s /\ sw_lastActivity s' = sw_lastActivity s
    | Panic => r = Panic
    end.
Proof.
  unfold writeStreamFrame, maxStreamPayload.
  destruct (_ <? len (sf_payload sf)); [done |].
  destruct (writeFrame _ _ _ _ _) as [r0 w]. by destruct r0.
Qed.

(** ** Many frames over one connection *)

Section MuxRoundTrip.
Context (a : aead) {AL : AeadLaws a}.

(** The bytes of a run of frames, from counter [s] on. *)
Fixpoint mux_wire (s : Z) (os : list (wf_oracle * Z)) (sfs : list stream_frame) : bytes :=
  match sfs, os with
  | sf :: sfs', (o, _) :: os' =>
      let pt := encode_stream_frame sf in
      frame_wire a s (default (fun _ => x00) (entropy o)) (pickPadRung (roll o) (len pt + 2)) pt
        ++ mux_wire ((s + 1) mod 2 ^ 64) os' sfs'
  | _, _ => []
  end.

Definition oracle_ok (on : wf_oracle * Z) : Prop := is_Some (entropy on.1).

Lemma writeStreamFrames_wire os sfs s out :
  pools_ok (ws_pools (sw_frame s)) -> ws_conn (sw_frame s) = Writer out None ->
  length os = length sfs -> Forall oracle_ok os -> Forall sf_ok sfs ->
  exists s', writeStreamFrames a os sfs s = (Ok tt, s') /\
    ws_conn (sw_frame s') = Writer (out ++ mux_wire (sw_seqWrite s) os sfs) None.
Proof.
  revert os s out. induction sfs as [|sf sfs IH]; intros os s out Hp Hc Hl Ho Hs.
  { destruct os; [| done]. exists s. cbn. by rewrite app_nil_r. }
  destruct os as [|[o now] os]; [done |]. inversion Hl.
  inversion Ho as [|? ? [f Hf] Ho']; subst. inversion Hs as [|? ? Hsf Hs']; subst. cbn [fst] in Hf.
  pose proof Hsf as (_ & _ & Hlen). unfold maxStreamPayload in Hlen.
  cbn [writeStreamFrames]. unfold mbind, io_bind at 1, writeStreamFrame.
  rewrite (proj2 (Z.ltb_ge _ _)) by lia.
  destruct (writeFrame_healthy a o (sw_seqWrite s) (encode_stream_frame sf) (sw_frame s) f)
    as (ps & Hps & ->); [done | by rewrite Hc | done | |].
  { rewrite len_encode. unfold v2FrameHeader in *. lia. }
  rewrite Hc. cbn [w_out].
  edestruct IH as (s' & -> & Hs''); [| reflexivity | done | done | done |]; [done |].
  exists s'. split; [done |]. rewrite Hs''. cbn [sw_seqWrite mux_wire].
  rewrite Hf. cbn [default]. by rewrite <-app_assoc.
Qed.

Lemma readStreamFrames_wire os sfs s r fuel :
  length os = length sfs -> Forall oracle_ok os -> Forall sf_ok sfs ->
  (length sfs < fuel)%nat ->
  rd_data r = mux_wire s os sfs -> rd_end r = EOF ->
  readStreamFrames fuel a s r = (sfs, Some (LoopRead (FrameIO EOF))).
Proof.
  revert os s r fuel. induction sfs as [|sf sfs IH]; intros os s r fuel Hl Ho Hs Hfuel Hd He.
  - destruct os; [| done]. destruct fuel as [|fuel]; [lia |]. cbn [readStreamFrames].
    cbn in Hd. pose proof (readFrame_cases a s r) as Hr. rewrite Hd, He in Hr. cbn in Hr.
    destruct (readFrame a s r) as [x r']. cbn in Hr. by subst x.
  - destruct os as [|[o now] os]; [done |]. inversion Hl.
    inversion Ho as [|? ? [f Hf] Ho']; subst. inversion Hs as [|? ? Hsf Hs']; subst. cbn [fst] in Hf.
    destruct fuel as [|fuel]; [lia |]. cbn [readStreamFrames].
    cbn [mux_wire] in Hd. rewrite Hf in Hd. cbn [default] in Hd.
    pose proof Hsf as (_ & _ & Hlen). unfold maxStreamPayload in Hlen.
    destruct (readFrame_wire a s f (roll o) (encode_stream_frame sf) r
                (mux_wire ((s + 1) mod 2 ^ 64) os sfs)) as (r' & -> & Hd' & He'); [| done |].
    { rewrite len_encode. unfold v2FrameHeader in *. lia. }
    rewrite <-(app_nil_r (encode_stream_frame sf)), parse_encode by done.
    rewrite (IH os) by (cbn in *; first [done | lia | congruence]). done.
Qed.

(** [C29] The multiplexed channel is reliable and ordered: a run of frames
    written by [writeStreamFrame] on a healthy connection comes out of the
    peer's read loop as exactly that run, in order, and nothing more, for any
    starting counter (wrap-around included), any padding draws and any way
    the transport cuts the bytes. *)
Theorem mux_roundtrip os sfs s out segs :
  pools_ok (ws_pools (sw_frame s)) -> ws_conn (sw_frame s) = Writer out None ->
  length os = length sfs -> Forall oracle_ok os -> Forall sf_ok sfs ->
  out ++ concat segs = w_out (ws_conn (sw_frame (writeStreamFrames a os sfs s).2)) ->
  (writeStreamFrames a os sfs s).1 = Ok tt /\
  readStreamFrames (S (length sfs)) a (sw_seqWrite s) (Reader segs EOF) =
    (sfs, Some (LoopRead (FrameIO EOF))).
Proof.
  intros Hp Hc Hl Ho Hs. destruct (writeStreamFrames_wire os sfs s out) as (s' & -> & Hw); [done..|].
  cbn [fst snd]. rewrite Hw. cbn [w_out]. intros E%app_inv_head. split; [done |].
  by apply (readStreamFrames_wire os); [done.. | lia | |].
Qed.
End MuxRoundTrip.

Module MuxWitness.
Import FrameWitness.
Definition o2 : wf_oracle := {|
  roll := 99; entropy := Some (fun _ => x55); pick_inner := None; pick_ct := Some 0%nat |}.
Definition os : list (wf_oracle * Z) := [(oracle, 10); (o2, 20); (oracle, 30)].
Definition sfs : list stream_frame :=
  [SFrame 7 v2TypeOpenOK (be_put 4 (4 * 2 ^ 20)); SFrame 7 v2TypeData (go! "payload"); SFrame 7 v2TypeClose []].
(** A counter about to wrap. *)
Definition st : sw_state := SWState (2 ^ 64 - 2) 0 0 (start dirty_pools).
Definition cut_at (n : nat) (l : bytes) : list bytes := [take n l; drop n l].
Lemma concat_cut n l : [] ++ concat (cut_at n l) = l.
Proof. cbn. by rewrite app_nil_r, take_drop. Qed.
Definition segs : list bytes :=
  cut_at 100 (w_out (ws_conn (sw_frame (writeStreamFrames key os sfs st).2))).
End MuxWitness.

#[local] Existing Instance FrameWitness.key_laws.

Lemma mux_roundtrip_witness :
  (writeStreamFrames FrameWitness.key MuxWitness.os MuxWitness.sfs MuxWitness.st).1 = Ok tt /\
  readStreamFrames 4 FrameWitness.key (sw_seqWrite MuxWitness.st) (Reader MuxWitness.segs EOF) =
    (MuxWitness.sfs, Some (LoopRead (FrameIO EOF))).
Proof.
  apply (mux_roundtrip FrameWitness.key MuxWitness.os MuxWitness.sfs MuxWitness.st [] MuxWitness.segs).
  - apply FrameWitness.dirty_pools_ok.
  - reflexivity.
  - reflexivity.
  - repeat constructor; eexists; reflexivity.
  - repeat constructor; vm_compute; discriminate.
  - apply MuxWitness.concat_cut.
Defined.
