(* ===== verification/FrameLog.v ===== *)
(** * Logs of stream frames

    What a sequence of frames says of one stream: the bytes of its DATA frames,
    the credit of its OPEN_OK and WINDOW_UPDATE frames, whether it was opened.
    Both ends of a connection are described by the frames that went each way. *)

From S2P Require Import Prelude Padding StreamFrame.

Abbreviation frames := (list stream_frame).

Definition for_stream (sid ty : Z) (sf : stream_frame) : bool := (sf_id sf =? sid) && (sf_type sf =? ty).

(** The bytes sent on a stream. *)
Definition data_of (sid : Z) (l : frames) : bytes :=
  mjoin ((fun sf => if for_stream sid v2TypeData sf then sf_payload sf else []) <$> l).

(** The credit a frame carries, as the client reads it. *)
Definition credit_in (sf : stream_frame) : Z :=
  if ((sf_type sf =? v2TypeOpenOK) || (sf_type sf =? v2TypeWindowUpdate)) && (4 <=? len (sf_payload sf))
  then be_get (take 4 (sf_payload sf)) else 0.
Definition credit_for (sid : Z) (sf : stream_frame) : Z := if sf_id sf =? sid then credit_in sf else 0.
Definition credits (sid : Z) (l : frames) : Z := foldr (fun sf acc => credit_for sid sf + acc) 0 l.

Definition says (sid ty : Z) (l : frames) : Prop := exists sf, sf ∈ l /\ sf_id sf = sid /\ sf_type sf = ty.

(** The ids of the OPEN frames. *)
Definition opens_of (l : frames) : list Z := sf_id <$> filter (fun sf => sf_type sf = v2TypeOpen) l.

(** ** Appending *)

Lemma data_app sid l k : data_of sid (l ++ k) = data_of sid l ++ data_of sid k.
Proof. unfold data_of. by rewrite fmap_app, join_app. Qed.
Lemma data_nil sid : data_of sid [] = [].
Proof. done. Qed.
Lemma data_one sid sf : data_of sid [sf] = if for_stream sid v2TypeData sf then sf_payload sf else [].
Proof. unfold data_of. cbn. apply app_nil_r. Qed.

Lemma credits_app sid l k : credits sid (l ++ k) = credits sid l + credits sid k.
Proof. induction l as [|sf l IH]; cbn; [done |]. unfold credits in *. cbn. lia. Qed.
Lemma credits_nil sid : credits sid [] = 0.
Proof. done. Qed.
Lemma credits_one sid sf : credits sid [sf] = credit_for sid sf.
Proof. unfold credits. cbn. lia. Qed.

Lemma credit_in_nonneg sf : 0 <= credit_in sf.
Proof. unfold credit_in. case_match; [apply be_get_nonneg | done]. Qed.
Lemma credit_for_nonneg sid sf : 0 <= credit_for sid sf.
Proof. unfold credit_for. case_match; [apply credit_in_nonneg | done]. Qed.
Lemma credits_nonneg sid l : 0 <= credits sid l.
Proof.
  induction l as [|sf l IH]; cbn; [done |]. unfold credits in *. cbn.
  pose proof (credit_for_nonneg sid sf). lia.
Qed.
Lemma credits_in sid sf l : sf ∈ l -> credit_for sid sf <= credits sid l.
Proof.
  intros H. induction l as [|sf' l IH]; [by apply elem_of_nil in H |]. unfold credits in *. cbn.
  pose proof (credits_nonneg sid l). pose proof (credit_for_nonneg sid sf'). unfold credits in *.
  apply elem_of_cons in H as [-> | H]; [lia |]. specialize (IH H). lia.
Qed.

Lemma opens_app l k : opens_of (l ++ k) = opens_of l ++ opens_of k.
Proof. unfold opens_of. by rewrite filter_app, fmap_app. Qed.
Lemma opens_one sf : opens_of [sf] = if sf_type sf =? v2TypeOpen then [sf_id sf] else [].
Proof.
  unfold opens_of. destruct (Z.eqb_spec (sf_type sf) v2TypeOpen) as [E | E].
  - by rewrite filter_cons_True.
  - by rewrite filter_cons_False.
Qed.
Lemma elem_of_opens sid l : sid ∈ opens_of l <-> says sid v2TypeOpen l.
Proof.
  unfold opens_of, says. rewrite list_elem_of_fmap. split.
  - intros (sf & -> & [Ht Hin]%list_elem_of_filter). by exists sf.
  - intros (sf & Hin & <- & Ht). exists sf. split; [done |]. by apply list_elem_of_filter.
Qed.

Lemma says_app sid ty l k : says sid ty (l ++ k) <-> says sid ty l \/ says sid ty k.
Proof. unfold says. setoid_rewrite elem_of_app. naive_solver. Qed.
Lemma says_one sid ty sf : says sid ty [sf] <-> sf_id sf = sid /\ sf_type sf = ty.
Proof. unfold says. setoid_rewrite list_elem_of_singleton. naive_solver. Qed.
Lemma not_says_nil sid ty : ~ says sid ty [].
Proof. intros (sf & H & _). by apply elem_of_nil in H. Qed.

(** No DATA frame, no data. *)
Lemma data_silent sid l : ~ says sid v2TypeData l -> data_of sid l = [].
Proof.
  induction l as [|sf l IH]; [done |]. intros H. change (sf :: l) with ([sf] ++ l). rewrite data_app, data_one.
  rewrite IH by (intros Hs; apply H; change (sf :: l) with ([sf] ++ l); apply says_app; by right).
  destruct (for_stream sid v2TypeData sf) eqn:E; [| done]. destruct H. unfold for_stream in E. bool_facts.
  exists sf. split; [by left | done].
Qed.

(** Frames without effect on the accounts of streams. *)
Definition neutral (sf : stream_frame) : Prop :=
  sf_type sf <> v2TypeOpen /\ sf_type sf <> v2TypeData /\ sf_type sf <> v2TypeOpenOK /\ sf_type sf <> v2TypeWindowUpdate.

Lemma data_neutral sid sf : sf_type sf <> v2TypeData -> data_of sid [sf] = [].
Proof.
  intros H. rewrite data_one. unfold for_stream. by rewrite (proj2 (Z.eqb_neq _ _) H), andb_false_r.
Qed.
Lemma credit_neutral sid sf : sf_type sf <> v2TypeOpenOK -> sf_type sf <> v2TypeWindowUpdate -> credit_for sid sf = 0.
Proof.
  intros H1 H2. unfold credit_for, credit_in.
  rewrite (proj2 (Z.eqb_neq _ _) H1), (proj2 (Z.eqb_neq _ _) H2). cbn. by case_match.
Qed.
Lemma opens_neutral sf : sf_type sf <> v2TypeOpen -> opens_of [sf] = [].
Proof. intros H. rewrite opens_one. by rewrite (proj2 (Z.eqb_neq _ _) H). Qed.

(** Credit frames as the server writes them. *)
Lemma credit_of_window sid ty n :
  ty = v2TypeOpenOK \/ ty = v2TypeWindowUpdate -> 0 <= n -> credit_for sid (SFrame sid ty (be_put 4 n)) = n mod 2 ^ 32.
Proof.
  intros Ht Hn. unfold credit_for, credit_in. cbn [sf_id sf_type sf_payload].
  rewrite Z.eqb_refl. assert (E : (ty =? v2TypeOpenOK) || (ty =? v2TypeWindowUpdate) = true)
    by (destruct Ht as [-> | ->]; done).
  rewrite E, len_be_put. cbn [andb]. rewrite take_ge by by rewrite length_be_put.
  by apply be_get_put.
Qed.
Lemma credit_other sid sid' ty p : sid' <> sid -> credit_for sid (SFrame sid' ty p) = 0.
Proof. intros H. unfold credit_for. cbn. by rewrite (proj2 (Z.eqb_neq _ _) H). Qed.
