(* ===== verification/PskConfig.v ===== *)
(** * PSK-derived parameters (cmd/mxtr-server/psk_config.go) and the
    arithmetic of [heartbeatLoop] (cmd/mxtr-server/session_v2.go) *)

From S2P Require Import Prelude Crypto Padding StreamFrame.

Definition cloakStatuses : list Z := [403; 404; 500].

Record pskDerivedConfig := PskDerivedConfig {
  alpnOrder : list bytes;
  heartbeatMinMs : Z;
  heartbeatMaxMs : Z;
  heartbeatPadMin : Z;
  heartbeatPadMax : Z;
  idleThresholdMs : Z;
  camouflageStatus : Z;
}.

(** [None] is an out-of-range index. *)
Definition derivePskConfig `{CryptoSuite} (psk : bytes) : option pskDerivedConfig :=
  let out := hkdf_sha256 psk (go! "mxtr-config-v1-salt") (go! "mxtr-config-v1") 16 in
  o2 ← at_ 2 out; o3 ← at_ 3 out; o4 ← at_ 4 out;
  o57 ← slice 5 7 out; o8 ← at_ 8 out; o9 ← at_ 9 out;
  status ← at_ (b2z o9 mod len cloakStatuses) cloakStatuses;
  Some {|
    alpnOrder := [go! "http/1.1"];
    heartbeatMinMs := 20000 + b2z o2 * 100;
    heartbeatMaxMs := 45000 + b2z o3 * 100;
    heartbeatPadMin := 32 + b2z o4;
    heartbeatPadMax := 512 + be_get o57 mod 3584;
    idleThresholdMs := 10000 + b2z o8 * 50;
    camouflageStatus := status;
  |}.

(** The prologue of [heartbeatLoop]. *)
Record hb_params := HbParams {
  hb_minMs : Z; hb_rangeMs : Z; hb_padMin : Z; hb_padRange : Z; hb_idleNs : Z;
}.

Definition heartbeat_params (cfg : pskDerivedConfig) : hb_params :=
  let minMs := heartbeatMinMs cfg in
  let rangeMs := heartbeatMaxMs cfg - minMs in
  let rangeMs := if rangeMs <? 0 then 0 else rangeMs in
  let padMin := heartbeatPadMin cfg in
  let padRange := heartbeatPadMax cfg - padMin in
  let padRange := if padRange <? 0 then 0 else padRange in
  let padCap := maxPlaintextSize - v2FrameHeader in
  let padMin := if padCap <? padMin then padCap else padMin in
  let padRange := if padCap <? padMin + padRange then padCap - padMin else padRange in
  HbParams minMs rangeMs padMin padRange (idleThresholdMs cfg * 1000000).

(** The draws of one iteration: [IntN] panics on a non-positive bound. *)
Definition hb_jitter (p : hb_params) (raw : Z) : option Z :=
  if hb_rangeMs p + 1 <=? 0 then None else Some (hb_minMs p + intN (hb_rangeMs p + 1) raw).
Definition hb_pad (p : hb_params) (raw : Z) : option Z :=
  if hb_padRange p + 1 <=? 0 then None else Some (hb_padMin p + intN (hb_padRange p + 1) raw).

(** One iteration at wake-up time [now]: does the loop send a PING? *)
Definition hb_fires (p : hb_params) (now lastWriteAt : Z) : bool :=
  negb (now - lastWriteAt <? hb_idleNs p).

Definition v2SessionIdleTimeout : Z := 5 * 60 * 1000000000.

(** The timeline of a heartbeat whose writes succeed and that nothing else
    interrupts: each iteration sleeps, then maybe writes. The list holds, for
    each iteration, the clock when it wakes and the last write it then sees. *)
Fixpoint hb_run (p : hb_params) (now last : Z) (raws : list Z) : list (Z * Z) :=
  match raws with
  | [] => []
  | raw :: raws' =>
      match hb_jitter p raw with
      | None => []
      | Some ms =>
          let now' := now + ms * 1000000 in
          let last' := if hb_fires p now' last then now' else last in
          (now', last) :: hb_run p now' last' raws'
      end
  end.

(** ** Bounds *)

Definition cfg_bounds (c : pskDerivedConfig) : Prop :=
  20000 <= heartbeatMinMs c <= 45500 /\
  45000 <= heartbeatMaxMs c <= 70500 /\
  32 <= heartbeatPadMin c <= 287 /\
  512 <= heartbeatPadMax c <= 4095 /\
  10000 <= idleThresholdMs c <= 22750 /\
  camouflageStatus c ∈ cloakStatuses /\
  alpnOrder c = [go! "http/1.1"].

Lemma at_elem {A} i (l : list A) x : at_ i l = Some x -> x ∈ l.
Proof. unfold at_. intros H. hcase H; [| done]. by eapply list_elem_of_lookup_2. Qed.

Lemma config_total `{CryptoLaws} psk :
  exists c, derivePskConfig psk = Some c /\ cfg_bounds c.
Proof.
  unfold derivePskConfig.
  set (out := hkdf_sha256 _ _ _ _). assert (Hl : len out = 16) by (unfold len, out; by rewrite hkdf_len).
  destruct (at_Some 2 out ltac:(lia)) as [o2 E2], (at_Some 3 out ltac:(lia)) as [o3 E3],
    (at_Some 4 out ltac:(lia)) as [o4 E4], (at_Some 8 out ltac:(lia)) as [o8 E8],
    (at_Some 9 out ltac:(lia)) as [o9 E9].
  rewrite E2, E3, E4, E8, E9, slice_Some by lia. set (o57 := take _ _). cbn [mbind option_bind].
  destruct (at_Some (b2z o9 mod len cloakStatuses) cloakStatuses) as [st Hst].
  { change (len cloakStatuses) with 3. apply Z.mod_pos_bound. lia. }
  rewrite Hst. eexists. split; [reflexivity |]. unfold cfg_bounds. cbn.
  pose proof (b2z_range o2). pose proof (b2z_range o3). pose proof (b2z_range o4).
  pose proof (b2z_range o8). pose proof (Z.mod_pos_bound (be_get o57) 3584 ltac:(lia)).
  split_and!; try lia; [by eapply at_elem | done].
Qed.

(** The derived configuration exists for every PSK (no index is out of
    range) and stays within its documented bounds. *)
Theorem derivePskConfig_bounds `{CryptoLaws} psk :
  exists c, derivePskConfig psk = Some c /\ cfg_bounds c.
Proof. apply config_total. Qed.

Lemma intN_bound n raw : 0 < n -> 0 <= intN n raw < n.
Proof. intros. unfold intN. by apply Z.mod_pos_bound. Qed.

Lemma hb_jitter_bounds c raw :
  cfg_bounds c -> exists ms, hb_jitter (heartbeat_params c) raw = Some ms /\
    heartbeatMinMs c <= ms <= Z.max (heartbeatMinMs c) (heartbeatMaxMs c).
Proof.
  intros (H1 & H2 & _). unfold hb_jitter, heartbeat_params. cbn.
  destruct (_ <? 0) eqn:E; bool_facts; (rewrite (proj2 (Z.leb_gt _ _)) by lia);
    eexists; (split; [reflexivity |]).
  - pose proof (intN_bound (0 + 1) raw). lia.
  - pose proof (intN_bound (heartbeatMaxMs c - heartbeatMinMs c + 1) raw). lia.
Qed.

Lemma hb_pad_bounds c raw :
  cfg_bounds c -> exists n, hb_pad (heartbeat_params c) raw = Some n /\
    heartbeatPadMin c <= n <= heartbeatPadMax c.
Proof.
  intros (_ & _ & H3 & H4 & _). unfold hb_pad, heartbeat_params.
  change (maxPlaintextSize - v2FrameHeader) with 16375. cbn.
  rewrite (proj2 (Z.ltb_ge (_ - _) 0)) by lia. rewrite (proj2 (Z.ltb_ge 16375 (heartbeatPadMin c))) by lia.
  rewrite (proj2 (Z.ltb_ge _ _)) by lia. rewrite (proj2 (Z.leb_gt _ _)) by lia.
  eexists; split; [reflexivity |].
  pose proof (intN_bound (heartbeatPadMax c - heartbeatPadMin c + 1) raw). lia.
Qed.

(** The heartbeat never panics and never asks for an oversized frame: for
    every PSK and every draw, the sleep is between 20 s and 70.5 s and the
    padding fits one frame, so a PING is never refused as too large. *)
Theorem heartbeat_draws_safe `{CryptoLaws} psk raw :
  exists c ms n, derivePskConfig psk = Some c /\
    hb_jitter (heartbeat_params c) raw = Some ms /\ 20000 <= ms <= 70500 /\
    hb_pad (heartbeat_params c) raw = Some n /\ 32 <= n <= 4095 /\ n <= maxStreamPayload.
Proof.
  destruct (config_total psk) as (c & Hc & Hb). exists c.
  destruct (hb_jitter_bounds c raw Hb) as (ms & Hms & ?), (hb_pad_bounds c raw Hb) as (n & Hn & ?).
  exists ms, n. destruct Hb as (B1 & B2 & B3 & B4 & _).
  unfold maxStreamPayload, maxPlaintextSize, v2FrameHeader. split_and!; (done || lia).
Qed.

Lemma hb_run_gap c now last raws :
  cfg_bounds c -> now - last < hb_idleNs (heartbeat_params c) ->
  Forall (fun '(t, l) => t - l < v2SessionIdleTimeout) (hb_run (heartbeat_params c) now last raws).
Proof.
  intros Hb. revert now last. induction raws as [|raw raws IH]; intros now last Hl; [constructor |].
  cbn [hb_run]. destruct (hb_jitter_bounds c raw Hb) as (ms & -> & Hms).
  pose proof Hb as (B1 & B2 & _ & _ & B5 & _).
  assert (Hi : hb_idleNs (heartbeat_params c) = idleThresholdMs c * 1000000) by done.
  rewrite Hi in Hl. constructor; [unfold v2SessionIdleTimeout; lia |].
  apply IH. destruct (hb_fires _ _ _) eqn:E; unfold hb_fires in E; bool_facts; lia.
Qed.

Lemma hb_run_length c now last raws :
  cfg_bounds c -> length (hb_run (heartbeat_params c) now last raws) = length raws.
Proof.
  intros Hb. revert now last. induction raws as [|raw raws IH]; intros now last; [done |].
  cbn [hb_run]. destruct (hb_jitter_bounds c raw Hb) as (ms & -> & _). cbn. by rewrite IH.
Qed.

(** A live heartbeat outpaces the reaper: with writes succeeding, at every
    wake-up of the heartbeat the last frame is younger than the idle timeout,
    so a session whose heartbeat still writes is never reaped as idle, even
    when its client has gone silent. *)
Theorem heartbeat_outpaces_reaper `{CryptoLaws} psk :
  exists c, derivePskConfig psk = Some c /\ forall now raws,
    length (hb_run (heartbeat_params c) now now raws) = length raws /\
    Forall (fun '(t, last) => t - last < v2SessionIdleTimeout)
      (hb_run (heartbeat_params c) now now raws).
Proof.
  destruct (config_total psk) as (c & Hc & Hb). exists c. split; [done |]. intros now raws. split.
  - by apply hb_run_length.
  - apply hb_run_gap; [done |]. pose proof Hb as (_ & _ & _ & _ & ? & _). cbn. lia.
Qed.

#[local] Existing Instance Toy.suite.
#[local] Existing Instance Toy.suite_laws.

Lemma derivePskConfig_bounds_witness :
  exists c, derivePskConfig (replicate 32 x2a) = Some c /\ cfg_bounds c.
Proof. apply (derivePskConfig_bounds (replicate 32 x2a)). Defined.

Lemma heartbeat_draws_safe_witness :
  exists c ms n, derivePskConfig (replicate 32 x2a) = Some c /\
    hb_jitter (heartbeat_params c) 12345 = Some ms /\ 20000 <= ms <= 70500 /\
    hb_pad (heartbeat_params c) 12345 = Some n /\ 32 <= n <= 4095 /\ n <= maxStreamPayload.
Proof. apply (heartbeat_draws_safe (replicate 32 x2a) 12345). Defined.

Lemma heartbeat_outpaces_reaper_witness :
  exists c, derivePskConfig (replicate 32 x2a) = Some c /\ forall now raws,
    length (hb_run (heartbeat_params c) now now raws) = length raws /\
    Forall (fun '(t, last) => t - last < v2SessionIdleTimeout)
      (hb_run (heartbeat_params c) now now raws).
Proof. apply (heartbeat_outpaces_reaper (replicate 32 x2a)). Defined.
