(* ===== verification/Session.v ===== *)
(** * The multiplexed session of cmd/mxtr-server/session_v2.go

    Goroutines as an interleaving of steps. Each goroutine has a program
    counter; one [step] runs one goroutine up to its next access to shared
    memory (an atomic operation, a map operation, a critical section under
    [st.mu] or [writeMu], an input or an output). The environment (what the
    peer sends, what the upstream answers, whether a write succeeds, the key
    [sync.Map.Range] visits next) is an argument of the step.

    Fields marked [history] record what happened and are read by no step. *)

From S2P Require Import Prelude GoStrings Padding StreamFrame Target Allowlist PskConfig.

Definition v2InitialWindow : Z := 4 * 2 ^ 20.
Definition v2WindowUpdateThreshold : Z := v2InitialWindow / 2.
Definition v2SessionBufferCap : Z := 128 * 2 ^ 20.
Definition v2GlobalBufferCap : Z := 256 * 2 ^ 20.
Definition v2MaxConcurrentOpens : Z := 64.
Definition maxConcurrentConns : Z := 8192.

(** ** Goroutines *)

(** Names: one read loop and one heartbeat per session, one reader and one
    pump per stream object, OPEN and PONG tasks by a serial number. *)
Inductive who :=
  | WLoop (id : Z)
  | WOpen (n : nat)
  | WReader (o : nat)
  | WPump (o : nat)
  | WPong (n : nat)
  | WHeart (id : Z).

#[export] Instance who_eq_dec : EqDecision who.
Proof. solve_decision. Defined.

#[export] Instance who_countable : Countable who.
Proof.
  refine (inj_countable'
    (fun w => match w with
              | WLoop id => inl (inl id) | WOpen n => inl (inr n)
              | WReader o => inr (inl (inl o)) | WPump o => inr (inl (inr o))
              | WPong n => inr (inr (inl n)) | WHeart id => inr (inr (inr id))
              end)
    (fun x => match x with
              | inl (inl id) => WLoop id | inl (inr n) => WOpen n
              | inr (inl (inl o)) => WReader o | inr (inl (inr o)) => WPump o
              | inr (inr (inl n)) => WPong n | inr (inr (inr id)) => WHeart id
              end) _).
  by intros [].
Defined.

(** The steps of [closeStream], and of the body of [closeAll]'s [Range]. *)
Inductive closer :=
  | CDel (sid : Z)                 (* streams.LoadAndDelete *)
  | CCas (o : nat)                 (* closed.CompareAndSwap *)
  | CChan (o : nat)                (* close(st.closing) *)
  | CReclaim (o : nat)             (* the critical section *)
  | CConn (o : nat).               (* st.conn.Close() *)

(** The read loop of [handleTCPv2], then its deferred [closeAll]. *)
Inductive loop_pc :=
  | LRead
  | LBusy (sid : Z)
  | LLookup (sid : Z) (p : bytes)
  | LSess (o : nat) (sid : Z) (p : bytes)
  | LGlob (o : nat) (sid : Z) (p : bytes)
  | LEnq (o : nat) (p : bytes)
  | LShed (sid : Z)
  | LClose (c : closer)
  | LAllClosed
  | LAllDone
  | LRange (todo vis : gset Z)
  | LVisit (todo vis : gset Z) (k : Z) (c : closer)
  | LDelete (todo vis : gset Z) (k : Z)
  | LEnd.

(** [handleOpen]. *)
Inductive open_pc :=
  | OStart (spec : bytes)
  | OErr (msg : bytes)
  | ODial (addr : bytes)
  | OStore
  | OCheck (o : nat)
  | OAbort (o : nat)
  | OAbortConn (o : nat)
  | OOk (o : nat)
  | OFail (o : nat) (c : closer)
  | OFailConn (o : nat)
  | ODone.

(** The upstream-to-client goroutine. *)
Inductive reader_pc :=
  | DCheck
  | DRead
  | DSend (b : bytes) (eof : bool)
  | DEof
  | DClose (c : closer)
  | DExit.

(** The client-to-upstream pump; [cr] is the local [credited]. *)
Inductive pump_pc :=
  | PLoop (cr : Z)
  | PWait (cr : Z)
  | PWrite (chunk : bytes) (emptyNow : bool) (cr : Z)
  | PCredit (cr : Z)
  | PFail
  | PConn
  | PClose (c : closer).

Inductive thread :=
  | TLoop (id : Z) (pc : loop_pc)
  | TOpen (n : nat) (id sid : Z) (pc : open_pc)
  | TReader (o : nat) (id sid : Z) (pc : reader_pc)
  | TPump (o : nat) (id sid : Z) (pc : pump_pc)
  | TPong (n : nat) (id : Z) (p : bytes)
  | THeart (id : Z).

Definition who_of (t : thread) : who :=
  match t with
  | TLoop id _ => WLoop id
  | TOpen n _ _ _ => WOpen n
  | TReader o _ _ _ => WReader o
  | TPump o _ _ _ => WPump o
  | TPong n _ _ => WPong n
  | THeart id => WHeart id
  end.

(** ** Shared memory *)

(** What [st.mu] guards; [waiting]: the pump is parked in [cond.Wait]. *)
Record st_buffer := StBuffer { queue : list bytes; qbytes : Z; waiting : bool }.

(** History of a stream: bytes accepted from the client, bytes dequeued, bytes
    written upstream, credit granted; the goroutine that won the close and is
    still at it; whether the critical section of a close has run; the OPEN task
    that made the object, and whether it has started its goroutines. *)
Record st_history := StHistory {
  received : bytes; taken : bytes; written : bytes; granted : Z;
  closed_by : option who; reclaimed : bool;
  opener : nat; started : bool;
}.

Record v2Stream := V2Stream {
  st_sess : Z;            (* the session its goroutines captured *)
  st_id : Z;
  conn_open : bool;
  closing : bool;         (* the channel has been closed *)
  st_closed : bool;
  st_mu : st_buffer;
  st_hist : st_history;
}.

Record v2Session := V2Session {
  ss_conn : bool;                    (* open *)
  ss_listed : bool;                  (* in the map v2Sessions *)
  seqRead : Z;
  seqWrite : Z;
  streams : gmap Z nat;
  openSem : Z;
  ss_done : bool;                    (* the channel has been closed *)
  ss_closed : bool;
  lastActivity : Z;
  lastWriteAt : Z;
  buffered : Z;
  ss_wire : list (Z * stream_frame); (* history: nonce and frame of each write *)
  ss_opened : gset Z;                (* history: ids of the OPENs taken up *)
}.

Record mem := Mem {
  v2GlobalBuffered : Z;
  heap : gmap nat v2Stream;
  v2Sessions : gmap Z v2Session;
  connCounter : Z;
  next_obj : nat;
  next_task : nat;
  now : Z;
  dialed : list bytes;               (* history: addresses handed to net.DialTimeout *)
  panicked : bool;                   (* close of a closed channel, or a slice out of range *)
}.

(** ** Updates *)

Definition set_streams (f : gmap nat v2Stream -> gmap nat v2Stream) (m : mem) : mem :=
  Mem (v2GlobalBuffered m) (f (heap m)) (v2Sessions m) (connCounter m) (next_obj m)
    (next_task m) (now m) (dialed m) (panicked m).
Definition set_sessions (f : gmap Z v2Session -> gmap Z v2Session) (m : mem) : mem :=
  Mem (v2GlobalBuffered m) (heap m) (f (v2Sessions m)) (connCounter m) (next_obj m)
    (next_task m) (now m) (dialed m) (panicked m).
Definition add_global (d : Z) (m : mem) : mem :=
  Mem (v2GlobalBuffered m + d) (heap m) (v2Sessions m) (connCounter m) (next_obj m)
    (next_task m) (now m) (dialed m) (panicked m).
Definition fresh_task (m : mem) : mem :=
  Mem (v2GlobalBuffered m) (heap m) (v2Sessions m) (connCounter m) (next_obj m)
    (S (next_task m)) (now m) (dialed m) (panicked m).
Definition fresh_obj (m : mem) : mem :=
  Mem (v2GlobalBuffered m) (heap m) (v2Sessions m) (connCounter m) (S (next_obj m))
    (next_task m) (now m) (dialed m) (panicked m).
Definition log_dial (addr : bytes) (m : mem) : mem :=
  Mem (v2GlobalBuffered m) (heap m) (v2Sessions m) (connCounter m) (next_obj m)
    (next_task m) (now m) (addr :: dialed m) (panicked m).
Definition panic (m : mem) : mem :=
  Mem (v2GlobalBuffered m) (heap m) (v2Sessions m) (connCounter m) (next_obj m)
    (next_task m) (now m) (dialed m) true.
Definition advance (d : Z) (m : mem) : mem :=
  Mem (v2GlobalBuffered m) (heap m) (v2Sessions m) (connCounter m) (next_obj m)
    (next_task m) (now m + d) (dialed m) (panicked m).

Definition upd_stream (o : nat) (f : v2Stream -> v2Stream) : mem -> mem :=
  set_streams (alter f o).
Definition upd_session (id : Z) (f : v2Session -> v2Session) : mem -> mem :=
  set_sessions (alter f id).

Definition st_set_conn (b : bool) (x : v2Stream) : v2Stream :=
  V2Stream (st_sess x) (st_id x) b (closing x) (st_closed x) (st_mu x) (st_hist x).
Definition st_set_closing (x : v2Stream) : v2Stream :=
  V2Stream (st_sess x) (st_id x) (conn_open x) true (st_closed x) (st_mu x) (st_hist x).
Definition st_set_closed (w : who) (x : v2Stream) : v2Stream :=
  let h := st_hist x in
  V2Stream (st_sess x) (st_id x) (conn_open x) (closing x) true (st_mu x)
    (StHistory (received h) (taken h) (written h) (granted h) (Some w) (reclaimed h) (opener h) (started h)).
Definition st_finish_close (x : v2Stream) : v2Stream :=
  let h := st_hist x in
  V2Stream (st_sess x) (st_id x) false (closing x) (st_closed x) (st_mu x)
    (StHistory (received h) (taken h) (written h) (granted h) None (reclaimed h) (opener h) (started h)).
Definition st_set_waiting (b : bool) (x : v2Stream) : v2Stream :=
  V2Stream (st_sess x) (st_id x) (conn_open x) (closing x) (st_closed x)
    (StBuffer (queue (st_mu x)) (qbytes (st_mu x)) b) (st_hist x).
(** [queue = append(queue, p); qbytes += n; cond.Signal()] *)
Definition st_enqueue (p : bytes) (x : v2Stream) : v2Stream :=
  let b := st_mu x in let h := st_hist x in
  V2Stream (st_sess x) (st_id x) (conn_open x) (closing x) (st_closed x)
    (StBuffer (queue b ++ [p]) (qbytes b + len p) false)
    (StHistory (received h ++ p) (taken h) (written h) (granted h) (closed_by h) (reclaimed h) (opener h) (started h)).
Definition st_dequeue (p : bytes) (rest : list bytes) (x : v2Stream) : v2Stream :=
  let b := st_mu x in let h := st_hist x in
  V2Stream (st_sess x) (st_id x) (conn_open x) (closing x) (st_closed x)
    (StBuffer rest (qbytes b - len p) (waiting b))
    (StHistory (received h) (taken h ++ p) (written h) (granted h) (closed_by h) (reclaimed h) (opener h) (started h)).
(** The critical section of a close; [Broadcast] wakes the pump. *)
Definition st_reclaim (x : v2Stream) : v2Stream :=
  let b := st_mu x in let h := st_hist x in
  V2Stream (st_sess x) (st_id x) (conn_open x) (closing x) (st_closed x)
    (StBuffer [] (if 0 <? qbytes b then 0 else qbytes b) false)
    (StHistory (received h) (taken h) (written h) (granted h) (closed_by h) true (opener h) (started h)).
Definition st_write (p : bytes) (x : v2Stream) : v2Stream :=
  let h := st_hist x in
  V2Stream (st_sess x) (st_id x) (conn_open x) (closing x) (st_closed x) (st_mu x)
    (StHistory (received h) (taken h) (written h ++ p) (granted h) (closed_by h) (reclaimed h) (opener h) (started h)).
Definition st_grant (n : Z) (x : v2Stream) : v2Stream :=
  let h := st_hist x in
  V2Stream (st_sess x) (st_id x) (conn_open x) (closing x) (st_closed x) (st_mu x)
    (StHistory (received h) (taken h) (written h) (granted h + n) (closed_by h) (reclaimed h) (opener h) (started h)).

Definition st_start (x : v2Stream) : v2Stream :=
  let h := st_hist x in
  V2Stream (st_sess x) (st_id x) (conn_open x) (closing x) (st_closed x) (st_mu x)
    (StHistory (received h) (taken h) (written h) (granted h) (closed_by h) (reclaimed h)
       (opener h) true).

Definition ss_upd_streams (f : gmap Z nat -> gmap Z nat) (s : v2Session) : v2Session :=
  V2Session (ss_conn s) (ss_listed s) (seqRead s) (seqWrite s) (f (streams s)) (openSem s)
    (ss_done s) (ss_closed s) (lastActivity s) (lastWriteAt s) (buffered s) (ss_wire s) (ss_opened s).
Definition ss_add_buffered (d : Z) (s : v2Session) : v2Session :=
  V2Session (ss_conn s) (ss_listed s) (seqRead s) (seqWrite s) (streams s) (openSem s)
    (ss_done s) (ss_closed s) (lastActivity s) (lastWriteAt s) (buffered s + d) (ss_wire s) (ss_opened s).
Definition ss_add_sem (d : Z) (s : v2Session) : v2Session :=
  V2Session (ss_conn s) (ss_listed s) (seqRead s) (seqWrite s) (streams s) (openSem s + d)
    (ss_done s) (ss_closed s) (lastActivity s) (lastWriteAt s) (buffered s) (ss_wire s) (ss_opened s).
(** A slot of [openSem] for stream [sid]. *)
Definition ss_open (sid : Z) (s : v2Session) : v2Session :=
  V2Session (ss_conn s) (ss_listed s) (seqRead s) (seqWrite s) (streams s) (openSem s + 1)
    (ss_done s) (ss_closed s) (lastActivity s) (lastWriteAt s) (buffered s) (ss_wire s)
    ({[sid]} ∪ ss_opened s).
Definition ss_set_closed (s : v2Session) : v2Session :=
  V2Session (ss_conn s) (ss_listed s) (seqRead s) (seqWrite s) (streams s) (openSem s)
    (ss_done s) true (lastActivity s) (lastWriteAt s) (buffered s) (ss_wire s) (ss_opened s).
Definition ss_set_done (s : v2Session) : v2Session :=
  V2Session (ss_conn s) (ss_listed s) (seqRead s) (seqWrite s) (streams s) (openSem s)
    true (ss_closed s) (lastActivity s) (lastWriteAt s) (buffered s) (ss_wire s) (ss_opened s).
Definition ss_close_conn (s : v2Session) : v2Session :=
  V2Session false (ss_listed s) (seqRead s) (seqWrite s) (streams s) (openSem s)
    (ss_done s) (ss_closed s) (lastActivity s) (lastWriteAt s) (buffered s) (ss_wire s) (ss_opened s).
(** [v2Sessions.Delete(id)], then the deferred [conn.Close()]. *)
Definition ss_end (s : v2Session) : v2Session :=
  V2Session false false (seqRead s) (seqWrite s) (streams s) (openSem s)
    (ss_done s) (ss_closed s) (lastActivity s) (lastWriteAt s) (buffered s) (ss_wire s) (ss_opened s).
(** [seqRead++; touch()] *)
Definition ss_read (t : Z) (s : v2Session) : v2Session :=
  V2Session (ss_conn s) (ss_listed s) ((seqRead s + 1) mod 2 ^ 64) (seqWrite s) (streams s)
    (openSem s) (ss_done s) (ss_closed s) t (lastWriteAt s) (buffered s) (ss_wire s) (ss_opened s).
(** One [writeStreamFrame] under [writeMu]. *)
Definition ss_write (t : Z) (ok : bool) (sf : stream_frame) (s : v2Session) : v2Session :=
  V2Session (ss_conn s) (ss_listed s) (seqRead s) ((seqWrite s + 1) mod 2 ^ 64) (streams s)
    (openSem s) (ss_done s) (ss_closed s)
    (if ok then t else lastActivity s) (if ok then t else lastWriteAt s)
    (buffered s) (ss_wire s ++ [(seqWrite s, sf)]) (ss_opened s).

Definition new_session (t : Z) : v2Session :=
  V2Session true true 1 1 ∅ 0 false false t t 0 [] ∅.
Definition new_stream (n : nat) (id sid : Z) : v2Stream :=
  V2Stream id sid true false false (StBuffer [] 0 false) (StHistory [] [] [] 0 None false n false).

(** ** Operations shared by the goroutines *)

(** [s.writeStreamFrame]: [ok] is the fate of the network write; a closed
    connection always fails. *)
Definition write_frame (id : Z) (ok : bool) (sf : stream_frame) (m : mem) : bool * mem :=
  if maxStreamPayload <? len (sf_payload sf) then (false, m) else
  match v2Sessions m !! id with
  | None => (false, m)
  | Some s =>
      let ok := ok && ss_conn s in
      (ok, upd_session id (ss_write (now m) ok sf) m)
  end.

(** One step of [closeStream] by goroutine [w] ([all]: of the body of the
    [Range] in [closeAll], which leaves the session's counter alone). *)
Definition close_step (w : who) (all : bool) (id : Z) (c : closer) (m : mem)
  : option closer * mem :=
  match c with
  | CDel sid =>
      match v2Sessions m !! id ≫= fun s => streams s !! sid with
      | None => (None, m)
      | Some o => (Some (CCas o), upd_session id (ss_upd_streams (delete sid)) m)
      end
  | CCas o =>
      match heap m !! o with
      | Some x =>
          if st_closed x then (None, m)
          else (Some (CChan o), upd_stream o (st_set_closed w) m)
      | None => (None, m)
      end
  | CChan o =>
      match heap m !! o with
      | Some x =>
          if closing x then (None, panic m)
          else (Some (CReclaim o), upd_stream o st_set_closing m)
      | None => (None, m)
      end
  | CReclaim o =>
      match heap m !! o with
      | Some x =>
          let q := qbytes (st_mu x) in
          let m := if 0 <? q
                   then add_global (- q) (if all then m else upd_session id (ss_add_buffered (- q)) m)
                   else m in
          (Some (CConn o), upd_stream o st_reclaim m)
      | None => (None, m)
      end
  | CConn o => (None, upd_stream o st_finish_close m)
  end.

(** ** Environment *)

Inductive env :=
  | Tau
  | InFrame (pt : bytes)              (* readFrame returned a plaintext *)
  | InErr                             (* readFrame failed *)
  | Written (ok : bool)               (* fate of a frame write *)
  | Key (k : Z)                       (* Range visits this key next *)
  | Dialed (ok : bool)
  | UpRead (b : bytes) (eof : bool)   (* upstream.Read *)
  | UpWrite (short : option nat)      (* upstream.Write: None, all of it *)
  | Beat (raw : Z) (pad : bytes) (ok : bool) (* heartbeat: the padding, fate of the write *)
  | Cancel.                           (* the done channel is ready *)

(** Result of a step: the goroutine's next state ([None]: it returned), the
    memory, and the goroutines it started. No result: the goroutine is
    blocked, or the environment's answer does not fit. *)
Definition outcome : Type := option (option thread * mem * list thread).
Definition next (t : thread) (m : mem) : outcome := Some (Some t, m, []).
Definition exit (m : mem) : outcome := Some (None, m, []).
Definition blocked : outcome := None.

(** Run one step of a closer inside a goroutine: [k] wraps the next closer
    state, [fin] is where the goroutine goes when the close is over. *)
Definition closing_with (r : option closer * mem) (k : closer -> thread) (fin : mem -> outcome)
  : outcome :=
  match r with
  | (Some c, m) => next (k c) m
  | (None, m) => fin m
  end.

Section Goroutines.
Context `{UnicodeTables} (allowedDomains : list allowEntry) (hb : hb_params).

Definition stream_of (id sid : Z) (m : mem) : option nat :=
  v2Sessions m !! id ≫= fun s => streams s !! sid.

(** The switch of the read loop on a parsed frame. *)
Definition dispatch (id : Z) (sf : stream_frame) (s : v2Session) (m : mem) : outcome :=
  let '(SFrame sid ty p) := sf in
  if ty =? v2TypeOpen then
    if openSem s <? v2MaxConcurrentOpens
    then Some (Some (TLoop id LRead), fresh_task (upd_session id (ss_open sid) m),
               [TOpen (next_task m) id sid (OStart p)])
    else next (TLoop id (LBusy sid)) m
  else if ty =? v2TypeData then next (TLoop id (LLookup sid p)) m
  else if ty =? v2TypeClose then next (TLoop id (LClose (CDel sid))) m
  else if ty =? v2TypePing then
    Some (Some (TLoop id LRead), fresh_task m, [TPong (next_task m) id p])
  else next (TLoop id LRead) m.

Definition loop_step (id : Z) (pc : loop_pc) (e : env) (m : mem) : outcome :=
  let goto pc := next (TLoop id pc) in
  match v2Sessions m !! id with
  | None => blocked
  | Some s =>
  match pc, e with
  | LRead, InFrame pt =>
      (* the length is what readFrame can return: [readFrame_len] *)
      if ss_conn s && (len pt <=? maxPlaintextSize) then
        let m1 := upd_session id (ss_read (now m)) m in
        match parse_stream_frame pt with
        | Ok sf => dispatch id sf s m1
        | Err _ => goto LAllClosed m1
        | Panic => goto LAllClosed (panic m1)
        end
      else blocked
  | LRead, InErr => goto LAllClosed m
  | LBusy sid, Written ok =>
      let '(_, m1) := write_frame id ok (SFrame sid v2TypeOpenErr (go! "server busy")) m in
      goto LRead m1
  | LLookup sid p, Tau =>
      match streams s !! sid with
      | None => goto LRead m
      | Some o => goto (LSess o sid p) m
      end
  | LSess o sid p, Tau =>
      if v2SessionBufferCap <? buffered s + len p then goto (LShed sid) m
      else goto (LGlob o sid p) m
  | LGlob o sid p, Tau =>
      if v2GlobalBufferCap <? v2GlobalBuffered m + len p then goto (LShed sid) m
      else goto (LEnq o p) m
  | LShed sid, Written ok =>
      let '(_, m1) := write_frame id ok (SFrame sid v2TypeClose []) m in
      goto (LClose (CDel sid)) m1
  | LEnq o p, Tau =>
      match heap m !! o with
      | None => blocked
      | Some x =>
          if st_closed x then goto LRead m
          else goto LRead (add_global (len p) (upd_session id (ss_add_buffered (len p))
                 (upd_stream o (st_enqueue p) m)))
      end
  | LClose c, Tau =>
      closing_with (close_step (WLoop id) false id c m) (fun c => TLoop id (LClose c)) (goto LRead)
  | LAllClosed, Tau => goto LAllDone (upd_session id ss_set_closed m)
  | LAllDone, Tau =>
      let m1 := if ss_done s then panic m else m in
      goto (LRange (dom (streams s)) ∅) (upd_session id ss_set_done m1)
  | LRange todo vis, Key k =>
      if decide (k ∈ vis) then blocked else
      match streams s !! k with
      | Some o => goto (LVisit (todo ∖ {[k]}) ({[k]} ∪ vis) k (CCas o)) m
      | None =>
          if decide (k ∈ todo) then goto (LRange (todo ∖ {[k]}) ({[k]} ∪ vis)) m else blocked
      end
  | LRange todo vis, Tau => if decide (todo = ∅) then goto LEnd m else blocked
  | LVisit todo vis k c, Tau =>
      closing_with (close_step (WLoop id) true id c m)
        (fun c => TLoop id (LVisit todo vis k c)) (goto (LDelete todo vis k))
  | LDelete todo vis k, Tau =>
      goto (LRange todo vis) (upd_session id (ss_upd_streams (delete k)) m)
  | LEnd, Tau => exit (upd_session id ss_end m)
  | _, _ => blocked
  end
  end.

Definition open_step (n : nat) (id sid : Z) (pc : open_pc) (e : env) (m : mem) : outcome :=
  let goto pc := next (TOpen n id sid pc) in
  match v2Sessions m !! id with
  | None => blocked
  | Some s =>
  match pc, e with
  | OStart spec, Tau =>
      match parseTarget spec with
      | Err _ => goto (OErr (go! "bad target")) m
      | Panic => goto (OErr (go! "bad target")) (panic m)
      | Ok dialAddr =>
          if isTargetAllowed allowedDomains dialAddr then goto (ODial dialAddr) m
          else goto (OErr (go! "target not allowed")) m
      end
  | OErr msg, Written ok =>
      let '(_, m1) := write_frame id ok (SFrame sid v2TypeOpenErr msg) m in
      goto ODone m1
  | ODial addr, Dialed ok =>
      let m1 := log_dial addr m in
      if ok then goto OStore m1 else goto (OErr (go! "dial failed")) m1
  | OStore, Tau =>
      match streams s !! sid with
      | Some _ => goto ODone m
      | None =>
          let o := next_obj m in
          goto (OCheck o)
            (upd_session id (ss_upd_streams <[sid := o]>)
               (set_streams <[o := new_stream n id sid]> (fresh_obj m)))
      end
  | OCheck o, Tau => if ss_closed s then goto (OAbort o) m else goto (OOk o) m
  | OAbort o, Tau => goto (OAbortConn o) (upd_session id (ss_upd_streams (delete sid)) m)
  | OAbortConn o, Tau => goto ODone (upd_stream o (st_set_conn false) m)
  | OOk o, Written ok =>
      let '(ok, m1) := write_frame id ok (SFrame sid v2TypeOpenOK (be_put 4 v2InitialWindow)) m in
      if ok then Some (Some (TOpen n id sid ODone), upd_stream o st_start m1,
                       [TReader o id sid DCheck; TPump o id sid (PLoop 0)])
      else goto (OFail o (CDel sid)) m1
  | OFail o c, Tau =>
      closing_with (close_step (WOpen n) false id c m)
        (fun c => TOpen n id sid (OFail o c)) (goto (OFailConn o))
  | OFailConn o, Tau => goto ODone (upd_stream o (st_set_conn false) m)
  | ODone, Tau => exit (upd_session id (ss_add_sem (-1)) m)
  | _, _ => blocked
  end
  end.

Definition reader_step (o : nat) (id sid : Z) (pc : reader_pc) (e : env) (m : mem) : outcome :=
  let goto pc := next (TReader o id sid pc) in
  match heap m !! o with
  | None => blocked
  | Some x =>
  match pc, e with
  | DCheck, Tau => if closing x then goto DExit m else goto DRead m
  | DRead, UpRead b eof =>
      (* a closed connection delivers nothing but an error *)
      if (len b <=? maxStreamPayload) && (conn_open x || (bool_decide (b = []) && eof)) then
        if 0 <? len b then goto (DSend b eof) m
        else if eof then goto DEof m else goto DCheck m
      else blocked
  | DSend b eof, Written ok =>
      let '(ok, m1) := write_frame id ok (SFrame sid v2TypeData b) m in
      if ok then goto (if eof then DEof else DCheck) m1 else goto (DClose (CDel sid)) m1
  | DEof, Written ok =>
      let '(_, m1) := write_frame id ok (SFrame sid v2TypeClose []) m in
      goto (DClose (CDel sid)) m1
  | DClose c, Tau =>
      closing_with (close_step (WReader o) false id c m)
        (fun c => TReader o id sid (DClose c)) (goto DExit)
  | DExit, Tau => exit (upd_stream o (st_set_conn false) m)
  | _, _ => blocked
  end
  end.

Definition pump_step (o : nat) (id sid : Z) (pc : pump_pc) (e : env) (m : mem) : outcome :=
  let goto pc := next (TPump o id sid pc) in
  match heap m !! o with
  | None => blocked
  | Some x =>
  match pc, e with
  | PLoop cr, Tau =>
      if st_closed x then exit m else
      match queue (st_mu x) with
      | [] => goto (PWait cr) (upd_stream o (st_set_waiting true) m)
      | chunk :: rest =>
          let n := len chunk in
          goto (PWrite chunk (bool_decide (rest = [])) cr)
            (add_global (- n) (upd_session id (ss_add_buffered (- n))
               (upd_stream o (st_dequeue chunk rest) m)))
      end
  | PWait cr, Tau => if waiting (st_mu x) then blocked else goto (PLoop cr) m
  | PWrite chunk emptyNow cr, UpWrite None =>
      if conn_open x then
        let cr := cr + len chunk in
        let m1 := upd_stream o (st_write chunk) m in
        if (v2WindowUpdateThreshold <=? cr) || (emptyNow && (0 <? cr))
        then goto (PCredit cr) m1 else goto (PLoop cr) m1
      else blocked
  | PWrite chunk emptyNow cr, UpWrite (Some k) =>
      goto PFail (upd_stream o (st_write (take k chunk)) m)
  | PCredit cr, Written ok =>
      let '(ok, m1) := write_frame id ok (SFrame sid v2TypeWindowUpdate (be_put 4 cr)) m in
      if ok then goto (PLoop 0) (upd_stream o (st_grant (cr mod 2 ^ 32)) m1) else goto PConn m1
  | PFail, Written ok =>
      let '(_, m1) := write_frame id ok (SFrame sid v2TypeClose []) m in
      goto PConn m1
  | PConn, Tau => goto (PClose (CDel sid)) (upd_stream o (st_set_conn false) m)
  | PClose c, Tau =>
      closing_with (close_step (WPump o) false id c m)
        (fun c => TPump o id sid (PClose c)) exit
  | _, _ => blocked
  end
  end.

(** The goroutine that answers a PING after its jitter. *)
Definition pong_step (id : Z) (p : bytes) (e : env) (m : mem) : outcome :=
  match v2Sessions m !! id, e with
  | Some s, Written ok => exit (write_frame id ok (SFrame 0 v2TypePong p) m).2
  | Some s, Cancel => if ss_done s then exit m else blocked
  | _, _ => blocked
  end.

(** [heartbeatLoop] when its timer fires, or [done] is ready. *)
Definition heart_step (id : Z) (e : env) (m : mem) : outcome :=
  match v2Sessions m !! id, e with
  | Some s, Beat raw pad ok =>
      if hb_fires hb (now m) (lastWriteAt s) then
        if bool_decide (hb_pad hb raw = Some (len pad)) then
          let '(ok, m1) := write_frame id ok (SFrame 0 v2TypePing pad) m in
          if ok then next (THeart id) m1 else exit m1
        else blocked
      else next (THeart id) m
  | Some s, Cancel => if ss_done s then exit m else blocked
  | _, _ => blocked
  end.

Definition thread_step (t : thread) (e : env) (m : mem) : outcome :=
  match t with
  | TLoop id pc => loop_step id pc e m
  | TOpen n id sid pc => open_step n id sid pc e m
  | TReader o id sid pc => reader_step o id sid pc e m
  | TPump o id sid pc => pump_step o id sid pc e m
  | TPong n id p => pong_step id p e m
  | THeart id => heart_step id e m
  end.

(** ** The system *)

Record sys := Sys { threads : gmap who thread; memory : mem }.

Definition spawn (ts : list thread) (T : gmap who thread) : gmap who thread :=
  foldr (fun t T => <[who_of t := t]> T) T ts.

Definition set_thread (w : who) (t : option thread) (T : gmap who thread) : gmap who thread :=
  match t with Some t => <[w := t]> T | None => delete w T end.

Definition is_loop (t : thread) : bool := match t with TLoop _ _ => true | _ => false end.

(** Connections whose handler is running: [len(gate)] in [runTCP]. *)
Definition live_conns (T : gmap who thread) : nat :=
  size (filter (fun p => is_loop p.2 = true) T).

Inductive action :=
  | Run (w : who) (e : env)     (* one step of a goroutine *)
  | Accept                      (* a handshake completes: a new session *)
  | Reap                        (* a tick of the reaper *)
  | Clock (d : Z).              (* time passes *)

Definition reap_session (t : Z) (s : v2Session) : v2Session :=
  if ss_listed s && (lastActivity s <? t - v2SessionIdleTimeout) then ss_close_conn s else s.

Definition step (a : action) (y : sys) : option sys :=
  match a with
  | Run w e =>
      t ← threads y !! w;
      '(t', m', ts) ← thread_step t e (memory y);
      Some (Sys (spawn ts (set_thread w t' (threads y))) m')
  | Accept =>
      let m := memory y in
      if decide (Z.of_nat (live_conns (threads y)) < maxConcurrentConns) then
        let id := connCounter m + 1 in
        Some (Sys (spawn [TLoop id LRead; THeart id] (threads y))
                (Mem (v2GlobalBuffered m) (heap m) (<[id := new_session (now m)]> (v2Sessions m)) id
                   (next_obj m) (next_task m) (now m) (dialed m) (panicked m)))
      else None
  | Reap => Some (Sys (threads y) (set_sessions (fmap (reap_session (now (memory y)))) (memory y)))
  | Clock d => if 0 <=? d then Some (Sys (threads y) (advance d (memory y))) else None
  end.

Definition init : sys := Sys ∅ (Mem 0 ∅ ∅ 0 0 0 0 [] false).

Inductive reachable : sys -> Prop :=
  | reach_init : reachable init
  | reach_step a y y' : reachable y -> step a y = Some y' -> reachable y'.

Fixpoint run (acts : list action) (y : sys) : option sys :=
  match acts with
  | [] => Some y
  | a :: acts' => y' ← step a y; run acts' y'
  end.

End Goroutines.
