(* ===== verification/SessionInv.v ===== *)
(** * Invariants of the session

    [mem_ok] is the invariant of the shared memory, [thread_ok] what each
    goroutine knows at its program counter, [guar] what a goroutine's step may
    change under the others. A step preserves [mem_ok], establishes the
    goroutine's next [thread_ok], and keeps every other goroutine's. *)

From S2P Require Import Prelude GoStrings Padding StreamFrame Target Allowlist PskConfig Session.

(** ** Byte counts *)

Definition total (q : list bytes) : Z := len (concat q).

Lemma total_nil : total [] = 0.
Proof. done. Qed.
Lemma total_cons p q : total (p :: q) = len p + total q.
Proof. unfold total. cbn. by rewrite len_app. Qed.
Lemma total_snoc q p : total (q ++ [p]) = total q + len p.
Proof. unfold total. rewrite concat_app, len_app. cbn. by rewrite app_nil_r. Qed.
Lemma total_nonneg q : 0 <= total q.
Proof. apply len_nonneg. Qed.
#[export] Hint Rewrite total_nil total_cons total_snoc : golen.

Definition stream_bytes (o : nat) (x : v2Stream) : Z := qbytes (st_mu x).
Definition session_bytes (id : Z) (o : nat) (x : v2Stream) : Z :=
  if decide (st_sess x = id) then qbytes (st_mu x) else 0.

(** Bytes queued in all streams, resp. in those of one session. *)
Definition queued_all (m : mem) : Z := map_sum stream_bytes (heap m).
Definition queued_in (id : Z) (m : mem) : Z := map_sum (session_bytes id) (heap m).

(** ** The invariant of the memory *)

Record stream_ok (x : v2Stream) : Prop := {
  so_bytes : qbytes (st_mu x) = total (queue (st_mu x));
  so_chunks : Forall (fun p => len p <= maxStreamPayload) (queue (st_mu x));
  so_wait : waiting (st_mu x) = true -> queue (st_mu x) = [] /\ reclaimed (st_hist x) = false;
  so_reclaimed : reclaimed (st_hist x) = true -> queue (st_mu x) = [] /\ st_closed x = true;
  so_closing : closing x = true -> st_closed x = true;
  so_fifo : exists lost, received (st_hist x) = taken (st_hist x) ++ concat (queue (st_mu x)) ++ lost
              /\ (reclaimed (st_hist x) = false -> lost = []);
  so_written : written (st_hist x) `prefix_of` taken (st_hist x);
  so_granted : 0 <= granted (st_hist x) <= len (written (st_hist x));
  so_fresh : started (st_hist x) = false ->
    taken (st_hist x) = [] /\ written (st_hist x) = [] /\ granted (st_hist x) = 0;
  so_closed : if st_closed x
              then closed_by (st_hist x) = None ->
                   reclaimed (st_hist x) = true /\ closing x = true /\ conn_open x = false
              else closed_by (st_hist x) = None;
}.

Lemma so_open x : stream_ok x -> st_closed x = false ->
  closing x = false /\ reclaimed (st_hist x) = false /\ closed_by (st_hist x) = None.
Proof.
  intros [_ _ _ R C _ _ _ _ D] Hc. rewrite Hc in *. split_and!; [| | done].
  - destruct (closing x); [by specialize (C eq_refl) | done].
  - destruct (reclaimed (st_hist x)); [by destruct (R eq_refl) | done].
Qed.

Lemma so_closed_by x w : stream_ok x -> closed_by (st_hist x) = Some w -> st_closed x = true.
Proof. intros [_ _ _ _ _ _ _ _ _ D] Hw. destruct (st_closed x); [done | congruence]. Qed.

(** Nonces offered to the AEAD: 1, 2, 3, ... as uint64. *)
Definition nonces (n : nat) : list Z := (fun i => (1 + Z.of_nat i) mod 2 ^ 64) <$> seq 0 n.
#[global] Arguments nonces n : simpl never.

Record session_ok (s : v2Session) : Prop := {
  se_cap : buffered s <= v2SessionBufferCap;
  se_done : ss_done s = true -> ss_closed s = true;
  se_wire : (ss_wire s).*1 = nonces (length (ss_wire s));
  se_seq : seqWrite s = (1 + len (ss_wire s)) mod 2 ^ 64;
}.

(** The counter of a live session is exact; that of a session being torn down
    is only an upper bound, as [closeAll] does not bring it down. *)
Definition accounted (id : Z) (s : v2Session) (m : mem) : Prop :=
  queued_in id m <= buffered s /\ (ss_closed s = false -> buffered s = queued_in id m).

Definition table_ok (id : Z) (s : v2Session) (m : mem) : Prop :=
  map_Forall (fun sid o => exists x, heap m !! o = Some x /\ st_sess x = id /\ st_id x = sid) (streams s).

Record mem_ok (m : mem) : Prop := {
  mo_global : v2GlobalBuffered m = queued_all m;
  mo_stream o x : heap m !! o = Some x ->
    stream_ok x /\ (o < next_obj m)%nat /\ is_Some (v2Sessions m !! st_sess x);
  mo_session id s : v2Sessions m !! id = Some s ->
    session_ok s /\ 0 < id <= connCounter m /\ accounted id s m /\ table_ok id s m;
  mo_panic : panicked m = false;
  mo_counter : 0 <= connCounter m;
}.

(** ** What each goroutine knows *)

(** A goroutine in the middle of a close of an object of session [id]. *)
Definition closer_ok (w : who) (id : Z) (c : closer) (m : mem) : Prop :=
  match c with
  | CDel _ => True
  | CCas o => exists x, heap m !! o = Some x /\ st_sess x = id
  | CChan o => exists x, heap m !! o = Some x /\ st_sess x = id /\
      closed_by (st_hist x) = Some w /\ closing x = false /\ reclaimed (st_hist x) = false
  | CReclaim o => exists x, heap m !! o = Some x /\ st_sess x = id /\
      closed_by (st_hist x) = Some w /\ closing x = true /\ reclaimed (st_hist x) = false
  | CConn o => exists x, heap m !! o = Some x /\ st_sess x = id /\
      closed_by (st_hist x) = Some w /\ closing x = true /\ reclaimed (st_hist x) = true
  end.

Definition obj_of (id : Z) (o : nat) (m : mem) : Prop :=
  exists x, heap m !! o = Some x /\ st_sess x = id.

Definition running (s : v2Session) : Prop := ss_closed s = false /\ ss_done s = false.
Definition torn_down (s : v2Session) : Prop := ss_closed s = true /\ ss_done s = true.

Definition loop_ok (id : Z) (pc : loop_pc) (s : v2Session) (m : mem) : Prop :=
  match pc with
  | LRead | LBusy _ | LShed _ => running s
  | LLookup _ p => running s /\ len p <= maxStreamPayload
  | LSess o _ p => running s /\ len p <= maxStreamPayload /\ obj_of id o m
  | LGlob o _ p | LEnq o p =>
      running s /\ len p <= maxStreamPayload /\ obj_of id o m /\
      buffered s + len p <= v2SessionBufferCap
  | LClose c => running s /\ closer_ok (WLoop id) id c m
  | LAllClosed => running s
  | LAllDone => ss_closed s = true /\ ss_done s = false
  | LRange todo vis | LDelete todo vis _ => torn_down s /\ todo ## vis
  | LEnd => torn_down s
  | LVisit todo vis _ c => torn_down s /\ todo ## vis /\ closer_ok (WLoop id) id c m
  end.

(** The object OPEN task [n] has stored and not yet handed to goroutines. *)
Definition fresh_obj_of (n : nat) (id sid : Z) (o : nat) (m : mem) : Prop :=
  exists x, heap m !! o = Some x /\ st_sess x = id /\ st_id x = sid /\
    opener (st_hist x) = n /\ started (st_hist x) = false.

Definition open_ok (n : nat) (id sid : Z) (pc : open_pc) (m : mem) : Prop :=
  match pc with
  | OStart _ | OErr _ | ODial _ | OStore | ODone => True
  | OCheck o | OAbort o | OAbortConn o | OOk o | OFailConn o => fresh_obj_of n id sid o m
  | OFail o c => fresh_obj_of n id sid o m /\ closer_ok (WOpen n) id c m
  end.

Definition reader_ok (o : nat) (id : Z) (pc : reader_pc) (m : mem) : Prop :=
  match pc with
  | DSend b _ => len b <= maxStreamPayload
  | DClose c => closer_ok (WReader o) id c m
  | _ => True
  end.

(** The pump will not park on this object. *)
Definition more_work (x : v2Stream) : Prop := queue (st_mu x) <> [] \/ st_closed x = true.

(** The pump's ledger: what it has taken off the queue, written upstream and
    credited to the client. *)
Definition pump_ok (o : nat) (id : Z) (pc : pump_pc) (x : v2Stream) (m : mem) : Prop :=
  let h := st_hist x in
  match pc with
  | PLoop cr =>
      taken h = written h /\ granted h + cr = len (written h) /\ 0 <= cr < v2WindowUpdateThreshold /\
      (cr = 0 \/ more_work x)
  | PWait cr => taken h = written h /\ granted h = len (written h) /\ cr = 0
  | PWrite chunk emptyNow cr =>
      taken h = written h ++ chunk /\ granted h + cr = len (written h) /\
      0 <= cr < v2WindowUpdateThreshold /\ len chunk <= maxStreamPayload /\
      (emptyNow = false -> more_work x)
  | PCredit cr =>
      taken h = written h /\ granted h + cr = len (written h) /\
      0 <= cr < v2WindowUpdateThreshold + maxStreamPayload
  | PClose c => closer_ok (WPump o) id c m
  | PFail | PConn => True
  end.

Definition thread_ok (t : thread) (m : mem) : Prop :=
  match t with
  | TLoop id pc => exists s, v2Sessions m !! id = Some s /\ loop_ok id pc s m
  | TOpen n id sid pc =>
      is_Some (v2Sessions m !! id) /\ (n < next_task m)%nat /\ open_ok n id sid pc m
  | TReader o id sid pc =>
      exists x, heap m !! o = Some x /\ st_sess x = id /\ st_id x = sid /\
        started (st_hist x) = true /\ reader_ok o id pc m
  | TPump o id sid pc =>
      exists x, heap m !! o = Some x /\ st_sess x = id /\ st_id x = sid /\
        started (st_hist x) = true /\ pump_ok o id pc x m
  | TPong n id p =>
      is_Some (v2Sessions m !! id) /\ (n < next_task m)%nat /\ len p <= maxStreamPayload
  | THeart id => is_Some (v2Sessions m !! id)
  end.

(** ** Interference *)

Definition obj_guar (w : option who) (o : nat) (x x' : v2Stream) : Prop :=
  st_sess x' = st_sess x /\ st_id x' = st_id x /\ (conn_open x = false -> conn_open x' = false) /\
  (w <> Some (WPump o) ->
     taken (st_hist x') = taken (st_hist x) /\ written (st_hist x') = written (st_hist x) /\
     granted (st_hist x') = granted (st_hist x)) /\
  opener (st_hist x') = opener (st_hist x) /\
  (started (st_hist x) = true -> started (st_hist x') = true) /\
  (w <> Some (WPump o) -> more_work x -> more_work x') /\
  (st_closed x = true -> st_closed x' = true) /\
  (w <> Some (WOpen (opener (st_hist x))) -> started (st_hist x') = started (st_hist x)) /\
  (forall w', closed_by (st_hist x) = Some w' -> w <> Some w' ->
     closed_by (st_hist x') = Some w' /\ closing x' = closing x /\
     reclaimed (st_hist x') = reclaimed (st_hist x)).

Definition sess_guar (w : option who) (id : Z) (s s' : v2Session) : Prop :=
  w <> Some (WLoop id) ->
  ss_closed s' = ss_closed s /\ ss_done s' = ss_done s /\ buffered s' <= buffered s.

Record guar (w : option who) (m m' : mem) : Prop := {
  gu_heap o x : heap m !! o = Some x -> exists x', heap m' !! o = Some x' /\ obj_guar w o x x';
  gu_sess id s : v2Sessions m !! id = Some s ->
    exists s', v2Sessions m' !! id = Some s' /\ sess_guar w id s s';
  gu_task : (next_task m <= next_task m')%nat;
}.

Lemma obj_guar_refl w o x : obj_guar w o x x.
Proof. unfold obj_guar. naive_solver. Qed.

Lemma sess_guar_refl w id s : sess_guar w id s s.
Proof. intros _. split_and!; [done | done | lia]. Qed.
#[export] Hint Resolve obj_guar_refl sess_guar_refl : mxtr.

Lemma guar_refl w m : guar w m m.
Proof. split; eauto with mxtr. Qed.

Lemma guar_same w m m' :
  heap m' = heap m -> v2Sessions m' = v2Sessions m -> (next_task m <= next_task m')%nat ->
  guar w m m'.
Proof. intros Eh Es En. split; rewrite ?Eh, ?Es; eauto with mxtr. Qed.

Lemma obj_guar_trans w o x1 x2 x3 :
  obj_guar w o x1 x2 -> obj_guar w o x2 x3 -> obj_guar w o x1 x3.
Proof.
  unfold obj_guar. intros (A1 & A2 & A0 & A3 & A5 & A6 & A8 & A9 & A7 & A4) (B1 & B2 & B0 & B3 & B5 & B6 & B8 & B9 & B7 & B4).
  split_and!; [congruence | congruence | auto | | congruence | auto | auto | auto | |].
  - intros Hw. destruct (A3 Hw) as (? & ? & ?), (B3 Hw) as (? & ? & ?). split_and!; congruence.
  - intros Hw. rewrite B7 by (by rewrite A5). by apply A7.
  - intros w' Hc Hw. destruct (A4 w' Hc Hw) as (Hc' & ? & ?), (B4 w' Hc' Hw) as (? & ? & ?).
    split_and!; congruence.
Qed.

Lemma guar_trans w m1 m2 m3 : guar w m1 m2 -> guar w m2 m3 -> guar w m1 m3.
Proof.
  intros [h1 s1 t1] [h2 s2 t2]. split.
  - intros o x (x' & Hx' & G1)%h1. destruct (h2 o x' Hx') as (x'' & Hx'' & G2).
    exists x''. split; [done |]. by apply (obj_guar_trans _ _ _ x').
  - intros id s (s' & Hs' & G1)%s1. destruct (s2 id s' Hs') as (s'' & Hs'' & G2).
    exists s''. split; [done |]. unfold sess_guar in *. intros Hw.
    destruct (G1 Hw) as (? & ? & ?), (G2 Hw) as (? & ? & ?). split_and!; [congruence.. | lia].
  - lia.
Qed.

Lemma guar_upd_stream w o f m :
  (forall x, heap m !! o = Some x -> obj_guar w o x (f x)) -> guar w m (upd_stream o f m).
Proof.
  intros Hf. split; cbn; [| eauto with mxtr | done]. intros o' x Hx.
  destruct (decide (o' = o)) as [-> | Hne].
  - exists (f x). rewrite lookup_alter_eq, Hx. auto.
  - exists x. rewrite lookup_alter_ne by done. auto with mxtr.
Qed.

Lemma guar_upd_session w id f m :
  (forall s, v2Sessions m !! id = Some s -> sess_guar w id s (f s)) -> guar w m (upd_session id f m).
Proof.
  intros Hf. split; cbn; [eauto with mxtr | | done]. intros id' s Hs.
  destruct (decide (id' = id)) as [-> | Hne].
  - exists (f s). rewrite lookup_alter_eq, Hs. auto.
  - exists s. rewrite lookup_alter_ne by done. auto with mxtr.
Qed.

Lemma obj_of_stable w m m' id o : guar w m m' -> obj_of id o m -> obj_of id o m'.
Proof.
  intros G (x & Hx & Hs). destruct (gu_heap _ _ _ G o x Hx) as (x' & Hx' & Hs' & _).
  exists x'. split; [done | congruence].
Qed.

Lemma closer_stable w w' m m' id c :
  guar w m m' -> w <> Some w' -> closer_ok w' id c m -> closer_ok w' id c m'.
Proof.
  intros G Hw. destruct c as [|o|o|o|o]; cbn; [done | apply (obj_of_stable w _ _ id o G) |..];
    intros (x & Hx & Hs & Hc & Hcl & Hr);
    destruct (gu_heap _ _ _ G o x Hx) as (x' & Hx' & Hs' & _ & _ & _ & _ & _ & _ & _ & _ & G4);
    destruct (G4 w' Hc Hw) as (? & ? & ?); exists x'; split_and!; congruence.
Qed.

Lemma sess_stable w m m' id : guar w m m' -> is_Some (v2Sessions m !! id) -> is_Some (v2Sessions m' !! id).
Proof. intros G [s Hs]. destruct (gu_sess _ _ _ G id s Hs) as (s' & Hs' & _). eauto. Qed.

Lemma fresh_obj_stable w n id sid o m m' :
  guar w m m' -> w <> Some (WOpen n) -> fresh_obj_of n id sid o m -> fresh_obj_of n id sid o m'.
Proof.
  intros G Hw (x & Hx & E1 & E2 & E3 & E4).
  destruct (gu_heap _ _ _ G o x Hx) as (x' & Hx' & F1 & F2 & _ & _ & F3 & _ & _ & _ & F4 & _).
  exists x'. rewrite E3 in F4. specialize (F4 Hw). split_and!; congruence.
Qed.

Lemma fresh_obj_origin n id sid o m m' :
  (forall o x, heap m !! o = Some x -> exists x', heap m' !! o = Some x' /\
    st_sess x' = st_sess x /\ st_id x' = st_id x /\
    opener (st_hist x') = opener (st_hist x) /\ started (st_hist x') = started (st_hist x)) ->
  fresh_obj_of n id sid o m -> fresh_obj_of n id sid o m'.
Proof.
  intros F (x & Hx & E1 & E2 & E3 & E4). destruct (F o x Hx) as (x' & ? & ? & ? & ? & ?).
  exists x'. split_and!; congruence.
Qed.

Lemma thread_stable w m m' t :
  guar w m m' -> w <> Some (who_of t) -> thread_ok t m -> thread_ok t m'.
Proof.
  intros G Hw.
  assert (Hobj : forall id o, obj_of id o m -> obj_of id o m')
    by (intros ??; by apply (obj_of_stable w)).
  assert (Hcl : forall id c, closer_ok (who_of t) id c m -> closer_ok (who_of t) id c m')
    by (intros ??; by apply (closer_stable w)).
  pose proof (gu_task _ _ _ G) as Ht. destruct t as [id pc|n id sid pc|o id sid pc|o id sid pc|n id p|id]; cbn in *.
  - intros (s & Hs & Hok). destruct (gu_sess _ _ _ G id s Hs) as (s' & Hs' & Gs).
    destruct (Gs Hw) as (E1 & E2 & E3). exists s'. split; [done |].
    unfold running, torn_down in *.
    destruct pc; cbn in *; unfold running, torn_down in *; rewrite ?E1, ?E2; try done;
      naive_solver eauto 3 with lia.
  - intros (Hs & Hn & Hok). split_and!; [by apply (sess_stable w m) | lia |].
    assert (Hf : forall o, fresh_obj_of n id sid o m -> fresh_obj_of n id sid o m')
      by (intros o; by apply (fresh_obj_stable w)).
    destruct pc; cbn in *; try done; naive_solver eauto.
  - intros (x & Hx & E1 & E2 & Hst & Hok).
    destruct (gu_heap _ _ _ G o x Hx) as (x' & Hx' & E3 & E4 & _ & _ & _ & E5 & _).
    exists x'. split_and!; [done | congruence | congruence | auto |].
    destruct pc; cbn in *; try done; by apply Hcl.
  - intros (x & Hx & E1 & E2 & Hst & Hok).
    destruct (gu_heap _ _ _ G o x Hx) as (x' & Hx' & E3 & E4 & _ & G3 & _ & E5 & E6 & _).
    destruct (G3 Hw) as (F1 & F2 & F3). specialize (E6 Hw). exists x'. split_and!; [done | congruence | congruence | auto |].
    destruct pc; cbn in *; rewrite ?F1, ?F2, ?F3; try done; naive_solver.
  - intros (Hs & Hn & Hp). split_and!; [by apply (sess_stable w m) | lia | done].
  - by apply (sess_stable w m).
Qed.

(** ** Memory operations preserve [mem_ok] *)

(** Changing one object by [d] queued bytes. *)
Lemma queued_all_upd o f m x d :
  heap m !! o = Some x -> qbytes (st_mu (f x)) = qbytes (st_mu x) + d ->
  queued_all (upd_stream o f m) = queued_all m + d.
Proof.
  intros Hx Hd. unfold queued_all. cbn. rewrite (map_sum_alter _ _ _ _ _ Hx).
  unfold stream_bytes. lia.
Qed.

Lemma queued_in_upd id o f m x d :
  heap m !! o = Some x -> st_sess (f x) = st_sess x ->
  qbytes (st_mu (f x)) = qbytes (st_mu x) + d ->
  queued_in id (upd_stream o f m) = queued_in id m + (if decide (st_sess x = id) then d else 0).
Proof.
  intros Hx Hs Hd. unfold queued_in. cbn. rewrite (map_sum_alter _ _ _ _ _ Hx).
  unfold session_bytes. rewrite Hs. case_decide; lia.
Qed.

(** A legal change of one object. *)
Record stream_upd (x x' : v2Stream) (d : Z) : Prop := {
  su_ok : stream_ok x -> stream_ok x';
  su_sess : st_sess x' = st_sess x;
  su_id : st_id x' = st_id x;
  su_bytes : qbytes (st_mu x') = qbytes (st_mu x) + d;
}.

Lemma table_upd id s o f m :
  (forall x, heap m !! o = Some x -> st_sess (f x) = st_sess x /\ st_id (f x) = st_id x) ->
  table_ok id s m -> table_ok id s (upd_stream o f m).
Proof.
  intros Hf Ht sid o' Ho'. destruct (Ht sid o' Ho') as (x & Hx & E1 & E2). cbn.
  destruct (decide (o' = o)) as [-> | Hne].
  - destruct (Hf x Hx). exists (f x). rewrite lookup_alter_eq, Hx. split_and!; [done | congruence..].
  - exists x. by rewrite lookup_alter_ne by done.
Qed.

Lemma upd_session_zero id m : upd_session id (ss_add_buffered 0) m = m.
Proof.
  unfold upd_session, set_sessions. rewrite alter_id; [by destruct m |].
  intros s _. destruct s. unfold ss_add_buffered. cbn. f_equal. lia.
Qed.

(** Change an object and the counters that account for it: the global counter
    by [d], the owning session's by [ds]. *)
Definition upd_counted (o : nat) (f : v2Stream -> v2Stream) (id d ds : Z) (m : mem) : mem :=
  add_global d (upd_session id (ss_add_buffered ds) (upd_stream o f m)).

Lemma mem_ok_counted o f id d ds m x s :
  mem_ok m -> heap m !! o = Some x -> st_sess x = id -> v2Sessions m !! id = Some s ->
  stream_upd x (f x) d ->
  buffered s + ds <= v2SessionBufferCap -> d <= ds -> (ss_closed s = false -> ds = d) ->
  mem_ok (upd_counted o f id d ds m).
Proof.
  intros [Mg Ms Mss Mp Mc] Hx <- Hs [Uok Us Ui Ub] Hcap Hle Heq. unfold upd_counted.
  split; cbn.
  - assert (E := queued_all_upd o f m x d Hx Ub). unfold queued_all in *. cbn in *. lia.
  - intros o' x' Hx'.
    assert (Hdom : forall i, is_Some (v2Sessions m !! i) ->
              is_Some (alter (ss_add_buffered ds) (st_sess x) (v2Sessions m) !! i)).
    { intros i Hi. destruct (decide (i = st_sess x)) as [-> | Hne].
      - rewrite lookup_alter_eq, Hs. by eexists.
      - by rewrite lookup_alter_ne by done. }
    destruct (decide (o' = o)) as [-> | Hne].
    + rewrite lookup_alter_eq, Hx in Hx'. injection Hx' as <-. destruct (Ms o x Hx) as (? & ? & ?).
      split_and!; [auto | done | rewrite Us; auto].
    + rewrite lookup_alter_ne in Hx' by done. destruct (Ms o' x' Hx') as (? & ? & ?).
      split_and!; auto.
  - intros i s' Hs'.
    assert (Hq := queued_in_upd i o f m x d Hx Us Ub).
    destruct (decide (i = st_sess x)) as [-> | Hne].
    + rewrite lookup_alter_eq, Hs in Hs'. injection Hs' as <-.
      destruct (Mss _ s Hs) as ([? ? ? ?] & ? & [A1 A2] & T). rewrite decide_True in Hq by done.
      split_and!; [by split | lia | lia | |].
      * split; unfold queued_in in *; cbn in *; [lia |]. intros Hc. rewrite (A2 Hc), (Heq Hc). lia.
      * eapply (table_upd _ _ o f m) in T; [done |]. intros y Hy. by simplify_eq.
    + rewrite lookup_alter_ne in Hs' by done.
      destruct (Mss _ s' Hs') as (? & ? & [A1 A2] & T). rewrite decide_False in Hq by done.
      split_and!; [done | lia | lia | |].
      * split; unfold queued_in in *; cbn in *; [lia |]. intros Hc. rewrite (A2 Hc). lia.
      * eapply (table_upd _ _ o f m) in T; [done |]. intros y Hy. by simplify_eq.
  - done.
  - done.
Qed.

(** Change an object without touching its bytes. *)
Lemma mem_ok_stream o f m :
  mem_ok m -> (forall x, heap m !! o = Some x -> stream_upd x (f x) 0) -> mem_ok (upd_stream o f m).
Proof.
  intros M Hf. destruct (heap m !! o) as [x|] eqn:Hx.
  - destruct (mo_stream m M o x Hx) as (_ & _ & [s Hs]).
    pose proof (mo_session m M _ s Hs) as ([? ? ? ?] & _).
    assert (H := mem_ok_counted o f (st_sess x) 0 0 m x s M Hx eq_refl Hs (Hf x eq_refl)).
    assert (E : upd_counted o f (st_sess x) 0 0 m = upd_stream o f m).
    { unfold upd_counted. rewrite upd_session_zero. unfold add_global, upd_stream, set_streams.
      cbn. f_equal. lia. }
    rewrite <-E. apply H; lia.
  - assert (E : upd_stream o f m = m); [| by rewrite E].
    unfold upd_stream, set_streams. rewrite alter_id; [by destruct m |]. by rewrite Hx.
Qed.

(** Change a session without touching its byte counter. *)
Lemma mem_ok_session id f m :
  mem_ok m ->
  (forall s, v2Sessions m !! id = Some s ->
     (session_ok s -> session_ok (f s)) /\ buffered (f s) = buffered s /\
     (ss_closed s = true -> ss_closed (f s) = true) /\
     (table_ok id s m -> table_ok id (f s) m)) ->
  mem_ok (upd_session id f m).
Proof.
  intros [Mg Ms Mss Mp Mc] Hf. split; cbn; [done | | | done | done].
  - intros o x Hx. destruct (Ms o x Hx) as (? & ? & [s Hs]). split_and!; [done | done |].
    destruct (decide (st_sess x = id)) as [<- | Hne].
    + rewrite lookup_alter_eq, Hs. by eexists.
    + rewrite lookup_alter_ne by done. by eexists.
  - intros i s Hs. destruct (decide (i = id)) as [-> | Hne].
    + rewrite lookup_alter_eq in Hs. apply fmap_Some in Hs as (s0 & Hs0 & ->).
      destruct (Mss id s0 Hs0) as (? & ? & [A1 A2] & T).
      destruct (Hf s0 Hs0) as (F1 & F2 & F3 & F4).
      split_and!; [auto | lia | lia | | by apply F4].
      split; rewrite F2; [done |]. intros Hc. apply A2.
      destruct (ss_closed s0); [| done]. by rewrite F3 in Hc.
    + rewrite lookup_alter_ne in Hs by done. by apply Mss.
Qed.

(** A subtable is a table. *)
Lemma table_delete id s sid m :
  table_ok id s m -> table_ok id (ss_upd_streams (delete sid) s) m.
Proof. intros T. cbn. by apply map_Forall_delete. Qed.

(** ** Legal changes of one object *)

Ltac stream_upd_tac :=
  split; [intros [? ? ? ? ? ? ? ? ? ?]; split; cbn in *; auto | done | done | cbn; try lia].

Lemma su_close_conn x : stream_upd x (st_set_conn false x) 0.
Proof. stream_upd_tac. destruct (st_closed x); naive_solver. Qed.

Lemma su_closed w x :
  st_closed x = false -> stream_upd x (st_set_closed w x) 0.
Proof.
  intros Hc. stream_upd_tac; naive_solver.
Qed.

Lemma su_closing x w :
  closed_by (st_hist x) = Some w -> stream_upd x (st_set_closing x) 0.
Proof.
  intros Hc. stream_upd_tac; rewrite Hc in *; destruct (st_closed x); naive_solver.
Qed.

Lemma su_finish x w :
  closed_by (st_hist x) = Some w -> closing x = true -> reclaimed (st_hist x) = true ->
  stream_upd x (st_finish_close x) 0.
Proof.
  intros Hc Hcl Hr. stream_upd_tac. rewrite Hc in *. destruct (st_closed x); naive_solver.
Qed.

Lemma su_park x :
  queue (st_mu x) = [] -> st_closed x = false -> stream_upd x (st_set_waiting true x) 0.
Proof.
  intros Hq Hc. split; [| done | done | cbn; lia]. intros O.
  destruct (so_open x O Hc) as (_ & Hr & _). destruct O. by split.
Qed.

Lemma su_enqueue p x :
  st_closed x = false -> len p <= maxStreamPayload -> stream_upd x (st_enqueue p x) (len p).
Proof.
  intros Hc Hp. split; [| done | done | cbn; lia].
  intros O. destruct (so_open x O Hc) as (_ & Hr & _).
  destruct O as [B C W R Cl (lost & Hf & Hl) Wr G Fr Cd].
  split; cbn; try done.
  - rewrite total_snoc. lia.
  - apply Forall_app. by split; [| apply Forall_singleton].
  - rewrite Hr. done.
  - exists []. rewrite (Hl Hr) in Hf. rewrite Hf, concat_app. cbn.
    rewrite !app_nil_r, app_assoc. done.
Qed.

Lemma su_dequeue p rest x :
  queue (st_mu x) = p :: rest -> started (st_hist x) = true ->
  stream_upd x (st_dequeue p rest x) (- len p).
Proof.
  intros Hq Hst. split; [| done | done | cbn; lia].
  intros [B C W R Cl (lost & Hf & Hl) Wr G Fr Cd]. rewrite Hq in *. split; cbn; try done.
  - rewrite total_cons in B. lia.
  - by inversion C.
  - naive_solver.
  - naive_solver.
  - exists lost. rewrite <-app_assoc. split; [| done]. rewrite Hf. cbn. by rewrite <-app_assoc.
  - by apply prefix_app_r.
  - congruence.
Qed.

Lemma su_reclaim x :
  stream_ok x -> st_closed x = true -> stream_upd x (st_reclaim x) (- qbytes (st_mu x)).
Proof.
  intros [B C W R Cl (lost & Hf & Hl) Wr G Fr Cd] Hc. pose proof (total_nonneg (queue (st_mu x))).
  assert (E : (if 0 <? qbytes (st_mu x) then 0 else qbytes (st_mu x)) = 0) by (gcase; lia).
  split; [intros _ | done | done | cbn; rewrite E; lia].
  split; cbn; rewrite ?E; try done.
  - exists (concat (queue (st_mu x)) ++ lost). by split.
  - rewrite Hc in *. naive_solver.
Qed.

Lemma su_write p x rest :
  taken (st_hist x) = written (st_hist x) ++ p ++ rest -> started (st_hist x) = true ->
  stream_upd x (st_write p x) 0.
Proof.
  intros Ht Hst. stream_upd_tac.
  - exists rest. by rewrite Ht, app_assoc.
  - zlen.
  - congruence.
Qed.

Lemma su_grant n x :
  0 <= n -> granted (st_hist x) + n <= len (written (st_hist x)) -> started (st_hist x) = true ->
  stream_upd x (st_grant n x) 0.
Proof. intros ? ? Hst. stream_upd_tac; [lia | congruence]. Qed.

Lemma su_start x : stream_upd x (st_start x) 0.
Proof. stream_upd_tac. done. Qed.

(** ** The operations *)

Lemma guar_weaken w m m' : guar None m m' -> guar w m m'.
Proof.
  intros [h s t]. split; [| | done].
  - intros o x (x' & Hx' & E1 & E2 & E0 & E3 & E4 & E5 & E8 & E9 & E6 & E7)%h. exists x'. split; [done |].
    split_and!; [done | done | done | by intros; apply E3 | done | done | by intros; apply E8 | done
                | by intros; apply E6 |].
    intros w' Hc _. by apply E7.
  - intros id s0 (s' & Hs' & E)%s. exists s'. split; [done |]. intros _. by apply E.
Qed.

Lemma nonces_S n : nonces (S n) = nonces n ++ [(1 + Z.of_nat n) mod 2 ^ 64].
Proof. unfold nonces. rewrite seq_S, fmap_app. done. Qed.

Lemma session_ok_write t ok sf s : session_ok s -> session_ok (ss_write t ok sf s).
Proof.
  intros [Hc Hd Hw Hs]. split; cbn; try done.
  - rewrite fmap_app, length_app, Hw. change (length [_]) with 1%nat.
    rewrite Nat.add_1_r, nonces_S. by rewrite Hs.
  - rewrite Hs, len_app, Zplus_mod_idemp_l. change (len [_]) with 1. f_equal. lia.
Qed.

Lemma write_frame_ok id ok sf m r m' :
  mem_ok m -> write_frame id ok sf m = (r, m') ->
  mem_ok m' /\ guar None m m' /\ heap m' = heap m.
Proof.
  intros M. unfold write_frame. gcase; [intros [= <- <-]; by eauto using guar_refl |].
  destruct (v2Sessions m !! id) as [s|] eqn:Hs; [| intros [= <- <-]; by eauto using guar_refl].
  intros [= <- <-]. split_and!; [| | done].
  - apply mem_ok_session; [done |]. intros s0 Hs0.
    split_and!; [apply session_ok_write | done | done | done].
  - apply guar_upd_session. intros s0 _ _. cbn. split_and!; [done | done | lia].
Qed.

(** Neutral changes of one object, for [guar]. *)
Lemma obj_guar_conn w o x : obj_guar w o x (st_set_conn false x).
Proof. unfold obj_guar. naive_solver. Qed.
Lemma obj_guar_waiting b w o x : obj_guar w o x (st_set_waiting b x).
Proof. unfold obj_guar. naive_solver. Qed.
Lemma obj_guar_enqueue p w o x : obj_guar w o x (st_enqueue p x).
Proof.
  unfold obj_guar, more_work. cbn. split_and!; try done. intros _ _. left. by destruct (queue _).
Qed.
#[export] Hint Resolve obj_guar_conn obj_guar_waiting obj_guar_enqueue : mxtr.

Lemma guar_counted w o f id d ds m x s :
  heap m !! o = Some x -> v2Sessions m !! id = Some s ->
  obj_guar w o x (f x) -> (w <> Some (WLoop id) -> ds <= 0) ->
  guar w m (upd_counted o f id d ds m).
Proof.
  intros Hx Hs Hf Hd. unfold upd_counted.
  apply (guar_trans _ _ (upd_session id (ss_add_buffered ds) (upd_stream o f m)));
    [| by apply guar_same].
  apply (guar_trans _ _ (upd_stream o f m)); [apply guar_upd_stream | apply guar_upd_session].
  - intros y Hy. by simplify_eq.
  - intros s' Hs' Hw. cbn. specialize (Hd Hw). split_and!; [done | done | lia].
Qed.

(** After a step of a close the session's flags are as before. *)
Definition same_flags (id : Z) (m m' : mem) : Prop :=
  forall s, v2Sessions m !! id = Some s ->
    exists s', v2Sessions m' !! id = Some s' /\ ss_closed s' = ss_closed s /\ ss_done s' = ss_done s.

Lemma same_flags_upd_session id id' f m :
  (forall s, ss_closed (f s) = ss_closed s /\ ss_done (f s) = ss_done s) ->
  same_flags id m (upd_session id' f m).
Proof.
  intros Hf s Hs. cbn. destruct (decide (id = id')) as [-> | Hne].
  - rewrite lookup_alter_eq, Hs. exists (f s). split; [done | apply Hf].
  - rewrite lookup_alter_ne by done. eauto.
Qed.

Lemma same_flags_eq id m m' : v2Sessions m' = v2Sessions m -> same_flags id m m'.
Proof. intros E s Hs. rewrite E. eauto. Qed.

(** A close does not touch who made an object and whether it was started. *)
Definition same_origin (m m' : mem) : Prop :=
  forall o x, heap m !! o = Some x -> exists x', heap m' !! o = Some x' /\
    st_sess x' = st_sess x /\ st_id x' = st_id x /\
    opener (st_hist x') = opener (st_hist x) /\ started (st_hist x') = started (st_hist x).

Lemma close_same_origin w all id c m r m' :
  close_step w all id c m = (r, m') -> same_origin m m'.
Proof.
  assert (Hrefl : same_origin m m) by (intros o x Hx; by exists x).
  assert (Hupd : forall o f, (forall x, st_sess (f x) = st_sess x /\ st_id (f x) = st_id x /\
            opener (st_hist (f x)) = opener (st_hist x) /\ started (st_hist (f x)) = started (st_hist x)) ->
            forall m', heap m' = alter f o (heap m) -> same_origin m m').
  { intros o f Hf m1 E o' x Hx. rewrite E. destruct (decide (o' = o)) as [-> | Hne].
    - rewrite lookup_alter_eq, Hx. exists (f x). auto.
    - rewrite lookup_alter_ne by done. eauto. }
  destruct c as [sid|o|o|o|o]; cbn; intros Hr.
  - hcase Hr; injection Hr as <- <-; exact Hrefl.
  - repeat hcase Hr; injection Hr as <- <-; try exact Hrefl; (eapply Hupd; [| reflexivity]; done).
  - repeat hcase Hr; injection Hr as <- <-; try exact Hrefl; (eapply Hupd; [| reflexivity]; done).
  - hcase Hr; injection Hr as <- <-; try exact Hrefl.
    eapply (Hupd o st_reclaim); [done |]. cbn. by repeat gcase.
  - injection Hr as <- <-. eapply Hupd; [| reflexivity]; done.
Qed.

Lemma close_step_ok w all id c m r m' s :
  mem_ok m -> closer_ok w id c m -> v2Sessions m !! id = Some s ->
  (all = true -> ss_closed s = true) ->
  close_step w all id c m = (r, m') ->
  mem_ok m' /\ guar (Some w) m m' /\ same_flags id m m' /\
  match r with Some c' => closer_ok w id c' m' | None => True end.
Proof.
  intros M Hc Hs Hall. destruct c as [sid|o|o|o|o]; cbn in *.
  - rewrite Hs. cbn. destruct (streams s !! sid) as [o|] eqn:Ho.
    2: { intros [= <- <-]. split_and!; [done | apply guar_refl | by apply same_flags_eq | done]. }
    intros [= <- <-]. split_and!.
    + apply mem_ok_session; [done |]. intros s0 _.
      split_and!; [by intros [] | done | done | by apply table_delete].
    + apply guar_upd_session. intros s0 _ _. cbn. split_and!; [done | done | lia].
    + by apply same_flags_upd_session.
    + destruct (mo_session m M id s Hs) as (_ & _ & _ & T). destruct (T sid o Ho) as (x & ? & ? & _).
      by exists x.
  - destruct Hc as (x & Hx & E). rewrite Hx. destruct (st_closed x) eqn:Ec; intros [= <- <-].
    { split_and!; [done | apply guar_refl | by apply same_flags_eq | done]. }
    destruct (mo_stream m M o x Hx) as (O & _ & _). destruct (so_open x O Ec) as (Hcl & Hr & D).
    split_and!.
    + apply mem_ok_stream; [done |]. intros y Hy. simplify_eq. by apply su_closed.
    + apply guar_upd_stream. intros y Hy. simplify_eq. unfold obj_guar. cbn.
      split_and!; try done; [by right | by rewrite D].
    + by apply same_flags_eq.
    + exists (st_set_closed w x). cbn. rewrite lookup_alter_eq, Hx.
      split_and!; done.
  - destruct Hc as (x & Hx & E & Hw & Hcl & Hr). rewrite Hx, Hcl. intros [= <- <-]. split_and!.
    + apply mem_ok_stream; [done |]. intros y Hy. simplify_eq. by apply (su_closing _ w).
    + apply guar_upd_stream. intros y Hy. simplify_eq. unfold obj_guar. cbn.
      split_and!; try done. intros w' Hw' Hne. congruence.
    + by apply same_flags_eq.
    + exists (st_set_closing x). cbn. by rewrite lookup_alter_eq, Hx.
  - destruct Hc as (x & Hx & E & Hw & Hcl & Hr). rewrite Hx. intros [= <- <-].
    destruct (mo_stream m M o x Hx) as (O & _ & _).
    assert (Hclosed : st_closed x = true) by (by apply (so_closed_by x w)).
    assert (Hq : 0 <= qbytes (st_mu x)) by (rewrite (so_bytes x O); apply total_nonneg).
    set (q := qbytes (st_mu x)) in *.
    set (m1 := upd_counted o st_reclaim id (- q) (if all then 0 else - q) m).
    assert (E1 : upd_stream o st_reclaim (if 0 <? q then add_global (- q)
                   (if all then m else upd_session id (ss_add_buffered (- q)) m) else m) = m1).
    { unfold m1, upd_counted.
      destruct (0 <? q) eqn:Eq; bool_facts.
      - destruct all; [rewrite upd_session_zero |]; done.
      - replace q with 0 by lia. change (- 0) with 0.
        assert (Ea : (if all then 0 else 0) = 0) by by destruct all.
        rewrite Ea, upd_session_zero. unfold add_global, upd_stream, set_streams.
        cbn. f_equal. lia. }
    rewrite E1. split_and!.
    + destruct (mo_session m M id s Hs) as ([Hcap ? ? ?] & _ & _ & _).
      eapply mem_ok_counted; [done | exact Hx | done | exact Hs | by apply su_reclaim | | |].
      * destruct all; lia.
      * destruct all; lia.
      * intros Hf. destruct all; [| done]. rewrite Hall in Hf; done.
    + eapply guar_counted; [exact Hx | exact Hs | | destruct all; lia].
      unfold obj_guar. cbn. split_and!; try done; [by right |]. intros w' Hw' Hne. congruence.
    + unfold m1, upd_counted. intros s0 Hs0. cbn. rewrite lookup_alter_eq, Hs0.
      by eexists.
    + exists (st_reclaim x). unfold m1. cbn. by rewrite lookup_alter_eq, Hx.
  - destruct Hc as (x & Hx & E & Hw & Hcl & Hr). intros [= <- <-]. split_and!; [| | by apply same_flags_eq | done].
    + apply mem_ok_stream; [done |]. intros y Hy. simplify_eq. by apply (su_finish _ w).
    + apply guar_upd_stream. intros y Hy. simplify_eq. unfold obj_guar. cbn.
      split_and!; try done. intros w' Hw' Hne. congruence.
Qed.
