(* ===== verification/SessionSafe.v ===== *)
(** * Safety of the session: every reachable state satisfies the invariant

    One lemma per kind of goroutine, then the system. *)

From S2P Require Import Prelude.
From S2P Require Import GoStrings.
From S2P Require Import Padding.
From S2P Require Import StreamFrame.
From S2P Require Import Target.
From S2P Require Import Allowlist.
From S2P Require Import PskConfig.
From S2P Require Import Session.
From S2P Require Import SessionInv.

(** What a step from [t] in memory [m] must deliver. *)
Definition good (t : thread) (m : mem) (r : option thread * mem * list thread) : Prop :=
  let '(t', m', ts) := r in
  mem_ok m' /\ guar (Some (who_of t)) m m' /\
  from_option (fun t1 => who_of t1 = who_of t /\ thread_ok t1 m') True t' /\
  Forall (fun t1 => thread_ok t1 m') ts.

Lemma good_next t t1 m m' :
  mem_ok m' -> guar (Some (who_of t)) m m' -> who_of t1 = who_of t -> thread_ok t1 m' ->
  good t m (Some t1, m', []).
Proof. intros. unfold good. cbn. by split_and!. Qed.

Lemma good_exit t m m' : mem_ok m' -> guar (Some (who_of t)) m m' -> good t m (None, m', []).
Proof. intros. unfold good. cbn. by split_and!. Qed.

(** A step that changes nothing other goroutines could notice: the new program
    counter only has to be justified in the old memory. *)
Lemma good_neutral t t1 m m' :
  mem_ok m' -> guar None m m' -> who_of t1 = who_of t -> thread_ok t1 m ->
  good t m (Some t1, m', []).
Proof.
  intros M G Hw Ht. apply good_next; [done | by apply guar_weaken | done |].
  by apply (thread_stable None m).
Qed.

Lemma good_stay t t1 m :
  mem_ok m -> who_of t1 = who_of t -> thread_ok t1 m -> good t m (Some t1, m, []).
Proof. intros. by apply good_neutral; [| apply guar_refl | |]. Qed.

Lemma guar_session w id f m :
  (forall s, ss_closed (f s) = ss_closed s /\ ss_done (f s) = ss_done s /\ buffered (f s) = buffered s) ->
  guar w m (upd_session id f m).
Proof.
  intros Hf. apply guar_upd_session. intros s _ _. destruct (Hf s) as (-> & -> & ->).
  split_and!; done || lia.
Qed.

(** Session updates that leave the counters, the wire and the table alone. *)
Lemma mem_ok_plain id f m :
  mem_ok m ->
  (forall s, streams (f s) = streams s /\ buffered (f s) = buffered s /\
     ss_closed (f s) = ss_closed s /\ ss_done (f s) = ss_done s /\
     ss_wire (f s) = ss_wire s /\ seqWrite (f s) = seqWrite s) ->
  mem_ok (upd_session id f m).
Proof.
  intros M Hf. apply mem_ok_session; [done |]. intros s _.
  destruct (Hf s) as (E1 & E2 & E3 & E4 & E5 & E6). split_and!.
  - intros [? ? ? ?]. split; rewrite ?E2, ?E3, ?E4, ?E5, ?E6; done.
  - done.
  - by rewrite E3.
  - unfold table_ok. by rewrite E1.
Qed.

Lemma mem_ok_untracked m m' :
  mem_ok m -> heap m' = heap m -> v2Sessions m' = v2Sessions m ->
  v2GlobalBuffered m' = v2GlobalBuffered m -> connCounter m' = connCounter m ->
  (next_obj m <= next_obj m')%nat -> panicked m' = panicked m -> mem_ok m'.
Proof.
  intros [G St Se P C] Eh Es Eg Ec En Ep. split; rewrite ?Ep, ?Ec; try done.
  - rewrite Eg, G. unfold queued_all. by rewrite Eh.
  - intros o x Hx. rewrite Eh in Hx. destruct (St o x Hx) as (? & ? & ?). rewrite Es.
    split_and!; [done | lia | done].
  - intros id s Hs. rewrite Es in Hs. unfold accounted, table_ok, queued_in. rewrite Eh. by apply Se.
Qed.

Lemma write_frame_keeps id ok sf m r m' t :
  mem_ok m -> write_frame id ok sf m = (r, m') -> thread_ok t m ->
  mem_ok m' /\ guar None m m' /\ thread_ok t m'.
Proof.
  intros M Hw Ht. destruct (write_frame_ok id ok sf m r m' M Hw) as (M' & G & _).
  split_and!; [done | done |]. by apply (thread_stable None m).
Qed.

(** A step of a close inside a goroutine whose own knowledge is [P] while it
    closes and [Q] once it is over. *)
Lemma good_close t w all id c m s r k fin :
  mem_ok m -> w = who_of t -> closer_ok w id c m -> v2Sessions m !! id = Some s ->
  (all = true -> ss_closed s = true) ->
  closing_with (close_step w all id c m) k fin = Some r ->
  (forall c' m', mem_ok m' -> guar (Some w) m m' -> same_flags id m m' -> same_origin m m' ->
     closer_ok w id c' m' -> who_of (k c') = who_of t /\ thread_ok (k c') m') ->
  (forall m' r', mem_ok m' -> guar (Some w) m m' -> same_flags id m m' -> same_origin m m' ->
     fin m' = Some r' -> exists t1, r' = (t1, m', []) /\
       from_option (fun t1 => who_of t1 = who_of t /\ thread_ok t1 m') True t1) ->
  good t m r.
Proof.
  intros M -> Hc Hs Hall Hr Hk Hfin.
  destruct (close_step (who_of t) all id c m) as [c' m'] eqn:E.
  destruct (close_step_ok _ _ _ _ _ _ _ _ M Hc Hs Hall E) as (M' & G & F & Hc').
  pose proof (close_same_origin _ _ _ _ _ _ _ E) as O.
  destruct c' as [c'|]; cbn in Hr.
  - injection Hr as <-. destruct (Hk c' m' M' G F O Hc'). by apply good_next.
  - destruct (Hfin m' r M' G F O Hr) as (t1 & -> & Ht1). unfold good. by split_and!.
Qed.

(** ** A new object *)

Definition store_stream (n : nat) (id sid : Z) (m : mem) : mem :=
  upd_session id (ss_upd_streams <[sid := next_obj m]>)
    (set_streams <[next_obj m := new_stream n id sid]> (fresh_obj m)).

Lemma next_obj_fresh m : mem_ok m -> heap m !! next_obj m = None.
Proof.
  intros M. destruct (heap m !! next_obj m) as [x|] eqn:Hx; [| done].
  destruct (mo_stream m M _ x Hx) as (_ & ? & _). lia.
Qed.

Lemma new_stream_ok n id sid : stream_ok (new_stream n id sid).
Proof. split; cbn; try done. exists []. done. Qed.

Lemma guar_store n id sid m : mem_ok m -> guar None m (store_stream n id sid m).
Proof.
  intros M. unfold store_stream. eapply guar_trans; [| by apply guar_session].
  split; cbn; [| eauto with mxtr | done]. intros o x Hx. exists x. split; [| auto with mxtr].
  rewrite lookup_insert_ne; [done |]. intros <-. by rewrite next_obj_fresh in Hx.
Qed.

Lemma mem_ok_store n id sid m s :
  mem_ok m -> v2Sessions m !! id = Some s -> mem_ok (store_stream n id sid m).
Proof.
  intros M Hs. pose proof (next_obj_fresh m M) as Hf. destruct M as [G St Se P C].
  unfold store_stream. apply mem_ok_session.
  - split; cbn; [| | | done | done].
    + rewrite G. unfold queued_all. cbn. by rewrite map_sum_insert_fresh.
    + intros o x Hx. apply lookup_insert_Some in Hx as [[<- <-] | [Hne Hx]].
      * split_and!; [apply new_stream_ok | lia | by exists s].
      * destruct (St o x Hx) as (? & ? & ?). split_and!; [done | lia | done].
    + intros i s' Hs'. destruct (Se i s' Hs') as (S1 & S2 & [A1 A2] & T).
      assert (E : queued_in i (set_streams <[next_obj m := new_stream n id sid]> (fresh_obj m)) = queued_in i m).
      { unfold queued_in. cbn. rewrite map_sum_insert_fresh by done.
        unfold session_bytes at 1. cbn. case_decide; lia. }
      split_and!; [done | lia | lia | by split; rewrite E |].
      intros sid' o' Ho'. destruct (T sid' o' Ho') as (x & Hx & ?). exists x. cbn.
      rewrite lookup_insert_ne; [done |]. intros <-. by rewrite Hf in Hx.
  - cbn. intros s' Hs'. split_and!; [by intros [] | done | done |].
    intros T sid' o' Ho'. cbn in Ho'. apply lookup_insert_Some in Ho' as [[<- <-] | [Hne Ho']]; [| by apply T].
    exists (new_stream n id sid). cbn. by rewrite lookup_insert_eq.
Qed.

Section Steps.
Context `{UnicodeTables} (allowedDomains : list allowEntry) (hb : hb_params).

(** ** The read loop *)

Lemma dispatch_ok id sf s m r m0 :
  mem_ok m -> v2Sessions m0 !! id = Some s -> running s -> guar None m0 m ->
  len (sf_payload sf) <= maxStreamPayload ->
  dispatch id sf s m = Some r -> mem_ok m0 ->
  good (TLoop id LRead) m0 r.
Proof.
  intros M Hs Hrun G Hp Hr M0. destruct sf as [sid ty p]. cbn in Hp. unfold dispatch in Hr.
  assert (Hsid : is_Some (v2Sessions m0 !! id)) by by eexists.
  repeat hcase Hr; unfold next in Hr; injection Hr as <-.
  - (* OPEN: a slot is free *)
    assert (G' : guar None m0 (fresh_task (upd_session id (ss_open sid) m))).
    { apply (guar_trans _ _ m); [done |].
      apply (guar_trans _ _ (upd_session id (ss_open sid) m)); [by apply guar_session | apply guar_same; cbn; auto]. }
    split_and!.
    + apply (mem_ok_untracked (upd_session id (ss_open sid) m)); try done. by apply mem_ok_plain.
    + by apply guar_weaken.
    + split; [done |]. apply (thread_stable None m0); [done | done |]. by exists s.
    + constructor; [| done]. split_and!; [by apply (sess_stable None m0) | cbn; lia | done].
  - apply good_neutral; [done | done | done |]. by exists s.
  - apply good_neutral; [done | done | done |]. by exists s.
  - apply good_neutral; [done | done | done |]. by exists s.
  - (* PING *)
    assert (G' : guar None m0 (fresh_task m)).
    { apply (guar_trans _ _ m); [done | apply guar_same; cbn; auto]. }
    split_and!.
    + by apply (mem_ok_untracked m).
    + by apply guar_weaken.
    + split; [done |]. apply (thread_stable None m0); [done | done |]. by exists s.
    + constructor; [| done]. split_and!; [by apply (sess_stable None m0) | cbn; lia | done].
  - apply good_neutral; [done | done | done |]. by exists s.
Qed.

Lemma loop_step_ok id pc e m r :
  mem_ok m -> thread_ok (TLoop id pc) m -> loop_step id pc e m = Some r ->
  good (TLoop id pc) m r.
Proof.
  intros M (s & Hs & Hok) Hr. unfold loop_step in Hr. rewrite Hs in Hr.
  pose proof (mo_session m M id s Hs) as (Sok & _ & Acc & T).
  assert (Hstay : forall pc', loop_ok id pc' s m -> good (TLoop id pc) m (Some (TLoop id pc'), m, [])).
  { intros pc' Hpc'. apply good_stay; [done | done |]. by exists s. }
  assert (Hwrite : forall ok sf pc' ok' m1, loop_ok id pc' s m ->
    write_frame id ok sf m = (ok', m1) -> good (TLoop id pc) m (Some (TLoop id pc'), m1, [])).
  { intros ok sf pc' ok' m1 Hpc' Hw.
    destruct (write_frame_keeps id ok sf m ok' m1 (TLoop id pc') M Hw) as (M1 & G1 & T1); [by exists s |].
    apply good_next; [done | by apply guar_weaken | done | done]. }
  destruct pc as [|sid|sid p|o sid p|o sid p|o p|sid|c| | |todo vis|todo vis k c|todo vis k|];
    destruct e as [|pt| |ok|k'|ok|b eof|sh|raw pad ok|]; try done; cbn in Hok.
  - (* LRead, a frame *)
    hcase Hr; [| done]. bool_facts.
    set (m1 := upd_session id (ss_read (now m)) m) in *.
    assert (M1 : mem_ok m1) by (by apply mem_ok_plain).
    assert (G1 : guar None m m1) by (by apply guar_session).
    destruct (parse_stream_frame pt) as [sf|er|] eqn:Ep.
    + apply (dispatch_ok id sf s m1); try done.
      destruct (parse_Ok pt sf Ep) as [(_ & _ & Hl) | Hl]; [done | lia].
    + injection Hr as <-. apply good_neutral; [done | done | done |]. by exists s.
    + by destruct (parse_no_panic pt).
  - (* LRead, an error *) injection Hr as <-. by apply Hstay.
  - (* LBusy *)
    destruct (write_frame _ _ _ _) as [ok' m1] eqn:Hw. injection Hr as <-. by eapply Hwrite.
  - (* LLookup *)
    destruct Hok as [Hrun Hp]. destruct (streams s !! sid) as [o|] eqn:Ho; injection Hr as <-;
      apply Hstay; [| done]. split_and!; [done.. |].
    destruct (T sid o Ho) as (x & ? & ? & _). by exists x.
  - (* LSess *)
    destruct Hok as (Hrun & Hp & Ho). hcase Hr; injection Hr as <-; apply Hstay; [done |].
    by split_and!.
  - (* LGlob *)
    hcase Hr; injection Hr as <-; apply Hstay; [by destruct Hok | done].
  - (* LEnq *)
    destruct Hok as (Hrun & Hp & (x & Hx & Hxs) & Hcap). rewrite Hx in Hr.
    destruct (st_closed x) eqn:Ec; injection Hr as <-; [by apply Hstay |].
    apply good_next; [| | done |].
    + apply (mem_ok_counted o (st_enqueue p) id (len p) (len p) m x s); try done.
      by apply su_enqueue.
    + eapply guar_counted; [exact Hx | exact Hs | auto with mxtr | done].
    + exists (ss_add_buffered (len p) s). cbn. by rewrite lookup_alter_eq, Hs.
  - (* LShed *)
    destruct (write_frame _ _ _ _) as [ok' m1] eqn:Hw. injection Hr as <-. by eapply Hwrite.
  - (* LClose *)
    destruct Hok as [Hrun Hc].
    eapply (good_close (TLoop id (LClose c)) (WLoop id) false id c m s); try done; cbn.
    + intros c' m' M' G F O Hc'. split; [done |]. destruct (F s Hs) as (s' & Hs' & E1 & E2).
      exists s'. unfold running in *. rewrite E1, E2. done.
    + intros m' r' M' G F O [= <-]. eexists. split; [done |]. split; [done |].
      destruct (F s Hs) as (s' & Hs' & E1 & E2). exists s'. cbn. unfold running in *. by rewrite E1, E2.
  - (* LAllClosed *)
    injection Hr as <-. destruct Hok as [Hc Hd]. apply good_next; [| | done |].
    + apply mem_ok_session; [done |]. intros s0 Hs0. split_and!; [| done | done | done].
      intros [? ? ? ?]. by split.
    + apply guar_upd_session. intros s0 _ Hw. done.
    + exists (ss_set_closed s). cbn. by rewrite lookup_alter_eq, Hs.
  - (* LAllDone *)
    destruct Hok as [Hc Hd]. rewrite Hd in Hr. injection Hr as <-. apply good_next; [| | done |].
    + apply mem_ok_session; [done |]. intros s0 Hs0. simplify_eq. split_and!; [| done | done | done].
      intros [? ? ? ?]. by split.
    + apply guar_upd_session. intros s0 _ Hw. done.
    + exists (ss_set_done s). cbn. rewrite lookup_alter_eq, Hs. split; [done |].
      by split; [| apply disjoint_empty_r].
  - (* LRange, done *) hcase Hr; [| done]. injection Hr as <-. apply Hstay. by destruct Hok.
  - (* LRange, a key *)
    hcase Hr; [done |]. destruct Hok as [Hdown Hdisj].
    assert (Hd : todo ∖ {[k']} ## {[k']} ∪ vis) by set_solver.
    destruct (streams s !! k') as [o|] eqn:Ho.
    + injection Hr as <-. apply Hstay. split_and!; [done | done |].
      destruct (T k' o Ho) as (x & ? & ? & _). by exists x.
    + hcase Hr; [| done]. injection Hr as <-. by apply Hstay.
  - (* LVisit *)
    destruct Hok as (Hrun & Hd & Hc). pose proof Hrun as [Hcl _].
    eapply (good_close (TLoop id (LVisit todo vis k c)) (WLoop id) true id c m s); try done; cbn.
    + intros c' m' M' G F O Hc'. split; [done |]. destruct (F s Hs) as (s' & Hs' & E1 & E2).
      exists s'. unfold torn_down in *. rewrite E1, E2. done.
    + intros m' r' M' G F O [= <-]. eexists. split; [done |]. split; [done |].
      destruct (F s Hs) as (s' & Hs' & E1 & E2). exists s'. cbn. unfold torn_down in *. by rewrite E1, E2.
  - (* LDelete *)
    injection Hr as <-. apply good_neutral; [| | done | by exists s].
    + apply mem_ok_session; [done |]. intros s0 _.
      split_and!; [by intros [] | done | done | by apply table_delete].
    + by apply guar_session.
  - (* LEnd *)
    injection Hr as <-. apply good_exit; [by apply mem_ok_plain | by apply guar_session].
Qed.

(** ** OPEN tasks *)

Lemma open_step_ok n id sid pc e m r :
  mem_ok m -> thread_ok (TOpen n id sid pc) m -> open_step allowedDomains n id sid pc e m = Some r ->
  good (TOpen n id sid pc) m r.
Proof.
  intros M ([s Hs] & Hn & Hok) Hr. unfold open_step in Hr. rewrite Hs in Hr.
  assert (Hsid : is_Some (v2Sessions m !! id)) by by exists s.
  set (t := TOpen n id sid pc) in *.
  assert (Hneutral : forall pc' m', open_ok n id sid pc' m -> mem_ok m' -> guar None m m' ->
            good t m (Some (TOpen n id sid pc'), m', [])).
  { intros pc' m' Hpc' M' G. by apply good_neutral. }
  assert (Hstay : forall pc', open_ok n id sid pc' m -> good t m (Some (TOpen n id sid pc'), m, [])).
  { intros pc' Hpc'. by apply good_stay. }
  assert (Hwrite : forall ok sf pc' ok' m1, open_ok n id sid pc' m ->
    write_frame id ok sf m = (ok', m1) -> good t m (Some (TOpen n id sid pc'), m1, [])).
  { intros ok sf pc' ok' m1 Hpc' Hw. destruct (write_frame_ok id ok sf m ok' m1 M Hw) as (? & ? & _).
    by apply Hneutral. }
  assert (Hconn : forall o, mem_ok (upd_stream o (st_set_conn false) m) /\
                            guar None m (upd_stream o (st_set_conn false) m)).
  { intros o. split; [apply mem_ok_stream; [done |]; intros; apply su_close_conn |].
    apply guar_upd_stream. auto with mxtr. }
  destruct pc as [spec|msg|addr| |o|o|o|o|o c|o|];
    destruct e as [|pt| |ok|k'|ok|b eof|sh|raw pad ok|]; try done; cbn in Hok.
  - (* OStart *)
    destruct (parseTarget spec) as [addr|er|] eqn:Et.
    + hcase Hr; injection Hr as <-; by apply Hstay.
    + injection Hr as <-. by apply Hstay.
    + by destruct (parseTarget_no_panic spec).
  - (* OErr *)
    destruct (write_frame _ _ _ _) as [ok' m1] eqn:Hw. injection Hr as <-. by eapply Hwrite.
  - (* ODial *)
    hcase Hr; injection Hr as <-; (apply Hneutral; [done | by apply (mem_ok_untracked m) | by apply guar_same]).
  - (* OStore *)
    hcase Hr; injection Hr as <-; [by apply Hstay |].
    change (good t m (Some (TOpen n id sid (OCheck (next_obj m))), store_stream n id sid m, [])).
    pose proof (guar_store n id sid m M) as G.
    apply good_next; [by eapply mem_ok_store | by apply guar_weaken | done |].
    split_and!; [by apply (sess_stable None m) | done |].
    exists (new_stream n id sid). cbn. by rewrite lookup_insert_eq.
  - (* OCheck *) hcase Hr; injection Hr as <-; by apply Hstay.
  - (* OAbort *)
    injection Hr as <-. apply Hneutral; [done | | by apply guar_session].
    apply mem_ok_session; [done |]. intros s0 _.
    split_and!; [by intros [] | done | done | by apply table_delete].
  - (* OAbortConn *) injection Hr as <-. destruct (Hconn o). by apply Hneutral.
  - (* OOk *)
    destruct (write_frame _ _ _ _) as [ok' m1] eqn:Hw.
    destruct (write_frame_ok _ _ _ _ _ _ M Hw) as (M1 & G1 & Eh).
    pose proof Hok as (x & Hx & E1 & E2 & E3 & E4). rewrite <-Eh in Hx.
    destruct ok'; injection Hr as <-; [| by apply Hneutral].
    destruct (mo_stream m1 M1 o x Hx) as (O & _ & _). destruct (so_fresh x O E4) as (F1 & F2 & F3).
    assert (Hx' : heap (upd_stream o st_start m1) !! o = Some (st_start x))
      by (cbn; by rewrite lookup_alter_eq, Hx).
    split_and!.
    + apply mem_ok_stream; [done |]. intros y _. apply su_start.
    + apply (guar_trans _ _ m1); [by apply guar_weaken |]. apply guar_upd_stream.
      intros y Hy. simplify_eq. unfold obj_guar. cbn. split_and!; try done.
    + split; [done |]. split_and!; [| | done].
      * by apply (sess_stable None m m1).
      * cbn. pose proof (gu_task _ _ _ G1). lia.
    + repeat constructor; exists (st_start x); (split_and!; [done.. |]); cbn; [done |].
      rewrite F1, F2, F3. split_and!; try done. by left.
  - (* OFail *)
    destruct Hok as [Ho Hc].
    eapply (good_close t (WOpen n) false id c m s); try done; cbn.
    + intros c' m' M' G F O Hc'. split; [done |]. destruct (F s Hs) as (s' & Hs' & _).
      split_and!; [by exists s' | pose proof (gu_task _ _ _ G); lia | | done].
      by apply (fresh_obj_origin n id sid o m).
    + intros m' r' M' G F O [= <-]. eexists. split; [done |]. split; [done |].
      destruct (F s Hs) as (s' & Hs' & _).
      split_and!; [by exists s' | pose proof (gu_task _ _ _ G); cbn; lia |].
      by apply (fresh_obj_origin n id sid o m).
  - (* OFailConn *) injection Hr as <-. destruct (Hconn o). by apply Hneutral.
  - (* ODone *)
    injection Hr as <-. apply good_exit; [by apply mem_ok_plain | by apply guar_session].
Qed.

(** ** The upstream reader *)

Lemma reader_step_ok o id sid pc e m r :
  mem_ok m -> thread_ok (TReader o id sid pc) m -> reader_step o id sid pc e m = Some r ->
  good (TReader o id sid pc) m r.
Proof.
  intros M (x & Hx & E1 & E2 & Hst & Hok) Hr. unfold reader_step in Hr. rewrite Hx in Hr.
  destruct (mo_stream m M o x Hx) as (_ & _ & [s Hs]). rewrite E1 in Hs.
  set (t := TReader o id sid pc) in *.
  assert (Hneutral : forall pc' m', reader_ok o id pc' m -> mem_ok m' -> guar None m m' ->
            good t m (Some (TReader o id sid pc'), m', [])).
  { intros pc' m' Hpc' M' G. apply good_neutral; [done | done | done |]. by exists x. }
  assert (Hstay : forall pc', reader_ok o id pc' m -> good t m (Some (TReader o id sid pc'), m, [])).
  { intros pc' Hpc'. apply Hneutral; [done | done | apply guar_refl]. }
  assert (Hwrite : forall ok sf pc' ok' m1, reader_ok o id pc' m ->
    write_frame id ok sf m = (ok', m1) -> good t m (Some (TReader o id sid pc'), m1, [])).
  { intros ok sf pc' ok' m1 Hpc' Hw. destruct (write_frame_ok id ok sf m ok' m1 M Hw) as (? & ? & _).
    by apply Hneutral. }
  destruct pc as [| |b eof| |c|]; destruct e as [|pt| |ok|k'|ok|b' eof'|sh|raw pad ok|];
    try done; cbn in Hok.
  - (* DCheck *) hcase Hr; injection Hr as <-; by apply Hstay.
  - (* DRead *) repeat (hcase Hr; try done); injection Hr as <-; by apply Hstay.
  - (* DSend *)
    destruct (write_frame _ _ _ _) as [ok' m1] eqn:Hw.
    destruct ok'; [destruct eof |]; injection Hr as <-; by eapply Hwrite.
  - (* DEof *)
    destruct (write_frame _ _ _ _) as [ok' m1] eqn:Hw. injection Hr as <-. by eapply Hwrite.
  - (* DClose *)
    eapply (good_close t (WReader o) false id c m s); try done; cbn.
    + intros c' m' M' G F O Hc'. split; [done |]. destruct (O o x Hx) as (x' & Hx' & ? & ? & ? & ?).
      exists x'. split_and!; congruence.
    + intros m' r' M' G F O [= <-]. eexists. split; [done |]. split; [done |].
      destruct (O o x Hx) as (x' & Hx' & ? & ? & ? & ?). exists x'. split_and!; congruence || done.
  - (* DExit *)
    injection Hr as <-. apply good_exit.
    + apply mem_ok_stream; [done |]. intros; apply su_close_conn.
    + apply guar_upd_stream. auto with mxtr.
Qed.

(** ** The upload pump *)

(** Changes of the pump's own object. *)
Lemma guar_pump o f :
  (forall x, st_sess (f x) = st_sess x /\ st_id (f x) = st_id x /\ conn_open (f x) = conn_open x /\
     closing (f x) = closing x /\
     st_closed (f x) = st_closed x /\ opener (st_hist (f x)) = opener (st_hist x) /\ started (st_hist (f x)) = started (st_hist x) /\
     closed_by (st_hist (f x)) = closed_by (st_hist x) /\ reclaimed (st_hist (f x)) = reclaimed (st_hist x)) ->
  forall x, obj_guar (Some (WPump o)) o x (f x).
Proof.
  intros Hf x. destruct (Hf x) as (E1 & E2 & E0 & E3 & E8 & E4 & E5 & E6 & E7).
  unfold obj_guar. rewrite E1, E2, E0, E3, E4, E5, E6, E7, E8. split_and!; try done.
Qed.

Lemma pump_step_ok o id sid pc e m r :
  mem_ok m -> thread_ok (TPump o id sid pc) m -> pump_step o id sid pc e m = Some r ->
  good (TPump o id sid pc) m r.
Proof.
  intros M (x & Hx & E1 & E2 & Hst & Hok) Hr. unfold pump_step in Hr. rewrite Hx in Hr.
  destruct (mo_stream m M o x Hx) as (O & _ & [s Hs]). rewrite E1 in Hs.
  set (t := TPump o id sid pc) in *.
  assert (Hneutral : forall pc' m', pump_ok o id pc' x m -> mem_ok m' -> guar None m m' ->
            good t m (Some (TPump o id sid pc'), m', [])).
  { intros pc' m' Hpc' M' G. apply good_neutral; [done | done | done |]. by exists x. }
  assert (Hstay : forall pc', pump_ok o id pc' x m -> good t m (Some (TPump o id sid pc'), m, [])).
  { intros pc' Hpc'. apply Hneutral; [done | done | apply guar_refl]. }
  assert (Hwrite : forall ok sf pc' ok' m1, pump_ok o id pc' x m ->
    write_frame id ok sf m = (ok', m1) -> good t m (Some (TPump o id sid pc'), m1, [])).
  { intros ok sf pc' ok' m1 Hpc' Hw. destruct (write_frame_ok id ok sf m ok' m1 M Hw) as (? & ? & _).
    by apply Hneutral. }
  assert (Hupd : forall f pc', stream_upd x (f x) 0 -> (forall y, obj_guar (Some (WPump o)) o y (f y)) ->
    started (st_hist (f x)) = true -> pump_ok o id pc' (f x) (upd_stream o f m) ->
    good t m (Some (TPump o id sid pc'), upd_stream o f m, [])).
  { intros f pc' U G Hst' Hpc'. apply good_next; [| by apply guar_upd_stream | done |].
    - apply mem_ok_stream; [done |]. intros y Hy. by simplify_eq.
    - exists (f x). cbn. rewrite lookup_alter_eq, Hx. destruct U.
      split_and!; [done | congruence | congruence | done | done]. }
  destruct pc as [cr|cr|chunk em cr|cr| | |c]; destruct e as [|pt| |ok|k'|ok|b' eof'|[k|]|raw pad ok|];
    try done; cbn in Hok.
  - (* PLoop *)
    destruct Hok as (L1 & L2 & L3 & L4).
    destruct (st_closed x) eqn:Ec; [injection Hr as <-; by apply good_exit, guar_refl |].
    destruct (queue (st_mu x)) as [|chunk rest] eqn:Eq; injection Hr as <-.
    + apply (Hupd (st_set_waiting true)); [by apply su_park | auto with mxtr | done |].
      assert (cr = 0) by (unfold more_work in L4; rewrite Eq, Ec in L4; naive_solver).
      cbn. split_and!; [done | lia | done].
    + pose proof (so_chunks x O) as Hch. rewrite Eq in Hch. inversion Hch as [|? ? Hc _]; subst.
      pose proof (len_nonneg chunk). destruct (mo_session m M _ s Hs) as ([Hcap _ _ _] & _).
      apply good_next; [| | done |].
      * apply (mem_ok_counted o _ _ (- len chunk) (- len chunk) m x s); try done; [by apply su_dequeue | lia].
      * eapply guar_counted; [exact Hx | exact Hs | by apply guar_pump | lia].
      * exists (st_dequeue chunk rest x). cbn. rewrite lookup_alter_eq, Hx.
        split_and!; try done; [by rewrite L1 | lia | lia |].
        intros Hne%bool_decide_eq_false. by left.
  - (* PWait *)
    hcase Hr; [done |]. injection Hr as <-. destruct Hok as (L1 & L2 & ->). apply Hstay.
    split_and!; [done | lia | done | done | by left].
  - (* PWrite, short *)
    destruct Hok as (L1 & L2 & L3 & L4 & _). injection Hr as <-.
    apply (Hupd (st_write (take k chunk))); [| by apply guar_pump | done | done].
    apply (su_write _ _ (drop k chunk)); [| done]. by rewrite take_drop.
  - (* PWrite, all of it *)
    destruct Hok as (L1 & L2 & L3 & L4 & L5). pose proof (len_nonneg chunk). hcase Hr; [| done].
    assert (U : stream_upd x (st_write chunk x) 0).
    { apply (su_write _ _ []); [| done]. by rewrite app_nil_r. }
    hcase Hr; injection Hr as <-; (apply (Hupd (st_write chunk)); [done | by apply guar_pump | done |]); cbn.
    + split_and!; [done | rewrite len_app; lia | lia | lia].
    + bool_facts. split_and!; [done | rewrite len_app; lia | lia | done |].
      destruct em; [left; cbn in *; bool_facts; lia | right; by apply L5].
  - (* PCredit *)
    destruct Hok as (L1 & L2 & L3).
    destruct (write_frame _ _ _ _) as [ok' m1] eqn:Hw.
    destruct (write_frame_ok _ _ _ _ _ _ M Hw) as (M1 & G1 & Eh).
    destruct ok'; injection Hr as <-; [| by apply Hneutral].
    rewrite <-Eh in Hx.
    assert (Hcr : cr mod 2 ^ 32 = cr).
    { apply Z.mod_small. assert (v2WindowUpdateThreshold + maxStreamPayload < 2 ^ 32) by done. lia. }
    rewrite Hcr. apply good_next; [| | done |].
    + apply mem_ok_stream; [done |]. intros y Hy. simplify_eq. apply su_grant; [lia | lia | done].
    + apply (guar_trans _ _ m1); [by apply guar_weaken |]. apply guar_upd_stream.
      intros y _. by apply guar_pump.
    + exists (st_grant cr x). cbn. rewrite lookup_alter_eq, Hx. split_and!; try done; first [lia | by left].
  - (* PFail *)
    destruct (write_frame _ _ _ _) as [ok' m1] eqn:Hw. injection Hr as <-. by eapply Hwrite.
  - (* PConn *)
    injection Hr as <-. apply (Hupd (st_set_conn false)); [apply su_close_conn | auto with mxtr | done | done].
  - (* PClose *)
    eapply (good_close t (WPump o) false id c m s); try done; cbn.
    + intros c' m' M' G F O' Hc'. split; [done |]. destruct (O' o x Hx) as (x' & Hx' & ? & ? & ? & ?).
      exists x'. split_and!; congruence.
    + intros m' r' M' G F O' [= <-]. by eexists.
Qed.

(** ** PONG tasks and the heartbeat *)

Lemma pong_step_ok n id p e m r :
  mem_ok m -> thread_ok (TPong n id p) m -> pong_step id p e m = Some r -> good (TPong n id p) m r.
Proof.
  intros M ([s Hs] & _ & _) Hr. unfold pong_step in Hr. rewrite Hs in Hr.
  destruct e as [|pt| |ok|k'|ok|b eof|sh|raw pad ok|]; try done.
  - destruct (write_frame _ _ _ _) as [ok' m1] eqn:Hw. injection Hr as <-.
    destruct (write_frame_ok _ _ _ _ _ _ M Hw) as (M1 & G1 & _).
    apply good_exit; [done | by apply guar_weaken].
  - hcase Hr; [| done]. injection Hr as <-. by apply good_exit, guar_refl.
Qed.

Lemma heart_step_ok id e m r :
  mem_ok m -> thread_ok (THeart id) m -> heart_step hb id e m = Some r -> good (THeart id) m r.
Proof.
  intros M [s Hs] Hr. unfold heart_step in Hr. rewrite Hs in Hr.
  assert (Ht : thread_ok (THeart id) m) by by exists s.
  destruct e as [|pt| |ok|k'|ok|b eof|sh|raw pad ok|]; try done.
  - hcase Hr; [hcase Hr; [| done] |].
    + destruct (write_frame _ _ _ _) as [ok' m1] eqn:Hw.
      destruct (write_frame_ok _ _ _ _ _ _ M Hw) as (M1 & G1 & _).
      destruct ok'; injection Hr as <-;
        [by apply good_neutral | apply good_exit; [done | by apply guar_weaken]].
    + injection Hr as <-. by apply good_stay.
  - hcase Hr; [| done]. injection Hr as <-. by apply good_exit, guar_refl.
Qed.

Lemma thread_step_ok t e m r :
  mem_ok m -> thread_ok t m -> thread_step allowedDomains hb t e m = Some r -> good t m r.
Proof.
  destruct t; cbn [thread_step]; eauto using loop_step_ok, open_step_ok, reader_step_ok,
    pump_step_ok, pong_step_ok, heart_step_ok.
Qed.

(** ** The system *)

Record sys_ok (y : sys) : Prop := {
  sk_mem : mem_ok (memory y);
  sk_threads w t : threads y !! w = Some t -> who_of t = w /\ thread_ok t (memory y);
}.

Lemma spawn_lookup ts T w t :
  spawn ts T !! w = Some t -> (t ∈ ts /\ who_of t = w) \/ T !! w = Some t.
Proof.
  induction ts as [|t0 ts IH]; cbn; [by right |].
  intros [[<- <-] | [_ Hl]]%lookup_insert_Some; [left; by split; [left |] |].
  destruct (IH Hl) as [[? ?] | ?]; [left; by split; [right |] | by right].
Qed.

Lemma init_ok : sys_ok init.
Proof. by split; [split |]. Qed.

Lemma accept_ok id t m :
  mem_ok m -> connCounter m < id ->
  let m' := Mem (v2GlobalBuffered m) (heap m) (<[id := new_session t]> (v2Sessions m)) id
              (next_obj m) (next_task m) (now m) (dialed m) (panicked m) in
  mem_ok m' /\ guar None m m'.
Proof.
  intros [G St Se P C] Hid m'.
  assert (Hf : v2Sessions m !! id = None).
  { destruct (v2Sessions m !! id) as [s|] eqn:Hs; [| done].
    destruct (Se id s Hs) as (_ & ? & _). lia. }
  assert (Hq : queued_in id m = 0).
  { unfold queued_in. rewrite (map_sum_ext _ (fun _ _ => 0)); [apply map_sum_zero |].
    intros o x Hx. unfold session_bytes. rewrite decide_False; [done |]. intros <-.
    destruct (St o x Hx) as (_ & _ & [s Hs]). congruence. }
  split.
  - split; cbn; [done | | | done | lia].
    + intros o x Hx. destruct (St o x Hx) as (? & ? & Hs). split_and!; [done | done |].
      destruct (decide (id = st_sess x)) as [-> | ?]; [by rewrite lookup_insert_eq; eexists |].
      by rewrite lookup_insert_ne.
    + intros i s Hs. apply lookup_insert_Some in Hs as [[<- <-] | [Hne Hs]].
      * split_and!; [| lia | lia | | done].
        -- split; cbn; [done | done | done | done].
        -- split; change (queued_in id m') with (queued_in id m); rewrite Hq; cbn; lia.
      * destruct (Se i s Hs) as (? & ? & ? & ?). split_and!; [done | lia | lia | done | done].
  - split; cbn; [eauto with mxtr | | done]. intros i s Hs. exists s.
    rewrite lookup_insert_ne; [auto with mxtr |]. congruence.
Qed.

Lemma reap_ok m :
  mem_ok m ->
  let m' := set_sessions (fmap (reap_session (now m))) m in mem_ok m' /\ guar None m m'.
Proof.
  intros M m'.
  assert (Hr : forall t s, streams (reap_session t s) = streams s /\ buffered (reap_session t s) = buffered s /\
     ss_closed (reap_session t s) = ss_closed s /\ ss_done (reap_session t s) = ss_done s /\
     ss_wire (reap_session t s) = ss_wire s /\ seqWrite (reap_session t s) = seqWrite s).
  { intros t s. unfold reap_session. by gcase. }
  destruct M as [G St Se P C]. split.
  - split; cbn; [done | | | done | done].
    + intros o x Hx. destruct (St o x Hx) as (? & ? & Hs). split_and!; [done | done |].
      rewrite lookup_fmap. by apply fmap_is_Some.
    + intros id s Hs. rewrite lookup_fmap in Hs. apply fmap_Some in Hs as (s0 & Hs0 & ->).
      destruct (Se id s0 Hs0) as ([? ? ? ?] & ? & ? & ?), (Hr (now m) s0) as (E1 & E2 & E3 & E4 & E5 & E6).
      split_and!; [| lia | lia | |].
      * split; rewrite ?E2, ?E3, ?E4, ?E5, ?E6; done.
      * unfold accounted. by rewrite E2, E3.
      * unfold table_ok. by rewrite E1.
  - split; cbn; [eauto with mxtr | | done]. intros id s Hs. exists (reap_session (now m) s).
    rewrite lookup_fmap, Hs. split; [done |]. intros _.
    destruct (Hr (now m) s) as (E1 & -> & -> & -> & _). split_and!; done || lia.
Qed.

Lemma step_ok a y y' : sys_ok y -> step allowedDomains hb a y = Some y' -> sys_ok y'.
Proof.
  intros [M T] Hs. destruct a as [w e| | |d]; cbn in Hs.
  - destruct (threads y !! w) as [t|] eqn:Ht; [| done]. cbn in Hs.
    destruct (thread_step _ _ t e (memory y)) as [[[t' m'] ts]|] eqn:Hr; [| done]. injection Hs as <-.
    destruct (T w t Ht) as [<- Hok].
    destruct (thread_step_ok _ _ _ _ M Hok Hr) as (M' & G & Ht' & Hts).
    split; cbn; [done |]. intros w1 t1 [[Hin <-] | Hw1]%spawn_lookup.
    { split; [done |]. rewrite Forall_forall in Hts. by apply Hts. }
    destruct t' as [t'|]; cbn in *.
    + apply lookup_insert_Some in Hw1 as [[<- <-] | [Hne Hw1]]; [done |].
      destruct (T w1 t1 Hw1) as [<- Hok1]. split; [done |].
      eapply thread_stable; [exact G | congruence | done].
    + apply lookup_delete_Some in Hw1 as [Hne Hw1].
      destruct (T w1 t1 Hw1) as [<- Hok1]. split; [done |].
      eapply thread_stable; [exact G | congruence | done].
  - case_decide; [| done]. injection Hs as <-.
    destruct (accept_ok (connCounter (memory y) + 1) (now (memory y)) (memory y) M ltac:(lia)) as [M' G].
    split; cbn; [done |]. intros w1 t1 Hw1.
    apply lookup_insert_Some in Hw1 as [[<- <-] | [_ Hw1]].
    { split; [done |]. eexists. cbn. by rewrite lookup_insert_eq. }
    apply lookup_insert_Some in Hw1 as [[<- <-] | [_ Hw1]].
    { split; [done |]. cbn. rewrite lookup_insert_eq. by eexists. }
    destruct (T w1 t1 Hw1) as [<- Hok1]. split; [done |].
    by apply (thread_stable None (memory y)).
  - injection Hs as <-. destruct (reap_ok (memory y) M) as [M' G]. split; cbn; [done |].
    intros w1 t1 Hw1. destruct (T w1 t1 Hw1) as [<- Hok1]. split; [done |].
    by apply (thread_stable None (memory y)).
  - hcase Hs; [| done]. injection Hs as <-. split; cbn.
    + by apply (mem_ok_untracked (memory y)).
    + intros w1 t1 Hw1. destruct (T w1 t1 Hw1) as [<- Hok1]. split; [done |].
      apply (thread_stable None (memory y)); [by apply guar_same | done | done].
Qed.

Lemma reachable_ok y : reachable allowedDomains hb y -> sys_ok y.
Proof. induction 1; [apply init_ok | by eapply step_ok]. Qed.
End Steps.
