(* ===== verification/SessionSys.v ===== *)
(** * Invariants that relate goroutines to each other

    Started goroutines are new; whoever is recorded as closing an object is at
    work on it; the semaphore counts the OPEN tasks; the global byte budget is
    overshot by at most one frame per connection. *)

From S2P Require Import Prelude.
From S2P Require Import GoStrings.
From S2P Require Import Padding.
From S2P Require Import StreamFrame.
From S2P Require Import Target.
From S2P Require Import Allowlist.
From S2P Require Import PskConfig.
From S2P Require Import Session.
From S2P Require Import SessionInv.
From S2P Require Import SessionSafe.

(** ** The pool *)

(** New goroutines do not overwrite running ones. *)
Definition fresh_in (T : gmap who thread) (ts : list thread) : Prop :=
  NoDup (who_of <$> ts) /\ Forall (fun t => T !! who_of t = None) ts.

Lemma spawn_other ts T w : w ∉ who_of <$> ts -> spawn ts T !! w = T !! w.
Proof.
  induction ts as [|t ts IH]; cbn; [done |]. intros Hw.
  rewrite lookup_insert_ne by set_solver. apply IH. set_solver.
Qed.

Lemma map_sum_spawn f ts T :
  fresh_in T ts ->
  map_sum f (spawn ts T) = map_sum f T + foldr (fun t acc => f (who_of t) t + acc) 0 ts.
Proof.
  intros [Hnd Hf]. induction ts as [|t ts IH]; [cbn; lia |].
  apply NoDup_cons in Hnd as [Hni Hnd]. apply Forall_cons in Hf as [Ht Hf].
  change (spawn (t :: ts) T) with (<[who_of t := t]> (spawn ts T)).
  rewrite map_sum_insert_fresh by (by rewrite spawn_other). rewrite IH by done. cbn. lia.
Qed.

Definition opt_val (f : who -> thread -> Z) (w : who) (t : option thread) : Z :=
  match t with Some t => f w t | None => 0 end.

Lemma map_sum_set f w t t' T :
  T !! w = Some t -> map_sum f (set_thread w t' T) = map_sum f T - f w t + opt_val f w t'.
Proof.
  intros Ht. destruct t' as [t'|]; cbn; [by apply map_sum_insert |].
  rewrite (map_sum_delete _ _ _ _ Ht). lia.
Qed.

Lemma set_thread_other w w' t' T : w' <> w -> set_thread w t' T !! w' = T !! w'.
Proof. intros. destruct t'; cbn; [by rewrite lookup_insert_ne | by rewrite lookup_delete_ne]. Qed.

Lemma fresh_set_thread w t t' T ts :
  T !! w = Some t -> fresh_in T ts -> fresh_in (set_thread w t' T) ts.
Proof.
  intros Ht [Hnd Hf]. split; [done |]. eapply Forall_impl; [exact Hf |]. cbn. intros t1 H1.
  rewrite set_thread_other; [done |]. intros E. rewrite E in H1. congruence.
Qed.

Lemma spawn_keeps ts T w t : fresh_in T ts -> T !! w = Some t -> spawn ts T !! w = Some t.
Proof.
  intros [_ Hf] Ht. rewrite spawn_other; [done |]. intros (t2 & -> & Hin)%list_elem_of_fmap.
  rewrite Forall_forall in Hf. specialize (Hf t2 Hin). congruence.
Qed.

(** Case analysis over every branch of a goroutine's step. *)
Ltac step_cases Hr :=
  unfold loop_step, open_step, reader_step, pump_step, pong_step, heart_step, dispatch,
    closing_with, next, exit, blocked in Hr;
  repeat (hcase Hr; try discriminate Hr).

Section Sys.
Context `{UnicodeTables} (allowedDomains : list allowEntry) (hb : hb_params).
Abbreviation reachable := (reachable allowedDomains hb).
Abbreviation step := (step allowedDomains hb).

(** What a goroutine is closing. *)
Definition closer_of (t : thread) : option closer :=
  match t with
  | TLoop _ (LClose c) | TLoop _ (LVisit _ _ _ c) => Some c
  | TOpen _ _ _ (OFail _ c) => Some c
  | TReader _ _ _ (DClose c) => Some c
  | TPump _ _ _ (PClose c) => Some c
  | _ => None
  end.

(** The goroutines a step starts. *)
Lemma step_spawns t e m t' m' ts :
  thread_step allowedDomains hb t e m = Some (t', m', ts) ->
  ts = [] \/
  (exists id pc sid spec, t = TLoop id pc /\ ts = [TOpen (next_task m) id sid (OStart spec)]
      /\ t' = Some (TLoop id LRead)) \/
  (exists id pc p, t = TLoop id pc /\ ts = [TPong (next_task m) id p] /\ t' = Some (TLoop id LRead)) \/
  (exists n id sid o, t = TOpen n id sid (OOk o) /\ ts = [TReader o id sid DCheck; TPump o id sid (PLoop 0)]
      /\ t' = Some (TOpen n id sid ODone)).
Proof.
  intros Hr. destruct t as [id pc|n id sid pc|o id sid pc|o id sid pc|n id p|id]; cbn in Hr.
  - step_cases Hr; injection Hr as <- <- <-; try (by left).
    + right; left. by repeat eexists.
    + right; right; left. by repeat eexists.
  - step_cases Hr; injection Hr as <- <- <-; try (by left).
    right; right; right. by repeat eexists.
  - step_cases Hr; injection Hr as <- <- <-; by left.
  - step_cases Hr; injection Hr as <- <- <-; by left.
  - step_cases Hr; injection Hr as <- <- <-; by left.
  - step_cases Hr; injection Hr as <- <- <-; by left.
Qed.

Lemma thread_task_bound y w t :
  sys_ok y -> threads y !! w = Some t ->
  match w with WOpen n | WPong n => (n < next_task (memory y))%nat | _ => True end.
Proof.
  intros [_ T] Ht. destruct (T w t Ht) as [<- Hok]. destruct t; cbn in *; naive_solver.
Qed.

Lemma thread_obj_started y w t o :
  sys_ok y -> threads y !! w = Some t -> w = WReader o \/ w = WPump o ->
  exists x, heap (memory y) !! o = Some x /\ started (st_hist x) = true.
Proof.
  intros [_ T] Ht Hw. destruct (T w t Ht) as [E Hok].
  destruct t; cbn in *; destruct Hw; simplify_eq; naive_solver.
Qed.

Lemma step_fresh y w e t t' m' ts :
  sys_ok y -> threads y !! w = Some t ->
  thread_step allowedDomains hb t e (memory y) = Some (t', m', ts) -> fresh_in (threads y) ts.
Proof.
  intros Y Ht Hr. destruct (sk_threads _ Y w t Ht) as [<- Hok].
  assert (Htask : forall w', (w' = WOpen (next_task (memory y)) \/ w' = WPong (next_task (memory y))) ->
            threads y !! w' = None).
  { intros w' Hw'. destruct (threads y !! w') as [t1|] eqn:E; [| done].
    pose proof (thread_task_bound y w' t1 Y E). destruct Hw' as [-> | ->]; cbn in *; lia. }
  destruct (step_spawns _ _ _ _ _ _ Hr)
    as [-> | [(id & pc & sid & spec & -> & -> & _) | [(id & pc & p & -> & -> & _) |
       (n & id & sid & o & -> & -> & _)]]].
  - split; [constructor | constructor].
  - split; [apply NoDup_singleton | apply Forall_singleton; apply Htask; by left].
  - split; [apply NoDup_singleton | apply Forall_singleton; apply Htask; by right].
  - split; [cbn; apply NoDup_cons; split; [set_solver | apply NoDup_singleton] |].
    destruct Hok as (_ & _ & (x & Hx & _ & _ & _ & Hst)).
    assert (Hno : forall w', w' = WReader o \/ w' = WPump o -> threads y !! w' = None).
    { intros w' Hw'. destruct (threads y !! w') as [t1|] eqn:E; [| done].
      destruct (thread_obj_started y w' t1 o Y E Hw') as (x' & Hx' & Hst'). congruence. }
    repeat constructor; apply Hno; [by left | by right].
Qed.

Lemma accept_fresh y :
  sys_ok y ->
  let id := connCounter (memory y) + 1 in fresh_in (threads y) [TLoop id LRead; THeart id].
Proof.
  intros [M T] id.
  assert (Hno : forall w, w = WLoop id \/ w = WHeart id -> threads y !! w = None).
  { intros w Hw. destruct (threads y !! w) as [t|] eqn:Ht; [| done].
    destruct (T w t Ht) as [E Hok].
    assert (is_Some (v2Sessions (memory y) !! id)) as [s Hs].
    { destruct t; cbn in *; destruct Hw; simplify_eq; [destruct Hok as (s & ? & _); by exists s | done]. }
    destruct (mo_session _ M id s Hs) as (_ & ? & _). lia. }
  split; [cbn; apply NoDup_cons; split; [set_solver | apply NoDup_singleton] |].
  repeat constructor; apply Hno; [by left | by right].
Qed.

(** ** Effects of a step, one observation at a time *)

Lemma write_frame_frame id ok sf m r m' :
  write_frame id ok sf m = (r, m') ->
  heap m' = heap m /\ v2GlobalBuffered m' = v2GlobalBuffered m /\ dialed m' = dialed m /\
  forall i, openSem <$> v2Sessions m' !! i = openSem <$> v2Sessions m !! i.
Proof.
  unfold write_frame. gcase; [by intros [= <- <-] |].
  destruct (v2Sessions m !! id) as [s|] eqn:Hs; [| by intros [= <- <-]].
  intros [= <- <-]. split_and!; [done.. |]. intros i. cbn.
  destruct (decide (i = id)) as [-> | Hne];
    [by rewrite lookup_alter_eq, Hs | by rewrite lookup_alter_ne].
Qed.

Lemma close_step_frame w all id c m r m' :
  close_step w all id c m = (r, m') ->
  v2GlobalBuffered m' <= v2GlobalBuffered m /\ dialed m' = dialed m /\
  forall i, openSem <$> v2Sessions m' !! i = openSem <$> v2Sessions m !! i.
Proof.
  assert (Hsem : forall f i, (forall s, openSem (f s) = openSem s) ->
            openSem <$> alter f id (v2Sessions m) !! i = openSem <$> v2Sessions m !! i).
  { intros f i Hf. destruct (decide (i = id)) as [-> | Hne]; [| by rewrite lookup_alter_ne].
    rewrite lookup_alter_eq. destruct (v2Sessions m !! id); cbn; [by rewrite Hf | done]. }
  destruct c as [sid|o|o|o|o]; cbn; intros Hr; repeat hcase Hr; injection Hr as <- <-; cbn;
    (split_and!; [lia | done |]); try done; intros i; by rewrite ?Hsem.
Qed.

(** Sessions' semaphores after one session update. *)
Lemma sem_upd id f m i d :
  (forall s, openSem (f s) = openSem s + d) ->
  openSem <$> alter f id (v2Sessions m) !! i =
  (fun n => n + if decide (i = id) then d else 0) <$> (openSem <$> v2Sessions m !! i).
Proof.
  intros Hf. case_decide as E.
  - subst i. rewrite lookup_alter_eq. destruct (v2Sessions m !! id); cbn; [by rewrite Hf | done].
  - rewrite lookup_alter_ne by done. destruct (v2Sessions m !! i); cbn; [f_equal; lia | done].
Qed.

(** The objects' record of who is closing them. *)
Definition keeps_closers (m m' : mem) : Prop :=
  forall o x' w, heap m' !! o = Some x' -> closed_by (st_hist x') = Some w ->
    exists x, heap m !! o = Some x /\ closed_by (st_hist x) = Some w.

Lemma keeps_upd m m' o f :
  (forall x, closed_by (st_hist (f x)) = closed_by (st_hist x)) ->
  heap m' = alter f o (heap m) -> keeps_closers m m'.
Proof.
  intros Hf E o' x' w Hx' Hw. rewrite E in Hx'.
  apply lookup_alter_Some in Hx' as [(-> & x & Hx & ->) | [_ Hx]]; [| by exists x'].
  exists x. by rewrite Hf in Hw.
Qed.

Lemma keeps_eq m m' : heap m' = heap m -> keeps_closers m m'.
Proof. intros E o x w Hx Hw. rewrite E in Hx. by exists x. Qed.

Lemma keeps_trans m1 m2 m3 : keeps_closers m1 m2 -> keeps_closers m2 m3 -> keeps_closers m1 m3.
Proof. intros K1 K2 o x w Hx Hw. destruct (K2 o x w Hx Hw) as (x2 & Hx2 & Hw2). by eapply K1. Qed.

Lemma keeps_write id ok sf m r m' : write_frame id ok sf m = (r, m') -> keeps_closers m m'.
Proof. intros Hw. apply keeps_eq. by destruct (write_frame_frame _ _ _ _ _ _ Hw). Qed.

Lemma step_keeps_closers t e m t' m' ts :
  thread_step allowedDomains hb t e m = Some (t', m', ts) -> closer_of t = None ->
  keeps_closers m m'.
Proof.
  intros Hr Hc. destruct t as [id pc|n id sid pc|o id sid pc|o id sid pc|n id p|id]; cbn in Hr;
    step_cases Hr; injection Hr as <- <- <-; subst; cbn in Hc; try discriminate Hc;
    try (by apply keeps_eq); try (by eapply keeps_write);
    try (by eapply keeps_upd; [| reflexivity]).
  all: try (eapply keeps_trans; [by eapply keeps_write |]; by eapply keeps_upd; [| reflexivity]).
  - (* LoadOrStore *)
    intros o x' w Hx' Hw. cbn in Hx'. apply lookup_insert_Some in Hx' as [[<- <-] | [_ Hx']]; [done |].
    by exists x'.
  - (* PONG *)
    destruct (write_frame _ _ _ _) as [ok' m1] eqn:Hw. by eapply keeps_write.
Qed.

(** A closer past its compare-and-swap on [o]. *)
Definition owns (c : closer) (o : nat) : Prop := c = CChan o \/ c = CReclaim o \/ c = CConn o.

Lemma close_step_owner w all id c m r m' :
  close_step w all id c m = (r, m') -> closer_ok w id c m ->
  forall o x' w', heap m' !! o = Some x' -> closed_by (st_hist x') = Some w' ->
    (c = CCas o /\ w' = w /\ r = Some (CChan o)) \/
    (exists x, heap m !! o = Some x /\ closed_by (st_hist x) = Some w' /\
       (owns c o -> exists c', r = Some c' /\ owns c' o)).
Proof.
  unfold owns. intros Hr Hok o x' w' Hx' Hw'. destruct c as [sid|o1|o1|o1|o1]; cbn in Hr, Hok.
  - right. repeat hcase Hr; injection Hr as <- <-; exists x'; naive_solver.
  - repeat hcase Hr; injection Hr as <- <-; cbn in Hx'.
    + right. exists x'. naive_solver.
    + apply lookup_alter_Some in Hx' as [(-> & x & Hx & ->) | [_ Hx]]; cbn in Hw'.
      * left. naive_solver.
      * right. exists x'. naive_solver.
    + right. exists x'. naive_solver.
  - right. destruct Hok as (x1 & Hx1 & _ & _ & Hcl & _). rewrite Hx1, Hcl in Hr.
    injection Hr as <- <-. cbn in Hx'.
    apply lookup_alter_Some in Hx' as [(-> & x & Hx & ->) | [_ Hx]]; cbn in Hw';
      eexists; (split_and!; [exact Hx | exact Hw' |]); naive_solver.
  - right. destruct Hok as (x1 & Hx1 & _). rewrite Hx1 in Hr. injection Hr as <- <-. cbn in Hx'.
    assert (Eh : forall q, heap (if 0 <? q then add_global (- q) (if all then m else
              upd_session id (ss_add_buffered (- q)) m) else m) = heap m)
      by (intros q; by repeat gcase).
    rewrite Eh in Hx'.
    apply lookup_alter_Some in Hx' as [(-> & x & Hx & ->) | [_ Hx]]; cbn in Hw';
      eexists; (split_and!; [exact Hx | exact Hw' |]); naive_solver.
  - right. injection Hr as <- <-. cbn in Hx'.
    apply lookup_alter_Some in Hx' as [(-> & x & Hx & ->) | [Hne Hx]]; cbn in Hw'; [done |].
    eexists; (split_and!; [exact Hx | exact Hw' |]); naive_solver.
Qed.

(** A closing goroutine's step is a step of its close. *)
Lemma step_closes t e m t' m' ts c :
  thread_step allowedDomains hb t e m = Some (t', m', ts) -> closer_of t = Some c ->
  exists all id r, close_step (who_of t) all id c m = (r, m') /\
    (thread_ok t m -> closer_ok (who_of t) id c m) /\
    (forall c', r = Some c' -> exists t1, t' = Some t1 /\ closer_of t1 = Some c').
Proof.
  intros Hr Hc. destruct t as [id pc|n id sid pc|o id sid pc|o id sid pc|n id p|id];
    cbn in Hr, Hc; try discriminate Hc; step_cases Hr; injection Hr as <- <- <-; subst;
    try discriminate Hc; injection Hc as <-.
  all: eexists _, _, _; (split; [eassumption | split; [naive_solver |]]);
    intros c' Hc'; try discriminate Hc'; injection Hc' as <-; by eexists.
Qed.

(** ** Closers *)

Definition closers_live (y : sys) : Prop :=
  forall o x w, heap (memory y) !! o = Some x -> closed_by (st_hist x) = Some w ->
    exists t c, threads y !! w = Some t /\ closer_of t = Some c /\ owns c o.

Lemma closers_live_step a y y' :
  sys_ok y -> step a y = Some y' -> closers_live y -> closers_live y'.
Proof.
  intros Y Hs L. destruct a as [w0 e| | |d]; cbn in Hs.
  - destruct (threads y !! w0) as [t|] eqn:Ht; [| done]. cbn in Hs.
    destruct (thread_step _ _ t e (memory y)) as [[[t' m'] ts]|] eqn:Hr; [| done]. injection Hs as <-.
    pose proof (fresh_set_thread _ _ t' _ _ Ht (step_fresh _ _ _ _ _ _ _ Y Ht Hr)) as Hfresh.
    destruct (sk_threads _ Y w0 t Ht) as [Hwho Hok].
    assert (Hkeep : forall w t1, threads y !! w = Some t1 -> w <> w0 ->
              spawn ts (set_thread w0 t' (threads y)) !! w = Some t1).
    { intros w t1 Ht1 Hne. apply spawn_keeps; [done | by rewrite set_thread_other]. }
    assert (Hself : forall t1, t' = Some t1 -> spawn ts (set_thread w0 t' (threads y)) !! w0 = Some t1).
    { intros t1 ->. apply spawn_keeps; [done | cbn; by rewrite lookup_insert_eq]. }
    intros o x' w Hx' Hw. cbn in *.
    destruct (closer_of t) as [c|] eqn:Ec.
    + destruct (step_closes _ _ _ _ _ _ _ Hr Ec) as (all & id & r & Hcs & Hcok & Hnext).
      rewrite Hwho in Hcs, Hcok.
      destruct (close_step_owner _ _ _ _ _ _ _ Hcs (Hcok Hok) o x' w Hx' Hw)
        as [(-> & -> & ->) | (x & Hx & Hcb & Hown)].
      * destruct (Hnext _ eq_refl) as (t1 & Et1 & Hc1). exists t1, (CChan o).
        split_and!; [by apply Hself | done | by left].
      * destruct (L o x w Hx Hcb) as (t0 & c0 & Ht0 & Hc0 & Ho0).
        destruct (decide (w = w0)) as [-> | Hne].
        -- rewrite Ht in Ht0. injection Ht0 as <-. rewrite Ec in Hc0. injection Hc0 as <-.
           destruct (Hown Ho0) as (c' & -> & Hc'). destruct (Hnext _ eq_refl) as (t1 & Et1 & Hc1).
           exists t1, c'. split_and!; [by apply Hself | done | done].
        -- exists t0, c0. split_and!; [by apply Hkeep | done | done].
    + destruct (step_keeps_closers _ _ _ _ _ _ Hr Ec o x' w Hx' Hw) as (x & Hx & Hcb).
      destruct (L o x w Hx Hcb) as (t0 & c0 & Ht0 & Hc0 & Ho0).
      destruct (decide (w = w0)) as [-> | Hne]; [congruence |].
      exists t0, c0. split_and!; [by apply Hkeep | done | done].
  - case_decide; [| done]. injection Hs as <-. intros o x w Hx Hw.
    destruct (L o x w Hx Hw) as (t0 & c0 & Ht0 & Hc0 & Ho0). exists t0, c0.
    split_and!; [| done | done]. by apply (spawn_keeps _ _ _ _ (accept_fresh y Y)).
  - injection Hs as <-. exact L.
  - hcase Hs; [| done]. injection Hs as <-. exact L.
Qed.

(** ** The semaphore *)

Definition opens (id : Z) (w : who) (t : thread) : Z :=
  match t with TOpen _ id' _ _ => if decide (id' = id) then 1 else 0 | _ => 0 end.

Definition same_sems (m m' : mem) : Prop :=
  forall i, openSem <$> v2Sessions m' !! i = openSem <$> v2Sessions m !! i.

Lemma same_sems_eq m m' : v2Sessions m' = v2Sessions m -> same_sems m m'.
Proof. intros E i. by rewrite E. Qed.

Lemma same_sems_upd m m' id f :
  (forall s, openSem (f s) = openSem s) -> v2Sessions m' = alter f id (v2Sessions m) -> same_sems m m'.
Proof.
  intros Hf E i. rewrite E, (sem_upd id f m i 0) by (intros s; rewrite Hf; lia).
  destruct (v2Sessions m !! i); cbn; [| done]. f_equal. case_decide; lia.
Qed.

Lemma same_sems_write id ok sf m r m' : write_frame id ok sf m = (r, m') -> same_sems m m'.
Proof. intros Hw. by destruct (write_frame_frame _ _ _ _ _ _ Hw) as (_ & _ & _ & ?). Qed.

Lemma same_sems_close w all id c m r m' : close_step w all id c m = (r, m') -> same_sems m m'.
Proof. intros Hw. by destruct (close_step_frame _ _ _ _ _ _ _ Hw) as (_ & _ & ?). Qed.

Lemma step_sems t e m t' m' ts :
  thread_step allowedDomains hb t e m = Some (t', m', ts) ->
  (same_sems m m' /\
   forall i, opt_val (opens i) (who_of t) t' + foldr (fun t acc => opens i (who_of t) t + acc) 0 ts =
             opens i (who_of t) t) \/
  (exists id pc s sid spec, t = TLoop id pc /\ t' = Some (TLoop id LRead) /\
     ts = [TOpen (next_task m) id sid (OStart spec)] /\
     v2Sessions m !! id = Some s /\ openSem s < v2MaxConcurrentOpens /\
     forall i, openSem <$> v2Sessions m' !! i =
       (fun n => n + if decide (i = id) then 1 else 0) <$> (openSem <$> v2Sessions m !! i)) \/
  (exists n id sid, t = TOpen n id sid ODone /\ t' = None /\ ts = [] /\
     forall i, openSem <$> v2Sessions m' !! i =
       (fun n => n + if decide (i = id) then -1 else 0) <$> (openSem <$> v2Sessions m !! i)).
Proof.
  intros Hr. destruct t as [id pc|n id sid pc|o id sid pc|o id sid pc|n id p|id]; cbn in Hr;
    step_cases Hr; injection Hr as <- <- <-; subst.
  all: try (left; split; [first [by apply same_sems_eq | by eapply same_sems_write
       | by eapply same_sems_close | by eapply same_sems_upd; [| reflexivity] ]
       | intros i; cbn; lia]).
  - right; left. eexists id, _, v, _, _. split_and!; try done. intros i.
    etransitivity; [by apply (sem_upd id (ss_open sf_id) (upd_session id (ss_read (now m)) m) i 1) |].
    cbn. rewrite (sem_upd id (ss_read (now m)) m i 0) by (intros s; cbn; lia).
    destruct (v2Sessions m !! i); cbn; [| done]. f_equal. repeat case_decide; lia.
  - left. split; [by eapply (same_sems_write id ok _ m true m0) | intros i; cbn; lia].
  - right; right. eexists _, _, _. split_and!; try done. intros i. by apply sem_upd.
  - left. split; [by eapply (same_sems_write id ok _ m true m0) | intros i; cbn; lia].
  - left. split; [| intros i; cbn; lia].
    destruct (write_frame _ _ _ _) as [ok' m1] eqn:Hw. by eapply same_sems_write.
Qed.

(** [len(openSem)]: the number of OPEN tasks of the session. *)
Definition sems_ok (y : sys) : Prop :=
  forall id s, v2Sessions (memory y) !! id = Some s ->
    openSem s = map_sum (opens id) (threads y) /\ openSem s <= v2MaxConcurrentOpens.

Lemma sems_step a y y' : sys_ok y -> step a y = Some y' -> sems_ok y -> sems_ok y'.
Proof.
  intros Y Hs L. destruct a as [w0 e| | |d]; cbn in Hs.
  - destruct (threads y !! w0) as [t|] eqn:Ht; [| done]. cbn in Hs.
    destruct (thread_step _ _ t e (memory y)) as [[[t' m'] ts]|] eqn:Hr; [| done]. injection Hs as <-.
    pose proof (fresh_set_thread _ _ t' _ _ Ht (step_fresh _ _ _ _ _ _ _ Y Ht Hr)) as Hfresh.
    destruct (sk_threads _ Y w0 t Ht) as [<- _].
    intros i s' Hs'. cbn in *. rewrite map_sum_spawn, (map_sum_set _ _ _ _ _ Ht) by done.
    destruct (step_sems _ _ _ _ _ _ Hr) as [[Hsem Hcnt] | [H1 | H1]].
    + specialize (Hsem i). specialize (Hcnt i). rewrite Hs' in Hsem. symmetry in Hsem.
      apply fmap_Some in Hsem as (s & Hs & E). destruct (L i s Hs) as [E1 E2]. lia.
    + destruct H1 as (id & pc & s0 & sid & spec & -> & -> & -> & Hs0 & Hlt & Hsem).
      specialize (Hsem i). rewrite Hs' in Hsem. symmetry in Hsem.
      apply fmap_Some in Hsem as (n & (s & Hs & ->)%fmap_Some & E). cbn in *.
      destruct (L i s Hs) as [E1 E2]. rewrite E.
      destruct (decide (i = id)) as [-> | Hne].
      * simplify_eq. rewrite decide_True by done. lia.
      * rewrite decide_False by done. lia.
    + destruct H1 as (n & id & sid & -> & -> & -> & Hsem).
      specialize (Hsem i). rewrite Hs' in Hsem. symmetry in Hsem.
      apply fmap_Some in Hsem as (n0 & (s & Hs & ->)%fmap_Some & E). cbn in *.
      destruct (L i s Hs) as [E1 E2]. rewrite E.
      destruct (decide (i = id)) as [-> | Hne]; repeat case_decide; simplify_eq; lia.
  - case_decide; [| done]. injection Hs as <-. intros i s Hs. cbn in Hs |- *.
    change (<[?a := ?b]> (<[?c := ?d]> (threads y))) with
      (spawn [TLoop (connCounter (memory y) + 1) LRead; THeart (connCounter (memory y) + 1)] (threads y)).
    rewrite map_sum_spawn by by apply accept_fresh. cbn.
    apply lookup_insert_Some in Hs as [[<- <-] | [Hne Hs]].
    + cbn. rewrite (map_sum_ext _ (fun _ _ => 0)); [rewrite map_sum_zero; done |].
      intros w t Ht. destruct (sk_threads _ Y w t Ht) as [_ Hok].
      destruct t as [| n id' sid pc| | | |]; cbn; try done. case_decide; [| done].
      destruct Hok as ([s Hs] & _). destruct (mo_session _ (sk_mem _ Y) _ s Hs) as (_ & ? & _). lia.
    + destruct (L i s Hs). lia.
  - injection Hs as <-. intros i s Hs. cbn in Hs |- *. rewrite lookup_fmap in Hs.
    apply fmap_Some in Hs as (s0 & Hs0 & ->). destruct (L i s0 Hs0).
    unfold reap_session. by gcase.
  - hcase Hs; [| done]. injection Hs as <-. exact L.
Qed.

(** ** The global byte budget *)

(** Bytes a read loop has checked against the budget and not yet queued. *)
Definition pending (w : who) (t : thread) : Z :=
  match t with TLoop _ (LEnq _ p) => len p | _ => 0 end.
Definition loops (w : who) (t : thread) : Z := if is_loop t then 1 else 0.

Lemma live_conns_sum T : Z.of_nat (live_conns T) = map_sum loops T.
Proof.
  unfold live_conns. induction T as [|w t T Hw IH] using map_ind.
  { by rewrite map_filter_empty, map_size_empty, map_sum_empty. }
  rewrite map_sum_insert_fresh by done. unfold loops at 1.
  destruct (is_loop t) eqn:E.
  - rewrite map_filter_insert_True by done. rewrite map_size_insert_None.
    + lia.
    + apply map_lookup_filter_None. by left.
  - rewrite map_filter_insert_False by (cbn; congruence). rewrite delete_id by done. lia.
Qed.

Lemma write_frame_global id ok sf m r m' :
  write_frame id ok sf m = (r, m') -> v2GlobalBuffered m' <= v2GlobalBuffered m.
Proof. intros Hw. destruct (write_frame_frame _ _ _ _ _ _ Hw) as (_ & -> & _). done. Qed.

Lemma close_step_global w all id c m r m' :
  close_step w all id c m = (r, m') -> v2GlobalBuffered m' <= v2GlobalBuffered m.
Proof. intros Hw. by destruct (close_step_frame _ _ _ _ _ _ _ Hw). Qed.

Lemma step_global t e m t' m' ts :
  thread_step allowedDomains hb t e m = Some (t', m', ts) ->
  foldr (fun t acc => pending (who_of t) t + acc) 0 ts = 0 /\
  foldr (fun t acc => loops (who_of t) t + acc) 0 ts = 0 /\
  opt_val loops (who_of t) t' <= loops (who_of t) t /\
  ((v2GlobalBuffered m' <= v2GlobalBuffered m /\ opt_val pending (who_of t) t' = 0) \/
   (exists id o sid p, t = TLoop id (LGlob o sid p) /\ t' = Some (TLoop id (LEnq o p)) /\ m' = m /\
      v2GlobalBuffered m + len p <= v2GlobalBufferCap) \/
   (exists id o p, t = TLoop id (LEnq o p) /\ t' = Some (TLoop id LRead) /\
      v2GlobalBuffered m' <= v2GlobalBuffered m + len p)).
Proof.
  intros Hr. destruct t as [id pc|n id sid pc|o id sid pc|o id sid pc|n id p|id]; cbn in Hr;
    step_cases Hr; injection Hr as <- <- <-; subst.
  all: split_and!; [done | done | cbn; lia |].
  all: try (left; split; [first [done | by eapply write_frame_global | by eapply close_step_global
       | by eapply (write_frame_global id ok _ m true m0) ] | done]).
  - right; left. by eexists _, _, _, _.
  - right; right. eexists _, _, _. by cbn.
  - left. split; [cbn; pose proof (len_nonneg l); lia | done].
  - left. split; [| done]. destruct (write_frame _ _ _ _) as [ok' m1] eqn:Hw.
    by eapply write_frame_global.
Qed.

Definition global_overshoot : Z := (maxConcurrentConns - 1) * maxStreamPayload.

Definition budget_ok (y : sys) : Prop :=
  map_sum loops (threads y) <= maxConcurrentConns /\
  v2GlobalBuffered (memory y) + map_sum pending (threads y) <= v2GlobalBufferCap + global_overshoot.

Lemma pending_bound y w t :
  sys_ok y -> threads y !! w = Some t -> 0 <= pending w t <= maxStreamPayload * loops w t.
Proof.
  intros Y Ht. destruct (sk_threads _ Y w t Ht) as [_ Hok].
  assert (0 <= maxStreamPayload) by done.
  destruct t as [id pc| | | | |]; cbn; try lia. destruct pc; cbn; try lia.
  destruct Hok as (s & _ & _ & Hp & _). pose proof (len_nonneg p). lia.
Qed.

(** The other read loops hold at most a frame each. *)
Lemma pending_others y w t :
  sys_ok y -> threads y !! w = Some t -> loops w t = 1 -> pending w t = 0 ->
  map_sum pending (threads y) <= maxStreamPayload * (map_sum loops (threads y) - 1).
Proof.
  intros Y Ht Hl Hp.
  pose proof (map_sum_delete pending _ _ _ Ht) as E1. pose proof (map_sum_delete loops _ _ _ Ht) as E2.
  enough (map_sum pending (delete w (threads y)) <=
          map_sum (fun w t => maxStreamPayload * loops w t) (delete w (threads y))) as E3.
  { rewrite map_sum_scale in E3. rewrite E1, E2, Hl, Hp in E3. lia. }
  apply map_sum_le. intros w1 t1 [_ H1]%lookup_delete_Some. by apply (pending_bound y).
Qed.

Lemma budget_step a y y' : sys_ok y -> step a y = Some y' -> budget_ok y -> budget_ok y'.
Proof.
  intros Y Hs [L1 L2]. unfold budget_ok. destruct a as [w0 e| | |d]; cbn in Hs.
  - destruct (threads y !! w0) as [t|] eqn:Ht; [| done]. cbn in Hs.
    destruct (thread_step _ _ t e (memory y)) as [[[t' m'] ts]|] eqn:Hr; [| done]. injection Hs as <-.
    pose proof (fresh_set_thread _ _ t' _ _ Ht (step_fresh _ _ _ _ _ _ _ Y Ht Hr)) as Hfresh.
    destruct (sk_threads _ Y w0 t Ht) as [<- _]. cbn [threads memory].
    rewrite !map_sum_spawn, !(map_sum_set _ _ _ _ _ Ht) by done.
    pose proof (pending_bound y _ t Y Ht).
    destruct (step_global _ _ _ _ _ _ Hr) as (-> & -> & Hl & [[Hg ->] | [H1 | H1]]).
    + lia.
    + destruct H1 as (id & o & sid & p & -> & -> & -> & Hcap). cbn in *.
      pose proof (pending_others y _ _ Y Ht ltac:(done) ltac:(done)) as Ho.
      unfold global_overshoot. assert (0 <= maxStreamPayload) by done.
      unfold loops in *. cbn in *. nia.
    + destruct H1 as (id & o & p & -> & -> & Hg). cbn in *. lia.
  - case_decide as Hgate; [| done]. injection Hs as <-. cbn [threads memory v2GlobalBuffered].
    change (<[?a := ?b]> (<[?c := ?d]> (threads y))) with
      (spawn [TLoop (connCounter (memory y) + 1) LRead; THeart (connCounter (memory y) + 1)] (threads y)).
    rewrite !map_sum_spawn by by apply accept_fresh. rewrite live_conns_sum in Hgate. cbn. lia.
  - injection Hs as <-. done.
  - hcase Hs; [| done]. by injection Hs as <-.
Qed.

(** ** Dialled addresses *)

Definition addr_ok (addr : bytes) : Prop :=
  isTargetAllowed allowedDomains addr = true /\ exists spec, parseTarget spec = Ok addr.

Definition about_to_dial (t : thread) : option bytes :=
  match t with TOpen _ _ _ (ODial addr) => Some addr | _ => None end.

Lemma write_frame_dialed id ok sf m r m' : write_frame id ok sf m = (r, m') -> dialed m' = dialed m.
Proof. intros Hw. by destruct (write_frame_frame _ _ _ _ _ _ Hw) as (_ & _ & -> & _). Qed.

Lemma close_step_dialed w all id c m r m' : close_step w all id c m = (r, m') -> dialed m' = dialed m.
Proof. intros Hw. by destruct (close_step_frame _ _ _ _ _ _ _ Hw) as (_ & -> & _). Qed.

Lemma step_dials t e m t' m' ts :
  thread_step allowedDomains hb t e m = Some (t', m', ts) ->
  omap about_to_dial ts = [] /\
  (forall t1 addr, t' = Some t1 -> about_to_dial t1 = Some addr -> addr_ok addr) /\
  (dialed m' = dialed m \/ exists addr, about_to_dial t = Some addr /\ dialed m' = addr :: dialed m).
Proof.
  intros Hr. destruct t as [id pc|n id sid pc|o id sid pc|o id sid pc|n id p|id]; cbn in Hr;
    step_cases Hr; injection Hr as <- <- <-; subst.
  all: (split_and!; [done | intros t1 addr0 Ht1 Ha; first [discriminate Ht1 | injection Ht1 as <-; try discriminate Ha] |]).
  all: try (left; first [done | by eapply write_frame_dialed | by eapply close_step_dialed
       | by eapply (write_frame_dialed id ok _ m true m0)]).
  all: try (right; by eexists).
  - injection Ha as <-. by split; [| eexists].
  - left. destruct (write_frame _ _ _ _) as [ok' m1] eqn:Hw. by eapply write_frame_dialed.
Qed.

Definition dials_ok (y : sys) : Prop :=
  Forall addr_ok (dialed (memory y)) /\
  forall w t addr, threads y !! w = Some t -> about_to_dial t = Some addr -> addr_ok addr.

Lemma dials_step a y y' : step a y = Some y' -> dials_ok y -> dials_ok y'.
Proof.
  intros Hs [D T]. destruct a as [w0 e| | |d]; cbn in Hs.
  - destruct (threads y !! w0) as [t|] eqn:Ht; [| done]. cbn in Hs.
    destruct (thread_step _ _ t e (memory y)) as [[[t' m'] ts]|] eqn:Hr; [| done]. injection Hs as <-.
    destruct (step_dials _ _ _ _ _ _ Hr) as (S1 & S2 & S3). split; cbn.
    + destruct S3 as [-> | (addr & Ha & ->)]; [done |]. constructor; [by eapply T | done].
    + intros w t1 addr [[Hin <-] | Hw]%spawn_lookup Ha.
      { exfalso. apply (not_elem_of_nil addr). rewrite <-S1, list_elem_of_omap. by exists t1. }
      destruct t' as [t'|]; cbn in Hw.
      * apply lookup_insert_Some in Hw as [[<- <-] | [_ Hw]]; [by eapply S2 | by eapply T].
      * apply lookup_delete_Some in Hw as [_ Hw]. by eapply T.
  - case_decide; [| done]. injection Hs as <-. split; cbn; [done |].
    intros w t addr Hw Ha. apply lookup_insert_Some in Hw as [[<- <-] | [_ Hw]]; [done |].
    apply lookup_insert_Some in Hw as [[<- <-] | [_ Hw]]; [done |]. by eapply T.
  - injection Hs as <-. by split.
  - hcase Hs; [| done]. injection Hs as <-. by split.
Qed.

(** ** Every reachable state *)

Record reachable_inv (y : sys) : Prop := {
  ri_sys : sys_ok y;
  ri_closers : closers_live y;
  ri_sems : sems_ok y;
  ri_budget : budget_ok y;
  ri_dials : dials_ok y;
}.

Lemma reachable_invariant y : reachable y -> reachable_inv y.
Proof.
  induction 1 as [| a y y' _ [I1 I2 I3 I4 I5] Hs].
  - split; [apply init_ok | done | done | done | by split].
  - split; [by eapply step_ok | by eapply closers_live_step | by eapply sems_step
      | by eapply budget_step | by eapply dials_step].
Qed.

Lemma run_reachable acts y : run allowedDomains hb acts init = Some y -> reachable y.
Proof.
  assert (Hgen : forall y0, reachable y0 -> run allowedDomains hb acts y0 = Some y -> reachable y).
  { induction acts as [|a acts IH]; intros y0 R0 Hr; cbn in Hr; [by injection Hr as <- |].
    destruct (step a y0) as [y1|] eqn:E; [| done]. cbn in Hr.
    apply (IH y1); [by eapply reach_step | done]. }
  apply Hgen. constructor.
Qed.
End Sys.
