(* ===== verification/SessionPump.v ===== *)
(** * Every open stream has its pump

    A stream that has been announced, whose upstream connection is up and that
    nobody has closed is served by its pump: the goroutine exists, and it is
    draining the queue or has just seen an upstream write fail. *)

From S2P Require Import Prelude.
From S2P Require Import GoStrings.
From S2P Require Import Padding.
From S2P Require Import StreamFrame.
From S2P Require Import Target.
From S2P Require Import Allowlist.
From S2P Require Import PskConfig.
From S2P Require Import Session.
From S2P Require Import SessionInv.
From S2P Require Import SessionSafe.
From S2P Require Import SessionSys.

Definition pumping (pc : pump_pc) : bool :=
  match pc with PLoop _ | PWait _ | PWrite _ _ _ | PCredit _ => true | _ => false end.

(** An upstream write, or the credit after it, has failed; the upstream
    connection is not closed yet. *)
Definition pump_failed (pc : pump_pc) : bool :=
  match pc with PFail | PConn => true | _ => false end.

(** What the pump has dequeued and not yet written. *)
Definition pump_hand (pc : pump_pc) : bytes :=
  match pc with PWrite chunk _ _ => chunk | _ => [] end.

Definition started_at (m : mem) (o : nat) : Prop :=
  exists x, heap m !! o = Some x /\ started (st_hist x) = true.

Section Pump.
Context `{UnicodeTables} (allowedDomains : list allowEntry) (hb : hb_params).
Abbreviation reachable := (reachable allowedDomains hb).
Abbreviation step := (step allowedDomains hb).

(** ** Who starts a stream *)

Definition keeps_started (m m' : mem) : Prop := forall o, started_at m' o -> started_at m o.

Lemma started_eq m m' : heap m' = heap m -> keeps_started m m'.
Proof. intros E o. unfold started_at. by rewrite E. Qed.

Lemma started_upd m m' o f :
  (forall x, started (st_hist (f x)) = started (st_hist x)) ->
  heap m' = alter f o (heap m) -> keeps_started m m'.
Proof.
  intros Hf E o' (x' & Hx' & Hs). rewrite E in Hx'.
  apply lookup_alter_Some in Hx' as [(-> & x & Hx & ->) | [_ Hx]]; [| by exists x'].
  exists x. by rewrite Hf in Hs.
Qed.

Lemma started_trans m1 m2 m3 : keeps_started m1 m2 -> keeps_started m2 m3 -> keeps_started m1 m3.
Proof. intros K1 K2 o Ho. by apply K1, K2. Qed.

Lemma started_write id ok sf m r m' : write_frame id ok sf m = (r, m') -> keeps_started m m'.
Proof. intros Hw. apply started_eq. by destruct (write_frame_frame _ _ _ _ _ _ Hw). Qed.

Lemma started_close w all id c m r m' : close_step w all id c m = (r, m') -> keeps_started m m'.
Proof.
  destruct c as [sid|o|o|o|o]; cbn; intros Hr; repeat hcase Hr; injection Hr as <- <-;
    first [by apply started_eq | by eapply started_upd; [| reflexivity]].
Qed.

Lemma step_started t e m t' m' ts :
  thread_step allowedDomains hb t e m = Some (t', m', ts) ->
  keeps_started m m' \/
  (exists n id sid o, ts = [TReader o id sid DCheck; TPump o id sid (PLoop 0)] /\ t = TOpen n id sid (OOk o) /\
     forall o', started_at m' o' -> o' = o \/ started_at m o').
Proof.
  intros Hr. destruct t as [id pc|n id sid pc|o id sid pc|o id sid pc|n id p|id]; cbn in Hr;
    step_cases Hr; injection Hr as <- <- <-; subst;
    try (by left; apply started_eq); try (by left; eapply started_write); try (by left; eapply started_close);
    try (by left; eapply started_upd; [| reflexivity]).
  all: try (left; eapply started_trans; [by eapply started_write |]; by eapply started_upd; [| reflexivity]).
  - left. intros o' (x' & Hx' & Hs). cbn in Hx'. apply lookup_insert_Some in Hx' as [[<- <-] | [_ Hx']]; [done |].
    by exists x'.
  - right. do 4 eexists. split; [done |]. split; [done |]. intros o' (x' & Hx' & Hs). cbn in Hx'.
    apply lookup_alter_Some in Hx' as [(-> & _) | [_ Hx']]; [by left | right].
    eapply started_write; [done |]. by exists x'.
  - left. destruct (write_frame _ _ _ _) as [ok' m1] eqn:Hw. by eapply started_write.
Qed.

(** ** What the pump does about itself *)

Definition at_work (pc : pump_pc) : bool := pumping pc || pump_failed pc.

(** It goes on, or it has found the stream closed, or it has closed the
    upstream connection. *)
Lemma pump_stays o id sid pc e m t' m' ts x :
  at_work pc = true -> heap m !! o = Some x ->
  pump_step o id sid pc e m = Some (t', m', ts) ->
  (exists pc', t' = Some (TPump o id sid pc') /\ at_work pc' = true) \/
  st_closed x = true \/ (exists x', heap m' !! o = Some x' /\ conn_open x' = false).
Proof.
  intros Hpc Hx Hs. unfold pump_step, closing_with, next, exit, blocked in Hs. rewrite Hx in Hs.
  repeat (hcase Hs; try discriminate Hs); injection Hs as <- <- <-; subst;
    try discriminate Hpc; first [by left; eexists | by right; left | idtac].
  right. right. cbn. rewrite lookup_alter_eq, Hx. by eexists.
Qed.

(** ** The invariant *)

Definition pumps_ok (y : sys) : Prop := forall o x,
  heap (memory y) !! o = Some x -> started (st_hist x) = true ->
  conn_open x = true -> st_closed x = false ->
  exists pc, threads y !! WPump o = Some (TPump o (st_sess x) (st_id x) pc) /\ at_work pc = true.

Lemma pumps_run w e t t' m' ts y :
  sys_ok y -> threads y !! w = Some t ->
  thread_step allowedDomains hb t e (memory y) = Some (t', m', ts) ->
  pumps_ok y -> pumps_ok (Sys (spawn ts (set_thread w t' (threads y))) m').
Proof.
  intros Y Ht Hr P o x' Hx' Hst Hco Hcl. cbn [threads memory] in *.
  destruct (sk_threads _ Y w t Ht) as [<- Hok].
  destruct (thread_step_ok _ _ _ _ _ _ (sk_mem _ Y) Hok Hr) as (_ & G & _ & Hts).
  pose proof (fresh_set_thread _ _ t' _ _ Ht (step_fresh _ _ _ _ _ _ _ _ _ Y Ht Hr)) as Hfr.
  assert (Hold : started_at (memory y) o -> exists pc, threads y !! WPump o = Some (TPump o (st_sess x') (st_id x') pc) /\ at_work pc = true).
  { intros (x & Hx & Hsx). destruct (gu_heap _ _ _ G o x Hx) as (x1 & Hx1 & E1 & E2 & Gc & Gr). simplify_eq.
    destruct (P o x Hx Hsx) as (pc & Hpc & Hw); [destruct (conn_open x); [done | by rewrite Gc in Hco] | |].
    - destruct Gr as (_ & _ & _ & _ & Gcl & _). destruct (st_closed x); [by rewrite Gcl in Hcl | done].
    - exists pc. by rewrite E1, E2. }
  assert (Hkeep : started_at (memory y) o -> exists pc,
    spawn ts (set_thread (who_of t) t' (threads y)) !! WPump o = Some (TPump o (st_sess x') (st_id x') pc) /\ at_work pc = true).
  { intros Hsy. destruct (Hold Hsy) as (pc & Hpc & Hw). destruct (decide (who_of t = WPump o)) as [E | Hne].
    2:{ exists pc. split; [| done]. apply spawn_keeps; [done |]. by rewrite set_thread_other. }
    destruct Hsy as (x & Hx & _). rewrite E in Ht. rewrite Hpc in Ht. injection Ht as <-. cbn in Hr.
    destruct (gu_heap _ _ _ G o x Hx) as (x1 & Hx1 & _ & _ & _ & _ & _ & _ & _ & Gcl & _). simplify_eq.
    destruct (pump_stays _ _ _ _ _ _ _ _ _ _ Hw Hx Hr) as [(pc' & -> & Hw') | [Hc | (x2 & Hx2 & Hc)]].
    - exists pc'. split; [| done]. apply spawn_keeps; [done |]. cbn. by rewrite lookup_insert_eq.
    - by rewrite Gcl in Hcl.
    - congruence. }
  destruct (step_started _ _ _ _ _ _ Hr) as [Hk | (n & id & sid & o1 & -> & -> & Hk)].
  - apply Hkeep, Hk. by exists x'.
  - destruct (Hk o) as [-> | Hsy]; [by exists x' | | by apply Hkeep].
    exists (PLoop 0). split; [| done]. cbn. rewrite lookup_insert_ne by done. rewrite lookup_insert_eq.
    apply Forall_cons in Hts as [_ Hts]. apply Forall_cons in Hts as [(x1 & Hx1 & <- & <- & _) _]. by simplify_eq.
Qed.

Lemma pumps_step a y y' : sys_ok y -> step a y = Some y' -> pumps_ok y -> pumps_ok y'.
Proof.
  intros Y Hs P. destruct a as [w e| | |d]; cbn in Hs.
  - destruct (threads y !! w) as [t|] eqn:Ht; [| done]. cbn in Hs.
    destruct (thread_step _ _ t e (memory y)) as [[[t' m'] ts]|] eqn:Hr; [| done]. injection Hs as <-.
    by apply (pumps_run w e t).
  - case_decide; [| done]. injection Hs as <-. intros o x Hx Hst Hco Hcl. cbn in Hx |- *.
    destruct (P o x Hx Hst Hco Hcl) as (pc & Hpc & Hw). exists pc. by rewrite !lookup_insert_ne.
  - injection Hs as <-. exact P.
  - hcase Hs; [| done]. injection Hs as <-. exact P.
Qed.

Lemma reachable_pumps y : reachable y -> pumps_ok y.
Proof.
  induction 1 as [| a y y' R IH Hs]; [intros o x Hx; cbn in Hx; by rewrite lookup_empty in Hx |].
  eapply pumps_step; [by eapply ri_sys, reachable_invariant | done | done].
Qed.
End Pump.
