(* ===== verification/SessionProps.v ===== *)
(** * What the session guarantees

    The invariants of [SessionSys], stated for the program: byte budgets,
    upload integrity, credits, wake-ups, nonces, dials. *)

From S2P Require Import Prelude.
From S2P Require Import GoStrings.
From S2P Require Import Padding.
From S2P Require Import StreamFrame.
From S2P Require Import Target.
From S2P Require Import Allowlist.
From S2P Require Import PskConfig.
From S2P Require Import Session.
From S2P Require Import SessionInv.
From S2P Require Import SessionSafe.
From S2P Require Import SessionSys.
From S2P Require Import SessionPump.

(** ** A concrete run, for the witnesses *)

Module Demo.
#[export] Existing Instance ascii_tables.
Definition hb : hb_params := HbParams 20000 25000 32 480 10000000000.
Definition frame (sid ty : Z) (p : bytes) : env := InFrame (encode_stream_frame (SFrame sid ty p)).
(** An IPv4 target, 192.0.2.7:443. *)
Definition spec : bytes := [x01; xc0; x00; x02; x07; x01; xbb].
Definition taus (w : who) (n : nat) : list action := replicate n (Run w Tau).
Definition open_stream (n : nat) (sid : Z) : list action :=
  [Run (WLoop 1) (frame sid v2TypeOpen spec); Run (WOpen n) Tau; Run (WOpen n) (Dialed true)] ++
  taus (WOpen n) 2 ++ [Run (WOpen n) (Written true); Run (WOpen n) Tau].
Definition upload (sid : Z) (p : bytes) : list action :=
  Run (WLoop 1) (frame sid v2TypeData p) :: taus (WLoop 1) 4.
(** Open a stream, park its pump, upload twice, drain the first chunk. *)
Definition acts : list action :=
  [Accept] ++ open_stream 0 5 ++ taus (WPump 0) 1 ++
  upload 5 (go! "hello ") ++ upload 5 (go! "world") ++
  taus (WPump 0) 2 ++ [Run (WPump 0) (UpWrite None)].
Definition final (acts : list action) : sys := default init (run [] hb acts init).

(** The same, then drained: the pump parks again. *)
Definition acts_parked : list action :=
  acts ++ taus (WPump 0) 1 ++ [Run (WPump 0) (UpWrite None); Run (WPump 0) (Written true)] ++ taus (WPump 0) 1.

(** The pump has its second chunk in hand. *)
Definition acts_writing : list action := acts ++ taus (WPump 0) 1.

(** And the client closes the stream: the read loop has won the close and not
    yet broadcast. *)
Definition acts_closing : list action :=
  acts_parked ++ [Run (WLoop 1) (frame 5 v2TypeClose [])] ++ taus (WLoop 1) 2.

Definition runs (acts : list action) : bool :=
  match run [] hb acts init with Some _ => true | None => false end.
Lemma final_reachable acts : runs acts = true -> reachable [] hb (final acts).
Proof.
  unfold runs, final. destruct (run [] hb acts init) as [y|] eqn:E; [| done].
  intros _. by apply (run_reachable [] hb acts).
Qed.
Definition stream_at (acts : list action) (o : nat) : v2Stream :=
  default (new_stream 0 0 0) (heap (memory (final acts)) !! o).
Definition session_at (acts : list action) (id : Z) : v2Session :=
  default (new_session 0) (v2Sessions (memory (final acts)) !! id).
End Demo.

Section Props.
Context `{UnicodeTables} (allowedDomains : list allowEntry) (hb : hb_params).
Abbreviation reachable := (reachable allowedDomains hb).

(** [C10] The byte budgets are exact: in every reachable state of any number of
    sessions the global counter equals the bytes queued over all streams, and
    the counter of a live session equals the bytes queued over its streams
    and never exceeds 128 MiB. *)
Theorem budgets_exact y :
  reachable y ->
  v2GlobalBuffered (memory y) = map_sum (fun _ x => total (queue (st_mu x))) (heap (memory y)) /\
  forall id s, v2Sessions (memory y) !! id = Some s ->
    buffered s <= v2SessionBufferCap /\
    (ss_closed s = false ->
     buffered s = map_sum (fun _ x => if decide (st_sess x = id) then total (queue (st_mu x)) else 0)
                    (heap (memory y))).
Proof.
  intros R. destruct (ri_sys _ _ (reachable_invariant _ _ y R)) as [M _].
  assert (Hb : forall o x, heap (memory y) !! o = Some x -> qbytes (st_mu x) = total (queue (st_mu x))).
  { intros o x Hx. by destruct (mo_stream _ M o x Hx) as ([] & _). }
  split.
  - rewrite (mo_global _ M). apply map_sum_ext. intros o x Hx. by apply (Hb o).
  - intros id s Hs. destruct (mo_session _ M id s Hs) as ([Hcap _ _ _] & _ & [_ Heq] & _).
    split; [done |]. intros Hc. rewrite (Heq Hc). apply map_sum_ext. intros o x Hx.
    unfold session_bytes. by rewrite (Hb o x Hx).
Qed.

(** The global budget: concurrent read loops check it before they add to
    it, so it can be overshot, but by at most one frame for each other
    connection the listener admits; it is never negative. *)
Theorem global_budget_bound y :
  reachable y ->
  0 <= v2GlobalBuffered (memory y) <=
    v2GlobalBufferCap + (maxConcurrentConns - 1) * maxStreamPayload.
Proof.
  intros R. pose proof (reachable_invariant _ _ y R) as [Y _ _ [_ Hb] _]. split.
  - rewrite (mo_global _ (sk_mem _ Y)). apply map_sum_nonneg. intros o x Hx.
    destruct (mo_stream _ (sk_mem _ Y) o x Hx) as (O & _). unfold stream_bytes.
    rewrite (so_bytes x O). apply total_nonneg.
  - enough (0 <= map_sum pending (threads y)) by (unfold global_overshoot in *; lia).
    apply map_sum_nonneg. intros w t Ht. by apply (pending_bound y).
Qed.

(** [C9] No upload is silently truncated or reordered. What was accepted from
    the client is what the pump has taken off the queue, then the queue, then
    what a close has dropped: nothing, until the stream is closed. A pump that
    has not failed has written upstream all that it took, the chunk it has in
    hand apart. And as long as a stream is open and its upstream connection up
    it does have its pump, once it is announced: so everything accepted is
    upstream, in the hand of the pump, or in the queue, in that order, unless
    an upstream write (or the credit after one) has just failed, in which case
    the pump is about to close the connection. *)
Theorem upload_integrity y o x :
  reachable y -> heap (memory y) !! o = Some x ->
  (exists lost, received (st_hist x) = taken (st_hist x) ++ concat (queue (st_mu x)) ++ lost /\
     (reclaimed (st_hist x) = false -> lost = []) /\ (st_closed x = false -> lost = [])) /\
  (forall id sid pc, threads y !! WPump o = Some (TPump o id sid pc) -> pumping pc = true ->
     taken (st_hist x) = written (st_hist x) ++ pump_hand pc) /\
  (started (st_hist x) = false -> written (st_hist x) = [] /\ taken (st_hist x) = []) /\
  (started (st_hist x) = true -> conn_open x = true -> st_closed x = false ->
   exists pc, threads y !! WPump o = Some (TPump o (st_sess x) (st_id x) pc) /\
     if pumping pc
     then received (st_hist x) = written (st_hist x) ++ pump_hand pc ++ concat (queue (st_mu x))
     else pump_failed pc = true).
Proof.
  intros R Hx. destruct (ri_sys _ _ (reachable_invariant _ _ y R)) as [M T].
  destruct (mo_stream _ M o x Hx) as (O & _ & _). destruct (so_fifo x O) as (lost & Hf & Hl).
  assert (Hopen : st_closed x = false -> lost = []).
  { intros Hc. destruct (so_open x O Hc) as (_ & Hr & _). auto. }
  assert (Hpump : forall id sid pc, threads y !! WPump o = Some (TPump o id sid pc) -> pumping pc = true ->
     taken (st_hist x) = written (st_hist x) ++ pump_hand pc).
  { intros id sid pc Hpc Hw. destruct (T _ _ Hpc) as [_ (x' & Hx' & _ & _ & _ & Hok)]. simplify_eq.
    destruct pc; try discriminate Hw; cbn in Hok |- *; rewrite ?app_nil_r; by destruct Hok. }
  split_and!; [by exists lost | done | |].
  - intros Hs. by destruct (so_fresh x O Hs) as (? & ? & _).
  - intros Hs Hc Hcl. destruct (reachable_pumps _ _ y R o x Hx Hs Hc Hcl) as (pc & Hpc & Hw).
    exists pc. split; [done |]. unfold at_work in Hw. destruct (pumping pc) eqn:E; [| done].
    by rewrite Hf, (Hopen Hcl), app_nil_r, (Hpump _ _ _ Hpc E), <-app_assoc.
Qed.

(** [C14] Flow-control credits are honest and complete: credit granted to the
    client never exceeds the bytes written upstream; while the pump runs it
    lags by less than the threshold plus one frame; and a parked pump has
    credited every byte it wrote, so the tail of an upload cannot wait for a
    credit that never comes. *)
Theorem credits_conserved y o x :
  reachable y -> heap (memory y) !! o = Some x ->
  0 <= granted (st_hist x) <= len (written (st_hist x)) /\
  forall id sid pc, threads y !! WPump o = Some (TPump o id sid pc) ->
    match pc with
    | PWait _ => granted (st_hist x) = len (written (st_hist x))
    | PLoop _ | PWrite _ _ _ | PCredit _ =>
        len (written (st_hist x)) - granted (st_hist x) < v2WindowUpdateThreshold + maxStreamPayload
    | _ => True
    end.
Proof.
  intros R Hx. destruct (ri_sys _ _ (reachable_invariant _ _ y R)) as [M T].
  destruct (mo_stream _ M o x Hx) as (O & _ & _). split; [by apply O |].
  intros id sid pc Hpc. destruct (T _ _ Hpc) as [_ (x' & Hx' & _ & _ & _ & Hok)]. simplify_eq.
  assert (0 < maxStreamPayload) by done.
  destruct pc; cbn in Hok; try done; naive_solver lia.
Qed.

(** [C15] No wake-up is lost: a pump that is parked with nobody having signalled
    it has an empty queue, and if its stream has been closed then another
    goroutine is between the compare-and-swap and the broadcast that will
    wake it. *)
Theorem no_lost_wakeup y o x id sid cr :
  reachable y -> heap (memory y) !! o = Some x ->
  threads y !! WPump o = Some (TPump o id sid (PWait cr)) -> waiting (st_mu x) = true ->
  queue (st_mu x) = [] /\
  (st_closed x = true -> exists w t, w <> WPump o /\ threads y !! w = Some t /\
     (closer_of t = Some (CChan o) \/ closer_of t = Some (CReclaim o))).
Proof.
  intros R Hx Hp Hw. pose proof (reachable_invariant _ _ y R) as [[M T] L _ _ _].
  destruct (mo_stream _ M o x Hx) as (O & _ & _). destruct (so_wait x O Hw) as [Hq Hr].
  split; [done |]. intros Hc. pose proof (so_closed x O) as Hcl. rewrite Hc in Hcl.
  destruct (closed_by (st_hist x)) as [w|] eqn:Ew; [| destruct (Hcl eq_refl); congruence].
  destruct (L o x w Hx Ew) as (t & c & Ht & Hct & Hown). exists w, t.
  split_and!; [| done |].
  - intros ->. rewrite Hp in Ht. injection Ht as <-. done.
  - destruct Hown as [-> | [-> | ->]]; [by left | by right |].
    destruct (T w t Ht) as [<- Hok]. exfalso.
    assert (closer_ok (who_of t) (st_sess x) (CConn o) (memory y)) as (x' & Hx' & _ & _ & _ & Hr').
    { destruct t as [id' pc|n id' sid' pc|o' id' sid' pc|o' id' sid' pc|n id' p|id']; cbn in Hct, Hok;
        try discriminate Hct; destruct pc; try discriminate Hct; injection Hct as ->;
        naive_solver. }
    simplify_eq. congruence.
Qed.

(** [C17] Nonces are never reused and the program never panics: in every
    reachable state the nonces a session has offered to its cipher are 1, 2,
    3, ... in order, hence distinct for the first 2^64 - 1 frames, and no
    channel was closed twice nor a slice taken out of range. (The counters
    start at 1: docs/PROTOCOL.md says 0.) *)
Theorem nonces_never_reused y :
  reachable y -> panicked (memory y) = false /\
  forall id s, v2Sessions (memory y) !! id = Some s ->
    (ss_wire s).*1 = nonces (length (ss_wire s)) /\
    (len (ss_wire s) < 2 ^ 64 -> NoDup (ss_wire s).*1).
Proof.
  intros R. destruct (ri_sys _ _ (reachable_invariant _ _ y R)) as [M _].
  split; [apply (mo_panic _ M) |]. intros id s Hs.
  destruct (mo_session _ M id s Hs) as ([_ _ Hw _] & _). split; [done |].
  intros Hl. rewrite Hw. unfold nonces. apply NoDup_fmap_2_strong; [| apply NoDup_seq].
  intros i j Hi%elem_of_seq Hj%elem_of_seq E. unfold len in Hl.
  destruct (decide (1 + Z.of_nat i = 2 ^ 64)), (decide (1 + Z.of_nat j = 2 ^ 64)); lia || idtac.
  - rewrite !Z.mod_small in E by lia. lia.
Qed.

(** At most 64 OPENs of a session are in flight: its semaphore counts its
    OPEN tasks exactly and is never above 64. *)
Theorem opens_bounded y id s :
  reachable y -> v2Sessions (memory y) !! id = Some s ->
  openSem s = map_sum (opens id) (threads y) /\ openSem s <= v2MaxConcurrentOpens.
Proof. intros R. apply (reachable_invariant _ _ y R). Qed.

(** [C32] The proxy dials only what the allowlist admits: every address ever
    handed to the dialler was decoded from an OPEN payload and passes the
    allowlist, whatever the interleaving. *)
Theorem dials_allowed y addr :
  reachable y -> addr ∈ dialed (memory y) ->
  isTargetAllowed allowedDomains addr = true /\ exists spec, parseTarget spec = Ok addr.
Proof.
  intros R Ha. destruct (ri_dials _ _ (reachable_invariant _ _ y R)) as [D _].
  rewrite Forall_forall in D. by apply D.
Qed.
End Props.

Import Demo.

Lemma budgets_exact_witness :
  v2GlobalBuffered (memory (final acts)) = 5 /\
  buffered (session_at acts 1) = 5 /\
  (forall s, v2Sessions (memory (final acts)) !! 1 = Some s -> buffered s <= v2SessionBufferCap).
Proof.
  destruct (budgets_exact [] hb (final acts) (final_reachable acts eq_refl)) as [_ Hs].
  split; [vm_compute; reflexivity |]. split; [vm_compute; reflexivity |].
  intros s E. apply (Hs 1 s E).
Defined.

Lemma global_budget_bound_witness :
  0 <= v2GlobalBuffered (memory (final acts)) <=
    v2GlobalBufferCap + (maxConcurrentConns - 1) * maxStreamPayload.
Proof. apply (global_budget_bound [] hb (final acts)), (final_reachable acts). reflexivity. Defined.

Lemma upload_integrity_witness :
  received (st_hist (stream_at acts_writing 0)) = go! "hello world" /\
  written (st_hist (stream_at acts_writing 0)) = go! "hello " /\
  exists pc, threads (final acts_writing) !! WPump 0 =
      Some (TPump 0 (st_sess (stream_at acts_writing 0)) (st_id (stream_at acts_writing 0)) pc) /\
    if pumping pc
    then received (st_hist (stream_at acts_writing 0)) =
           written (st_hist (stream_at acts_writing 0)) ++ pump_hand pc ++ concat (queue (st_mu (stream_at acts_writing 0)))
    else pump_failed pc = true.
Proof.
  split; [vm_compute; reflexivity |]. split; [vm_compute; reflexivity |].
  apply (upload_integrity [] hb (final acts_writing) 0%nat).
  - apply final_reachable. reflexivity.
  - vm_compute. reflexivity.
  - vm_compute. reflexivity.
  - vm_compute. reflexivity.
  - vm_compute. reflexivity.
Defined.

Lemma credits_conserved_witness :
  granted (st_hist (stream_at acts_parked 0)) = 11 /\
  0 <= granted (st_hist (stream_at acts_parked 0)) <= len (written (st_hist (stream_at acts_parked 0))).
Proof.
  split; [vm_compute; reflexivity |].
  apply (credits_conserved [] hb (final acts_parked) 0%nat).
  - apply final_reachable. reflexivity.
  - vm_compute. reflexivity.
Defined.

Lemma no_lost_wakeup_witness :
  queue (st_mu (stream_at acts_closing 0)) = [] /\
  (st_closed (stream_at acts_closing 0) = true ->
   exists w t, w <> WPump 0 /\ threads (final acts_closing) !! w = Some t /\
     (closer_of t = Some (CChan 0) \/ closer_of t = Some (CReclaim 0))).
Proof.
  apply (no_lost_wakeup [] hb (final acts_closing) 0%nat _ 1 5 0).
  - apply final_reachable. reflexivity.
  - vm_compute. reflexivity.
  - vm_compute. reflexivity.
  - vm_compute. reflexivity.
Defined.

Lemma nonces_never_reused_witness :
  panicked (memory (final acts_parked)) = false /\
  (ss_wire (session_at acts_parked 1)).*1 = [1; 2].
Proof.
  destruct (nonces_never_reused [] hb (final acts_parked) (final_reachable acts_parked eq_refl)) as [Hp Hn].
  split; [exact Hp |].
  destruct (Hn 1 (session_at acts_parked 1) ltac:(vm_compute; reflexivity)) as [-> _].
  vm_compute. reflexivity.
Defined.

(** The OPEN task is dialling. *)
Definition acts_dialling : list action :=
  [Accept; Run (WLoop 1) (frame 5 v2TypeOpen spec); Run (WOpen 0) Tau; Run (WOpen 0) (Dialed true)].

Lemma opens_bounded_witness :
  openSem (session_at acts_dialling 1) = 1 /\
  openSem (session_at acts_dialling 1) = map_sum (opens 1) (threads (final acts_dialling)) /\
  openSem (session_at acts_dialling 1) <= v2MaxConcurrentOpens.
Proof.
  split; [vm_compute; reflexivity |].
  apply (opens_bounded [] hb (final acts_dialling) 1).
  - apply final_reachable. reflexivity.
  - vm_compute. reflexivity.
Defined.

Lemma dials_allowed_witness :
  isTargetAllowed [] (go! "192.0.2.7:443") = true /\
  exists sp, parseTarget sp = Ok (go! "192.0.2.7:443").
Proof.
  apply (dials_allowed [] hb (final acts_dialling)).
  - apply final_reachable. reflexivity.
  - vm_compute. left.
Defined.
