(* ===== verification/SessionLeak.v ===== *)
(** * Teardown leaves nothing behind

    For clients that use a stream id once and send data only on streams they
    know to be open, a session that has ended holds no connection, no queued
    byte and no table entry. Without those two conditions it is false: the end
    of the file has the two races. *)

From S2P Require Import Prelude.
From S2P Require Import GoStrings.
From S2P Require Import Padding.
From S2P Require Import StreamFrame.
From S2P Require Import Target.
From S2P Require Import Allowlist.
From S2P Require Import PskConfig.
From S2P Require Import Session.
From S2P Require Import SessionInv.
From S2P Require Import SessionSafe.
From S2P Require Import SessionSys.
From S2P Require Import SessionProps.

(** ** Polite clients *)

Definition key_of (x : v2Stream) : Z * Z := (st_sess x, st_id x).

(** The client has been sent OPEN_OK for the stream. *)
Definition told_open (id sid : Z) (m : mem) : Prop :=
  exists o x, heap m !! o = Some x /\ key_of x = (id, sid) /\ started (st_hist x) = true.

Definition polite_frame (id : Z) (sf : stream_frame) (m : mem) : Prop :=
  (sf_type sf = v2TypeOpen -> forall s, v2Sessions m !! id = Some s -> sf_id sf ∉ ss_opened s) /\
  (sf_type sf = v2TypeData -> told_open id (sf_id sf) m).

Definition polite (a : action) (y : sys) : Prop :=
  match a with
  | Run (WLoop id) (InFrame pt) =>
      forall sf, parse_stream_frame pt = Ok sf -> polite_frame id sf (memory y)
  | _ => True
  end.

Section Leak.
Context `{UnicodeTables} (allowedDomains : list allowEntry) (hb : hb_params).
Abbreviation reachable := (reachable allowedDomains hb).
Abbreviation step := (step allowedDomains hb).

Inductive polite_reachable : sys -> Prop :=
  | polite_init : polite_reachable init
  | polite_step a y y' :
      polite_reachable y -> polite a y -> step a y = Some y' -> polite_reachable y'.

Lemma polite_is_reachable y : polite_reachable y -> reachable y.
Proof. induction 1; [constructor | by eapply reach_step]. Qed.

(** ** What a step does to the tables *)

Definition table (m : mem) (id : Z) : option (gmap Z nat) := streams <$> v2Sessions m !! id.
Definition opened (m : mem) (id : Z) : option (gset Z) := ss_opened <$> v2Sessions m !! id.

Definition same_tables (m m' : mem) : Prop := forall i, table m' i = table m i.
Definition same_opened (m m' : mem) : Prop := forall i, opened m' i = opened m i.

Lemma same_tables_eq m m' : v2Sessions m' = v2Sessions m -> same_tables m m'.
Proof. intros E i. unfold table. by rewrite E. Qed.
Lemma same_opened_eq m m' : v2Sessions m' = v2Sessions m -> same_opened m m'.
Proof. intros E i. unfold opened. by rewrite E. Qed.

Lemma table_alter m m' id f g :
  (forall s, streams (f s) = g (streams s)) -> v2Sessions m' = alter f id (v2Sessions m) ->
  forall i, table m' i = if decide (i = id) then g <$> table m i else table m i.
Proof.
  intros Hf E i. unfold table. rewrite E. case_decide as Ei.
  - subst i. rewrite lookup_alter_eq. destruct (v2Sessions m !! id); cbn; [by rewrite Hf | done].
  - by rewrite lookup_alter_ne.
Qed.

(** Removing and adding an entry. *)
Lemma table_entry m m' id g :
  v2Sessions m' = alter (ss_upd_streams g) id (v2Sessions m) ->
  forall i, table m' i = if decide (i = id) then g <$> table m i else table m i.
Proof. by apply table_alter. Qed.

Lemma same_tables_upd m m' id f :
  (forall s, streams (f s) = streams s) -> v2Sessions m' = alter f id (v2Sessions m) -> same_tables m m'.
Proof.
  intros Hf E i. rewrite (table_alter m m' id f (fun t => t)) by done.
  case_decide; [| done]. by destruct (table m i).
Qed.

Lemma same_opened_upd m m' id f :
  (forall s, ss_opened (f s) = ss_opened s) -> v2Sessions m' = alter f id (v2Sessions m) -> same_opened m m'.
Proof.
  intros Hf E i. unfold opened. rewrite E. destruct (decide (i = id)) as [-> | Hne].
  - rewrite lookup_alter_eq. destruct (v2Sessions m !! id); cbn; [by rewrite Hf | done].
  - by rewrite lookup_alter_ne.
Qed.

Lemma write_frame_tables id ok sf m r m' :
  write_frame id ok sf m = (r, m') -> same_tables m m' /\ same_opened m m' /\ heap m' = heap m.
Proof.
  unfold write_frame. gcase; [by intros [= <- <-] |].
  destruct (v2Sessions m !! id) as [s|] eqn:Hs; [| by intros [= <- <-]].
  intros [= <- <-].
  split_and!; [eapply same_tables_upd; [| reflexivity]; done | eapply same_opened_upd; [| reflexivity]; done | done].
Qed.
Lemma same_tables_write id ok sf m r m' : write_frame id ok sf m = (r, m') -> same_tables m m'.
Proof. apply write_frame_tables. Qed.
Lemma same_opened_write id ok sf m r m' : write_frame id ok sf m = (r, m') -> same_opened m m'.
Proof. apply write_frame_tables. Qed.

(** A close removes at most the entry of its [CDel]. *)
Lemma close_step_tables w all id c m r m' :
  close_step w all id c m = (r, m') ->
  same_opened m m' /\
  (same_tables m m' \/
   exists sid o, c = CDel sid /\ r = Some (CCas o) /\ m' = upd_session id (ss_upd_streams (delete sid)) m /\
     (table m id ≫= fun t => t !! sid) = Some o).
Proof.
  intros Hr. destruct c as [sid|o|o|o|o]; cbn in Hr.
  - hcase Hr; injection Hr as <- <-; (split; [first [by apply same_opened_eq | eapply same_opened_upd; [| reflexivity]; done] |]).
    + right. exists sid, n. split_and!; try done. unfold table. by destruct (v2Sessions m !! id).
    + by left; apply same_tables_eq.
  - repeat hcase Hr; injection Hr as <- <-; (split; [by apply same_opened_eq | left; by apply same_tables_eq]).
  - repeat hcase Hr; injection Hr as <- <-; (split; [by apply same_opened_eq | left; by apply same_tables_eq]).
  - repeat hcase Hr; injection Hr as <- <-; split;
      first [by apply same_opened_eq | left; by apply same_tables_eq
            | eapply same_opened_upd; [| reflexivity]; done
            | left; eapply same_tables_upd; [| reflexivity]; done].
  - injection Hr as <- <-. split; [by apply same_opened_eq | left; by apply same_tables_eq].
Qed.
Lemma same_opened_close w all id c m r m' : close_step w all id c m = (r, m') -> same_opened m m'.
Proof. apply close_step_tables. Qed.

(** Every step, by its effect on the stream tables. *)
Inductive table_effect (t : thread) (m : mem) (t' : option thread) (m' : mem) : Prop :=
  | te_same : same_tables m m' -> table_effect t m t' m'
  | te_store n id sid s :
      t = TOpen n id sid OStore -> t' = Some (TOpen n id sid (OCheck (next_obj m))) ->
      v2Sessions m !! id = Some s -> streams s !! sid = None ->
      m' = store_stream n id sid m -> table_effect t m t' m'
  | te_close all id sid o t1 :
      closer_of t = Some (CDel sid) -> t' = Some t1 -> closer_of t1 = Some (CCas o) ->
      close_step (who_of t) all id (CDel sid) m = (Some (CCas o), m') ->
      (table m id ≫= fun t => t !! sid) = Some o ->
      m' = upd_session id (ss_upd_streams (delete sid)) m -> table_effect t m t' m'
  | te_abort n id sid o :
      t = TOpen n id sid (OAbort o) -> t' = Some (TOpen n id sid (OAbortConn o)) ->
      m' = upd_session id (ss_upd_streams (delete sid)) m -> table_effect t m t' m'
  | te_range id todo vis k :
      t = TLoop id (LDelete todo vis k) -> t' = Some (TLoop id (LRange todo vis)) ->
      m' = upd_session id (ss_upd_streams (delete k)) m -> table_effect t m t' m'.

Lemma close_effect w all id c m r m' t t' :
  close_step w all id c m = (r, m') -> w = who_of t -> closer_of t = Some c ->
  (forall c', r = Some c' -> exists t1, t' = Some t1 /\ closer_of t1 = Some c') ->
  table_effect t m t' m'.
Proof.
  intros Hr -> Hc Hn. destruct (close_step_tables _ _ _ _ _ _ _ Hr) as [_ [Hs | (sid & o & -> & -> & E & Ho)]].
  - by apply te_same.
  - destruct (Hn _ eq_refl) as (t1 & -> & Hc1). by eapply te_close.
Qed.

Lemma step_tables t e m t' m' ts :
  thread_step allowedDomains hb t e m = Some (t', m', ts) -> table_effect t m t' m'.
Proof.
  intros Hr. destruct (closer_of t) as [c|] eqn:Ec.
  { destruct (step_closes _ _ _ _ _ _ _ _ _ Hr Ec) as (all & id & r & Hcs & _ & Hn).
    by eapply close_effect. }
  destruct t as [id pc|n id sid pc|o id sid pc|o id sid pc|n id p|id]; cbn in Hr;
    step_cases Hr; injection Hr as <- <- <-; subst; try discriminate Ec.
  all: try (apply te_same; first [by apply same_tables_eq | by eapply same_tables_write
       | by eapply same_tables_upd; [| reflexivity] | by eapply (same_tables_write id ok _ m true m0)]).
  - apply te_same. intros i.
    transitivity (table (upd_session id (ss_read (now m)) m) i).
    + symmetry. symmetry. eapply same_tables_upd; [| reflexivity]; done.
    + eapply same_tables_upd; [| reflexivity]; done.
  - by eapply te_range.
  - by eapply te_store.
  - by eapply te_abort.
  - apply te_same. destruct (write_frame _ _ _ _) as [ok' m1] eqn:Hw. by eapply same_tables_write.
Qed.

(** Ids are taken up by OPEN frames only. *)
Lemma step_opened t e m t' m' ts :
  thread_step allowedDomains hb t e m = Some (t', m', ts) ->
  (same_opened m m' /\ forall n id sid pc, ts <> [TOpen n id sid pc]) \/
  exists id pt sid spec, t = TLoop id LRead /\ e = InFrame pt /\
    parse_stream_frame pt = Ok (SFrame sid v2TypeOpen spec) /\
    t' = Some (TLoop id LRead) /\ ts = [TOpen (next_task m) id sid (OStart spec)] /\ heap m' = heap m /\
    forall i, opened m' i = if decide (i = id) then (fun T => {[sid]} ∪ T) <$> opened m i else opened m i.
Proof.
  intros Hr. destruct t as [id pc|n id sid pc|o id sid pc|o id sid pc|n id p|id]; cbn in Hr;
    step_cases Hr; injection Hr as <- <- <-; subst.
  all: try (left; split; [first [by apply same_opened_eq | by eapply same_opened_write
       | by eapply same_opened_close
       | by eapply same_opened_upd; [| reflexivity] | by eapply (same_opened_write id ok _ m true m0)] | done]).
  - right. eexists id, pt, _, _. split_and!; try done. intros i. unfold opened. cbn.
    destruct (decide (i = id)) as [-> | Hne]; [| by rewrite !lookup_alter_ne].
    rewrite !lookup_alter_eq. by destruct (v2Sessions m !! id).
  - left. split; [| done]. destruct (write_frame _ _ _ _) as [ok' m1] eqn:Hw. by eapply same_opened_write.
Qed.

(** ** What a step does to the objects *)

Definition old_objs (m m' : mem) : Prop := forall o x', heap m' !! o = Some x' -> is_Some (heap m !! o).

Lemma old_objs_eq m m' : heap m' = heap m -> old_objs m m'.
Proof. intros E o x Hx. rewrite E in Hx. by exists x. Qed.
Lemma old_objs_alter m m' o f : heap m' = alter f o (heap m) -> old_objs m m'.
Proof.
  intros E o' x' Hx'. rewrite E in Hx'.
  apply lookup_alter_Some in Hx' as [(-> & x & Hx & _) | [_ Hx]]; by eexists.
Qed.
Lemma old_objs_write id ok sf m r m' : write_frame id ok sf m = (r, m') -> old_objs m m'.
Proof. intros Hw. apply old_objs_eq. by destruct (write_frame_tables _ _ _ _ _ _ Hw) as (_ & _ & ?). Qed.
Lemma old_objs_close w all id c m r m' : close_step w all id c m = (r, m') -> old_objs m m'.
Proof.
  destruct c as [sid|o|o|o|o]; cbn; intros Hr; repeat hcase Hr; injection Hr as <- <-;
    first [by apply old_objs_eq | by eapply old_objs_alter; reflexivity].
Qed.

Lemma step_objs t e m t' m' ts :
  thread_step allowedDomains hb t e m = Some (t', m', ts) ->
  old_objs m m' \/
  exists n id sid, t = TOpen n id sid OStore /\ m' = store_stream n id sid m.
Proof.
  intros Hr. destruct (closer_of t) as [c|] eqn:Ec.
  { destruct (step_closes _ _ _ _ _ _ _ _ _ Hr Ec) as (all & id & r & Hcs & _ & Hn).
    left. by eapply old_objs_close. }
  destruct t as [id pc|n id sid pc|o id sid pc|o id sid pc|n id p|id]; cbn in Hr;
    step_cases Hr; injection Hr as <- <- <-; subst; try discriminate Ec.
  all: try (left; first [by apply old_objs_eq | by eapply old_objs_write | by eapply old_objs_alter]).
  - right. by exists n, id, sid.
  - left. eapply old_objs_alter. cbn. by destruct (write_frame_tables _ _ _ _ _ _ E2) as (_ & _ & ->).
  - left. eapply old_objs_alter. cbn. by destruct (write_frame_tables _ _ _ _ _ _ E2) as (_ & _ & ->).
  - left. destruct (write_frame _ _ _ _) as [ok' m1] eqn:Hw. by eapply old_objs_write.
Qed.

(** Objects whose goroutines have not started hold nothing. *)
Definition idle (x : v2Stream) : Prop :=
  queue (st_mu x) = [] /\ received (st_hist x) = [] /\ waiting (st_mu x) = false.

Definition keeps_idle (m m' : mem) : Prop :=
  forall o x x', heap m !! o = Some x -> heap m' !! o = Some x' ->
    started (st_hist x') = false -> idle x -> idle x'.

Lemma keeps_idle_eq m m' : heap m' = heap m -> keeps_idle m m'.
Proof. intros E o x x' Hx Hx' _. rewrite E in Hx'. by simplify_eq. Qed.
Lemma keeps_idle_alter m m' o f :
  heap m' = alter f o (heap m) ->
  (forall x, heap m !! o = Some x -> idle x -> started (st_hist (f x)) = false -> idle (f x)) ->
  keeps_idle m m'.
Proof.
  intros E Hf o' x x' Hx Hx' Hst Hi. rewrite E in Hx'.
  apply lookup_alter_Some in Hx' as [(-> & y & Hy & ->) | [_ Hy]]; simplify_eq; [by apply Hf | done].
Qed.
Lemma keeps_idle_write id ok sf m r m' : write_frame id ok sf m = (r, m') -> keeps_idle m m'.
Proof. intros Hw. apply keeps_idle_eq. by destruct (write_frame_tables _ _ _ _ _ _ Hw) as (_ & _ & ?). Qed.
Lemma keeps_idle_close w all id c m r m' : close_step w all id c m = (r, m') -> keeps_idle m m'.
Proof.
  destruct c as [sid|o|o|o|o]; cbn; intros Hr; repeat hcase Hr; injection Hr as <- <-;
    first [by apply keeps_idle_eq
          | eapply keeps_idle_alter; [reflexivity |]; intros x _ (? & ? & ?) _; by split_and!].
Qed.

Lemma step_idle t e m t' m' ts :
  thread_step allowedDomains hb t e m = Some (t', m', ts) -> thread_ok t m ->
  (forall id o p, t = TLoop id (LEnq o p) ->
     exists x, heap m !! o = Some x /\ started (st_hist x) = true) ->
  keeps_idle m m'.
Proof.
  intros Hr Hok Henq. destruct (closer_of t) as [c|] eqn:Ec.
  { destruct (step_closes _ _ _ _ _ _ _ _ _ Hr Ec) as (all & id & r & Hcs & _ & Hn).
    by eapply keeps_idle_close. }
  destruct t as [id pc|n id sid pc|o id sid pc|o id sid pc|n id p|id]; cbn in Hr;
    step_cases Hr; injection Hr as <- <- <-; subst; try discriminate Ec.
  all: try (first [by apply keeps_idle_eq | by eapply keeps_idle_write
       | eapply keeps_idle_alter; [reflexivity |]; intros x _ (? & ? & ?) _; by split_and! ]).
  - (* enqueue: only on a started object *)
    destruct (Henq id o p eq_refl) as (x & Hx & Hst).
    eapply keeps_idle_alter; [reflexivity |]. intros x' Hx' _ Hst'. cbn in Hst'. simplify_eq. congruence.
  - (* a new object *)
    intros o' x x' Hx Hx' _ Hi. cbn in Hx'. apply lookup_insert_Some in Hx' as [[<- <-] | [_ Hx']].
    + done.
    + by simplify_eq.
  - eapply keeps_idle_alter; [cbn; by destruct (write_frame_tables _ _ _ _ _ _ E2) as (_ & _ & ->) |].
    intros x _ _ Hst. done.
  - destruct Hok as (x & Hx & _ & _ & Hst & _). eapply keeps_idle_alter; [reflexivity |].
    intros x' Hx' _ Hst'. cbn in Hst'. simplify_eq. congruence.
  - destruct Hok as (x & Hx & _ & _ & Hst & _). eapply keeps_idle_alter; [reflexivity |].
    intros x' Hx' _ Hst'. cbn in Hst'. simplify_eq. congruence.
  - eapply keeps_idle_alter; [cbn; by destruct (write_frame_tables _ _ _ _ _ _ E2) as (_ & _ & ->) |].
    intros x _ (? & ? & ?) _. by split_and!.
  - destruct (write_frame _ _ _ _) as [ok' m1] eqn:Hw. by eapply keeps_idle_write.
Qed.

(** ** What a polite session's read loop knows *)

Definition closer_obj (c : closer) : option nat :=
  match c with CDel _ => None | CCas o | CChan o | CReclaim o | CConn o => Some o end.

Definition obj_started (o : nat) (m : mem) : Prop :=
  exists x, heap m !! o = Some x /\ started (st_hist x) = true.
Definition obj_key (o : nat) (k : Z * Z) (m : mem) : Prop :=
  exists x, heap m !! o = Some x /\ key_of x = k.
Definition key_closed (k : Z * Z) (m : mem) : Prop :=
  exists o x, heap m !! o = Some x /\ key_of x = k /\ st_closed x = true.

Definition polite_ok (t : thread) (m : mem) : Prop :=
  match t with
  | TLoop id (LLookup sid _) => told_open id sid m
  | TLoop _ (LSess o _ _) | TLoop _ (LGlob o _ _) | TLoop _ (LEnq o _) => obj_started o m
  | TLoop id (LVisit _ _ k c) => exists o, closer_obj c = Some o /\ obj_key o (id, k) m
  | TLoop id (LDelete _ _ k) => key_closed (id, k) m
  | _ => True
  end.

Lemma obj_started_stable w m m' o : guar w m m' -> obj_started o m -> obj_started o m'.
Proof.
  intros G (x & Hx & Hst). destruct (gu_heap _ _ _ G o x Hx) as (x' & Hx' & Gx).
  exists x'. split; [done |]. by apply Gx.
Qed.
Lemma obj_key_stable w m m' o k : guar w m m' -> obj_key o k m -> obj_key o k m'.
Proof.
  intros G (x & Hx & <-). destruct (gu_heap _ _ _ G o x Hx) as (x' & Hx' & E1 & E2 & _).
  exists x'. split; [done |]. unfold key_of. congruence.
Qed.
Lemma key_closed_stable w m m' k : guar w m m' -> key_closed k m -> key_closed k m'.
Proof.
  intros G (o & x & Hx & <- & Hc). destruct (gu_heap _ _ _ G o x Hx) as (x' & Hx' & Gx).
  exists o, x'. split_and!; [done | | by apply Gx]. destruct Gx as (E1 & E2 & _). unfold key_of. congruence.
Qed.
Lemma told_open_stable w m m' id sid : guar w m m' -> told_open id sid m -> told_open id sid m'.
Proof.
  intros G (o & x & Hx & Hk & Hst). destruct (gu_heap _ _ _ G o x Hx) as (x' & Hx' & Gx).
  exists o, x'. split_and!; [done | | by apply Gx]. destruct Gx as (E1 & E2 & _). unfold key_of in *. congruence.
Qed.

Lemma polite_ok_stable w m m' t : guar w m m' -> polite_ok t m -> polite_ok t m'.
Proof.
  intros G. destruct t as [id pc| | | | |]; [destruct pc | done..]; cbn; try done;
    first [by apply (told_open_stable w) | by apply (obj_started_stable w)
          | by apply (key_closed_stable w) | idtac].
  intros (o & Ho & Hk). exists o. split; [done |]. by apply (obj_key_stable w m).
Qed.

(** One object per stream id. *)
Definition unique_keys (m : mem) : Prop :=
  forall o1 o2 x1 x2, heap m !! o1 = Some x1 -> heap m !! o2 = Some x2 -> key_of x1 = key_of x2 -> o1 = o2.

(** The object of a close stays the same, and is closed when the close ends. *)
Lemma close_step_obj w all id c m r m' o :
  close_step w all id c m = (r, m') -> closer_ok w id c m -> mem_ok m -> closer_obj c = Some o ->
  (forall c', r = Some c' -> closer_obj c' = Some o) /\
  (r = None -> exists x, heap m' !! o = Some x /\ st_closed x = true).
Proof.
  intros Hr Hok M Ho. destruct c as [sid|o1|o1|o1|o1]; cbn in Hr, Hok, Ho; [done | injection Ho as ->..].
  - destruct Hok as (x & Hx & _). rewrite Hx in Hr. destruct (st_closed x) eqn:Ec; injection Hr as <- <-.
    + split; [done |]. intros _. by exists x.
    + split; [by intros c' [= <-] | done].
  - destruct Hok as (x & Hx & _ & _ & Hcl & _). rewrite Hx, Hcl in Hr. injection Hr as <- <-.
    split; [by intros c' [= <-] | done].
  - destruct Hok as (x & Hx & _). rewrite Hx in Hr. injection Hr as <- <-.
    split; [by intros c' [= <-] | done].
  - destruct Hok as (x & Hx & _ & Hw & _). injection Hr as <- <-. split; [done |]. intros _.
    exists (st_finish_close x). cbn. rewrite lookup_alter_eq, Hx. split; [done |].
    destruct (mo_stream m M o x Hx) as (O & _). by eapply so_closed_by.
Qed.

Lemma step_polite t e m t' m' ts t1 :
  thread_step allowedDomains hb t e m = Some (t', m', ts) -> t' = Some t1 ->
  mem_ok m -> thread_ok t m -> polite_ok t m -> unique_keys m -> guar (Some (who_of t)) m m' ->
  (forall id pt sf, t = TLoop id LRead -> e = InFrame pt -> parse_stream_frame pt = Ok sf ->
     polite_frame id sf m) ->
  polite_ok t1 m'.
Proof.
  intros Hr -> M Hok Hp Hu G Hpol.
  destruct t as [id pc|n id sid pc|o id sid pc|o id sid pc|n id p|id].
  2: { cbn in Hr. step_cases Hr; try (injection Hr as <- <- <-); done. }
  2: { cbn in Hr. step_cases Hr; try (injection Hr as <- <- <-); done. }
  2: { cbn in Hr. step_cases Hr; try (injection Hr as <- <- <-); done. }
  2: { cbn in Hr. step_cases Hr; try (injection Hr as <- <- <-); done. }
  2: { cbn in Hr. step_cases Hr; try (injection Hr as <- <- <-); done. }
  destruct Hok as (s & Hs & Hok). cbn in Hr.
  step_cases Hr; injection Hr as <- <- <-; subst; try done; cbn in Hp, Hok.
  - destruct (Hpol _ _ _ eq_refl eq_refl E2) as [_ Hd]. apply (told_open_stable _ _ _ _ _ G).
    by apply Hd.
  - destruct (mo_session m M id _ E) as (_ & _ & _ & T).
    destruct (T sid n ltac:(assumption)) as (x & Hx & K1 & K2).
    destruct Hp as (o' & x' & Hx' & Hk & Hst). exists x. split; [done |].
    assert (o' = n) as -> by (apply (Hu _ _ _ _ Hx' Hx); rewrite Hk; unfold key_of; congruence).
    by simplify_eq.
  - destruct (mo_session m M id _ E) as (_ & _ & _ & T).
    destruct (T k n0 ltac:(assumption)) as (x & Hx & K1 & K2). exists n0. split; [done |]. exists x. split; [done |]. unfold key_of. congruence.
  - destruct Hp as (o & Ho & Hk), Hok as (_ & _ & Hc).
    match goal with Hcs : close_step _ _ _ _ _ = _ |- _ =>
      destruct (close_step_obj _ _ _ _ _ _ _ _ Hcs Hc M Ho) as [Hn _] end.
    exists o. split; [by apply Hn |]. by apply (obj_key_stable _ _ _ _ _ G).
  - destruct Hp as (o & Ho & Hk), Hok as (_ & _ & Hc).
    match goal with Hcs : close_step _ _ _ _ _ = _ |- _ =>
      destruct (close_step_obj _ _ _ _ _ _ _ _ Hcs Hc M Ho) as [_ Hn] end.
    destruct (Hn eq_refl) as (x & Hx & Hcl).
    destruct (obj_key_stable _ _ _ _ _ G Hk) as (x' & Hx' & Hk'). simplify_eq. by exists o, x.
Qed.

(** ** The invariant *)

Definition pre_store (pc : open_pc) : bool :=
  match pc with OStart _ | OErr _ | ODial _ | OStore => true | _ => false end.

(** The table entry of an object. *)
Definition listed (o : nat) (x : v2Stream) (m : mem) : Prop :=
  (table m (st_sess x) ≫= fun T => T !! st_id x) = Some o.

Definition aborting (o : nat) (y : sys) : Prop :=
  exists n id sid pc, threads y !! WOpen n = Some (TOpen n id sid pc) /\ (pc = OCheck o \/ pc = OAbort o).

(** Where an object that is not closed can be. *)
Definition whereabouts (o : nat) (x : v2Stream) (y : sys) : Prop :=
  listed o x (memory y) \/
  (exists w t, threads y !! w = Some t /\ closer_of t = Some (CCas o)) \/
  (exists n id sid, threads y !! WOpen n = Some (TOpen n id sid (OAbortConn o))) \/
  (started (st_hist x) = false /\ conn_open x = false /\
   forall t, threads y !! WOpen (opener (st_hist x)) = Some t ->
     exists id sid, t = TOpen (opener (st_hist x)) id sid ODone).

(** Every table entry of session [id] is in [S] or about to be taken out by
    the OPEN task that put it in. *)
Definition covered (id : Z) (S : Z -> Prop) (y : sys) : Prop :=
  forall T sid o, table (memory y) id = Some T -> T !! sid = Some o -> S sid \/ aborting o y.

(** What the teardown has left to visit. *)
Definition left_set (t : option thread) : option (Z -> Prop) :=
  match t with
  | Some (TLoop _ (LRange todo _)) => Some (fun sid => sid ∈ todo)
  | Some (TLoop _ (LVisit todo _ k _)) | Some (TLoop _ (LDelete todo _ k)) =>
      Some (fun sid => sid ∈ todo \/ sid = k)
  | Some (TLoop _ LEnd) | None => Some (fun _ => False)
  | _ => None
  end.

Definition teardown_cover (id : Z) (y : sys) : Prop :=
  forall S, left_set (threads y !! WLoop id) = Some S -> covered id S y.

Record leak_inv (y : sys) : Prop := {
  li_key o x : heap (memory y) !! o = Some x ->
    (exists T, opened (memory y) (st_sess x) = Some T /\ st_id x ∈ T) /\
    (opener (st_hist x) < next_task (memory y))%nat;
  li_unique : unique_keys (memory y);
  li_task n id sid pc : threads y !! WOpen n = Some (TOpen n id sid pc) ->
    (exists T, opened (memory y) id = Some T /\ sid ∈ T) /\
    (pre_store pc = true -> forall o x, heap (memory y) !! o = Some x -> key_of x <> (id, sid));
  li_tasks n1 n2 id sid pc1 pc2 :
    threads y !! WOpen n1 = Some (TOpen n1 id sid pc1) ->
    threads y !! WOpen n2 = Some (TOpen n2 id sid pc2) -> n1 = n2;
  li_idle o x : heap (memory y) !! o = Some x -> started (st_hist x) = false -> idle x;
  li_polite w t : threads y !! w = Some t -> polite_ok t (memory y);
  li_where o x : heap (memory y) !! o = Some x -> st_closed x = false -> whereabouts o x y;
  li_cover id : is_Some (v2Sessions (memory y) !! id) -> teardown_cover id y;
  li_gone id s : v2Sessions (memory y) !! id = Some s -> threads y !! WLoop id = None ->
    ss_closed s = true;
}.

Lemma unstored_preserved t e m t' m' ts n id sid pc' :
  thread_step allowedDomains hb t e m = Some (t', m', ts) -> t' = Some (TOpen n id sid pc') ->
  exists pc, t = TOpen n id sid pc /\ (pre_store pc' = true -> pre_store pc = true /\ heap m' = heap m).
Proof.
  intros Hr E. destruct t as [id1 pc|n1 id1 sid1 pc|o id1 sid1 pc|o id1 sid1 pc|n1 id1 p|id1]; cbn in Hr;
    step_cases Hr; injection Hr as <- <- <-; try discriminate E; injection E as -> -> -> <-; subst;
    (eexists; split; [reflexivity |]; done).
Qed.

(** ** One step of a goroutine *)

Section OneStep.
Variables (y : sys) (w0 : who) (e : env) (t : thread) (t' : option thread) (m' : mem) (ts : list thread).
Hypothesis Y : sys_ok y.
Hypothesis L : leak_inv y.
Hypothesis Ht : threads y !! w0 = Some t.
Hypothesis Hr : thread_step allowedDomains hb t e (memory y) = Some (t', m', ts).
Hypothesis Hpol : polite (Run w0 e) y.
Let m := memory y.
Let y' := Sys (spawn ts (set_thread w0 t' (threads y))) m'.

Lemma os_who : who_of t = w0.
Proof. apply (sk_threads _ Y _ _ Ht). Qed.
Lemma os_ok : thread_ok t m.
Proof. apply (sk_threads _ Y _ _ Ht). Qed.
Lemma os_good : mem_ok m' /\ guar (Some w0) m m'.
Proof.
  destruct (thread_step_ok _ _ _ _ _ _ (sk_mem _ Y) os_ok Hr) as (M & G & _).
  rewrite os_who in G. done.
Qed.
Lemma os_fresh : fresh_in (set_thread w0 t' (threads y)) ts.
Proof. apply (fresh_set_thread _ _ _ _ _ Ht). by eapply (step_fresh _ _ y w0). Qed.

Lemma os_keep w t1 : threads y !! w = Some t1 -> w <> w0 -> threads y' !! w = Some t1.
Proof.
  intros H1 Hne. pose proof os_fresh as Hf. apply spawn_keeps; [exact Hf | by rewrite set_thread_other].
Qed.
Lemma os_self t1 : t' = Some t1 -> threads y' !! w0 = Some t1.
Proof.
  intros E. pose proof os_fresh as Hf. apply spawn_keeps; [exact Hf |]. rewrite E. cbn.
  by rewrite lookup_insert_eq.
Qed.

Lemma os_inv w t1 : threads y' !! w = Some t1 ->
  (t1 ∈ ts /\ who_of t1 = w) \/ (w = w0 /\ t' = Some t1) \/ (w <> w0 /\ threads y !! w = Some t1).
Proof.
  intros [? | Hw]%spawn_lookup; [by left | right]. destruct t' as [t2|]; cbn in Hw.
  - apply lookup_insert_Some in Hw as [[<- <-] | [? ?]]; [by left | by right].
  - apply lookup_delete_Some in Hw as [? ?]. by right.
Qed.

(** New goroutines that are OPEN tasks. *)
Lemma os_new_open t1 : t1 ∈ ts -> is_loop t1 = false /\ closer_of t1 = None /\
  match t1 with
  | TOpen n id sid pc => n = next_task m /\ pre_store pc = true /\ heap m' = heap m /\
      (exists pc0, t = TLoop id pc0) /\
      (exists T, opened m' id = Some T /\ sid ∈ T) /\
      (forall T, opened m id = Some T -> sid ∉ T)
  | _ => True
  end.
Proof.
  intros Hin. destruct (step_spawns _ _ _ _ _ _ _ _ Hr)
    as [E0 | [(id & pc & sid & spec & E1 & E0 & E) | [(id & pc & p & E1 & E0 & _) |
       (n & id & sid & o & E1 & E0 & _)]]]; rewrite E0 in Hin.
  - by apply elem_of_nil in Hin.
  - apply list_elem_of_singleton in Hin as ->. split; [done |]. split; [done |].
    destruct (step_opened _ _ _ _ _ _ Hr) as [[_ Hno] | (id1 & pt & sid1 & spec1 & F1 & F2 & Hp & _ & F3 & Eh & Ho)].
    + by destruct (Hno _ _ _ _ E0).
    + rewrite E1 in F1. injection F1 as -> ->. rewrite E0 in F3. injection F3 as <- <-.
      pose proof os_ok as Hok. rewrite E1 in Hok. destruct Hok as (s & Hs & _).
      pose proof Hpol as Hpol'. pose proof os_who as Hw. rewrite E1 in Hw. cbn in Hw.
      rewrite <-Hw, F2 in Hpol'. cbn in Hpol'.
      split_and!; [done | done | done | by eexists | |].
      * exists ({[sid]} ∪ ss_opened s). rewrite Ho, decide_True by done. unfold opened. fold m. rewrite Hs.
        split; [done | set_solver].
      * intros T HT. unfold opened in HT. rewrite Hs in HT. injection HT as <-.
        destruct (Hpol' _ Hp) as [Hopen _]. by apply Hopen.
  - apply list_elem_of_singleton in Hin as ->. done.
  - apply list_elem_of_In in Hin as [<- | [<- | []]]; done.
Qed.

Lemma os_opened_mono i T : opened m i = Some T -> exists T', opened m' i = Some T' /\ T ⊆ T'.
Proof.
  intros HT. destruct (step_opened _ _ _ _ _ _ Hr) as [[Hs _] | (id & pt & sid & spec & _ & _ & _ & _ & _ & _ & Ho)].
  - exists T. by rewrite Hs.
  - rewrite Ho. fold m. rewrite HT. case_decide; cbn; [exists ({[sid]} ∪ T) | exists T]; set_solver.
Qed.

(** An object after the step was there before, or is the one just stored. *)
Lemma os_obj o x' : heap m' !! o = Some x' ->
  (exists x, heap m !! o = Some x /\ obj_guar (Some w0) o x x') \/
  (exists n id sid, t = TOpen n id sid OStore /\ m' = store_stream n id sid m /\
     o = next_obj m /\ x' = new_stream n id sid).
Proof.
  intros Hx'. destruct os_good as [_ G].
  assert (Hback : is_Some (heap m !! o) -> exists x, heap m !! o = Some x /\ obj_guar (Some w0) o x x').
  { intros [x Hx]. destruct (gu_heap _ _ _ G o x Hx) as (x2 & Hx2 & Gx). simplify_eq. by exists x. }
  destruct (step_objs _ _ _ _ _ _ Hr) as [Hold | (n & id & sid & E & Em)].
  - left. by apply Hback, (Hold o x').
  - destruct (decide (o = next_obj m)) as [-> | Hne].
    + right. exists n, id, sid. split_and!; try done. rewrite Em in Hx'. cbn in Hx'. fold m in Hx'.
      rewrite lookup_insert_eq in Hx'. by injection Hx'.
    + left. apply Hback. rewrite Em in Hx'. cbn in Hx'. fold m in Hx'.
      rewrite lookup_insert_ne in Hx' by done. by exists x'.
Qed.

Lemma obj_guar_key w o x x' : obj_guar w o x x' -> key_of x' = key_of x.
Proof. intros (E1 & E2 & _). unfold key_of. congruence. Qed.

Lemma os_task n id sid : t = TOpen n id sid OStore ->
  (exists T, opened m id = Some T /\ sid ∈ T) /\
  (forall o x, heap m !! o = Some x -> key_of x <> (id, sid)) /\ (n < next_task m)%nat.
Proof.
  intros E. pose proof os_who as Hw. pose proof os_ok as Hok. rewrite E in Hw, Hok. cbn in Hw.
  pose proof Ht as Ht'. rewrite E, <-Hw in Ht'. destruct (li_task _ L _ _ _ _ Ht') as [H1 H2].
  split_and!; [done | by apply H2 | by destruct Hok as (_ & ? & _)].
Qed.

Lemma os_key o x : heap m' !! o = Some x ->
  (exists T, opened m' (st_sess x) = Some T /\ st_id x ∈ T) /\ (opener (st_hist x) < next_task m')%nat.
Proof.
  destruct os_good as [_ G]. pose proof (gu_task _ _ _ G).
  intros Hx. destruct (os_obj o x Hx) as [(x0 & Hx0 & Gx) | (n & id & sid & E & Em & -> & ->)].
  - destruct (li_key _ L o x0 Hx0) as [(T & HT & Hin) Hop].
    destruct Gx as (E1 & E2 & _ & _ & E3 & _). rewrite E1, E2, E3.
    destruct (os_opened_mono _ _ HT) as (T' & ? & ?). split; [exists T'; set_solver | unfold m in *; cbn in *; lia].
  - destruct (os_task n id sid E) as ((T & HT & Hin) & _ & Hn). cbn.
    destruct (os_opened_mono _ _ HT) as (T' & ? & ?). split; [exists T'; set_solver | lia].
Qed.

Lemma os_unique : unique_keys m'.
Proof.
  intros o1 o2 x1 x2 H1 H2 E.
  destruct (os_obj o1 x1 H1) as [(y1 & Hy1 & G1) | (n & id & sid & F & Fm & -> & ->)],
    (os_obj o2 x2 H2) as [(y2 & Hy2 & G2) | (n2 & id2 & sid2 & F2 & Fm2 & -> & ->)]; [| | | done].
  - apply (li_unique _ L o1 o2 y1 y2 Hy1 Hy2).
    by rewrite <-(obj_guar_key _ _ _ _ G1), <-(obj_guar_key _ _ _ _ G2).
  - destruct (os_task _ _ _ F2) as (_ & Hno & _). destruct (Hno o1 y1 Hy1).
    by rewrite <-(obj_guar_key _ _ _ _ G1).
  - destruct (os_task _ _ _ F) as (_ & Hno & _). destruct (Hno o2 y2 Hy2).
    by rewrite <-(obj_guar_key _ _ _ _ G2).
Qed.

Lemma os_tasks n id sid pc : threads y' !! WOpen n = Some (TOpen n id sid pc) ->
  (exists T, opened m' id = Some T /\ sid ∈ T) /\
  (pre_store pc = true -> forall o x, heap m' !! o = Some x -> key_of x <> (id, sid)).
Proof.
  intros Hn. destruct (os_inv _ _ Hn) as [[Hin _] | [[Hw E] | [Hne Hold]]].
  - destruct (os_new_open _ Hin) as (_ & _ & _ & _ & Eh & _ & Hop & Hno). split; [done |].
    intros _ o x Hx Hk. rewrite Eh in Hx. destruct (li_key _ L o x Hx) as [(T & HT & Hi) _].
    unfold key_of in Hk. injection Hk as E1 E2. rewrite E1 in HT. rewrite E2 in Hi. by apply (Hno T).
  - destruct (unstored_preserved _ _ _ _ _ _ _ _ _ _ Hr E) as (pc0 & Et & Hpre).
    pose proof Ht as Ht'. rewrite Et, <-Hw in Ht'. destruct (li_task _ L _ _ _ _ Ht') as [(T & HT & Hi) H2].
    split; [destruct (os_opened_mono _ _ HT) as (T' & ? & ?); exists T'; set_solver |].
    intros Hp o x Hx. destruct (Hpre Hp) as [Hp0 Eh]. rewrite Eh in Hx. by apply (H2 Hp0 o).
  - destruct (li_task _ L _ _ _ _ Hold) as [(T & HT & Hi) H2].
    split; [destruct (os_opened_mono _ _ HT) as (T' & ? & ?); exists T'; set_solver |].
    intros Hp o x Hx. destruct (os_obj o x Hx) as [(x0 & Hx0 & Gx) | (n1 & id1 & sid1 & F & Fm & -> & ->)].
    + rewrite (obj_guar_key _ _ _ _ Gx). by apply (H2 Hp o).
    + intros [= -> ->]. pose proof os_who as Hw. pose proof Ht as Ht'. rewrite F in Hw, Ht'. cbn in Hw.
      rewrite <-Hw in Ht'. apply Hne. rewrite <-Hw. f_equal. by eapply (li_tasks _ L).
Qed.

(** OPEN tasks by origin: new ones, and those that were there. *)
Lemma os_task_origin n id sid pc : threads y' !! WOpen n = Some (TOpen n id sid pc) ->
  (n = next_task m /\ TOpen n id sid pc ∈ ts) \/ exists pc0, threads y !! WOpen n = Some (TOpen n id sid pc0).
Proof.
  intros Hn. destruct (os_inv _ _ Hn) as [[Hin _] | [[Hw E] | [Hne Hold]]].
  - left. by destruct (os_new_open _ Hin) as (_ & _ & -> & _).
  - right. destruct (unstored_preserved _ _ _ _ _ _ _ _ _ _ Hr E) as (pc0 & Et & _). exists pc0.
    by rewrite Hw, Ht, Et.
  - right. by exists pc.
Qed.

Lemma os_distinct n1 n2 id sid pc1 pc2 :
  threads y' !! WOpen n1 = Some (TOpen n1 id sid pc1) ->
  threads y' !! WOpen n2 = Some (TOpen n2 id sid pc2) -> n1 = n2.
Proof.
  intros H1 H2.
  assert (Hclash : forall n pc n' pc', TOpen n id sid pc ∈ ts ->
            threads y !! WOpen n' = Some (TOpen n' id sid pc') -> False).
  { intros n pc n' pc' Hin Hold. destruct (os_new_open _ Hin) as (_ & _ & _ & _ & _ & _ & _ & Hno).
    destruct (li_task _ L _ _ _ _ Hold) as [(T & HT & Hi) _]. by apply (Hno T). }
  destruct (os_task_origin _ _ _ _ H1) as [[-> Hi1] | [p1 Ho1]],
    (os_task_origin _ _ _ _ H2) as [[-> Hi2] | [p2 Ho2]]; [done | | |].
  - by destruct (Hclash _ _ _ _ Hi1 Ho2).
  - by destruct (Hclash _ _ _ _ Hi2 Ho1).
  - by eapply (li_tasks _ L).
Qed.

Lemma os_idle o x : heap m' !! o = Some x -> started (st_hist x) = false -> idle x.
Proof.
  intros Hx Hst. destruct (os_obj o x Hx) as [(x0 & Hx0 & Gx) | (n & id & sid & _ & _ & _ & ->)]; [| done].
  assert (Hst0 : started (st_hist x0) = false).
  { destruct Gx as (_ & _ & _ & _ & _ & Hmono & _).
    destruct (started (st_hist x0)); [by rewrite Hmono in Hst | done]. }
  apply (step_idle _ _ _ _ _ _ Hr os_ok) with (o := o) (x := x0); try done; [| by apply (li_idle _ L o)].
  intros id o1 p E. pose proof (li_polite _ L _ _ Ht) as Hp. rewrite E in Hp. exact Hp.
Qed.

Lemma os_polite w t1 : threads y' !! w = Some t1 -> polite_ok t1 m'.
Proof.
  intros Hw. destruct os_good as [_ G]. destruct (os_inv _ _ Hw) as [[Hin _] | [[-> E] | [Hne Hold]]].
  - destruct (os_new_open _ Hin) as (Hl & _ & _). by destruct t1.
  - eapply (step_polite t e m t' m' ts); try done.
    + apply (sk_mem _ Y).
    + apply os_ok.
    + by apply (li_polite _ L w0).
    + apply (li_unique _ L).
    + by rewrite os_who.
    + intros id pt sf Et Ee Hp. pose proof Hpol as Hp'. pose proof os_who as Hwho. rewrite Et in Hwho.
      cbn in Hwho. rewrite <-Hwho, Ee in Hp'. by apply (Hp' sf).
  - apply (polite_ok_stable (Some w0) m); [done |]. by apply (li_polite _ L w).
Qed.

(** *** Where objects are *)

Lemma cas_closes w all id o r m1 m2 x :
  close_step w all id (CCas o) m1 = (r, m2) -> heap m1 !! o = Some x ->
  exists x', heap m2 !! o = Some x' /\ st_closed x' = true.
Proof.
  cbn. intros E Hx. rewrite Hx in E. destruct (st_closed x) eqn:Ec; injection E as <- <-; [by exists x |].
  exists (st_set_closed w x). cbn. by rewrite lookup_alter_eq, Hx.
Qed.

(** An entry survives a step unless the step takes it out. *)
Lemma os_listed o x :
  heap m !! o = Some x -> st_closed x = false -> listed o x m ->
  (table m' (st_sess x) ≫= fun T => T !! st_id x) = Some o \/
  (exists t1, t' = Some t1 /\ closer_of t1 = Some (CCas o)) \/
  (exists n id sid, t' = Some (TOpen n id sid (OAbortConn o))).
Proof.
  intros Hx Hc Hl. unfold listed in Hl.
  assert (Hdel : forall id sid, v2Sessions m' = alter (ss_upd_streams (delete sid)) id (v2Sessions m) ->
            (st_sess x, st_id x) <> (id, sid) ->
            (table m' (st_sess x) ≫= fun T => T !! st_id x) = Some o).
  { intros id sid E Hne. rewrite (table_entry m m' id (delete sid) E).
    case_decide as Ei; [| done]. subst id. destruct (table m (st_sess x)) as [T|]; [| done]. cbn in *.
    rewrite lookup_delete_ne; [done |]. congruence. }
  destruct (step_tables _ _ _ _ _ _ Hr) as [Hs | n id sid s E1 E2 Hs Hsid Em | all id sid o1 t1 E1 E2 E3 _ Ho Em
    | n id sid o1 E1 E2 Em | id todo vis k E1 E2 Em].
  - left. by rewrite Hs.
  - left. assert (E : v2Sessions m' = alter (ss_upd_streams <[sid := next_obj m]>) id (v2Sessions m)) by by rewrite Em.
    rewrite (table_entry m m' id <[sid := next_obj m]> E).
    case_decide as Ei; [| done]. subst id. unfold table in Hl |- *. fold m in Hs. rewrite Hs in Hl |- *. cbn in *.
    rewrite lookup_insert_ne; [done |]. intros E3. congruence.
  - destruct (decide ((st_sess x, st_id x) = (id, sid))) as [Ek | Hne].
    + injection Ek as <- <-. fold m in Ho. rewrite Hl in Ho. injection Ho as <-. right; left. by exists t1.
    + left. apply (Hdel id sid); [by rewrite Em | done].
  - destruct (decide ((st_sess x, st_id x) = (id, sid))) as [Ek | Hne].
    + right; right. pose proof os_ok as Hok. rewrite E1 in Hok. destruct Hok as (_ & _ & (x1 & Hx1 & K1 & K2 & _)).
      assert (o1 = o) as -> by (apply (li_unique _ L _ _ _ _ Hx1 Hx); unfold key_of; congruence).
      by exists n, id, sid.
    + left. apply (Hdel id sid); [by rewrite Em | done].
  - destruct (decide ((st_sess x, st_id x) = (id, k))) as [Ek | Hne].
    + exfalso. pose proof (li_polite _ L _ _ Ht) as Hp. rewrite E1 in Hp.
      destruct Hp as (o1 & x1 & Hx1 & Hk & Hc1).
      assert (o1 = o) as -> by (apply (li_unique _ L _ _ _ _ Hx1 Hx); unfold key_of in *; congruence).
      fold m in Hx1. congruence.
    + left. apply (Hdel id k); [by rewrite Em | done].
Qed.

Lemma os_where o x : heap m' !! o = Some x -> st_closed x = false -> whereabouts o x y'.
Proof.
  intros Hx Hc. destruct os_good as [_ G].
  destruct (os_obj o x Hx) as [(x0 & Hx0 & Gx) | (n & id & sid & E & Em & -> & ->)].
  2: { (* the object just stored *)
    left. unfold listed. cbn. pose proof os_ok as Hok. rewrite E in Hok. destruct Hok as ([s Hs] & _).
    assert (E' : v2Sessions m' = alter (ss_upd_streams <[sid := next_obj m]>) id (v2Sessions m)) by by rewrite Em.
    rewrite (table_entry m m' id <[sid := next_obj m]> E'), decide_True by done.
    unfold table. rewrite Hs. cbn. by rewrite lookup_insert_eq. }
  pose proof Gx as (K1 & K2 & Hconn & _ & Kop & Kst & _ & Kcl & Ksame & _).
  assert (Hc0 : st_closed x0 = false) by (destruct (st_closed x0); [by rewrite Kcl in Hc | done]).
  destruct (li_where _ L o x0 Hx0 Hc0) as [Hl | [(w & t2 & Hw & Hcl) | [(n & id & sid & Hn) | (Hst & Hcn & Hop)]]].
  - destruct (os_listed o x0 Hx0 Hc0 Hl) as [Hl' | [(t1 & E & Hc1) | (n & id & sid & E)]].
    + left. unfold listed. cbn. by rewrite K1, K2.
    + right; left. exists w0, t1. split; [by apply os_self | done].
    + right; right; left. exists n, id, sid.
      assert (w0 = WOpen n) as Hw.
      { destruct (unstored_preserved _ _ _ _ _ _ _ _ _ _ Hr E) as (pc0 & Et & _).
        pose proof os_who as Hw. by rewrite Et in Hw. }
      rewrite <-Hw. by apply os_self.
  - destruct (decide (w = w0)) as [-> | Hne].
    + exfalso. rewrite Ht in Hw. injection Hw as <-.
      destruct (step_closes _ _ _ _ _ _ _ _ _ Hr Hcl) as (all & id & r & Hcs & _ & _).
      destruct (cas_closes _ _ _ _ _ _ _ _ Hcs Hx0) as (x' & Hx' & Hc'). simplify_eq. congruence.
    + right; left. exists w, t2. split; [by apply os_keep | done].
  - destruct (decide (WOpen n = w0)) as [Hw | Hne].
    + (* the abort closes the connection *)
      pose proof Ht as Ht'. rewrite <-Hw, Hn in Ht'. injection Ht' as Et.
      pose proof os_ok as Hok. rewrite <-Et in Hok. destruct Hok as ([s Hs] & _ & (x1 & Hx1 & _ & _ & Hopn & Hst)).
      rewrite Hx0 in Hx1. injection Hx1 as <-.
      assert (Some (TOpen n id sid ODone) = t' /\ upd_stream o (st_set_conn false) m = m') as [E1 E2].
      { pose proof Hr as Hr'. rewrite <-Et in Hr'. cbn in Hr'. unfold open_step in Hr'. fold m in Hr'. rewrite Hs in Hr'.
        destruct e; try discriminate Hr'. by injection Hr' as E1 E2 E3. }
      pose proof Hx as Hx'. rewrite <-E2 in Hx'. cbn in Hx'. rewrite lookup_alter_eq, Hx0 in Hx'. injection Hx' as <-.
      right; right; right. cbn. split_and!; [done | done |]. intros t2 Ht2.
      rewrite Hopn, Hw in Ht2. pose proof (os_self _ (eq_sym E1)) as Hself. unfold y' in Hself.
      cbn in Hself. rewrite Hself in Ht2. injection Ht2 as <-.
      rewrite Hopn. by exists id, sid.
    + right; right; left. exists n, id, sid. by apply os_keep.
  - (* abandoned before *)
    right; right; right.
    assert (Hdone : forall id sid, w0 = WOpen (opener (st_hist x0)) ->
              t = TOpen (opener (st_hist x0)) id sid ODone -> t' = None /\ heap m' = heap m).
    { intros id sid Hw Et. pose proof Hr as Hr'. rewrite Et in Hr'. cbn in Hr'. unfold open_step in Hr'.
      destruct (v2Sessions (memory y) !! id); [| done]. destruct e; try discriminate Hr'.
      injection Hr' as E1 E2 E3. split; [done | by rewrite <-E2]. }
    split; [| split; [by apply Hconn |]].
    + destruct (decide (w0 = WOpen (opener (st_hist x0)))) as [Hw | Hne].
      * destruct (Hop t) as (id & sid & Et); [by rewrite <-Hw |]. destruct (Hdone _ _ Hw Et) as [_ Eh].
        rewrite Eh in Hx. simplify_eq. done.
      * rewrite Ksame; [done | congruence].
    + rewrite Kop. intros t2 Ht2. destruct (os_inv _ _ Ht2) as [[Hin Hwho] | [[Hw E] | [Hne Hold]]].
      * exfalso. destruct (os_new_open _ Hin) as (_ & _ & Hm). destruct t2; cbn in Hwho; try discriminate Hwho.
        injection Hwho as ->. destruct Hm as (Hn & _). destruct (li_key _ L o x0 Hx0) as [_ Hlt].
        unfold m in *. lia.
      * exfalso. destruct (Hop t) as (id & sid & Et); [by rewrite Hw |].
        destruct (Hdone _ _ (eq_sym Hw) Et) as [E' _]. congruence.
      * by apply Hop.
Qed.

(** *** What is left in the table during and after teardown *)

(** Every entry of a table after a step was there before, or its OPEN task has
    just put it there; and a task that is taking its entry out has done so. *)
Lemma os_entry id T sid o :
  table m' id = Some T -> T !! sid = Some o ->
  ((exists T0, table m id = Some T0 /\ T0 !! sid = Some o) /\
   forall n id0 sid0, t <> TOpen n id0 sid0 (OAbort o)) \/
  exists n, t' = Some (TOpen n id sid (OCheck o)) /\ w0 = WOpen n.
Proof.
  intros HT Ho.
  assert (Hold : (exists T0, table m id = Some T0 /\ T0 !! sid = Some o) \/
                 exists n, t' = Some (TOpen n id sid (OCheck o)) /\ w0 = WOpen n).
  { assert (Hdel : forall id1 sid1, v2Sessions m' = alter (ss_upd_streams (delete sid1)) id1 (v2Sessions m) ->
              exists T0, table m id = Some T0 /\ T0 !! sid = Some o).
    { intros id1 sid1 E. rewrite (table_entry m m' id1 (delete sid1) E) in HT.
      case_decide as Ei; [| by eexists]. destruct (table m id) as [T0|]; [| done]. cbn in HT.
      injection HT as <-. apply lookup_delete_Some in Ho as [_ Ho]. by exists T0. }
    destruct (step_tables _ _ _ _ _ _ Hr) as [Hs | n id1 sid1 s E1 E2 Hs Hsid Em
      | all id1 sid1 o1 t1 E1 E2 E3 _ Ho1 Em | n id1 sid1 o1 E1 E2 Em | id1 todo vis k E1 E2 Em].
    - left. exists T. by rewrite <-Hs.
    - assert (E : v2Sessions m' = alter (ss_upd_streams <[sid1 := next_obj m]>) id1 (v2Sessions m)) by by rewrite Em.
      rewrite (table_entry m m' id1 <[sid1 := next_obj m]> E) in HT.
      case_decide as Ei; [| by left; eexists]. subst id1.
      destruct (table m id) as [T0|] eqn:E0; [| done]. cbn in HT. injection HT as <-.
      apply lookup_insert_Some in Ho as [[-> <-] | [_ Ho]]; [| by left; exists T0].
      right. exists n. split; [done |]. pose proof os_who as Hw. by rewrite E1 in Hw.
    - left. apply (Hdel id1 sid1). by rewrite Em.
    - left. apply (Hdel id1 sid1). by rewrite Em.
    - left. apply (Hdel id1 k). by rewrite Em. }
  destruct Hold as [(T0 & HT0 & Ho0) | ?]; [| by right].
  left. split; [by exists T0 |]. intros n id0 sid0 Et.
  pose proof os_ok as Hok. rewrite Et in Hok. destruct Hok as ([s Hs] & _ & (x1 & Hx1 & K1 & K2 & _)).
  unfold table in HT0. destruct (v2Sessions m !! id) as [s1|] eqn:Hs1; [| done]. injection HT0 as <-.
  destruct (mo_session m (sk_mem _ Y) id s1 Hs1) as (_ & _ & _ & Tok).
  destruct (Tok sid o Ho0) as (x & Hx & J1 & J2). rewrite Hx in Hx1. injection Hx1 as <-.
  subst id sid id0 sid0.
  assert (m' = upd_session (st_sess x) (ss_upd_streams (delete (st_id x))) m) as Em.
  { pose proof Hr as Hr'. rewrite Et in Hr'. cbn in Hr'. unfold open_step in Hr'. fold m in Hr'.
    rewrite Hs in Hr'. destruct e; try discriminate Hr'. by injection Hr' as _ <- _. }
  unfold table in HT. rewrite Em in HT. cbn in HT. rewrite lookup_alter_eq, Hs in HT. cbn in HT.
  injection HT as <-. by rewrite lookup_delete_eq in Ho.
Qed.

Lemma os_covered id s S :
  v2Sessions m !! id = Some s -> ss_closed s = true -> covered id S y -> covered id S y'.
Proof.
  intros Hs Hc C T sid o HT Ho. cbn in HT.
  destruct (os_entry id T sid o HT Ho) as [[(T0 & HT0 & Ho0) Hno] | (n & E & Hw)].
  2: { right. exists n, id, sid, (OCheck o). split; [| by left]. rewrite <-Hw. by apply os_self. }
  destruct (C T0 sid o HT0 Ho0) as [? | (n & id1 & sid1 & pc & Hn & Hpc)]; [by left | right].
  destruct (decide (WOpen n = w0)) as [Hw | Hne]; [| exists n, id1, sid1, pc; split; [by apply os_keep | done]].
  pose proof Ht as Ht'. rewrite <-Hw, Hn in Ht'. injection Ht' as Et.
  destruct Hpc as [-> | ->]; [| by destruct (Hno n id1 sid1)].
  (* the check finds the session closed *)
  pose proof os_ok as Hok. rewrite <-Et in Hok. destruct Hok as (_ & _ & (x1 & Hx1 & K1 & K2 & _)).
  unfold table in HT0. rewrite Hs in HT0. injection HT0 as <-.
  destruct (mo_session m (sk_mem _ Y) id s Hs) as (_ & _ & _ & Tok).
  destruct (Tok sid o Ho0) as (x & Hx & J1 & J2). rewrite Hx in Hx1. injection Hx1 as <-.
  subst id sid id1 sid1.
  exists n, (st_sess x), (st_id x), (OAbort o). split; [| by right].
  rewrite Hw. apply os_self.
  pose proof Hr as Hr'. rewrite <-Et in Hr'. cbn in Hr'. unfold open_step in Hr'. fold m in Hr'.
  rewrite Hs in Hr'. destruct e; try discriminate Hr'. rewrite Hc in Hr'. by injection Hr' as <- _ _.
Qed.

Lemma os_loop id :
  threads y' !! WLoop id = if decide (WLoop id = w0) then t' else threads y !! WLoop id.
Proof.
  assert (Hts : forall t1, t1 ∈ ts -> who_of t1 <> WLoop id).
  { intros t1 Hin. destruct (os_new_open _ Hin) as [Hl _]. by destruct t1. }
  case_decide as E.
  - assert (t' = None \/ exists t1, t' = Some t1) as [Et | [t1 Et]] by (destruct t'; eauto);
      rewrite Et; [| rewrite E; by apply os_self].
    destruct (threads y' !! WLoop id) as [t1|] eqn:Hw; [| done]. exfalso.
    destruct (os_inv _ _ Hw) as [[Hin Hwho] | [[_ E1] | [Hne _]]]; [by apply (Hts t1) | congruence | done].
  - destruct (threads y !! WLoop id) as [t1|] eqn:Hold; [by apply os_keep |].
    destruct (threads y' !! WLoop id) as [t1|] eqn:Hw; [| done]. exfalso.
    destruct (os_inv _ _ Hw) as [[Hin Hwho] | [[? _] | [_ Hn]]]; [by apply (Hts t1) | done | congruence].
Qed.

Lemma os_loop_thread id : WLoop id = w0 -> exists pc, t = TLoop id pc.
Proof.
  intros E. pose proof os_who as Hw. rewrite <-E in Hw. destruct t as [id1 pc| | | | |]; try discriminate Hw.
  injection Hw as ->. by exists pc.
Qed.

Lemma os_session id s' : v2Sessions m' !! id = Some s' -> exists s, v2Sessions m !! id = Some s.
Proof.
  intros Hs. assert (Ho : opened m' id = Some (ss_opened s')) by (unfold opened; by rewrite Hs).
  assert (opened m id <> None) as Hn.
  { destruct (step_opened _ _ _ _ _ _ Hr) as [[E _] | (id1 & ? & ? & ? & _ & _ & _ & _ & _ & _ & E)];
      rewrite E in Ho; [unfold m; congruence |]. case_decide; unfold m; [| congruence].
    by destruct (opened (memory y) id). }
  unfold opened in Hn. destruct (v2Sessions m !! id) as [s|]; [by exists s | done].
Qed.

Lemma os_left_closed id s S :
  v2Sessions m !! id = Some s -> left_set (threads y !! WLoop id) = Some S -> ss_closed s = true.
Proof.
  intros Hs Hl. destruct (threads y !! WLoop id) as [t1|] eqn:Ht1; [| by apply (li_gone _ L id)].
  destruct (sk_threads _ Y _ _ Ht1) as [Hw Hok]. destruct t1 as [id1 pc| | | | |]; try done.
  cbn in Hw. injection Hw as ->. destruct Hok as (s1 & Hs1 & Hok). unfold m in Hs. simplify_eq.
  destruct pc; try discriminate Hl; cbn in Hok; by destruct Hok as [[Hc _] _] || destruct Hok as [Hc _].
Qed.

(** The read loop's own steps shrink what is left. *)
Lemma os_loop_left id pc S' :
  t = TLoop id pc -> left_set t' = Some S' ->
  exists S, (left_set (Some t) = Some S \/
             (forall T sid o, table m id = Some T -> T !! sid = Some o -> S sid) /\
             forall s, v2Sessions m !! id = Some s -> ss_closed s = true) /\
    forall sid, S sid -> S' sid \/ forall T, table m' id = Some T -> T !! sid = None.
Proof.
  intros Et Hl. pose proof os_ok as Hok. pose proof Hr as Hr'. rewrite Et in Hok, Hr'.
  destruct Hok as (s & Hs & Hok). cbn in Hr'. unfold loop_step in Hr'. fold m in Hr'. rewrite Hs in Hr'.
  assert (Htab : table m id = Some (streams s)) by (unfold table; by rewrite Hs).
  rewrite Et. clear Et.
  step_cases Hr'; injection Hr' as F1 F2 F3; rewrite <-F1 in Hl; try discriminate Hl;
    injection Hl as <-; rewrite <-?F2; cbn [left_set].
  all: try (eexists; split; [by left | by intros; left]).
  1-2: exists (fun sid => sid ∈ dom (streams s)); split;
    [right; split; [intros T sid o HT Ho; rewrite Htab in HT; injection HT as <-; apply elem_of_dom; by exists o
                   | intros s0; rewrite Hs; intros [= <-]; apply Hok]
    | by intros; left].
  all: eexists; (split; [by left |]); cbn beta.
  - intros sid Hin. exfalso. set_solver.
  - intros sid Hin. destruct (decide (sid = k)) as [-> | Hne]; left; [by right | left; set_solver].
  - intros sid Hin. destruct (decide (sid = k)) as [-> | Hne]; [right | left; set_solver].
    intros T HT. rewrite Htab in HT. by injection HT as <-.
  - intros sid [Hin | ->]; [by left | right]. intros T HT.
    unfold table in HT. cbn in HT. rewrite lookup_alter_eq, Hs in HT. injection HT as <-.
    cbn. by rewrite lookup_delete_eq.
Qed.

Lemma os_cover id : is_Some (v2Sessions m' !! id) -> teardown_cover id y'.
Proof.
  intros [s' Hs']. destruct (os_session id s' Hs') as [s Hs]. intros S' Hl. rewrite os_loop in Hl.
  pose proof (li_cover _ L id ltac:(by exists s)) as Hcov.
  case_decide as E.
  - destruct (os_loop_thread id E) as [pc Et].
    pose proof Ht as Ht'. rewrite <-E in Ht'.
    destruct (os_loop_left id pc S' Et Hl) as (S & HS & Hshrink).
    assert (Hc : covered id S y').
    { destruct HS as [HS | [Hall Hcl]]; [| apply (os_covered id s S Hs (Hcl s Hs)); intros T sid o HT Ho; left; by eapply Hall].
      rewrite <-Ht' in HS. apply (os_covered id s S Hs (os_left_closed id s S Hs HS)). by apply Hcov. }
    intros T sid o HT Ho. destruct (Hc T sid o HT Ho) as [Hin | ?]; [| by right].
    destruct (Hshrink sid Hin) as [? | Hno]; [by left |]. rewrite (Hno T HT) in Ho. done.
  - apply (os_covered id s S' Hs (os_left_closed id s S' Hs Hl)). by apply Hcov.
Qed.

Lemma os_gone id s' : v2Sessions m' !! id = Some s' -> threads y' !! WLoop id = None -> ss_closed s' = true.
Proof.
  intros Hs' Hn. destruct (os_session id s' Hs') as [s Hs]. rewrite os_loop in Hn.
  destruct os_good as [_ G]. case_decide as E.
  - destruct (os_loop_thread id E) as [pc Et]. pose proof os_ok as Hok. pose proof Hr as Hr'.
    rewrite Et in Hok, Hr'. destruct Hok as (s1 & Hs1 & Hok). rewrite Hs in Hs1. injection Hs1 as <-.
    cbn in Hr'. unfold loop_step in Hr'. fold m in Hr'. rewrite Hs in Hr'. rewrite Hn in Hr'. clear Et.
    step_cases Hr'; try discriminate Hr'. injection Hr' as F2 _. rewrite <-F2 in Hs'. cbn in Hs'.
    rewrite lookup_alter_eq, Hs in Hs'. injection Hs' as <-. apply Hok.
  - destruct (gu_sess _ _ _ G id s Hs) as (s2 & Hs2 & Gs). rewrite Hs' in Hs2. injection Hs2 as <-.
    destruct Gs as (-> & _); [congruence |]. by apply (li_gone _ L id).
Qed.

Lemma os_leak_inv : leak_inv y'.
Proof.
  split; [exact os_key | exact os_unique | exact os_tasks | exact os_distinct | exact os_idle
    | exact os_polite | exact os_where | exact os_cover | exact os_gone].
Qed.
End OneStep.

(** ** The other actions *)

Definition newborn (t : thread) : bool := match t with TLoop _ LRead | THeart _ => true | _ => false end.

Section Frame.
Variables y y' : sys.
Hypothesis L : leak_inv y.
Hypothesis Eheap : heap (memory y') = heap (memory y).
Hypothesis Etask : next_task (memory y') = next_task (memory y).
Hypothesis Tkeep : forall w t, threads y !! w = Some t -> threads y' !! w = Some t.
Hypothesis Tback : forall w t, threads y' !! w = Some t -> threads y !! w = Some t \/ (newborn t = true /\ who_of t = w).
Hypothesis Stab : forall i T, table (memory y) i = Some T -> table (memory y') i = Some T.
Hypothesis Sop : forall i T, opened (memory y) i = Some T -> opened (memory y') i = Some T.
Hypothesis Sback : forall id s', v2Sessions (memory y') !! id = Some s' ->
  (exists s, v2Sessions (memory y) !! id = Some s /\ ss_closed s' = ss_closed s /\
     streams s' = streams s /\ threads y' !! WLoop id = threads y !! WLoop id) \/
  threads y' !! WLoop id = Some (TLoop id LRead).

Lemma fr_open n id sid pc :
  threads y' !! WOpen n = Some (TOpen n id sid pc) -> threads y !! WOpen n = Some (TOpen n id sid pc).
Proof. by intros [? | [? _]]%Tback. Qed.

Lemma fr_where o x : whereabouts o x y -> whereabouts o x y'.
Proof.
  intros [Hl | [(w & t & Hw & Hc) | [(n & id & sid & Hn) | (Hst & Hcn & Hop)]]].
  - left. unfold listed in *. destruct (table (memory y) (st_sess x)) as [T|] eqn:E; [| done].
    by rewrite (Stab _ _ E).
  - right; left. exists w, t. split; [by apply Tkeep | done].
  - right; right; left. exists n, id, sid. by apply Tkeep.
  - right; right; right. split_and!; [done | done |]. intros t [Ht | [Hnew Ht]]%Tback; [by apply Hop |].
    by destruct t.
Qed.

Lemma fr_polite t : newborn t = true \/ polite_ok t (memory y) -> polite_ok t (memory y').
Proof.
  intros [Hn | Hp]; [by destruct t as [? []| | | | |] |].
  destruct t as [? pc| | | | |]; [| done..]. destruct pc; cbn in *;
    unfold told_open, obj_started, obj_key, key_closed in *; first [done | by rewrite Eheap].
Qed.

Lemma fr_leak_inv : leak_inv y'.
Proof.
  split.
  - intros o x. rewrite Eheap, Etask. intros Hx. destruct (li_key _ L o x Hx) as [(T & HT & Hin) Hlt].
    split; [exists T; split; [by apply Sop | done] | done].
  - intros o1 o2 x1 x2. rewrite Eheap. apply (li_unique _ L).
  - intros n id sid pc Hn%fr_open. destruct (li_task _ L _ _ _ _ Hn) as [(T & HT & Hin) Hno].
    split; [exists T; split; [by apply Sop | done] | by rewrite Eheap].
  - intros n1 n2 id sid pc1 pc2 H1%fr_open H2%fr_open. by eapply (li_tasks _ L).
  - intros o x. rewrite Eheap. apply (li_idle _ L).
  - intros w t [Ht | [Hn _]]%Tback; apply fr_polite; [right; by apply (li_polite _ L w) | by left].
  - intros o x. rewrite Eheap. intros Hx Hc. by apply fr_where, (li_where _ L).
  - intros id [s' Hs'] S Hl. destruct (Sback id s' Hs') as [(s & Hs & _ & Est & El) | El].
    + rewrite El in Hl. intros T sid o HT Ho.
      assert (HT0 : table (memory y) id = Some T).
      { unfold table in *. rewrite Hs' in HT. rewrite Hs. cbn in *. congruence. }
      destruct (li_cover _ L id ltac:(by exists s) S Hl T sid o HT0 Ho) as [? | (n & i & j & pc & Hn & Hpc)];
        [by left | right]. exists n, i, j, pc. split; [by apply Tkeep | done].
    + by rewrite El in Hl.
  - intros id s' Hs' Hn. destruct (Sback id s' Hs') as [(s & Hs & -> & _ & El) | El]; [| by rewrite El in Hn].
    rewrite El in Hn. by apply (li_gone _ L id).
Qed.
End Frame.

Lemma init_leak_inv : leak_inv init.
Proof. by split. Qed.

Lemma reap_keeps t s : ss_closed (reap_session t s) = ss_closed s /\
  streams (reap_session t s) = streams s /\ ss_opened (reap_session t s) = ss_opened s.
Proof. unfold reap_session. by destruct (_ && _). Qed.

Lemma leak_inv_step a y y' :
  sys_ok y -> leak_inv y -> polite a y -> step a y = Some y' -> leak_inv y'.
Proof.
  intros Y L P Hs. destruct a as [w0 e| | |d]; cbn in Hs.
  - destruct (threads y !! w0) as [t|] eqn:Ht; [| done]. cbn in Hs.
    destruct (thread_step _ _ t e (memory y)) as [[[t' m'] ts]|] eqn:Hr; [| done]. injection Hs as <-.
    by eapply os_leak_inv.
  - case_decide as Hgate; [| done]. injection Hs as <-.
    set (id := connCounter (memory y) + 1).
    assert (Hnew : v2Sessions (memory y) !! id = None).
    { destruct (v2Sessions (memory y) !! id) as [s|] eqn:E; [| done].
      destruct (mo_session _ (sk_mem _ Y) id s E) as (_ & ? & _). unfold id in *. lia. }
    pose proof (accept_fresh y Y) as Hf. apply (fr_leak_inv y); try done; cbn [threads memory v2Sessions].
    + intros w t Hw. by apply (spawn_keeps _ _ _ _ Hf).
    + intros w t [[Hin Hw] | Hw]%(spawn_lookup [TLoop id LRead; THeart id]); [right | by left]. split; [| done].
      by apply list_elem_of_In in Hin as [<- | [<- | []]].
    + intros i T HT. unfold table in *. cbn. rewrite lookup_insert_ne; [done |]. intros E.
      unfold id in *. by rewrite <-E, Hnew in HT.
    + intros i T HT. unfold opened in *. cbn. rewrite lookup_insert_ne; [done |]. intros E.
      unfold id in *. by rewrite <-E, Hnew in HT.
    + intros i s' [[<- <-] | [Hne Hs']]%lookup_insert_Some; [right; cbn; by rewrite lookup_insert_eq | left].
      exists s'. split_and!; try done. cbn. rewrite !lookup_insert_ne; [done | done | congruence].
  - injection Hs as <-. assert (Hl : forall i, v2Sessions (set_sessions (fmap (reap_session (now (memory y)))) (memory y)) !! i
      = reap_session (now (memory y)) <$> v2Sessions (memory y) !! i) by (intros i; cbn; by rewrite lookup_fmap).
    apply (fr_leak_inv y); try done; cbn [threads memory]; [by left | ..].
    + intros i T. unfold table. rewrite Hl. destruct (v2Sessions (memory y) !! i) as [s|]; [| done]. cbn.
      by destruct (reap_keeps (now (memory y)) s) as (_ & -> & _).
    + intros i T. unfold opened. rewrite Hl. destruct (v2Sessions (memory y) !! i) as [s|]; [| done]. cbn.
      by destruct (reap_keeps (now (memory y)) s) as (_ & _ & ->).
    + intros i s'. rewrite Hl. destruct (v2Sessions (memory y) !! i) as [s|]; [| done]. intros [= <-]. left.
      exists s. destruct (reap_keeps (now (memory y)) s) as (-> & -> & _). done.
  - hcase Hs; [| done]. injection Hs as <-. apply (fr_leak_inv y); try done; [by left |].
    intros i s' Hs'. left. by exists s'.
Qed.

Lemma polite_leak_inv y : polite_reachable y -> leak_inv y.
Proof.
  induction 1 as [| a y y' R IH P Hs]; [apply init_leak_inv |].
  apply (leak_inv_step a y); try done. apply (ri_sys _ _ (reachable_invariant _ _ _ (polite_is_reachable _ R))).
Qed.

(** ** The theorem *)

Definition session_of (t : thread) : option Z :=
  match t with
  | TLoop id _ | TOpen _ id _ _ | TReader _ id _ _ | TPump _ id _ _ | TPong _ id _ | THeart id => Some id
  end.

(** Session [id]'s read loop and OPEN tasks have returned, and no goroutine of
    it is in the middle of a close. Readers and pumps may still be running. *)
Definition settled (id : Z) (y : sys) : Prop :=
  forall w t, threads y !! w = Some t -> session_of t = Some id ->
    is_loop t = false /\ closer_of t = None /\ (forall n sid pc, t <> TOpen n id sid pc).

Lemma closer_session t c m o x :
  thread_ok t m -> closer_of t = Some c -> closer_obj c = Some o -> heap m !! o = Some x ->
  session_of t = Some (st_sess x).
Proof.
  intros Hok Hc Ho Hx.
  assert (exists id, session_of t = Some id /\ closer_ok (who_of t) id c m) as (id & -> & Hcl).
  { destruct t as [id pc|n id sid pc|o1 id sid pc|o1 id sid pc|n id p|id]; cbn in Hc; try discriminate Hc;
      destruct pc; try discriminate Hc; injection Hc as <-; exists id; cbn in *; naive_solver. }
  destruct c as [sid|o1|o1|o1|o1]; cbn in Ho, Hcl; try discriminate Ho; injection Ho as ->;
    destruct Hcl as (x1 & Hx1 & <- & _) || destruct Hcl as (x1 & Hx1 & <-); by simplify_eq.
Qed.

Lemma settled_object y id o x :
  reachable_inv allowedDomains y -> leak_inv y -> settled id y ->
  table (memory y) id = Some ∅ ->
  heap (memory y) !! o = Some x -> st_sess x = id ->
  conn_open x = false /\ queue (st_mu x) = [] /\ waiting (st_mu x) = false.
Proof.
  intros [Y Cl _ _ _] L Q Htab Hx E. destruct (mo_stream _ (sk_mem _ Y) o x Hx) as (O & _ & _).
  destruct (st_closed x) eqn:Hc.
  - assert (Hby : closed_by (st_hist x) = None).
    { destruct (closed_by (st_hist x)) as [w|] eqn:Ew; [exfalso | done].
      destruct (Cl o x w Hx Ew) as (t & c & Ht & Hct & Hown). destruct (sk_threads _ Y w t Ht) as [_ Hok].
      assert (Ho : closer_obj c = Some o) by (destruct Hown as [-> | [-> | ->]]; done).
      destruct (Q w t Ht) as (_ & Hno & _); [| congruence]. rewrite <-E. by eapply closer_session. }
    pose proof (so_closed x O) as H1. rewrite Hc in H1. destruct (H1 Hby) as (Hrec & _ & Hconn).
    split_and!; [done | by apply (so_reclaimed x O) |].
    destruct (waiting (st_mu x)) eqn:Hw; [| done]. destruct (so_wait x O Hw). congruence.
  - destruct (li_where _ L o x Hx Hc) as [Hl | [(w & t & Ht & Hct) | [(n & i & sid & Ht) | (Hst & Hconn & _)]]].
    + exfalso. unfold listed in Hl. rewrite E, Htab in Hl. cbn in Hl. by rewrite lookup_empty in Hl.
    + exfalso. destruct (sk_threads _ Y w t Ht) as [_ Hok].
      destruct (Q w t Ht) as (_ & Hno & _); [| congruence]. rewrite <-E. by eapply closer_session.
    + exfalso. destruct (sk_threads _ Y _ _ Ht) as [_ (_ & _ & x1 & Hx1 & K1 & _)]. simplify_eq.
      by destruct (Q _ _ Ht ltac:(done)) as (_ & _ & Hno); destruct (Hno n sid (OAbortConn o)).
    + destruct (li_idle _ L o x Hx Hst) as (Hq & _ & Hw). done.
Qed.

(** Teardown leaves nothing behind: once the read loop and the OPEN tasks
    of a session have returned and nobody is mid-close, its stream table is
    empty, and every stream it ever made has its upstream connection closed,
    an empty queue and no parked pump - for a client that uses each stream id
    once and sends data only on streams it was told are open. *)
Theorem teardown_leaves_nothing y id s :
  polite_reachable y -> v2Sessions (memory y) !! id = Some s -> settled id y ->
  streams s = ∅ /\
  forall o x, heap (memory y) !! o = Some x -> st_sess x = id ->
    conn_open x = false /\ queue (st_mu x) = [] /\ waiting (st_mu x) = false.
Proof.
  intros R Hs Q. pose proof (polite_leak_inv y R) as L.
  pose proof (reachable_invariant _ _ _ (polite_is_reachable _ R)) as I.
  assert (Hloop : threads y !! WLoop id = None).
  { destruct (threads y !! WLoop id) as [t|] eqn:Ht; [| done]. exfalso.
    destruct (sk_threads _ (ri_sys _ _ I) _ _ Ht) as [Hw _]. destruct t; try done.
    cbn in Hw. injection Hw as ->. by destruct (Q _ _ Ht) as [? _]. }
  assert (Htab : streams s = ∅).
  { apply map_eq. intros sid. rewrite lookup_empty. destruct (streams s !! sid) as [o|] eqn:Ho; [exfalso | done].
    destruct (li_cover _ L id ltac:(by exists s) (fun _ => False)) with (T := streams s) (sid := sid) (o := o)
      as [? | (n & i & j & pc & Hn & Hpc)]; [by rewrite Hloop | unfold table; by rewrite Hs | done | done |].
    destruct (mo_session _ (sk_mem _ (ri_sys _ _ I)) id s Hs) as (_ & _ & _ & Tok).
    destruct (Tok sid o Ho) as (x & Hx & K1 & _).
    destruct (sk_threads _ (ri_sys _ _ I) _ _ Hn) as [_ (_ & _ & Hf)].
    assert (i = id) as ->.
    { destruct Hpc as [-> | ->]; destruct Hf as (x1 & Hx1 & J1 & _); simplify_eq; congruence. }
    by destruct (Q _ _ Hn eq_refl) as (_ & _ & Hno); destruct (Hno n j pc). }
  split; [done |]. intros o x. apply (settled_object y id o x I L Q).
  unfold table. rewrite Hs. cbn. by rewrite Htab.
Qed.
End Leak.

(** ** Runs *)

Definition told_openb (id sid : Z) (m : mem) : bool :=
  existsb (fun ox => bool_decide (key_of ox.2 = (id, sid)) && started (st_hist ox.2)) (map_to_list (heap m)).

Definition politeb (a : action) (y : sys) : bool :=
  match a with
  | Run (WLoop id) (InFrame pt) =>
      match parse_stream_frame pt with
      | Ok sf =>
          (if sf_type sf =? v2TypeOpen
           then match v2Sessions (memory y) !! id with
                | Some s => bool_decide (sf_id sf ∉ ss_opened s)
                | None => true
                end
           else true) &&
          (if sf_type sf =? v2TypeData then told_openb id (sf_id sf) (memory y) else true)
      | _ => true
      end
  | _ => true
  end.

Lemma politeb_ok a y : politeb a y = true -> polite a y.
Proof.
  destruct a as [[id|?|?|?|?|?] [|pt| | | | | | | |]| | |]; try done. cbn. intros Hb sf Hsf.
  rewrite Hsf in Hb. apply andb_true_iff in Hb as [H1 H2]. split; intros Hty.
  - rewrite Hty in H1. cbn in H1. intros s Hs. rewrite Hs in H1. by apply bool_decide_eq_true in H1.
  - rewrite Hty in H2. cbn in H2. unfold told_openb in H2. apply existsb_exists in H2 as ([o x] & Hin & Hb).
    apply andb_true_iff in Hb as [Hk%bool_decide_eq_true Hst]. exists o, x.
    split; [| done]. by apply elem_of_map_to_list, list_elem_of_In.
Qed.

Module LeakDemo.
Import Demo.
Fixpoint polite_run (acts : list action) (y : sys) : option sys :=
  match acts with
  | [] => Some y
  | a :: acts' =>
      if politeb a y then match step [] hb a y with Some y' => polite_run acts' y' | None => None end else None
  end.

Lemma polite_run_reachable acts y :
  polite_run acts init = Some y -> polite_reachable [] hb y.
Proof.
  assert (Hgen : forall y0, polite_reachable [] hb y0 -> polite_run acts y0 = Some y -> polite_reachable [] hb y).
  { induction acts as [|a acts IH]; intros y0 R0 Hr; cbn in Hr; [by injection Hr as <- |].
    destruct (politeb a y0) eqn:Hp; [| done]. destruct (step [] hb a y0) as [y1|] eqn:E; [| done].
    apply (IH y1); [| done]. apply (polite_step [] hb a y0); [done | by apply politeb_ok | done]. }
  apply Hgen. constructor.
Qed.

(** The connection breaks while the pump writes: the read loop tears the
    session down, the pump and the reader notice. *)
Definition acts_torn : list action :=
  acts ++ [Run (WLoop 1) InErr] ++ taus (WLoop 1) 2 ++ [Run (WLoop 1) (Key 5)] ++ taus (WLoop 1) 7 ++
  [Run (WHeart 1) Cancel].
Definition torn : sys := default init (polite_run acts_torn init).

(** A frame is queued on a stream the client has not been told is open; the
    session closes before the OPEN task looks. *)
Definition acts_race : list action :=
  [Accept; Run (WLoop 1) (frame 5 v2TypeOpen spec); Run (WOpen 0) Tau; Run (WOpen 0) (Dialed true);
   Run (WOpen 0) Tau] ++
  upload 5 (go! "hello") ++ [Run (WLoop 1) InErr; Run (WLoop 1) Tau] ++
  taus (WOpen 0) 4 ++ taus (WLoop 1) 3 ++ [Run (WHeart 1) Cancel].

(** The client closes stream 5 and opens it again; the first reader, blocked in
    its read all the while, then closes by id. *)
Definition acts_reuse : list action :=
  [Accept] ++ open_stream 0 5 ++ [Run (WReader 0) Tau; Run (WLoop 1) (frame 5 v2TypeClose [])] ++
  taus (WLoop 1) 5 ++ open_stream 1 5 ++
  [Run (WReader 0) (UpRead [] true); Run (WReader 0) (Written true)] ++ taus (WReader 0) 5.
End LeakDemo.
Import Demo LeakDemo.

Definition settledb (id : Z) (y : sys) : bool :=
  forallb (fun wt => negb (bool_decide (session_of wt.2 = Some id)) ||
    (negb (is_loop wt.2) && match closer_of wt.2 with None => true | _ => false end &&
     match wt.2 with TOpen _ _ _ _ => false | _ => true end)) (map_to_list (threads y)).

Lemma settledb_ok id y : settledb id y = true -> settled id y.
Proof.
  intros Hb w t Ht Hs. unfold settledb in Hb. rewrite forallb_forall in Hb.
  specialize (Hb (w, t)). cbn [snd] in Hb. rewrite bool_decide_true in Hb by done. cbn [negb orb] in Hb.
  assert (Hin : In (w, t) (map_to_list (threads y))) by by apply list_elem_of_In, elem_of_map_to_list.
  apply Hb in Hin. apply andb_true_iff in Hin as [[H1 H2]%andb_true_iff H3].
  split_and!; [by destruct (is_loop t) | by destruct (closer_of t) | by destruct t].
Qed.

Lemma torn_polite : polite_reachable [] hb torn.
Proof. apply (polite_run_reachable acts_torn). vm_compute. reflexivity. Qed.

Lemma teardown_leaves_nothing_witness :
  streams (default (new_session 0) (v2Sessions (memory torn) !! 1)) = ∅ /\
  forall o x, heap (memory torn) !! o = Some x -> st_sess x = 1 ->
    conn_open x = false /\ queue (st_mu x) = [] /\ waiting (st_mu x) = false.
Proof.
  apply (teardown_leaves_nothing [] hb torn 1).
  - exact torn_polite.
  - vm_compute. reflexivity.
  - apply settledb_ok. vm_compute. reflexivity.
Defined.

(** What the two client conditions are for: data sent before OPEN_OK can
    be queued on a stream that the OPEN task then abandons because the session
    has closed. Every goroutine is gone, and the bytes stay counted against
    the global budget for good. *)
Theorem global_budget_can_leak :
  exists acts y, run [] hb acts init = Some y /\ threads y = ∅ /\ v2GlobalBuffered (memory y) = 5.
Proof. exists acts_race, (final acts_race). split_and!; vm_compute; reflexivity. Qed.

(** Streams are closed by id: when a client reuses an id, the goroutine
    of the old stream closes the new one, which the client had not closed and
    whose upstream was fine. *)
Theorem stale_close_kills_new_stream :
  exists acts y x, run [] hb acts init = Some y /\
    heap (memory y) !! 1%nat = Some x /\ started (st_hist x) = true /\
    st_closed x = true /\ conn_open x = false /\
    stream_of 1 5 (memory y) = None.
Proof.
  exists acts_reuse, (final acts_reuse), (stream_at acts_reuse 1). split_and!; vm_compute; reflexivity.
Qed.
