(* ===== verification/SessionLive.v ===== *)
(** * Progress of the session's goroutines

    The teardown and the pump wait for nobody: from any reachable state the
    read loop alone can finish a teardown it has begun, and the pump alone can
    drain and credit everything its stream has accepted. *)

From S2P Require Import Prelude.
From S2P Require Import GoStrings.
From S2P Require Import Padding.
From S2P Require Import StreamFrame.
From S2P Require Import Target.
From S2P Require Import Allowlist.
From S2P Require Import PskConfig.
From S2P Require Import Session.
From S2P Require Import SessionInv.
From S2P Require Import SessionSafe.
From S2P Require Import SessionSys.
From S2P Require Import SessionPump.
From S2P Require Import SessionProps.

Section Live.
Context `{UnicodeTables} (allowedDomains : list allowEntry) (hb : hb_params).
Abbreviation reachable := (reachable allowedDomains hb).
Abbreviation step := (step allowedDomains hb).
Abbreviation run := (run allowedDomains hb).

(** Runs of one goroutine. *)
Definition alone (w : who) (acts : list action) : Prop := Forall (fun a => exists e, a = Run w e) acts.

Lemma step_alone y w t e t' m' :
  threads y !! w = Some t -> thread_step allowedDomains hb t e (memory y) = Some (t', m', []) ->
  step (Run w e) y = Some (Sys (set_thread w t' (threads y)) m').
Proof. intros Ht Hr. cbn. rewrite Ht. cbn. by rewrite Hr. Qed.

Lemma run_more w e acts y y1 y2 :
  step (Run w e) y = Some y1 -> alone w acts -> run acts y1 = Some y2 ->
  alone w (Run w e :: acts) /\ run (Run w e :: acts) y = Some y2.
Proof.
  intros Hs Ha Hr. split; [constructor; [by exists e | done] |].
  change (run (Run w e :: acts) y) with (y1 ← step (Run w e) y; run acts y1). by rewrite Hs.
Qed.

(** ** Teardown *)

Definition tearing (pc : loop_pc) : bool :=
  match pc with
  | LAllClosed | LAllDone | LRange _ _ | LVisit _ _ _ _ | LDelete _ _ _ | LEnd => true
  | _ => false
  end.

Definition closer_rank (c : closer) : nat :=
  match c with CDel _ => 5 | CCas _ => 4 | CChan _ => 3 | CReclaim _ => 2 | CConn _ => 1 end.

(** Steps the teardown has left, if nobody else adds streams. *)
Definition work (pc : loop_pc) (s : v2Session) : nat :=
  match pc with
  | LAllClosed => 8 * size (dom (streams s)) + 3
  | LAllDone => 8 * size (dom (streams s)) + 2
  | LRange todo _ => 8 * size todo + 1
  | LVisit todo _ _ c => 8 * size todo + 2 + closer_rank c
  | LDelete todo _ _ => 8 * size todo + 2
  | _ => 0
  end.

Lemma close_rank w all id c m c' m' :
  close_step w all id c m = (Some c', m') -> (closer_rank c' < closer_rank c)%nat.
Proof. destruct c; cbn; intros Hr; repeat hcase Hr; simplify_eq; cbn; lia. Qed.

Lemma size_remove (k : Z) (X : gset Z) : k ∈ X -> size X = S (size (X ∖ {[k]})).
Proof.
  intros Hk. assert (size X = size (X ∖ {[k]}) + size ({[k]} : gset Z))%nat as ->.
  { rewrite <-size_union by set_solver. f_equal. apply set_eq. intros x. destruct (decide (x = k)); set_solver. }
  rewrite size_singleton. lia.
Qed.

Lemma teardown_step y id pc s :
  sys_ok y -> threads y !! WLoop id = Some (TLoop id pc) -> v2Sessions (memory y) !! id = Some s ->
  tearing pc = true ->
  exists e y', step (Run (WLoop id) e) y = Some y' /\
    (threads y' !! WLoop id = None \/
     exists pc' s', threads y' !! WLoop id = Some (TLoop id pc') /\
       v2Sessions (memory y') !! id = Some s' /\ tearing pc' = true /\ (work pc' s' < work pc s)%nat).
Proof.
  intros Y Ht Hs Hpc. set (m := memory y).
  assert (Hgo : forall e pc' m', thread_step allowedDomains hb (TLoop id pc) e m = Some (Some (TLoop id pc'), m', []) ->
    tearing pc' = true -> (forall s', v2Sessions m' !! id = Some s' -> (work pc' s' < work pc s)%nat) ->
    exists e y', step (Run (WLoop id) e) y = Some y' /\
      (threads y' !! WLoop id = None \/
       exists pc' s', threads y' !! WLoop id = Some (TLoop id pc') /\
         v2Sessions (memory y') !! id = Some s' /\ tearing pc' = true /\ (work pc' s' < work pc s)%nat)).
  { intros e pc' m' Hr Htear Hlt. exists e, (Sys (set_thread (WLoop id) (Some (TLoop id pc')) (threads y)) m').
    pose proof (step_alone _ _ _ _ _ _ Ht Hr) as Hstep. split; [done | right].
    destruct (sk_threads _ (step_ok _ _ _ _ _ Y Hstep) (WLoop id) (TLoop id pc')) as [_ (s' & Hs' & _)].
    { cbn. by rewrite lookup_insert_eq. }
    exists pc', s'. split_and!; [cbn; by rewrite lookup_insert_eq | done | done | by apply Hlt]. }
  destruct (sk_threads _ Y _ _ Ht) as [_ (s1 & Hs1 & Hok)]. simplify_eq.
  destruct pc; try discriminate Hpc; cbn in Hok.
  - eapply (Hgo Tau); [cbn; unfold loop_step; unfold m; by rewrite Hs | done |].
    intros s' Hs'. cbn in Hs'. rewrite lookup_alter_eq, Hs in Hs'. injection Hs' as <-. cbn. lia.
  - eapply (Hgo Tau); [cbn; unfold loop_step; unfold m; by rewrite Hs | done |]. intros s' _. cbn. lia.
  - destruct (decide (todo = ∅)) as [E | Hne].
    + eapply (Hgo Tau); [cbn; unfold loop_step; unfold m; by rewrite Hs, decide_True | done |].
      intros s' _. cbn. lia.
    + apply set_choose_L in Hne as [k Hk]. destruct Hok as [_ Hdisj].
      assert (Hvis : k ∉ vis) by set_solver. pose proof (size_remove k todo Hk) as Hsz.
      destruct (streams s !! k) as [o|] eqn:Ho.
      * eapply (Hgo (Key k)); [cbn; unfold loop_step; unfold m; by rewrite Hs, decide_False, Ho | done |].
        intros s' _. cbn. lia.
      * eapply (Hgo (Key k)); [cbn; unfold loop_step; unfold m; by rewrite Hs, decide_False, Ho, decide_True | done |].
        intros s' _. cbn. lia.
  - destruct (close_step (WLoop id) true id c m) as [[c'|] m1] eqn:Ec.
    + eapply (Hgo Tau (LVisit todo vis k c')); [cbn; unfold loop_step, closing_with; unfold m in *; by rewrite Hs, Ec | done |].
      intros s' _. pose proof (close_rank _ _ _ _ _ _ _ Ec). cbn. lia.
    + eapply (Hgo Tau (LDelete todo vis k)); [cbn; unfold loop_step, closing_with; unfold m in *; by rewrite Hs, Ec | done |].
      intros s' _. assert (0 < closer_rank c)%nat by (destruct c; cbn; lia). cbn. lia.
  - eapply (Hgo Tau); [cbn; unfold loop_step; unfold m; by rewrite Hs | done |]. intros s' _. cbn. lia.
  - eexists Tau, _. split; [eapply step_alone; [exact Ht | cbn; unfold loop_step; by rewrite Hs] |].
    left. cbn. by rewrite lookup_delete_eq.
Qed.

(** [C16] Teardown always completes: from any reachable state in which a
    session's read loop has begun it, the read loop alone can run it to its
    end; it waits for no other goroutine, whatever they hold. *)
Theorem teardown_completes y id pc :
  reachable y -> threads y !! WLoop id = Some (TLoop id pc) -> tearing pc = true ->
  exists acts y', alone (WLoop id) acts /\ run acts y = Some y' /\ threads y' !! WLoop id = None.
Proof.
  intros R Ht Hpc. pose proof (ri_sys _ _ (reachable_invariant _ _ _ R)) as Y.
  destruct (sk_threads _ Y _ _ Ht) as [_ (s & Hs & _)].
  remember (work pc s) as n eqn:En. revert y pc s R Y Ht Hpc Hs En.
  induction (lt_wf n) as [n _ IH]. intros y pc s R Y Ht Hpc Hs ->.
  destruct (teardown_step y id pc s Y Ht Hs Hpc) as (e & y1 & Hstep & [Hn | (pc1 & s1 & Ht1 & Hs1 & Hpc1 & Hlt)]).
  - exists [Run (WLoop id) e], y1. destruct (run_more _ _ [] _ _ y1 Hstep (Forall_nil_2 _) eq_refl). done.
  - assert (R1 : reachable y1) by by eapply reach_step.
    destruct (IH _ Hlt y1 pc1 s1 R1 (step_ok _ _ _ _ _ Y Hstep) Ht1 Hpc1 Hs1 eq_refl) as (acts & y2 & Ha & Hr & Hn).
    exists (Run (WLoop id) e :: acts), y2. destruct (run_more _ _ _ _ _ _ Hstep Ha Hr). done.
Qed.

(** ** The pump *)

Definition pump_work (pc : pump_pc) (x : v2Stream) : nat :=
  4 * length (queue (st_mu x)) +
  match pc with PWrite _ _ _ => 2 | PWait _ | PCredit _ => 1 | _ => 0 end.

(** The pump of object [o] at [pc], its stream and both connections up. *)
Record pump_at (y : sys) (o : nat) (id sid : Z) (pc : pump_pc) (x : v2Stream) : Prop := {
  pa_thread : threads y !! WPump o = Some (TPump o id sid pc);
  pa_obj : heap (memory y) !! o = Some x;
  pa_open : conn_open x = true;
  pa_live : st_closed x = false;
  pa_conn : exists s, v2Sessions (memory y) !! id = Some s /\ ss_conn s = true;
}.

Definition parked (pc : pump_pc) (x : v2Stream) : Prop :=
  (exists cr, pc = PWait cr) /\ waiting (st_mu x) = true.

Lemma conn_alter f id i (S : gmap Z v2Session) :
  (forall s, ss_conn (f s) = ss_conn s) -> (exists s, S !! id = Some s /\ ss_conn s = true) ->
  exists s, alter f i S !! id = Some s /\ ss_conn s = true.
Proof.
  intros Hf (s & Hs & Hc). destruct (decide (id = i)) as [-> | Hne].
  - exists (f s). rewrite lookup_alter_eq, Hs. split; [done | by rewrite Hf].
  - exists s. by rewrite lookup_alter_ne.
Qed.

Lemma pump_step_alone y o id sid pc x :
  sys_ok y -> pump_at y o id sid pc x -> pumping pc = true -> ~ parked pc x ->
  exists e y' pc' x', step (Run (WPump o) e) y = Some y' /\ pump_at y' o id sid pc' x' /\
    pumping pc' = true /\ received (st_hist x') = received (st_hist x) /\
    (parked pc' x' \/ (pump_work pc' x' < pump_work pc x)%nat).
Proof.
  intros Y [Ht Hx Ho Hc Hs] Hpc Hnp.
  assert (Hgo : forall e pc' m' f,
    thread_step allowedDomains hb (TPump o id sid pc) e (memory y) = Some (Some (TPump o id sid pc'), m', []) ->
    heap m' = alter f o (heap (memory y)) ->
    conn_open (f x) = true -> st_closed (f x) = false ->
    (exists s, v2Sessions m' !! id = Some s /\ ss_conn s = true) ->
    pumping pc' = true -> received (st_hist (f x)) = received (st_hist x) ->
    (parked pc' (f x) \/ (pump_work pc' (f x) < pump_work pc x)%nat) ->
    exists e y' pc' x', step (Run (WPump o) e) y = Some y' /\ pump_at y' o id sid pc' x' /\
      pumping pc' = true /\ received (st_hist x') = received (st_hist x) /\
      (parked pc' x' \/ (pump_work pc' x' < pump_work pc x)%nat)).
  { intros e pc' m' f Hr Eh H1 H2 H3 H4 H5 H6.
    exists e, (Sys (set_thread (WPump o) (Some (TPump o id sid pc')) (threads y)) m'), pc', (f x).
    split_and!; [by eapply step_alone | | done | done | done].
    split; cbn; [by rewrite lookup_insert_eq | by rewrite Eh, lookup_alter_eq, Hx | done | done | done]. }
  destruct (sk_threads _ Y _ _ Ht) as [_ (x1 & Hx1 & E1 & E2 & _ & Hok)].
  rewrite Hx in Hx1. injection Hx1 as <-.
  destruct (mo_stream _ (sk_mem _ Y) o x Hx) as (O & _ & _).
  destruct pc as [cr|cr|chunk emptyNow cr|cr| | |]; try discriminate Hpc; cbn in Hok.
  - destruct (queue (st_mu x)) as [|chunk rest] eqn:Hq.
    + eapply (Hgo Tau (PWait cr) _ (st_set_waiting true));
        [cbn; unfold pump_step; by rewrite Hx, Hc, Hq | done .. | left; split; [by exists cr | done]].
    + eapply (Hgo Tau (PWrite chunk _ cr) _ (st_dequeue chunk rest));
        [cbn; unfold pump_step; by rewrite Hx, Hc, Hq | first [done | by apply conn_alter] .. |].
      right. unfold pump_work. rewrite Hq. cbn. lia.
  - destruct (waiting (st_mu x)) eqn:Hw; [destruct Hnp; by split; [exists cr |] |].
    eapply (Hgo Tau (PLoop cr) _ (fun x => x));
      [cbn; unfold pump_step; by rewrite Hx, Hw | first [done | symmetry; by apply alter_id] .. |].
    right. unfold pump_work. lia.
  - destruct ((v2WindowUpdateThreshold <=? cr + len chunk) || (emptyNow && (0 <? cr + len chunk))) eqn:Eb.
    + eapply (Hgo (UpWrite None) (PCredit (cr + len chunk)) _ (st_write chunk));
        [cbn; unfold pump_step; by rewrite Hx, Ho, Eb | done .. | right; unfold pump_work; cbn; lia].
    + eapply (Hgo (UpWrite None) (PLoop (cr + len chunk)) _ (st_write chunk));
        [cbn; unfold pump_step; by rewrite Hx, Ho, Eb | done .. | right; unfold pump_work; cbn; lia].
  - destruct Hs as (s & Hs & Hconn).
    eapply (Hgo (Written true) (PLoop 0) _ (st_grant (cr mod 2 ^ 32))).
    + cbn. unfold pump_step. rewrite Hx. unfold write_frame. rewrite Hs.
      replace (maxStreamPayload <? _) with false by reflexivity. rewrite Hconn. cbn. reflexivity.
    + done.
    + done.
    + done.
    + apply conn_alter; [done | by exists s].
    + done.
    + done.
    + right. unfold pump_work. cbn. lia.
Qed.

(** The pump works through its queue and waits. *)
Lemma pump_runs_dry y o id sid pc x :
  sys_ok y -> pump_at y o id sid pc x -> pumping pc = true ->
  exists acts y' cr x', alone (WPump o) acts /\ run acts y = Some y' /\
    threads y' !! WPump o = Some (TPump o id sid (PWait cr)) /\
    heap (memory y') !! o = Some x' /\ queue (st_mu x') = [] /\
    written (st_hist x') = received (st_hist x) /\
    granted (st_hist x') = len (received (st_hist x)).
Proof.
  intros Y P Hpc.
  remember (pump_work pc x) as n eqn:En. revert y pc x Y P Hpc En.
  induction (lt_wf n) as [n _ IH]. intros y pc x Y P Hpc ->.
  assert (Hfin : forall y pc x, sys_ok y -> pump_at y o id sid pc x -> parked pc x ->
    exists cr, pc = PWait cr /\ queue (st_mu x) = [] /\ written (st_hist x) = received (st_hist x) /\
      granted (st_hist x) = len (received (st_hist x))).
  { intros y0 pc0 x0 Y0 [Ht Hx _ Hc _] [[cr ->] Hw].
    destruct (mo_stream _ (sk_mem _ Y0) o x0 Hx) as (O & _ & _).
    destruct (sk_threads _ Y0 _ _ Ht) as [_ (x1 & Hx1 & _ & _ & _ & Hok)].
    rewrite Hx in Hx1. injection Hx1 as <-.
    destruct (so_wait x0 O Hw) as [Hq Hrec]. destruct (so_fifo x0 O) as (lost & Hf & Hl).
    rewrite Hq, (Hl Hrec) in Hf. cbn in Hf. rewrite app_nil_r in Hf. destruct Hok as (E1 & E2 & _).
    exists cr. split_and!; [done | done | congruence | by rewrite Hf, E1]. }
  assert (parked pc x \/ ~ parked pc x) as [Hp | Hnp].
  { destruct pc; try (right; intros [[? [=]] _]; fail).
    destruct (waiting (st_mu x)) eqn:Hw; [left; split; [by eexists | done] | right; intros [_ ?]; congruence]. }
  - destruct (Hfin y pc x Y P Hp) as (cr & -> & Hq & Hwr & Hg). exists [], y, cr, x.
    split_and!; try done; [by constructor | apply P | apply P].
  - destruct (pump_step_alone y o id sid pc x Y P Hpc Hnp) as (e & y1 & pc1 & x1 & Hs & P1 & Hpc1 & Hrec & Hcase).
    pose proof (step_ok _ _ _ _ _ Y Hs) as Y1.
    destruct Hcase as [Hp | Hlt].
    + destruct (Hfin y1 pc1 x1 Y1 P1 Hp) as (cr & -> & Hq & Hwr & Hg).
      exists [Run (WPump o) e], y1, cr, x1.
      destruct (run_more _ _ [] _ _ y1 Hs (Forall_nil_2 _) eq_refl) as [? ?].
      split_and!; try done; [apply P1 | apply P1 | congruence | congruence].
    + destruct (IH _ Hlt y1 pc1 x1 Y1 P1 Hpc1 eq_refl) as (acts & y2 & cr & x2 & Ha & Hr & H1 & H2 & H3 & H4 & H5).
      destruct (run_more _ _ _ _ _ _ Hs Ha Hr) as [? ?].
      exists (Run (WPump o) e :: acts), y2, cr, x2. split_and!; try done; congruence.
Qed.
(** The pump drains: from any reachable state in which a stream and both
    its connections are up and its pump has not failed, the pump alone can
    write upstream everything the stream has accepted, in order, and credit
    the client with all of it, and it then waits. *)
Theorem pump_drains y o id sid pc x :
  reachable y -> pump_at y o id sid pc x -> pumping pc = true ->
  exists acts y' cr x', alone (WPump o) acts /\ run acts y = Some y' /\
    threads y' !! WPump o = Some (TPump o id sid (PWait cr)) /\
    heap (memory y') !! o = Some x' /\ queue (st_mu x') = [] /\
    written (st_hist x') = received (st_hist x) /\
    granted (st_hist x') = len (received (st_hist x)).
Proof. intros R. apply pump_runs_dry, (ri_sys _ _ (reachable_invariant _ _ _ R)). Qed.
End Live.

Import Demo.

(** The session of the demonstration, torn down from the outside while a
    stream is open. *)
Definition acts_tearing : list action := acts ++ [Run (WLoop 1) InErr].

Lemma teardown_completes_witness :
  exists acts y', alone (WLoop 1) acts /\ run [] hb acts (final acts_tearing) = Some y' /\
    threads y' !! WLoop 1 = None.
Proof.
  apply (teardown_completes [] hb (final acts_tearing) 1 LAllClosed).
  - apply final_reachable. reflexivity.
  - vm_compute. reflexivity.
  - reflexivity.
Defined.

Lemma pump_drains_witness :
  exists acts' y' cr x', alone (WPump 0) acts' /\ run [] hb acts' (final acts) = Some y' /\
    threads y' !! WPump 0 = Some (TPump 0 1 5 (PWait cr)) /\
    heap (memory y') !! 0%nat = Some x' /\ queue (st_mu x') = [] /\
    written (st_hist x') = received (st_hist (stream_at acts 0)) /\
    granted (st_hist x') = len (received (st_hist (stream_at acts 0))).
Proof.
  apply (pump_drains [] hb (final acts) 0%nat 1 5 (PLoop 6)).
  - apply final_reachable. reflexivity.
  - split; [vm_compute; reflexivity .. |]. exists (session_at acts 1). split; vm_compute; reflexivity.
  - reflexivity.
Defined.
