(* ===== verification/SessionTake.v ===== *)
(** * The read loop takes what it is sent

    From any state in which it waits for a frame, the read loop of a session
    alone gets through the handling of any frame and waits for the next one. A
    stream that is not being closed stays as it is meanwhile, apart from the
    bytes that arrive for it. *)

From S2P Require Import Prelude GoStrings Padding StreamFrame Target Allowlist PskConfig.
From S2P Require Import Session SessionInv SessionSafe SessionSys.

Section Take.
Context `{UnicodeTables} (allowedDomains : list allowEntry) (hb : hb_params).
Abbreviation step := (step allowedDomains hb).
Abbreviation run := (run allowedDomains hb).

(** The read loop is in the handling of a frame, and not about to harm stream
    [sid], object [o]. *)
Definition harmless (sid : Z) (o : nat) (pc : loop_pc) : Prop :=
  match pc with
  | LRead | LBusy _ | LLookup _ _ | LSess _ _ _ | LGlob _ _ _ | LEnq _ _ => True
  | LClose (CDel k) => k <> sid
  | LClose (CCas o') | LClose (CChan o') | LClose (CReclaim o') | LClose (CConn o') => o' <> o
  | _ => False
  end.

(** The bytes it carries to a queue, and the steps until it waits again. *)
Definition carried (pc : loop_pc) : Z :=
  match pc with LLookup _ p | LSess _ _ p | LGlob _ _ p | LEnq _ p => len p | _ => 0 end.

Definition loop_rank (pc : loop_pc) : nat :=
  match pc with
  | LBusy _ | LEnq _ _ => 1
  | LGlob _ _ _ => 2
  | LSess _ _ _ => 3
  | LLookup _ _ => 4
  | LClose (CDel _) => 5
  | LClose (CCas _) => 4
  | LClose (CChan _) => 3
  | LClose (CReclaim _) => 2
  | LClose (CConn _) => 1
  | _ => 0
  end.

(** Stream [sid] of session [id] is open at both ends, object [o]; the queues
    and what the loop carries fit [B] in the session and [G] over all. *)
Record taking (id sid : Z) (o : nat) (ppc : pump_pc) (B G : Z) (lpc : loop_pc) (x : v2Stream) (y : sys) : Prop := {
  tk_sys : sys_ok y;
  tk_loop : threads y !! WLoop id = Some (TLoop id lpc);
  tk_pump : threads y !! WPump o = Some (TPump o id sid ppc);
  tk_obj : heap (memory y) !! o = Some x;
  tk_open : conn_open x = true;
  tk_live : st_closed x = false;
  tk_sess : exists s, v2Sessions (memory y) !! id = Some s /\ ss_conn s = true /\ streams s !! sid = Some o /\
      buffered s + carried lpc <= B;
  tk_harmless : harmless sid o lpc;
  tk_global : v2GlobalBuffered (memory y) + carried lpc <= G;
}.

Definition loop_act (id : Z) (a : action) : Prop := exists e, a = Run (WLoop id) e /\ forall pt, e <> InFrame pt.

Context (id sid : Z) (o : nat) (ppc : pump_pc) (B G : Z).
Hypotheses (HB : B <= v2SessionBufferCap) (HG : G <= v2GlobalBufferCap).
Abbreviation taking_at := (taking id sid o ppc B G).

(** A step of the loop, by what it does to memory. *)
Lemma taken_by lpc x y e lpc' m' x' s' :
  taking_at lpc x y -> (forall pt, e <> InFrame pt) ->
  loop_step id lpc e (memory y) = Some (Some (TLoop id lpc'), m', []) ->
  heap m' !! o = Some x' -> conn_open x' = true -> st_closed x' = false ->
  v2Sessions m' !! id = Some s' -> ss_conn s' = true -> streams s' !! sid = Some o ->
  buffered s' + carried lpc' <= B -> harmless sid o lpc' -> v2GlobalBuffered m' + carried lpc' <= G ->
  (loop_rank lpc' < loop_rank lpc)%nat ->
  exists a y' lpc' x', loop_act id a /\ step a y = Some y' /\ taking_at lpc' x' y' /\ (loop_rank lpc' < loop_rank lpc)%nat.
Proof.
  intros K He Hr Hx Ho Hl Hs Hc Ht Hb Hh Hg Hk.
  assert (Hstep : step (Run (WLoop id) e) y = Some (Sys (set_thread (WLoop id) (Some (TLoop id lpc')) (threads y)) m')).
  { cbn. rewrite (tk_loop _ _ _ _ _ _ _ _ _ K). cbn. by rewrite Hr. }
  do 4 eexists. split; [by exists e |]. split; [exact Hstep |]. split; [| exact Hk].
  split; try done.
  - by apply (step_ok _ _ _ _ _ (tk_sys _ _ _ _ _ _ _ _ _ K) Hstep).
  - cbn. by rewrite lookup_insert_eq.
  - cbn. rewrite lookup_insert_ne by done. apply (tk_pump _ _ _ _ _ _ _ _ _ K).
  - by exists s'.
Qed.

Lemma other_object y s k o' x : sys_ok y -> v2Sessions (memory y) !! id = Some s -> heap (memory y) !! o = Some x ->
  streams s !! sid = Some o -> streams s !! k = Some o' -> k <> sid -> o' <> o.
Proof.
  intros Y Hs Hx Hsid Hk Hne ->. destruct (mo_session _ (sk_mem _ Y) id s Hs) as (_ & _ & _ & T).
  destruct (T k o Hk) as (x1 & Hx1 & _ & E1). destruct (T sid o Hsid) as (x2 & Hx2 & _ & E2). congruence.
Qed.

Lemma take_step lpc x y : taking_at lpc x y -> lpc <> LRead ->
  exists a y' lpc' x', loop_act id a /\ step a y = Some y' /\ taking_at lpc' x' y' /\ (loop_rank lpc' < loop_rank lpc)%nat.
Proof.
  intros K Hpc. pose proof K as [Y Hl Hp Hx Ho Hlv (s & Hs & Hc & Ht & Hb) Hh Hg].
  destruct (sk_threads _ Y _ _ Hl) as [_ (s1 & Hs1 & Hok)]. rewrite Hs in Hs1. injection Hs1 as <-.
  assert (Hgo := fun e lpc' m' x' s' He => taken_by lpc x y e lpc' m' x' s' K He).
  destruct lpc as [| k | k p | o1 k p | o1 k p | o1 p | k | [k | o1 | o1 | o1 | o1] | | | | | |]; cbn in Hh; try done;
    cbn [carried] in Hb, Hg; cbn [loop_ok] in Hok.
  - (* LBusy *)
    eapply (Hgo (Written true) LRead _ x); [done | | | done | done | | | | | done | | cbn; lia].
    + unfold loop_step. rewrite Hs. unfold write_frame. rewrite Hs. replace (maxStreamPayload <? _) with false by reflexivity. reflexivity.
    + exact Hx.
    + cbn. by rewrite lookup_alter_eq, Hs.
    + done.
    + done.
    + cbn. lia.
    + cbn. lia.
  - (* LLookup *)
    destruct (streams s !! k) as [o1|] eqn:Ek.
    + eapply (Hgo Tau (LSess o1 k p)); [done | unfold loop_step; by rewrite Hs, Ek | done.. | cbn; lia].
    + pose proof (len_nonneg p).
      eapply (Hgo Tau LRead); [done | unfold loop_step; by rewrite Hs, Ek | try done.. | cbn; lia]; cbn; lia.
  - (* LSess *)
    eapply (Hgo Tau (LGlob o1 k p)); [done | | done.. | cbn; lia].
    unfold loop_step. by rewrite Hs, (proj2 (Z.ltb_ge _ _)) by lia.
  - (* LGlob *)
    eapply (Hgo Tau (LEnq o1 p)); [done | | done.. | cbn; lia].
    unfold loop_step. by rewrite Hs, (proj2 (Z.ltb_ge _ _)) by lia.
  - (* LEnq *)
    destruct Hok as (_ & _ & (x1 & Hx1 & _) & _). pose proof (len_nonneg p).
    destruct (st_closed x1) eqn:E1.
    + eapply (Hgo Tau LRead); [done | unfold loop_step; by rewrite Hs, Hx1, E1 | try done.. | cbn; lia]; cbn; lia.
    + set (x' := if decide (o1 = o) then st_enqueue p x else x).
      eapply (Hgo Tau LRead _ x'); [done | unfold loop_step; by rewrite Hs, Hx1, E1 | | by subst x'; case_decide | by subst x'; case_decide | | | | | done | | cbn; lia].
      * subst x'. cbn. case_decide as E; [subst o1; by rewrite lookup_alter_eq, Hx | by rewrite lookup_alter_ne].
      * cbn. by rewrite lookup_alter_eq, Hs.
      * done.
      * done.
      * cbn. lia.
      * cbn. lia.
  - (* CDel *)
    destruct (streams s !! k) as [o1|] eqn:Ek.
    + eapply (Hgo Tau (LClose (CCas o1))); [done | unfold loop_step; cbn [close_step]; rewrite Hs; cbn [mbind option_bind]; by rewrite Ek | done.. | | | | | | | cbn; lia].
      * cbn. by rewrite lookup_alter_eq, Hs.
      * done.
      * cbn. by rewrite lookup_delete_ne.
      * cbn. lia.
      * cbn. by eapply other_object.
      * cbn. lia.
    + eapply (Hgo Tau LRead); [done | unfold loop_step; cbn [close_step]; rewrite Hs; cbn [mbind option_bind]; by rewrite Ek | try done.. | cbn; lia]; cbn; lia.
  - (* CCas *)
    destruct Hok as (_ & x1 & Hx1 & _). destruct (st_closed x1) eqn:E1.
    + eapply (Hgo Tau LRead); [done | unfold loop_step; rewrite Hs; cbn [close_step]; by rewrite Hx1, E1 | try done.. | cbn; lia]; cbn; lia.
    + eapply (Hgo Tau (LClose (CChan o1))); [done | unfold loop_step; rewrite Hs; cbn [close_step]; by rewrite Hx1, E1 | | done.. | cbn; lia].
      cbn. by rewrite lookup_alter_ne.
  - (* CChan *)
    destruct Hok as (_ & x1 & Hx1 & _ & _ & E1 & _).
    eapply (Hgo Tau (LClose (CReclaim o1))); [done | unfold loop_step; rewrite Hs; cbn [close_step]; by rewrite Hx1, E1 | | done.. | cbn; lia].
    cbn. by rewrite lookup_alter_ne.
  - (* CReclaim *)
    destruct Hok as (_ & x1 & Hx1 & _).
    destruct (Z.ltb_spec 0 (qbytes (st_mu x1))) as [Hq | Hq].
    + eapply (Hgo Tau (LClose (CConn o1))); [done | unfold loop_step; rewrite Hs; cbn [close_step]; by rewrite Hx1, (proj2 (Z.ltb_lt _ _) Hq) | | done.. | | | | | done | | cbn; lia].
      * cbn. by rewrite lookup_alter_ne.
      * cbn. by rewrite lookup_alter_eq, Hs.
      * done.
      * done.
      * cbn. lia.
      * cbn. lia.
    + eapply (Hgo Tau (LClose (CConn o1))); [done | unfold loop_step; rewrite Hs; cbn [close_step]; by rewrite Hx1, (proj2 (Z.ltb_ge _ _) Hq) | | done.. | cbn; lia].
      cbn. by rewrite lookup_alter_ne.
  - (* CConn *)
    eapply (Hgo Tau LRead); [done | unfold loop_step; by rewrite Hs | | done.. | cbn; lia].
    cbn. by rewrite lookup_alter_ne.
Qed.

(** The loop reaches its next read by itself. *)
Lemma settles lpc x y : taking_at lpc x y ->
  exists acts y' x', Forall (loop_act id) acts /\ run acts y = Some y' /\ taking_at LRead x' y'.
Proof.
  remember (loop_rank lpc) as n eqn:En. revert lpc x y En. induction (lt_wf n) as [n _ IH]. intros lpc x y -> K.
  assert (lpc = LRead \/ lpc <> LRead) as [-> | Hne] by (destruct lpc; (by left) || by right).
  - exists [], y, x. by split_and!.
  - destruct (take_step lpc x y K Hne) as (a & y1 & lpc1 & x1 & Ha & Hs & K1 & Hk).
    destruct (IH _ Hk lpc1 x1 y1 eq_refl K1) as (acts & y2 & x2 & Hacts & Hr & K2).
    exists (a :: acts), y2, x2. split_and!; [by constructor | cbn; by rewrite Hs | done].
Qed.

(** What a frame sets going, if there is room for what it carries. *)
Lemma take_frame sf x y y' :
  taking id sid o ppc (B - len (sf_payload sf)) (G - len (sf_payload sf)) LRead x y -> sf_ok sf ->
  ~ (sf_type sf = v2TypeClose /\ sf_id sf = sid) ->
  step (Run (WLoop id) (InFrame (encode_stream_frame sf))) y = Some y' -> exists lpc, taking_at lpc x y'.
Proof.
  intros K Hsf Hno Hstep. pose proof K as [Y Hl Hp Hx Ho Hlv (s & Hs & Hc & Ht & Hb) _ Hg].
  pose proof (step_ok _ _ _ _ _ Y Hstep) as Y'. cbn [Session.step] in Hstep. rewrite Hl in Hstep.
  cbn [mbind option_bind thread_step] in Hstep. unfold loop_step in Hstep. rewrite Hs, Hc in Hstep.
  pose proof (parse_encode sf [] Hsf) as E. rewrite app_nil_r in E. rewrite E in Hstep. pose proof (len_nonneg (sf_payload sf)) as Hlen.
  destruct (_ && _); [| done].
  assert (Hgo : forall lpc ts m', y' = Sys (spawn ts (set_thread (WLoop id) (Some (TLoop id lpc)) (threads y))) m' ->
    (forall t, t ∈ ts -> who_of t <> WLoop id /\ who_of t <> WPump o) ->
    heap m' = heap (memory y) -> v2GlobalBuffered m' = v2GlobalBuffered (memory y) ->
    (exists s', v2Sessions m' !! id = Some s' /\ ss_conn s' = ss_conn s /\ streams s' = streams s /\ buffered s' = buffered s) ->
    harmless sid o lpc -> carried lpc <= len (sf_payload sf) -> exists lpc, taking_at lpc x y').
  { intros lpc ts m' -> Hts Eh Eg (s' & Hs' & E1 & E2 & E3) Hh Hcar. cbn [carried] in Hb, Hg. exists lpc.
    assert (Hn : forall w T, (forall t, t ∈ ts -> who_of t <> w) -> spawn ts T !! w = T !! w).
    { clear. intros w T Hts. induction ts as [|t ts IH]; [done |]. cbn. rewrite lookup_insert_ne.
      - apply IH. intros t' Ht'. apply Hts. by right.
      - apply Hts. by left. }
    split; cbn [threads memory].
    - done.
    - rewrite Hn by (intros t Hin; by apply Hts). cbn. by rewrite lookup_insert_eq.
    - rewrite Hn by (intros t Hin; by apply Hts). cbn. by rewrite lookup_insert_ne.
    - by rewrite Eh.
    - done.
    - done.
    - exists s'. rewrite E1, E2, E3. split_and!; (done || lia).
    - done.
    - lia. }
  assert (Hread : v2Sessions (upd_session id (ss_read (now (memory y))) (memory y)) !! id = Some (ss_read (now (memory y)) s)).
  { cbn. by rewrite lookup_alter_eq, Hs. }
  set (m1 := upd_session id (ss_read (now (memory y))) (memory y)) in *.
  assert (Hsame : exists s', v2Sessions m1 !! id = Some s' /\ ss_conn s' = ss_conn s /\ streams s' = streams s /\ buffered s' = buffered s).
  { eexists. split; [exact Hread | done]. }
  destruct sf as [k ty p]. cbn [sf_payload sf_type sf_id] in *. unfold dispatch in Hstep.
  destruct (ty =? v2TypeOpen); [destruct (_ <? _) | destruct (ty =? v2TypeData); [| destruct (ty =? v2TypeClose) eqn:Ec; [| destruct (ty =? v2TypePing)]]];
    unfold next in Hstep; cbn [mbind option_bind] in Hstep; injection Hstep as Hy'.
  - eapply (Hgo LRead [_]); [symmetry; exact Hy' | | done | done | | done | done].
    + intros t Hin. apply list_elem_of_singleton in Hin as ->. done.
    + eexists. split; [cbn; by rewrite !lookup_alter_eq, Hs | done].
  - eapply (Hgo (LBusy k) []); [symmetry; exact Hy' | | done | done | exact Hsame | done | done]. intros t Hin. by apply elem_of_nil in Hin.
  - eapply (Hgo (LLookup k p) []); [symmetry; exact Hy' | | done | done | exact Hsame | done | done]. intros t Hin. by apply elem_of_nil in Hin.
  - eapply (Hgo (LClose (CDel k)) []); [symmetry; exact Hy' | | done | done | exact Hsame | | done].
    + intros t Hin. by apply elem_of_nil in Hin.
    + cbn. intros ->. apply Hno. split; [by apply Z.eqb_eq | done].
  - eapply (Hgo LRead [_]); [symmetry; exact Hy' | | done | done | exact Hsame | done | done].
    intros t Hin. apply list_elem_of_singleton in Hin as ->. done.
  - eapply (Hgo LRead []); [symmetry; exact Hy' | | done | done | exact Hsame | done | done]. intros t Hin. by apply elem_of_nil in Hin.
Qed.
End Take.
