(* ===== verification/Pipe.v ===== *)
(** * The contract of a stream: a byte pipe

    What a stream promises, on either side and in either direction: bytes are
    accepted while it is open, delivered in order and without gaps, credit is
    granted only for bytes delivered, and it closes once. [PipeRefinement] is
    the interface an implementation discharges (a simulation of one step);
    [refines_run] lifts it to every run. *)

From S2P Require Import Prelude.

Record pipe := PipeState { p_in : bytes; p_out : bytes; p_credit : Z; p_open : bool }.

Inductive pipe_event :=
  | EvAccept (b : bytes)
  | EvDeliver (b : bytes)
  | EvGrant (n : Z)
  | EvClose.

Definition empty_pipe : pipe := PipeState [] [] 0 true.

Inductive pipe_step : pipe -> pipe_event -> pipe -> Prop :=
  | pipe_accept i o c b :
      pipe_step (PipeState i o c true) (EvAccept b) (PipeState (i ++ b) o c true)
  | pipe_deliver i o c op b :
      o ++ b `prefix_of` i ->
      pipe_step (PipeState i o c op) (EvDeliver b) (PipeState i (o ++ b) c op)
  | pipe_grant i o c op n :
      0 <= n -> c + n <= len o ->
      pipe_step (PipeState i o c op) (EvGrant n) (PipeState i o (c + n) op)
  | pipe_close i o c :
      pipe_step (PipeState i o c true) EvClose (PipeState i o c false).

Inductive pipe_run : pipe -> list pipe_event -> pipe -> Prop :=
  | pipe_stop p : pipe_run p [] p
  | pipe_more p ev p1 evs p' : pipe_step p ev p1 -> pipe_run p1 evs p' -> pipe_run p (ev :: evs) p'.

Definition accepted (evs : list pipe_event) : bytes :=
  mjoin ((fun ev => match ev with EvAccept b => b | _ => [] end) <$> evs).
Definition delivered_bytes (evs : list pipe_event) : bytes :=
  mjoin ((fun ev => match ev with EvDeliver b => b | _ => [] end) <$> evs).

(** ** What the contract gives *)

Lemma pipe_run_app p evs1 p1 evs2 p' :
  pipe_run p evs1 p1 -> pipe_run p1 evs2 p' -> pipe_run p (evs1 ++ evs2) p'.
Proof. induction 1; [done |]. intros. cbn. econstructor; eauto. Qed.

(** The state is what the events say. *)
Lemma pipe_run_state p evs p' :
  pipe_run p evs p' ->
  p_in p' = p_in p ++ accepted evs /\ p_out p' = p_out p ++ delivered_bytes evs.
Proof.
  unfold accepted, delivered_bytes. induction 1 as [p | p ev p1 evs p' Hs _ [IH1 IH2]].
  - cbn. by rewrite !app_nil_r.
  - rewrite IH1, IH2. destruct Hs; cbn; by rewrite <-?app_assoc.
Qed.

(** In order, nothing made up: what has been delivered is a prefix of what has
    been accepted. *)
Lemma pipe_run_prefix p evs p' :
  pipe_run p evs p' -> p_out p `prefix_of` p_in p -> p_out p' `prefix_of` p_in p'.
Proof.
  induction 1 as [| p ev p1 evs p' Hs _ IH]; [done |]. intros Hp. apply IH.
  destruct Hs; cbn in *; [by apply prefix_app_r | done | done | done].
Qed.

(** ** Implementations *)

(** A system whose states show a pipe, and an account of what each action does
    to it. *)
Class PipeRefinement {S A : Type} (step : A -> S -> option S) (good : S -> Prop)
    (view : S -> option pipe) (observe : A -> S -> option pipe_event) : Prop := {
  good_step a s s' : good s -> step a s = Some s' -> good s';
  refines_step a s s' p :
    good s -> step a s = Some s' -> view s = Some p ->
    exists p', view s' = Some p' /\
      match observe a s with Some ev => pipe_step p ev p' | None => p' = p end;
}.

Section Runs.
Context {S A : Type} (step : A -> S -> option S).

Fixpoint run_of (acts : list A) (s : S) : option S :=
  match acts with
  | [] => Some s
  | a :: acts' => s' ← step a s; run_of acts' s'
  end.

(** The events of a run. *)
Fixpoint observed (observe : A -> S -> option pipe_event) (acts : list A) (s : S) : list pipe_event :=
  match acts with
  | [] => []
  | a :: acts' =>
      option_list (observe a s) ++
      match step a s with Some s' => observed observe acts' s' | None => [] end
  end.

Lemma refines_run good view observe `{!PipeRefinement step good view observe} acts s s' p :
  good s -> view s = Some p -> run_of acts s = Some s' ->
  exists p', view s' = Some p' /\ pipe_run p (observed observe acts s) p'.
Proof.
  revert s p. induction acts as [|a acts IH]; intros s p Hg Hv; cbn.
  - intros [= <-]. exists p. split; [done | constructor].
  - destruct (step a s) as [s1|] eqn:E; [| done]. cbn. intros Hr.
    destruct (refines_step a s s1 p Hg E Hv) as (p1 & Hv1 & H1).
    destruct (IH s1 p1 (good_step a s s1 Hg E) Hv1 Hr) as (p' & Hv' & Hrun).
    exists p'. split; [done |]. destruct (observe a s) as [ev|]; cbn.
    + by econstructor.
    + by subst p1.
Qed.
End Runs.
