(* ===== verification/SessionRefine.v ===== *)
(** * A session's stream is a byte pipe

    The upload half of a stream (read loop to pump to upstream, with the
    credit that flows back) refines the contract of [Pipe]: each step of any
    goroutine does to the stream what its observation says, or nothing. *)

From S2P Require Import Prelude.
From S2P Require Import GoStrings.
From S2P Require Import Padding.
From S2P Require Import StreamFrame.
From S2P Require Import Target.
From S2P Require Import Allowlist.
From S2P Require Import PskConfig.
From S2P Require Import Session.
From S2P Require Import SessionInv.
From S2P Require Import SessionSafe.
From S2P Require Import SessionSys.
From S2P Require Import SessionProps.
From S2P Require Import Pipe.

(** The stream as a pipe. *)
Definition abs_stream (x : v2Stream) : pipe :=
  PipeState (received (st_hist x)) (written (st_hist x)) (granted (st_hist x)) (negb (st_closed x)).

(** A stream that does not exist yet is the empty pipe. *)
Definition view_mem (o : nat) (m : mem) : pipe := default empty_pipe (abs_stream <$> heap m !! o).

Definition view_stream (o : nat) (y : sys) : option pipe := Some (view_mem o (memory y)).

(** ** What each step does to it *)

Definition observe_close (o : nat) (c : closer) (m : mem) : option pipe_event :=
  match c with
  | CCas o' =>
      if decide (o' = o) then
        match heap m !! o with
        | Some x => if st_closed x then None else Some EvClose
        | None => None
        end
      else None
  | _ => None
  end.

Definition observe_thread (o : nat) (t : thread) (e : env) (m : mem) : option pipe_event :=
  match t, e with
  | TLoop _ (LEnq o' p), Tau =>
      if decide (o' = o) then
        match heap m !! o with
        | Some x => if st_closed x then None else Some (EvAccept p)
        | None => None
        end
      else None
  | TLoop _ (LClose c), Tau | TLoop _ (LVisit _ _ _ c), Tau | TOpen _ _ _ (OFail _ c), Tau
  | TReader _ _ _ (DClose c), Tau | TPump _ _ _ (PClose c), Tau => observe_close o c m
  | TPump o' _ _ (PWrite chunk _ _), UpWrite r =>
      if decide (o' = o)
      then Some (EvDeliver (match r with None => chunk | Some k => take k chunk end))
      else None
  | TPump o' id sid (PCredit cr), Written ok =>
      if decide (o' = o) then
        if (write_frame id ok (SFrame sid v2TypeWindowUpdate (be_put 4 cr)) m).1
        then Some (EvGrant (cr mod 2 ^ 32)) else None
      else None
  | _, _ => None
  end.

Definition observe_stream (o : nat) (a : action) (y : sys) : option pipe_event :=
  match a with
  | Run w e => match threads y !! w with Some t => observe_thread o t e (memory y) | None => None end
  | _ => None
  end.

(** The effect an event has on the stream, whatever justifies it. *)
Definition effect (ev : option pipe_event) (p p' : pipe) : Prop :=
  match ev with
  | None => p' = p
  | Some (EvAccept b) => p_open p = true /\ p' = PipeState (p_in p ++ b) (p_out p) (p_credit p) true
  | Some (EvDeliver b) => p' = PipeState (p_in p) (p_out p ++ b) (p_credit p) (p_open p)
  | Some (EvGrant n) => 0 <= n /\ p' = PipeState (p_in p) (p_out p) (p_credit p + n) (p_open p)
  | Some EvClose => p_open p = true /\ p' = PipeState (p_in p) (p_out p) (p_credit p) false
  end.

Definition shows (o : nat) (ev : option pipe_event) (m m' : mem) : Prop :=
  effect ev (view_mem o m) (view_mem o m').

Lemma shows_same o m m' : heap m' = heap m -> shows o None m m'.
Proof. intros E. unfold shows, view_mem. by rewrite E. Qed.

Lemma shows_alter o o' f m m' ev x :
  heap m' = alter f o' (heap m) -> heap m !! o' = Some x ->
  (o' <> o -> ev = None) -> (o' = o -> effect ev (abs_stream x) (abs_stream (f x))) ->
  shows o ev m m'.
Proof.
  intros E Hx Hne Hf. unfold shows, view_mem. rewrite E. destruct (decide (o' = o)) as [-> | H].
  - rewrite lookup_alter_eq, Hx. cbn. auto.
  - rewrite lookup_alter_ne by done. by rewrite (Hne H).
Qed.

(** A change of fields the contract does not see. *)
Lemma shows_quiet o o' f m m' :
  heap m' = alter f o' (heap m) -> (forall x, abs_stream (f x) = abs_stream x) -> shows o None m m'.
Proof.
  intros E Hf. unfold shows, view_mem. rewrite E. destruct (decide (o' = o)) as [-> | H].
  - rewrite lookup_alter_eq. destruct (heap m !! o); [cbn; by rewrite Hf | done].
  - by rewrite lookup_alter_ne.
Qed.

Lemma close_shows o w all id c m r m' :
  close_step w all id c m = (r, m') -> shows o (observe_close o c m) m m'.
Proof.
  destruct c as [sid | o' | o' | o' | o']; cbn; intros Hr.
  - repeat hcase Hr; injection Hr as _ <-; by apply shows_same.
  - destruct (heap m !! o') as [x|] eqn:Hx.
    2: { injection Hr as _ <-. case_decide as Ho; [subst; rewrite Hx |]; by apply shows_same. }
    destruct (st_closed x) eqn:Ec; injection Hr as _ <-.
    { case_decide as Ho; [subst; rewrite Hx, Ec |]; by apply shows_same. }
    eapply shows_alter; [reflexivity | exact Hx | intros H; by rewrite decide_False |].
    intros ->. rewrite decide_True, Hx, Ec by done.
    split; [cbn; by rewrite Ec | done].
  - repeat hcase Hr; injection Hr as _ <-; (by apply shows_same) || by eapply shows_quiet.
  - repeat hcase Hr; injection Hr as _ <-; (by apply shows_same) || by eapply shows_quiet.
  - injection Hr as _ <-. by eapply shows_quiet.
Qed.

(** A close inside a goroutine: what follows it leaves the heap's contract
    alone. *)
Lemma closing_shows o w all id c m k fin t' m' ts :
  closing_with (close_step w all id c m) k fin = Some (t', m', ts) ->
  (forall m1 t' m' ts, fin m1 = Some (t', m', ts) -> heap m' = heap m1) ->
  shows o (observe_close o c m) m m'.
Proof.
  destruct (close_step w all id c m) as [r m1] eqn:E. apply (close_shows o) in E.
  intros H Hfin. destruct r; cbn in H; [by injection H as _ <- _ |].
  unfold shows, view_mem in *. by rewrite (Hfin _ _ _ _ H).
Qed.

Section Steps.
Context `{UnicodeTables} (allowedDomains : list allowEntry) (hb : hb_params).

(** Steps whose memory has the old heap, or one changed in fields the
    contract does not see. *)
Ltac quiet_step :=
  first [ by apply shows_same
        | by eapply shows_quiet
        | match goal with
          | E : write_frame _ _ _ _ = (_, ?m1) |- shows _ None _ ?m' =>
              let Eh := fresh in apply write_frame_frame in E as (Eh & _);
              first [ by apply shows_same | eapply shows_quiet; [cbn; rewrite Eh; reflexivity | done] ]
          end ].

Lemma enq_shows o id o' p e m t' m' ts :
  loop_step id (LEnq o' p) e m = Some (t', m', ts) ->
  shows o (observe_thread o (TLoop id (LEnq o' p)) e m) m m'.
Proof.
  unfold loop_step. destruct (v2Sessions m !! id) as [s|]; [| done]. destruct e; try done.
  cbn [observe_thread]. destruct (heap m !! o') as [x|] eqn:Hx; [| done].
  destruct (st_closed x) eqn:Ec; intros Hr; injection Hr as _ <- _.
  { case_decide as Ho; [subst; rewrite Hx, Ec |]; by apply shows_same. }
  eapply shows_alter; [reflexivity | exact Hx | intros Hne; by rewrite decide_False |].
  intros ->. rewrite decide_True, Hx, Ec by done.
  split; [cbn; by rewrite Ec | unfold abs_stream; cbn; by rewrite Ec].
Qed.

Lemma loop_shows o id pc e m t' m' ts :
  loop_step id pc e m = Some (t', m', ts) -> shows o (observe_thread o (TLoop id pc) e m) m m'.
Proof.
  intros Hr. destruct pc. 6: by eapply enq_shows.
  all: revert Hr; unfold loop_step; destruct (v2Sessions m !! id) as [s|]; [| done].
  all: destruct e; try done; cbn [observe_thread]; intros Hr.
  all: try (eapply closing_shows; [exact Hr |]; unfold next; by intros m1 t1 m2 ts2 [= _ <- _]).
  all: unfold dispatch, next, exit in Hr; repeat hcase Hr; try done; injection Hr as _ <- _; quiet_step.
Qed.

Lemma open_shows o n id sid pc e m t' m' ts :
  mem_ok m -> open_step allowedDomains n id sid pc e m = Some (t', m', ts) ->
  shows o (observe_thread o (TOpen n id sid pc) e m) m m'.
Proof.
  intros M. unfold open_step. destruct (v2Sessions m !! id) as [s|]; [| done].
  destruct pc, e; try done; cbn [observe_thread]; intros Hr.
  all: try (eapply closing_shows; [exact Hr |]; unfold next; by intros m1 t1 m2 ts2 [= _ <- _]).
  all: unfold next, exit in Hr; repeat hcase Hr; try done; injection Hr as _ <- _; try quiet_step.
  unfold shows, view_mem. cbn. destruct (decide (next_obj m = o)) as [<- | Hne].
  - by rewrite lookup_insert_eq, (next_obj_fresh m M).
  - by rewrite lookup_insert_ne.
Qed.

Lemma reader_shows o o' id sid pc e m t' m' ts :
  reader_step o' id sid pc e m = Some (t', m', ts) ->
  shows o (observe_thread o (TReader o' id sid pc) e m) m m'.
Proof.
  unfold reader_step. destruct (heap m !! o') as [s|]; [| done].
  destruct pc, e; try done; cbn [observe_thread]; intros Hr.
  all: try (eapply closing_shows; [exact Hr |]; unfold next; by intros m1 t1 m2 ts2 [= _ <- _]).
  all: unfold next, exit in Hr; repeat hcase Hr; try done; injection Hr as _ <- _; quiet_step.
Qed.

Lemma pump_shows o o' id sid pc e m t' m' ts :
  pump_step o' id sid pc e m = Some (t', m', ts) ->
  shows o (observe_thread o (TPump o' id sid pc) e m) m m'.
Proof.
  unfold pump_step. destruct (heap m !! o') as [s|] eqn:Hs; [| done].
  destruct pc, e; try done; cbn [observe_thread]; intros Hr.
  all: try (eapply closing_shows; [exact Hr |]; unfold exit; by intros m1 t1 m2 ts2 [= _ <- _]).
  - unfold next, exit in Hr; repeat hcase Hr; try done; injection Hr as _ <- _; quiet_step.
  - unfold next in Hr; repeat hcase Hr; try done; injection Hr as _ <- _; quiet_step.
  - destruct short as [k|].
    + unfold next in Hr. injection Hr as _ <- _.
      eapply shows_alter; [reflexivity | exact Hs | intros Hne; by rewrite decide_False |].
      intros ->. by rewrite decide_True.
    + destruct (conn_open s); [| done].
      assert (E : heap m' = alter (st_write chunk) o' (heap m))
        by (unfold next in Hr; repeat hcase Hr; by injection Hr as _ <- _).
      eapply shows_alter; [exact E | exact Hs | intros Hne; by rewrite decide_False |].
      intros ->. by rewrite decide_True.
  - destruct (write_frame _ _ _ _) as [r m1] eqn:E. apply write_frame_frame in E as (Eh & _).
    cbn [fst]. unfold next in Hr. destruct r; injection Hr as _ <- _.
    + eapply shows_alter; [cbn; by rewrite Eh | exact Hs | intros Hne; by rewrite decide_False |].
      intros ->. rewrite decide_True by done. split; [| done].
      apply Z.mod_pos_bound. lia.
    + case_decide; by apply shows_same.
  - unfold next in Hr; repeat hcase Hr; try done; injection Hr as _ <- _; quiet_step.
  - unfold next in Hr; repeat hcase Hr; try done; injection Hr as _ <- _; quiet_step.
Qed.

Lemma thread_shows o t e m t' m' ts :
  mem_ok m -> thread_step allowedDomains hb t e m = Some (t', m', ts) ->
  shows o (observe_thread o t e m) m m'.
Proof.
  intros M Hr. destruct t; cbn in Hr.
  - by eapply loop_shows.
  - by eapply open_shows.
  - by eapply reader_shows.
  - by eapply pump_shows.
  - unfold pong_step, exit in Hr. cbn [observe_thread].
    destruct (v2Sessions m !! id), e; try done; [| by repeat hcase Hr; simplify_eq; apply shows_same].
    injection Hr as _ <- _. destruct (write_frame _ _ _ _) as [r m1] eqn:E. quiet_step.
  - unfold heart_step, next, exit in Hr. cbn [observe_thread].
    destruct (v2Sessions m !! id), e; try done; repeat hcase Hr; try done; injection Hr as _ <- _; quiet_step.
Qed.

(** ** The refinement *)

Abbreviation step := (step allowedDomains hb).
Abbreviation reachable := (reachable allowedDomains hb).

Lemma view_written o y : reachable y -> p_out (view_mem o (memory y)) `prefix_of` p_in (view_mem o (memory y)).
Proof.
  intros R. unfold view_mem. destruct (heap (memory y) !! o) as [x|] eqn:Hx; [| done]. cbn.
  destruct (mo_stream _ (sk_mem _ (ri_sys _ _ (reachable_invariant _ _ y R))) o x Hx) as (O & _).
  destruct (so_fifo x O) as (lost & -> & _). by apply prefix_app_r, (so_written x O).
Qed.

Lemma view_granted o y : reachable y ->
  0 <= p_credit (view_mem o (memory y)) <= len (p_out (view_mem o (memory y))).
Proof.
  intros R. unfold view_mem. destruct (heap (memory y) !! o) as [x|] eqn:Hx; [| done]. cbn.
  destruct (mo_stream _ (sk_mem _ (ri_sys _ _ (reachable_invariant _ _ y R))) o x Hx) as (O & _).
  apply (so_granted x O).
Qed.

(** An effect is a step of the pipe as soon as the states on both sides are
    those of reachable systems. *)
Lemma effect_step ev p p' :
  effect (Some ev) p p' -> p_out p' `prefix_of` p_in p' -> p_credit p' <= len (p_out p') -> pipe_step p ev p'.
Proof.
  destruct p as [i out c op]. destruct ev; cbn.
  - intros [-> ->] _ _. constructor.
  - intros -> Hp _. by constructor.
  - intros [Hn ->] _ Hc. cbn in Hc. by constructor.
  - intros [-> ->] _ _. constructor.
Qed.

Lemma step_shows o a y y' : reachable y -> step a y = Some y' ->
  shows o (observe_stream o a y) (memory y) (memory y').
Proof.
  intros R Hs. destruct a as [w e | | | d]; cbn in Hs |- *.
  - destruct (threads y !! w) as [t|]; [| done]. cbn in Hs.
    destruct (thread_step _ _ t e (memory y)) as [[[t' m'] ts]|] eqn:E; [| done]. injection Hs as <-.
    eapply thread_shows; [| exact E]. apply (sk_mem _ (ri_sys _ _ (reachable_invariant _ _ y R))).
  - case_decide; [| done]. injection Hs as <-. by apply shows_same.
  - injection Hs as <-. by apply shows_same.
  - hcase Hs; [| done]. injection Hs as <-. by apply shows_same.
Qed.

#[export] Instance stream_refinement o :
  PipeRefinement step reachable (view_stream o) (observe_stream o).
Proof.
  split; [intros; by eapply reach_step |].
  intros a y y' p R Hs [= <-]. exists (view_mem o (memory y')). split; [done |].
  pose proof (step_shows o a y y' R Hs) as Hsh. unfold shows in Hsh.
  assert (R' : reachable y') by by eapply reach_step.
  destruct (observe_stream o a y) as [ev|]; [| done].
  apply effect_step; [done | by apply view_written | by apply view_granted].
Qed.

Lemma run_of_run acts y : run_of step acts y = run allowedDomains hb acts y.
Proof.
  revert y. induction acts as [|a acts IH]; intros y; [done |]. cbn.
  destruct (Session.step _ _ a y); [apply IH | done].
Qed.

(** [C11] Every stream of a session refines the byte pipe: whatever the
    goroutines do, the bytes it takes from the client, the bytes it hands to
    the upstream, the credit it grants and its close are, in the order in
    which they happen, a run of the pipe from the empty pipe, and they lead to
    the stream's state; so what has been handed to the upstream is a prefix of
    what was taken. *)
Theorem stream_refines_pipe acts y o x :
  run allowedDomains hb acts init = Some y -> heap (memory y) !! o = Some x ->
  let evs := observed step (observe_stream o) acts init in
  pipe_run empty_pipe evs (abs_stream x) /\
  received (st_hist x) = accepted evs /\ written (st_hist x) = delivered_bytes evs /\
  delivered_bytes evs `prefix_of` accepted evs.
Proof.
  intros Hr Hx evs. rewrite <-run_of_run in Hr.
  destruct (refines_run step reachable (view_stream o) (observe_stream o) acts init y empty_pipe)
    as (p' & Hv & Hrun); [apply reach_init | done | done |].
  unfold view_stream, view_mem in Hv. rewrite Hx in Hv. cbn in Hv. simplify_eq.
  fold evs in Hrun. pose proof (pipe_run_state _ _ _ Hrun) as [H1 H2]. cbn in H1, H2.
  split_and!; [done | done | done |]. rewrite <-H1, <-H2. by apply (pipe_run_prefix _ _ _ Hrun).
Qed.
End Steps.

#[local] Existing Instance ascii_tables.

Lemma stream_refines_pipe_witness :
  let evs := observed (Session.step [] Demo.hb) (observe_stream 0) Demo.acts_closing init in
  evs = [EvAccept (go! "hello "); EvAccept (go! "world"); EvDeliver (go! "hello ");
         EvDeliver (go! "world"); EvGrant 11; EvClose] /\
  pipe_run empty_pipe evs (abs_stream (Demo.stream_at Demo.acts_closing 0)).
Proof.
  split; [vm_compute; reflexivity |].
  apply (stream_refines_pipe [] Demo.hb Demo.acts_closing (Demo.final Demo.acts_closing) 0).
  - vm_compute. reflexivity.
  - vm_compute. reflexivity.
Defined.
