(* ===== verification/SessionTrace.v ===== *)
(** * What a session has read and written

    The frames that have gone each way on a session's connection, and what
    they say of its streams: the credit written is the credit granted, and
    what a stream has received is a prefix of the DATA read for it. *)

From S2P Require Import Prelude.
From S2P Require Import GoStrings.
From S2P Require Import Padding.
From S2P Require Import StreamFrame.
From S2P Require Import FrameLog.
From S2P Require Import Target.
From S2P Require Import Allowlist.
From S2P Require Import PskConfig.
From S2P Require Import Session.
From S2P Require Import SessionInv.
From S2P Require Import SessionSafe.
From S2P Require Import SessionSys.
From S2P Require Import SessionLeak.
From S2P Require Import Pipe.
From S2P Require Import SessionRefine.

(** ** Traffic *)

(** The frames a step takes from the connection of session [id]. *)
Definition frames_in (id : Z) (a : action) : frames :=
  match a with
  | Run (WLoop id') (InFrame pt) =>
      if decide (id' = id) then match parse_stream_frame pt with Ok sf => [sf] | _ => [] end else []
  | _ => []
  end.

Definition wire_of (id : Z) (m : mem) : list (Z * stream_frame) :=
  match v2Sessions m !! id with Some s => ss_wire s | None => [] end.
Definition conn_of (id : Z) (m : mem) : bool :=
  match v2Sessions m !! id with Some s => ss_conn s | None => false end.

(** Whether the environment let the write of a step through. *)
Definition write_ok (e : env) : bool :=
  match e with Written ok => ok | Beat _ _ ok => ok | _ => false end.

(** The frames a step puts on the connection of session [id]: what it has
    sealed, unless the write failed. *)
Definition sealed_out (id : Z) (a : action) (m m' : mem) : list (Z * stream_frame) :=
  match a with
  | Run _ e => if write_ok e && conn_of id m then drop (length (wire_of id m)) (wire_of id m') else []
  | _ => []
  end.
Definition frames_out (id : Z) (a : action) (m m' : mem) : frames := snd <$> sealed_out id a m m'.

(** ** What a step writes *)

Lemma write_wire id ok sf m r m' i : write_frame id ok sf m = (r, m') ->
  conn_of i m' = conn_of i m /\
  (wire_of i m' = wire_of i m /\ (i = id -> r = false) \/
   i = id /\ len (sf_payload sf) <= maxStreamPayload /\ r = ok && conn_of i m /\
     exists n, wire_of i m' = wire_of i m ++ [(n, sf)]).
Proof.
  unfold write_frame, wire_of, conn_of. destruct (_ <? len _) eqn:El; bool_facts; [intros [= <- <-]; split; [done | by left] |].
  destruct (v2Sessions m !! id) as [s|] eqn:Hs; [| intros [= <- <-]; split; [done | by left]].
  intros [= <- <-]. cbn. destruct (decide (i = id)) as [-> | Hne].
  - rewrite lookup_alter_eq, Hs. cbn. split; [done |]. right. split_and!; [done | lia | done |]. by exists (seqWrite s).
  - rewrite lookup_alter_ne by done. split; [done |]. by left.
Qed.

Lemma out_write id ok sf m r m' i e w : write_frame id ok sf m = (r, m') -> write_ok e = ok ->
  frames_out i (Run w e) m m' = if decide (i = id) then if r then [sf] else [] else [].
Proof.
  intros Hw He. unfold frames_out, sealed_out. rewrite He.
  destruct (write_wire _ _ _ _ _ _ i Hw) as [_ [[E Hr] | (-> & _ & Hr & n & E)]]; rewrite E.
  - rewrite drop_all. destruct (ok && conn_of i m); case_decide; try done; by rewrite Hr.
  - rewrite decide_True by done. rewrite <-Hr. destruct r; [| done]. by rewrite drop_app_length.
Qed.

Lemma out_same i a m m' : wire_of i m' = wire_of i m -> frames_out i a m m' = [].
Proof.
  intros E. unfold frames_out, sealed_out. destruct a; try done. rewrite E, drop_all. by case_match.
Qed.
Lemma out_sessions i a m m' : v2Sessions m' = v2Sessions m -> frames_out i a m m' = [].
Proof. intros E. apply out_same. unfold wire_of. by rewrite E. Qed.
Lemma out_upd i a m m' id f : v2Sessions m' = alter f id (v2Sessions m) -> (forall s, ss_wire (f s) = ss_wire s) ->
  frames_out i a m m' = [].
Proof.
  intros E Hf. apply out_same. unfold wire_of. rewrite E. destruct (decide (i = id)) as [-> | Hne].
  - rewrite lookup_alter_eq. destruct (v2Sessions m !! id); cbn; [apply Hf | done].
  - by rewrite lookup_alter_ne.
Qed.
Lemma out_then i a m m1 m' : v2Sessions m' = v2Sessions m1 -> frames_out i a m m' = frames_out i a m m1.
Proof. intros E. unfold frames_out, sealed_out, wire_of. by rewrite E. Qed.

Lemma close_wire w all id c m r m' i : close_step w all id c m = (r, m') -> wire_of i m' = wire_of i m.
Proof.
  assert (Hup : forall f k m1, (forall s, ss_wire (f s) = ss_wire s) -> wire_of i (upd_session k f m1) = wire_of i m1).
  { intros f k m1 Hf. unfold wire_of. cbn. destruct (decide (i = k)) as [-> | Hne].
    - rewrite lookup_alter_eq. destruct (v2Sessions m1 !! k); cbn; [apply Hf | done].
    - by rewrite lookup_alter_ne. }
  destruct c as [sid|o|o|o|o]; cbn; intros Hr; repeat hcase Hr; injection Hr as <- <-; try done; try by apply Hup.
Qed.

(** The frame a goroutine is about to write. *)
Definition speech (t : thread) (e : env) : option (Z * stream_frame) :=
  match t, e with
  | TLoop id (LBusy sid), Written _ => Some (id, SFrame sid v2TypeOpenErr (go! "server busy"))
  | TLoop id (LShed sid), Written _ => Some (id, SFrame sid v2TypeClose [])
  | TOpen _ id sid (OErr msg), Written _ => Some (id, SFrame sid v2TypeOpenErr msg)
  | TOpen _ id sid (OOk _), Written _ => Some (id, SFrame sid v2TypeOpenOK (be_put 4 v2InitialWindow))
  | TReader _ id sid (DSend b _), Written _ => Some (id, SFrame sid v2TypeData b)
  | TReader _ id sid DEof, Written _ => Some (id, SFrame sid v2TypeClose [])
  | TPump _ id sid (PCredit cr), Written _ => Some (id, SFrame sid v2TypeWindowUpdate (be_put 4 cr))
  | TPump _ id sid PFail, Written _ => Some (id, SFrame sid v2TypeClose [])
  | TPong _ id p, Written _ => Some (id, SFrame 0 v2TypePong p)
  | THeart id, Beat _ pad _ => Some (id, SFrame 0 v2TypePing pad)
  | _, _ => None
  end.

Section Trace.
Context `{UnicodeTables} (allowedDomains : list allowEntry) (hb : hb_params).

Lemma write_speech id ok sf m r m' i e w : write_frame id ok sf m = (r, m') -> write_ok e = ok ->
  frames_out i (Run w e) m m' = [] \/
  i = id /\ frames_out i (Run w e) m m' = [sf] /\ len (sf_payload sf) <= maxStreamPayload.
Proof.
  intros Hw He. rewrite (out_write _ _ _ _ _ _ _ _ _ Hw He).
  destruct (write_wire _ _ _ _ _ _ i Hw) as [_ [[_ Hr] | (-> & Hl & _)]].
  - case_decide; [| by left]. rewrite Hr by done. by left.
  - rewrite decide_True by done. destruct r; [by right | by left].
Qed.

Lemma step_speech t e m t' m' ts i w :
  thread_step allowedDomains hb t e m = Some (t', m', ts) ->
  frames_out i (Run w e) m m' = [] \/
  exists sf, speech t e = Some (i, sf) /\ frames_out i (Run w e) m m' = [sf] /\
    len (sf_payload sf) <= maxStreamPayload.
Proof.
  intros Hr. destruct (closer_of t) as [c|] eqn:Ec.
  { destruct (step_closes _ _ _ _ _ _ _ _ _ Hr Ec) as (all & id & r & Hcs & _ & _).
    left. apply out_same. by eapply close_wire. }
  destruct t as [id pc|n id sid pc|o id sid pc|o id sid pc|n id p|id]; cbn in Hr;
    step_cases Hr; injection Hr as <- <- <-; subst; try discriminate Ec.
  all: try (left; first [reflexivity | by apply out_sessions | by eapply out_upd; [reflexivity |]]).
  all: try match goal with |- context [write_frame ?id ?ok ?sf ?m] => destruct (write_frame id ok sf m) as [r m1] eqn:Hw end.
  all: match goal with
    | Hw : write_frame _ _ _ _ = (_, ?m1) |- context [frames_out ?i (Run ?w ?e) ?m ?m'] =>
        rewrite ?(out_then i (Run w e) m m1 m' eq_refl);
        destruct (write_speech _ _ _ _ _ _ i e w Hw eq_refl) as [E0 | (-> & E0 & Hl)];
        [by left | right; eexists; split; [reflexivity | by split]]
    end.
Qed.

(** ** Stream ids fit their field *)

Definition id_ok (sid : Z) : Prop := 0 <= sid < 2 ^ 32.

Definition sid_of (t : thread) : option Z :=
  match t with
  | TLoop _ (LBusy sid) | TLoop _ (LLookup sid _) | TLoop _ (LSess _ sid _) | TLoop _ (LGlob _ sid _)
  | TLoop _ (LShed sid) | TOpen _ _ sid _ | TReader _ _ sid _ | TPump _ _ sid _ => Some sid
  | _ => None
  end.

Definition sids_fit (t : thread) : Prop := forall sid, sid_of t = Some sid -> id_ok sid.

Lemma step_sids t e m t' m' ts :
  thread_step allowedDomains hb t e m = Some (t', m', ts) -> sids_fit t ->
  (forall t1, t' = Some t1 -> sids_fit t1) /\ Forall sids_fit ts.
Proof.
  intros Hr Ht. unfold sids_fit in *.
  destruct t as [id pc|n id sid pc|o id sid pc|o id sid pc|n id p|id]; cbn in Hr;
    step_cases Hr; injection Hr as <- <- <-; subst; cbn in Ht.
  all: try match goal with Hp : parse_stream_frame _ = Ok _ |- _ => destruct (parse_sound _ _ Hp) as [Hid _]; cbn in Hid end.
  all: (split; [intros t1 [= <-] | repeat first [apply Forall_nil; exact I | apply Forall_cons; split]]);
    cbn; intros sid1 [= <-]; try done; by apply Ht.
Qed.

Definition all_sids_fit (y : sys) : Prop := forall w t, threads y !! w = Some t -> sids_fit t.

Lemma sids_step a y y' : step allowedDomains hb a y = Some y' -> all_sids_fit y -> all_sids_fit y'.
Proof.
  intros Hs A w1 t1 Ht1. destruct a as [w e| | |d]; cbn in Hs.
  - destruct (threads y !! w) as [t|] eqn:Ht; [| done]. cbn in Hs.
    destruct (thread_step _ _ t e (memory y)) as [[[t' m'] ts]|] eqn:Hr; [| done]. injection Hs as <-. cbn in Ht1.
    destruct (step_sids _ _ _ _ _ _ Hr (A _ _ Ht)) as [H1 H2]. rewrite Forall_forall in H2.
    apply spawn_lookup in Ht1 as [[Hin _] | Ht1]; [by apply H2 |].
    destruct t' as [t'|]; cbn in Ht1.
    + apply lookup_insert_Some in Ht1 as [[_ <-] | [_ Ht1]]; [by apply H1 | by eapply A].
    + apply lookup_delete_Some in Ht1 as [_ Ht1]. by eapply A.
  - case_decide; [| done]. injection Hs as <-. cbn in Ht1.
    apply lookup_insert_Some in Ht1 as [[_ <-] | [_ Ht1]]; [done |].
    apply lookup_insert_Some in Ht1 as [[_ <-] | [_ Ht1]]; [done |]. by eapply A.
  - injection Hs as <-. by eapply A.
  - hcase Hs; [| done]. injection Hs as <-. by eapply A.
Qed.

Lemma speech_ok t e i sf : speech t e = Some (i, sf) -> sids_fit t -> len (sf_payload sf) <= maxStreamPayload -> sf_ok sf.
Proof.
  unfold sids_fit, sf_ok, id_ok. intros Hs Ht Hl.
  destruct t as [id pc|n id sid pc|o id sid pc|o id sid pc|n id p|id]; cbn in Hs; try destruct pc; try discriminate Hs;
    destruct e; try discriminate Hs; injection Hs as <- <-; cbn in *;
    (split; [first [by apply Ht | lia] | split; [vm_compute; split; congruence | done]]).
Qed.

(** ** Credit *)

(** What a stream has given its client: the initial window once its OPEN_OK is
    written, and what its pump has granted. *)
Definition given (id sid : Z) (_ : nat) (x : v2Stream) : Z :=
  if decide (key_of x = (id, sid))
  then (if started (st_hist x) then v2InitialWindow else 0) + granted (st_hist x) else 0.

Definition given_all (id sid : Z) (m : mem) : Z := map_sum (given id sid) (heap m).

Definition same_credit (x x' : v2Stream) : Prop :=
  key_of x' = key_of x /\ started (st_hist x') = started (st_hist x) /\ granted (st_hist x') = granted (st_hist x).

Lemma given_eq id sid m m' : heap m' = heap m -> given_all id sid m' = given_all id sid m.
Proof. intros E. unfold given_all. by rewrite E. Qed.

Lemma given_alter id sid m m' o f : heap m' = alter f o (heap m) ->
  (forall x, same_credit x (f x)) -> given_all id sid m' = given_all id sid m.
Proof.
  intros E Hf. unfold given_all. rewrite E. destruct (heap m !! o) as [x|] eqn:Hx.
  - rewrite (map_sum_alter _ _ _ x) by done. destruct (Hf x) as (E1 & E2 & E3). unfold given. rewrite E1, E2, E3. lia.
  - f_equal. apply map_eq. intros j. destruct (decide (j = o)) as [-> | Hne].
    + by rewrite lookup_alter_eq, Hx.
    + by rewrite lookup_alter_ne.
Qed.

Lemma given_change id sid m m' o f x : heap m' = alter f o (heap m) -> heap m !! o = Some x -> key_of (f x) = key_of x ->
  given_all id sid m' = given_all id sid m + (given id sid o (f x) - given id sid o x).
Proof. intros E Hx Hk. unfold given_all. rewrite E, (map_sum_alter _ _ _ x) by done. lia. Qed.

Lemma close_given id sid w all id' c m r m' : close_step w all id' c m = (r, m') -> given_all id sid m' = given_all id sid m.
Proof.
  destruct c as [sid'|o|o|o|o]; cbn; intros Hr; repeat hcase Hr; injection Hr as <- <-;
    first [by apply given_eq | by eapply given_alter; [reflexivity |]].
Qed.

(** A write that carries credit, with the entry in the stream's ledger. *)
Lemma write_credit id sid id1 sid1 ty n ok m m0 w e o f x :
  write_frame id1 ok (SFrame sid1 ty (be_put 4 n)) m = (true, m0) -> write_ok e = ok ->
  ty = v2TypeOpenOK \/ ty = v2TypeWindowUpdate -> 0 <= n ->
  heap m !! o = Some x -> key_of x = (id1, sid1) -> key_of (f x) = key_of x ->
  (if started (st_hist (f x)) then v2InitialWindow else 0) + granted (st_hist (f x)) =
    (if started (st_hist x) then v2InitialWindow else 0) + granted (st_hist x) + n mod 2 ^ 32 ->
  given_all id sid (upd_stream o f m0) =
    given_all id sid m + credits sid (frames_out id (Run w e) m (upd_stream o f m0)).
Proof.
  intros Hw He Ht Hn Hx Hk Hf Hc. destruct (write_frame_tables _ _ _ _ _ _ Hw) as (_ & _ & Eh).
  rewrite (out_then id _ m m0 (upd_stream o f m0) eq_refl), (out_write _ _ _ _ _ _ _ _ _ Hw He).
  rewrite (given_change id sid m (upd_stream o f m0) o f x) by (done || by cbn; rewrite Eh).
  unfold given. rewrite Hf, Hk. destruct (decide (id = id1)) as [-> | Hne].
  - rewrite credits_one. destruct (decide (sid = sid1)) as [-> | Hns].
    + rewrite !decide_True by done. rewrite credit_of_window by done. lia.
    + rewrite !decide_False by congruence. rewrite credit_other by done. lia.
  - rewrite !decide_False by congruence. rewrite credits_nil. lia.
Qed.

Lemma failed_credit id sid id1 ok sf m m0 w e :
  write_frame id1 ok sf m = (false, m0) -> write_ok e = ok ->
  given_all id sid m0 = given_all id sid m + credits sid (frames_out id (Run w e) m m0).
Proof.
  intros Hw He. destruct (write_frame_tables _ _ _ _ _ _ Hw) as (_ & _ & Eh).
  rewrite (out_write _ _ _ _ _ _ _ _ _ Hw He), (given_eq _ _ _ _ Eh). case_decide; rewrite credits_nil; lia.
Qed.

(** A step moves the two accounts together. *)
Lemma step_credit t e m t' m' ts w :
  thread_step allowedDomains hb t e m = Some (t', m', ts) -> mem_ok m -> thread_ok t m -> who_of t = w ->
  forall id sid, given_all id sid m' = given_all id sid m + credits sid (frames_out id (Run w e) m m').
Proof.
  intros Hr M Hok Hw id sid. destruct (closer_of t) as [c|] eqn:Ec.
  { destruct (step_closes _ _ _ _ _ _ _ _ _ Hr Ec) as (all & id1 & r & Hcs & _ & _).
    rewrite (close_given _ _ _ _ _ _ _ _ _ Hcs), out_same by by eapply close_wire. rewrite credits_nil. lia. }
  assert (Hsp : forall i, frames_out i (Run w e) m m' = [] \/ exists sf, speech t e = Some (i, sf) /\
            frames_out i (Run w e) m m' = [sf]).
  { intros i. destruct (step_speech _ _ _ _ _ _ i w Hr) as [? | (sf & ? & ? & _)]; [by left | right; by exists sf]. }
  assert (Hq : (forall i sf, speech t e = Some (i, sf) -> sf_type sf <> v2TypeOpenOK /\ sf_type sf <> v2TypeWindowUpdate) ->
    given_all id sid m' = given_all id sid m -> given_all id sid m' = given_all id sid m + credits sid (frames_out id (Run w e) m m')).
  { intros Hs ->. destruct (Hsp id) as [-> | (sf & Hsf & ->)]; [rewrite credits_nil; lia |].
    destruct (Hs _ _ Hsf). rewrite credits_one, credit_neutral by done. lia. }
  clear Hsp. destruct t as [id1 pc|n id1 sid1 pc|o id1 sid1 pc|o id1 sid1 pc|n id1 p|id1]; cbn in Hr;
    step_cases Hr; injection Hr as <- <- <-; subst; try discriminate Ec.
  all: try (apply Hq; [cbn; intros ?? Hs; try discriminate Hs; injection Hs as <- <-; done |]; clear Hq;
    try match goal with |- context [write_frame ?id ?ok ?sf ?m] => destruct (write_frame id ok sf m) as [r m1] eqn:Hwf end;
    try match goal with Hwf : write_frame _ _ _ _ = (_, ?m1) |- _ =>
      let Eh := fresh in destruct (write_frame_tables _ _ _ _ _ _ Hwf) as (_ & _ & Eh);
      first [by apply given_eq | eapply given_alter; [cbn; rewrite Eh; reflexivity |]; done] end;
    first [by apply given_eq | by eapply given_alter; [reflexivity |]]).
  - rewrite (out_upd _ _ _ _ id1 (ss_upd_streams <[sid1 := next_obj m]>)), credits_nil by done.
    unfold given_all. cbn. rewrite map_sum_insert_fresh by by apply next_obj_fresh.
    unfold given at 1. cbn. case_decide; lia.
  - destruct Hok as (_ & _ & x & Hx & K1 & K2 & _ & Hst). destruct (mo_stream m M o x Hx) as (O & _).
    destruct (so_fresh x O Hst) as (_ & _ & Hg0).
    eapply write_credit; [exact E2 | done | by left | done | exact Hx | by unfold key_of; rewrite K1, K2 | done |].
    cbn. rewrite Hst, Hg0. done.
  - by eapply failed_credit.
  - destruct Hok as (x & Hx & K1 & K2 & _ & Hp). cbn in Hp.
    eapply write_credit; [exact E2 | done | by right | lia | exact Hx | by unfold key_of; rewrite K1, K2 | done |].
    cbn. lia.
  - by eapply failed_credit.
Qed.
End Trace.
