(* ===== verification/SessionArrive.v ===== *)
(** * What arrives on a stream

    For polite clients: the DATA frames read for a stream id go to one stream,
    in order, until the stream is closed; what it has received is a prefix of
    them. *)

From S2P Require Import Prelude.
From S2P Require Import GoStrings.
From S2P Require Import Padding.
From S2P Require Import StreamFrame.
From S2P Require Import FrameLog.
From S2P Require Import Target.
From S2P Require Import Allowlist.
From S2P Require Import PskConfig.
From S2P Require Import Session.
From S2P Require Import SessionInv.
From S2P Require Import SessionSafe.
From S2P Require Import SessionSys.
From S2P Require Import SessionLeak.
From S2P Require Import Pipe.
From S2P Require Import SessionRefine.
From S2P Require Import SessionTrace.

Section Arrive.
Context `{UnicodeTables} (allowedDomains : list allowEntry) (hb : hb_params).

(** ** Out of the table for good *)

Definition unlisted (o : nat) (m : mem) : Prop :=
  forall id sid, (table m id ≫= fun T => T !! sid) <> Some o.

(** Past the read loop's exit. *)
Definition tearing (pc : loop_pc) : bool :=
  match pc with
  | LAllClosed | LAllDone | LRange _ _ | LVisit _ _ _ _ | LDelete _ _ _ | LEnd => true
  | _ => false
  end.

Definition torn (id : Z) (y : sys) : Prop :=
  forall pc, threads y !! WLoop id = Some (TLoop id pc) -> tearing pc = true.

Lemma entry_delete m m' id k i sid o :
  v2Sessions m' = alter (ss_upd_streams (delete k)) id (v2Sessions m) ->
  (table m' i ≫= fun T => T !! sid) = Some o ->
  (table m i ≫= fun T => T !! sid) = Some o /\ (i, sid) <> (id, k).
Proof.
  intros E. rewrite (table_entry m m' id (delete k) E). case_decide as Ei; [subst i | split; [done | congruence]].
  destruct (table m id) as [T|]; [| done]. cbn. intros Hl.
  apply lookup_delete_Some in Hl as [Hne Hl]. split; [done | congruence].
Qed.

(** Entries only appear for new objects. *)
Lemma step_entries t e m t' m' ts i sid o :
  thread_step allowedDomains hb t e m = Some (t', m', ts) -> (o < next_obj m)%nat ->
  (table m' i ≫= fun T => T !! sid) = Some o -> (table m i ≫= fun T => T !! sid) = Some o.
Proof.
  intros Hr Ho Hl. destruct (step_tables _ _ _ _ _ _ _ _ Hr)
    as [Hs | n id sid1 s -> -> Hs Hn -> | all id sid1 o1 t1 Ht -> Hc Hcs Hlk -> | n id sid1 o1 -> -> -> | id todo vis k -> -> ->].
  - by rewrite <-(Hs i).
  - revert Hl. rewrite (table_entry m _ id <[sid1 := next_obj m]>) by done. case_decide as Ei; [subst i | done].
    unfold table. rewrite Hs. cbn. intros [[_ <-] | [_ ?]]%lookup_insert_Some; [lia | done].
  - by eapply entry_delete in Hl as [? _]; [| reflexivity].
  - by eapply entry_delete in Hl as [? _]; [| reflexivity].
  - by eapply entry_delete in Hl as [? _]; [| reflexivity].
Qed.

Lemma unlisted_step t e m t' m' ts o :
  thread_step allowedDomains hb t e m = Some (t', m', ts) -> (o < next_obj m)%nat -> unlisted o m -> unlisted o m'.
Proof. intros Hr Ho U i sid Hl. apply (U i sid). by eapply step_entries. Qed.

Definition visiting (t : thread) : Prop := exists id todo vis k c, t = TLoop id (LVisit todo vis k c).

(** A goroutine that is about to close an object has taken it out of the
    table, or is the teardown; so a closed object is out of the table as long
    as the session is not being torn down. *)
Record shut_inv (y : sys) : Prop := {
  sh_closer w t o : threads y !! w = Some t -> closer_of t = Some (CCas o) -> visiting t \/ unlisted o (memory y);
  sh_closed o x : heap (memory y) !! o = Some x -> st_closed x = true ->
    unlisted o (memory y) \/ torn (st_sess x) y;
}.

(** Only [CCas] closes an object. *)
Lemma step_closing t e m t' m' ts o x x' :
  mem_ok m -> thread_step allowedDomains hb t e m = Some (t', m', ts) ->
  heap m !! o = Some x -> heap m' !! o = Some x' -> st_closed x = false -> st_closed x' = true ->
  closer_of t = Some (CCas o).
Proof.
  intros M Hr Hx Hx' Hc Hc'. pose proof (thread_shows _ _ o _ _ _ _ _ _ M Hr) as Hs. unfold shows, view_mem in Hs.
  rewrite Hx, Hx' in Hs. cbn in Hs. unfold abs_stream in Hs. rewrite Hc, Hc' in Hs.
  destruct (observe_thread o t e m) as [ev|] eqn:Ev; [| done].
  destruct ev; cbn in Hs; [destruct Hs; done | done | destruct Hs; done |].
  unfold observe_thread in Ev. destruct t as [id pc|n id sid pc|o1 id sid pc|o1 id sid pc|n id p|id]; try done;
    destruct pc; try done; destruct e; try done; unfold observe_close in Ev; repeat hcase Ev; try done; by subst.
Qed.

Lemma shut_init : shut_inv init.
Proof. split; cbn; intros *; by rewrite lookup_empty. Qed.

(** Entering a close: the entry has just gone, or it is the teardown. *)
Lemma cas_origin t e m t' m' ts t1 o :
  thread_step allowedDomains hb t e m = Some (t', m', ts) -> t' = Some t1 -> closer_of t1 = Some (CCas o) ->
  visiting t1 \/ exists id sid, (table m id ≫= fun T => T !! sid) = Some o /\
    m' = upd_session id (ss_upd_streams (delete sid)) m.
Proof.
  intros Hr E Hc. destruct t as [id pc|n id sid pc|o1 id sid pc|o1 id sid pc|n id p|id]; cbn in Hr;
    step_cases Hr; injection Hr as <- <- <-; subst; try discriminate E; injection E as <-;
    cbn in Hc; try discriminate Hc; injection Hc as ->.
  all: try (left; by repeat eexists).
  all: right; match goal with Hcs : close_step _ _ _ ?c _ = _ |- _ =>
    destruct c; cbn in Hcs; repeat hcase Hcs; try discriminate Hcs; injection Hcs as <- <- end;
    eexists _, _; (split; [| reflexivity]); unfold table;
    match goal with Hl : (v2Sessions ?m !! ?id ≫= _) = _ |- _ => by destruct (v2Sessions m !! id) end.
Qed.

Lemma removed_unlisted id sid o m m' : mem_ok m -> (table m id ≫= fun T => T !! sid) = Some o ->
  m' = upd_session id (ss_upd_streams (delete sid)) m -> unlisted o m'.
Proof.
  intros M Hl -> i k Hk. eapply entry_delete in Hk as [Hk Hne]; [| reflexivity]. apply Hne.
  assert (Hkey : forall i k, (table m i ≫= fun T => T !! k) = Some o -> exists x, heap m !! o = Some x /\ key_of x = (i, k)).
  { intros i' k' E. unfold table in E. destruct (v2Sessions m !! i') as [s|] eqn:Hs; [| done]. cbn in E.
    destruct (mo_session m M i' s Hs) as (_ & _ & _ & T). destruct (T k' o E) as (x & Hx & K1 & K2).
    exists x. unfold key_of. by rewrite K1, K2. }
  destruct (Hkey _ _ Hl) as (x1 & Hx1 & E1), (Hkey _ _ Hk) as (x2 & Hx2 & E2). simplify_eq. congruence.
Qed.

Lemma closer_ok_obj t c m o : thread_ok t m -> closer_of t = Some c -> closer_obj c = Some o -> is_Some (heap m !! o).
Proof.
  intros Hok Hc Ho. assert (exists w id, closer_ok w id c m) as (w & id & Hcl).
  { destruct t as [id pc|n id sid pc|o1 id sid pc|o1 id sid pc|n id p|id]; cbn in Hc; try discriminate Hc;
      destruct pc; try discriminate Hc; injection Hc as <-; eexists _, id; cbn in *; naive_solver. }
  destruct c; cbn in Ho, Hcl; try discriminate Ho; injection Ho as ->; destruct Hcl as (x & Hx & _); by exists x.
Qed.

(** ** One step of a goroutine *)

Section OneStep.
Variables (y : sys) (w0 : who) (e : env) (t : thread) (t' : option thread) (m' : mem) (ts : list thread).
Hypothesis Y : sys_ok y.
Hypothesis Ht : threads y !! w0 = Some t.
Hypothesis Hr : thread_step allowedDomains hb t e (memory y) = Some (t', m', ts).
Let m := memory y.
Let y' := Sys (spawn ts (set_thread w0 t' (threads y))) m'.

Lemma oa_bound o x : heap m !! o = Some x -> (o < next_obj m)%nat.
Proof. intros Hx. by destruct (mo_stream m (sk_mem _ Y) o x Hx) as (_ & ? & _). Qed.

(** The teardown of a session stays one. *)
Lemma oa_torn id : torn id y -> torn id y'.
Proof.
  intros T pc Hpc. destruct (os_inv _ _ _ _ _ _ _ _ _ Hr _ _ Hpc) as [[Hin _] | [[Hw E] | [Hne Hold]]].
  - destruct (step_spawns _ _ _ _ _ _ _ _ Hr) as [-> | [(?&?&?&?&_&->&_) | [(?&?&?&_&->&_) | (?&?&?&?&_&->&_)]]];
      repeat (apply elem_of_cons in Hin as [Hin | Hin]; [discriminate Hin |]); by apply elem_of_nil in Hin.
  - pose proof (os_who _ _ _ Y Ht) as Hwho. rewrite <-Hw in Hwho. destruct t as [id0 pc0| | | | |]; try discriminate Hwho.
    injection Hwho as ->. pose proof Ht as Ht'. rewrite <-Hw in Ht'. specialize (T _ Ht').
    pose proof Hr as Hr'. cbn in Hr'. subst t'. step_cases Hr'; injection Hr' as <- <- <-; try discriminate T; done.
  - by apply T.
Qed.

Lemma oa_shut : shut_inv y -> shut_inv y'.
Proof.
  intros [Sc Sd]. destruct (os_good _ _ _ _ _ _ _ _ _ Y Ht Hr) as [M' G]. split; cbn [memory y'].
  - intros w1 t1 o H1 Hc.
    assert (Hold : forall t0, closer_of t0 = Some (CCas o) -> threads y !! w1 = Some t0 ->
      visiting t0 \/ unlisted o m').
    { intros t0 Hc0 H0. destruct (Sc _ _ _ H0 Hc0) as [? | U]; [by left | right]. eapply unlisted_step; [exact Hr | | done].
      destruct (sk_threads _ Y _ _ H0) as [_ Hok]. destruct (closer_ok_obj t0 (CCas o) m o Hok Hc0 eq_refl) as [x Hx].
      by eapply oa_bound. }
    destruct (os_inv _ _ _ _ _ _ _ _ _ Hr _ _ H1) as [[Hin _] | [[-> E] | [Hne Ho]]]; [| | by eapply Hold].
    + destruct (step_spawns _ _ _ _ _ _ _ _ Hr) as [Es | [(?&?&?&?&_&Es&_) | [(?&?&?&_&Es&_) | (?&?&?&?&_&Es&_)]]];
        rewrite Es in Hin; repeat (apply elem_of_cons in Hin as [-> | Hin]; [discriminate Hc |]); by apply elem_of_nil in Hin.
    + destruct (cas_origin _ _ _ _ _ _ _ _ Hr E Hc) as [? | (id & sid & Hl & Em)]; [by left | right].
      eapply removed_unlisted; [apply (sk_mem _ Y) | exact Hl | exact Em].
  - intros o x' Hx' Hc'. destruct (os_obj _ _ _ _ _ _ _ _ _ Y Ht Hr o x' Hx')
      as [(x & Hx & Gx) | (n & id & sid & _ & _ & _ & ->)]; [| done].
    destruct (st_closed x) eqn:Hc.
    + destruct (Sd o x Hx Hc) as [U | T].
      * left. eapply unlisted_step; [exact Hr | by eapply oa_bound | done].
      * right. destruct Gx as (-> & _). by apply oa_torn.
    + pose proof (step_closing _ _ _ _ _ _ _ _ _ (sk_mem _ Y) Hr Hx Hx' Hc Hc') as Hcas.
      destruct (Sc _ _ _ Ht Hcas) as [(id & todo & vis & k & c & Et) | U].
      * right. apply oa_torn. pose proof (os_who _ _ _ Y Ht) as Hwho. pose proof (os_ok _ _ _ Y Ht) as Hok.
        rewrite Et in Hwho, Hok, Hcas. cbn in Hwho, Hcas. injection Hcas as ->.
        destruct Hok as (s & _ & _ & _ & x1 & Hx1 & Hs1). cbn in Hx1. destruct Gx as (-> & _). simplify_eq.
        intros pc Hpc. by simplify_eq.
      * left. eapply unlisted_step; [exact Hr | by eapply oa_bound | done].
Qed.
End OneStep.

(** ** From the connection to the queue *)

Definition entry (id sid : Z) (o : nat) (m : mem) : Prop := (table m id ≫= fun T => T !! sid) = Some o.

(** What the read loop has in hand for object [o] of stream [sid]. *)
Definition hold (o : nat) (sid : Z) (pc : loop_pc) : bytes :=
  match pc with
  | LLookup k p | LSess _ k p | LGlob _ k p => if k =? sid then p else []
  | LEnq o' p => if decide (o' = o) then p else []
  | _ => []
  end.

(** Whether more DATA frames can reach the object. *)
Definition receptive (id sid : Z) (o : nat) (pc : loop_pc) (m : mem) : Prop :=
  match pc with
  | LRead | LBusy _ | LLookup _ _ => entry id sid o m
  | LSess o' _ _ | LGlob o' _ _ | LEnq o' _ => entry id sid o m \/ o' = o
  | LShed k | LClose (CDel k) => entry id sid o m /\ k <> sid
  | LClose _ => entry id sid o m
  | _ => False
  end.

Lemma entry_same id sid o m m' : same_tables m m' -> entry id sid o m' <-> entry id sid o m.
Proof. intros Hs. unfold entry. by rewrite (Hs id). Qed.
Lemma entry_lookup id sid o m s : v2Sessions m !! id = Some s -> entry id sid o m <-> streams s !! sid = Some o.
Proof. intros Hs. unfold entry, table. by rewrite Hs. Qed.

Lemma receptive_entry id sid o pc m m' : (entry id sid o m' -> entry id sid o m) ->
  receptive id sid o pc m' -> receptive id sid o pc m.
Proof. intros He. destruct pc as [ | | | | | | |[]| | | | | |]; cbn; naive_solver. Qed.

Lemma received_same o m m' x x' :
  heap m' = heap m -> heap m !! o = Some x -> heap m' !! o = Some x' -> received (st_hist x') = received (st_hist x).
Proof. intros E Hx Hx'. rewrite E in Hx'. by simplify_eq. Qed.
Lemma received_alter o o' f m m' x x' : heap m' = alter f o' (heap m) ->
  (forall x, received (st_hist (f x)) = received (st_hist x)) ->
  heap m !! o = Some x -> heap m' !! o = Some x' -> received (st_hist x') = received (st_hist x).
Proof.
  intros E Hf Hx Hx'. rewrite E in Hx'. apply lookup_alter_Some in Hx' as [(-> & z & Hz & ->) | [_ Hz]]; simplify_eq; [apply Hf | done].
Qed.

(** Only the read loop's enqueue adds to what a stream has received. *)
Lemma step_received t e m t' m' ts o x x' :
  mem_ok m -> thread_step allowedDomains hb t e m = Some (t', m', ts) ->
  heap m !! o = Some x -> heap m' !! o = Some x' ->
  received (st_hist x') = received (st_hist x) \/
  exists id p, t = TLoop id (LEnq o p) /\ e = Tau /\ st_closed x = false /\
    received (st_hist x') = received (st_hist x) ++ p.
Proof.
  intros M Hr Hx Hx'. pose proof (thread_shows _ _ o _ _ _ _ _ _ M Hr) as Hs. unfold shows, view_mem in Hs.
  rewrite Hx, Hx' in Hs. cbn in Hs. unfold abs_stream in Hs.
  destruct (observe_thread o t e m) as [ev|] eqn:Ev; [| injection Hs as -> _ _ _; by left].
  destruct ev; cbn in Hs; [| injection Hs as -> _ _ _; by left | destruct Hs as [_ Hs]; injection Hs as -> _ _ _; by left
    | destruct Hs as [_ Hs]; injection Hs as -> _ _; by left].
  destruct Hs as [Hc Hs]. injection Hs as E _ _ _. right. apply negb_true_iff in Hc.
  unfold observe_thread in Ev. destruct t as [id pc|n id sid pc|o1 id sid pc|o1 id sid pc|n id p|id]; try done;
    destruct pc; try done; destruct e; try done; unfold observe_close in Ev; repeat hcase Ev; try done.
  injection Ev as ->. subst. by eexists _, _.
Qed.

(** The read loop passes on what it reads, or stops listening. *)
Lemma loop_moves id pc e m pc' m' ts sid o x :
  loop_step id pc e m = Some (Some (TLoop id pc'), m', ts) -> mem_ok m -> unique_keys m ->
  heap m !! o = Some x -> key_of x = (id, sid) ->
  (forall o1 k p, pc = LGlob o1 k p -> obj_key o1 (id, k) m) ->
  (st_closed x = true -> tearing pc = false -> unlisted o m) ->
  receptive id sid o pc' m' ->
  receptive id sid o pc m /\
  match pc with
  | LEnq o1 p => o1 = o -> st_closed x = false
  | _ => hold o sid pc' = hold o sid pc ++ data_of sid (frames_in id (Run (WLoop id) e))
  end.
Proof.
  intros Hr M Hu Hx Hk Hg Hcl.
  assert (Hent : forall s k o1, v2Sessions m !! id = Some s -> streams s !! k = Some o1 -> o1 = o -> k = sid).
  { intros s k o1 Hs Ho1 ->. destruct (mo_session m M id s Hs) as (_ & _ & _ & T).
    destruct (T k o Ho1) as (x1 & Hx1 & _ & K2). simplify_eq. unfold key_of in Hk. congruence. }
  assert (He : entry id sid o m' -> entry id sid o m).
  { eapply (step_entries (TLoop id pc) e); [exact Hr | by destruct (mo_stream m M o x Hx) as (_ & ? & _)]. }
  step_cases Hr; injection Hr as Epc Em Ets; try discriminate Epc; try injection Epc as <-; subst m' ts; subst.
  all: pose proof (fun k => entry_lookup id k o m _ E) as Hl.
  all: intros Hrec; cbn in Hrec; try (by destruct Hrec).
  all: cbn [frames_in hold]; rewrite ?decide_True by done; try rewrite E2.
  all: cbn [receptive]; rewrite ?data_nil, ?app_nil_r.
  all: try (split; [by apply He, Hrec || by apply He | by rewrite data_neutral]).
  - split; [by apply He |]. rewrite data_one. unfold for_stream. cbn. by rewrite andb_true_r.
  - split; [by apply He | done].
  - split; [| done]. destruct Hrec as [? | ->]; [done |]. apply Hl. by rewrite <-(Hent _ _ _ eq_refl E2 eq_refl).
  - split; [done |]. case_match; [bool_facts; subst sid0; apply Hl in Hrec; congruence | done].
  - split; [left; by apply He, Hrec |]. by rewrite (proj2 (Z.eqb_neq _ _)) by apply Hrec.
  - by split.
  - split; [left; by apply He, Hrec |]. by rewrite (proj2 (Z.eqb_neq _ _)) by apply Hrec.
  - split; [done |]. destruct (Hg _ _ _ eq_refl) as (x1 & Hx1 & Hk1).
    destruct (decide (o0 = o)) as [-> | Hne].
    + simplify_eq. rewrite Hk in Hk1. injection Hk1 as ->. by rewrite Z.eqb_refl.
    + case_match; [| done]. bool_facts. subst sid0. destruct Hne. apply (Hu _ _ _ _ Hx1 Hx). congruence.
  - split; [by left |]. intros ->. simplify_eq. exfalso. by apply (Hcl E3 eq_refl id sid).
  - split; [left; by apply He |]. intros ->. by simplify_eq.
  - split; [split; [by apply He, Hrec | apply Hrec] | done].
  - split; [| done]. assert (Hm0 : entry id sid o m0) by (destruct c0; [apply Hrec | done..]).
    destruct c as [k|o1|o1|o1|o1]; [split; [by apply He |] | by apply He..]. intros ->.
    cbn in E2. hcase E2; [| done]. injection E2 as <- <-. eapply entry_delete in Hm0 as [_ Hm0]; [done | reflexivity].
  - split; [| done]. destruct c as [k|o1|o1|o1|o1]; [split; [by apply He |] | by apply He..]. intros ->.
    cbn in E2. hcase E2; [done |]. injection E2 as <-. apply Hl in Hrec. rewrite E in E0. cbn in E0. congruence.
Qed.

(** ** The invariant *)

(** The object the read loop has looked up is the one of the frame's id. *)
Definition hands_inv (y : sys) : Prop :=
  forall id pc o sid p, threads y !! WLoop id = Some (TLoop id pc) ->
    pc = LSess o sid p \/ pc = LGlob o sid p -> obj_key o (id, sid) (memory y).

Record arrived (id : Z) (seen : frames) (y : sys) : Prop := {
  ar_told sid : says sid v2TypeData seen -> told_open id sid (memory y);
  ar_data o x sid : heap (memory y) !! o = Some x -> key_of x = (id, sid) ->
    exists rest, data_of sid seen = received (st_hist x) ++ rest /\
      forall pc, threads y !! WLoop id = Some (TLoop id pc) -> receptive id sid o pc (memory y) ->
        rest = hold o sid pc;
}.

Section ArriveStep.
Variables (y : sys) (w0 : who) (e : env) (t : thread) (t' : option thread) (m' : mem) (ts : list thread).
Hypothesis Y : sys_ok y.
Hypothesis L : leak_inv y.
Hypothesis S : shut_inv y.
Hypothesis K : hands_inv y.
Hypothesis Hpol : polite (Run w0 e) y.
Hypothesis Ht : threads y !! w0 = Some t.
Hypothesis Hr : thread_step allowedDomains hb t e (memory y) = Some (t', m', ts).
Let m := memory y.
Let y' := Sys (spawn ts (set_thread w0 t' (threads y))) m'.

(** Where the read loop of a session was. *)
Lemma as_loop id pc' : threads y' !! WLoop id = Some (TLoop id pc') ->
  (exists pc, w0 = WLoop id /\ t = TLoop id pc /\ t' = Some (TLoop id pc')) \/
  (w0 <> WLoop id /\ threads y !! WLoop id = Some (TLoop id pc')).
Proof.
  intros Hpc. destruct (os_inv _ _ _ _ _ _ _ _ _ Hr _ _ Hpc) as [[Hin _] | [[Hw E] | [Hne Hold]]].
  - destruct (step_spawns _ _ _ _ _ _ _ _ Hr) as [-> | [(?&?&?&?&_&->&_) | [(?&?&?&_&->&_) | (?&?&?&?&_&->&_)]]];
      repeat (apply elem_of_cons in Hin as [Hin | Hin]; [discriminate Hin |]); by apply elem_of_nil in Hin.
  - left. pose proof (os_who _ _ _ Y Ht) as Hwho. rewrite <-Hw in Hwho. destruct t as [id0 pc0| | | | |]; try discriminate Hwho.
    injection Hwho as ->. by exists pc0.
  - right. by split; [congruence |].
Qed.

Lemma as_hands : hands_inv y'.
Proof.
  intros id pc' o sid p Hpc Hp. destruct (os_good _ _ _ _ _ _ _ _ _ Y Ht Hr) as [M' G].
  destruct (as_loop _ _ Hpc) as [(pc & Hw & Et & E) | [Hne Hold]].
  - apply (obj_key_stable _ _ _ _ _ G). pose proof Ht as Ht'. pose proof Hr as Hr'. rewrite Hw, Et in Ht'. rewrite Et in Hr'.
    cbn in Hr'. subst t'. clear G M'. step_cases Hr'; injection Hr' as <- <- <-; destruct Hp as [Hp | Hp]; try discriminate Hp;
      injection Hp as -> -> ->.
    + destruct (mo_session m (sk_mem _ Y) id _ E) as (_ & _ & _ & T).
      match goal with Ho : streams _ !! _ = Some _ |- _ => destruct (T _ _ Ho) as (x & Hx & K1 & K2) end.
      exists x. split; [done |]. unfold key_of. by rewrite K1, K2.
    + eapply K; [exact Ht' | by left].
  - apply (obj_key_stable _ _ _ _ _ G). by eapply K.
Qed.

Lemma as_told id seen sid : arrived id seen y ->
  says sid v2TypeData (seen ++ frames_in id (Run w0 e)) -> told_open id sid m'.
Proof.
  intros A Hs. destruct (os_good _ _ _ _ _ _ _ _ _ Y Ht Hr) as [M' G]. apply (told_open_stable _ _ _ _ _ G).
  apply says_app in Hs as [Hs | Hs]; [by apply (ar_told _ _ _ A) |]. pose proof Hpol as Hp.
  destruct w0 as [id0| | | | |], e; try (by apply not_says_nil in Hs). cbn in Hs, Hp. case_decide as Hid; [subst id0 | by apply not_says_nil in Hs].
  destruct (parse_stream_frame pt) as [sf| |] eqn:Hsf; [| by apply not_says_nil in Hs..].
  apply says_one in Hs as [<- Hty]. destruct (Hp sf eq_refl) as [_ Hd]. by apply Hd.
Qed.

(** A stream just stored has been sent nothing. *)
Lemma as_new id seen n sid : arrived id seen y -> t = TOpen n id sid OStore ->
  data_of sid seen = [] /\
  forall pc, threads y !! WLoop id = Some (TLoop id pc) -> hold (next_obj m) sid pc = [].
Proof.
  intros A Et. destruct (os_task _ _ _ Y L Ht n id sid Et) as (_ & Hno & _). split.
  - apply data_silent. intros Hs. destruct (ar_told _ _ _ A _ Hs) as (o & x & Hx & Hk & _). by eapply Hno.
  - intros pc Hpc. pose proof (li_polite _ L _ _ Hpc) as Hp. destruct (sk_threads _ Y _ _ Hpc) as [_ (s & _ & Hok)].
    destruct pc as [| |k p|o1 k p|o1 k p|o1 p| | | | | | | |]; try done; cbn in Hp, Hok |- *.
    + case_match; [| done]. bool_facts. subst k. destruct Hp as (o & x & Hx & Hk & _). by destruct (Hno o x).
    + case_match; [| done]. bool_facts. subst k. destruct (K _ _ o1 sid p Hpc ltac:(by left)) as (x & Hx & Hk). by destruct (Hno o1 x).
    + case_match; [| done]. bool_facts. subst k. destruct (K _ _ o1 sid p Hpc ltac:(by right)) as (x & Hx & Hk). by destruct (Hno o1 x).
    + case_decide as Ho; [| done]. subst o1. destruct Hok as (_ & _ & (x & Hx & _) & _).
      unfold m in *. by rewrite (next_obj_fresh _ (sk_mem _ Y)) in Hx.
Qed.

Lemma frames_in_other id : w0 <> WLoop id -> frames_in id (Run w0 e) = [].
Proof. intros Hne. cbn. destruct w0, e; try done. case_decide; [congruence | done]. Qed.

Lemma app_nil_r_inv {A} (l k : list A) : l ++ k = l -> k = [].
Proof. intros E. apply (app_inv_head l). by rewrite E, app_nil_r. Qed.

(** A stream that was there. *)
Lemma as_old id seen o sid x x' : arrived id seen y -> heap m !! o = Some x -> heap m' !! o = Some x' ->
  key_of x = (id, sid) ->
  exists rest, data_of sid (seen ++ frames_in id (Run w0 e)) = received (st_hist x') ++ rest /\
    forall pc, threads y' !! WLoop id = Some (TLoop id pc) -> receptive id sid o pc m' -> rest = hold o sid pc.
Proof.
  intros A Hx Hx' Hk. destruct (ar_data _ _ _ A o x sid Hx Hk) as (rest & Hd & Hh). rewrite data_app, Hd.
  assert (He : entry id sid o m' -> entry id sid o m).
  { eapply step_entries; [exact Hr | by destruct (mo_stream m (sk_mem _ Y) o x Hx) as (_ & ? & _)]. }
  destruct (step_received _ _ _ _ _ _ _ _ _ (sk_mem _ Y) Hr Hx Hx') as [Hrc | (id1 & p & Et & Ee & Hc & Hrc)].
  - exists (rest ++ data_of sid (frames_in id (Run w0 e))). split; [by rewrite Hrc, app_assoc |].
    intros pc' Hpc Hrec. destruct (as_loop _ _ Hpc) as [(pc & Hw & Et & E') | [Hne Hold]].
    + pose proof Ht as Ht'. pose proof Hr as Hr'. rewrite Hw, Et in Ht'. rewrite Et in Hr'. cbn in Hr'. rewrite E' in Hr'.
      destruct (loop_moves id pc e m pc' m' ts sid o x Hr' (sk_mem _ Y) (li_unique _ L) Hx Hk) as [Hrec0 Hmv]; [| | exact Hrec |].
      * intros o1 k p ->. eapply K; [exact Ht' | by right].
      * intros Hcl Htr. destruct (sh_closed _ S o x Hx Hcl) as [? | T]; [done |].
        unfold key_of in Hk. injection Hk as Hs _. rewrite Hs in T. specialize (T _ Ht'). congruence.
      * rewrite (Hh pc Ht' Hrec0), Hw. destruct pc as [| | | | |o1 p| | | | | | | |]; try by rewrite Hmv.
        clear Hrec Hh He. step_cases Hr'; injection Hr' as Epc Em Ets; subst pc' m' ts e; cbn [hold];
          (destruct (decide (o1 = o)) as [Ho | Ho]; [subst o1 | done]); rewrite data_nil, app_nil_r.
        -- specialize (Hmv eq_refl). unfold m in Hx. congruence.
        -- cbn in Hx'. unfold m in Hx. rewrite lookup_alter_eq, Hx in Hx'. injection Hx' as <-. cbn in Hrc.
           by apply app_nil_r_inv in Hrc.
    + rewrite frames_in_other, data_nil, app_nil_r by done. apply Hh; [done |]. by eapply receptive_entry.
  - exists []. rewrite Hrc. pose proof (os_who _ _ _ Y Ht) as Hw. pose proof (os_ok _ _ _ Y Ht) as Hok.
    pose proof Hr as Hr'. pose proof Ht as Ht'. rewrite Et in Hw, Hok, Hr', Ht'. cbn in Hw.
    destruct Hok as (s & _ & _ & _ & (x1 & Hx1 & Hs1) & _). fold m in Hx1. rewrite Hx in Hx1. injection Hx1 as <-.
    assert (id1 = id) as -> by (unfold key_of in Hk; congruence).
    pose proof Ht' as Ht2. rewrite <-Hw in Ht2. rewrite (Hh _ Ht2 (or_intror eq_refl)), Ee, <-Hw.
    cbn [hold frames_in]. rewrite decide_True by done.
    rewrite data_nil, !app_nil_r. split; [done |]. intros pc' Hpc _.
    destruct (as_loop _ _ Hpc) as [(pc & _ & Et' & E') | [Hne _]]; [| congruence].
    cbn in Hr'. rewrite E' in Hr'. step_cases Hr'; injection Hr' as Epc Em Ets; by subst pc'.
Qed.

Lemma as_arrived id seen : arrived id seen y -> arrived id (seen ++ frames_in id (Run w0 e)) y'.
Proof.
  intros A. split; [by intros sid; apply as_told |]. intros o x' sid Hx' Hk.
  destruct (os_obj _ _ _ _ _ _ _ _ _ Y Ht Hr o x' Hx') as [(x & Hx & Gx) | (n & id1 & sid1 & Et & Em & -> & ->)].
  - eapply as_old; [done | exact Hx | exact Hx' |]. by rewrite <-Hk, (obj_guar_key _ _ _ _ Gx).
  - unfold key_of in Hk. cbn in Hk. injection Hk as -> ->. exists []. destruct (as_new id seen n sid A Et) as [Hd Hh].
    assert (Hw : w0 <> WLoop id) by (rewrite <-(os_who _ _ _ Y Ht), Et; done).
    rewrite frames_in_other, app_nil_r, Hd by done. split; [done |]. intros pc Hpc _.
    destruct (as_loop _ _ Hpc) as [(pc0 & ? & _) | [_ Hold]]; [done |]. by rewrite Hh.
Qed.
End ArriveStep.

(** ** The other actions *)

(** They leave the objects and the tables alone; a new session has a number of
    its own. *)
Lemma frame_actions a y y' : sys_ok y -> step allowedDomains hb a y = Some y' -> (forall w e, a <> Run w e) ->
  heap (memory y') = heap (memory y) /\
  (forall w t, threads y' !! w = Some t -> threads y !! w = Some t \/
     closer_of t = None /\ (forall id pc, t = TLoop id pc -> pc = LRead /\ id = connCounter (memory y) + 1)) /\
  (forall id sid o, entry id sid o (memory y') -> entry id sid o (memory y)).
Proof.
  intros Y Hs Hno. destruct a as [w e| | |d]; [by destruct (Hno w e) | ..]; cbn in Hs.
  - case_decide; [| done]. injection Hs as <-. set (id := connCounter (memory y) + 1). split_and!; [done | |].
    + intros w t [[Hin Hw] | Hw]%(spawn_lookup [TLoop id LRead; THeart id]); [right | by left].
      apply list_elem_of_In in Hin as [<- | [<- | []]]; (split; [done |]); by intros id1 pc [= <- <-].
    + intros i sid o. unfold entry, table. cbn. destruct (decide (i = id)) as [-> | Hne].
      * rewrite lookup_insert_eq. cbn. by rewrite lookup_empty.
      * by rewrite lookup_insert_ne.
  - injection Hs as <-. split_and!; [done | by left |]. intros i sid o. unfold entry, table. cbn. rewrite lookup_fmap.
    destruct (v2Sessions (memory y) !! i) as [s|]; [| done]. cbn.
    by destruct (reap_keeps (now (memory y)) s) as (_ & -> & _).
  - hcase Hs; [| done]. injection Hs as <-. split_and!; [done | by left | done].
Qed.

Record arrive_inv (y : sys) : Prop := { ai_shut : shut_inv y; ai_hands : hands_inv y }.

Lemma arrive_init : arrive_inv init.
Proof. split; [apply shut_init |]. intros id pc o sid p. cbn. by rewrite lookup_empty. Qed.

Lemma torn_frame id y y' : torn id y -> id <= connCounter (memory y) ->
  (forall w t, threads y' !! w = Some t -> threads y !! w = Some t \/
     closer_of t = None /\ (forall id pc, t = TLoop id pc -> pc = LRead /\ id = connCounter (memory y) + 1)) -> torn id y'.
Proof. intros T Hid Tb pc Hpc. destruct (Tb _ _ Hpc) as [Ho | [_ Hn]]; [by apply T |]. destruct (Hn _ _ eq_refl). lia. Qed.

Lemma arrive_step a y y' : sys_ok y -> leak_inv y -> polite a y -> step allowedDomains hb a y = Some y' ->
  arrive_inv y -> arrive_inv y'.
Proof.
  intros Y L P Hs [S K].
  assert ((exists w e, a = Run w e) \/ forall w e, a <> Run w e) as [(w & e & ->) | Hno] by (destruct a; eauto).
  { cbn in Hs. destruct (threads y !! w) as [t|] eqn:Ht; [| done]. cbn in Hs.
    destruct (thread_step _ _ t e (memory y)) as [[[t' m'] ts]|] eqn:Hr; [| done]. injection Hs as <-.
    split; [by eapply oa_shut | by eapply as_hands]. }
  destruct (frame_actions _ _ _ Y Hs Hno) as (Eh & Tb & En).
  assert (Hu : forall o, unlisted o (memory y) -> unlisted o (memory y')) by (intros o U i sid Hl; by apply (U i sid), En).
  split; [split |].
  - intros w t o Ht Hc. destruct (Tb _ _ Ht) as [Ho | [Hn _]]; [| congruence].
    destruct (sh_closer _ S _ _ _ Ho Hc) as [? | U]; [by left | right; auto].
  - intros o x Hx Hc. rewrite Eh in Hx. destruct (sh_closed _ S _ _ Hx Hc) as [U | T]; [left; auto | right].
    apply (torn_frame _ y); [done | | done]. destruct (mo_stream _ (sk_mem _ Y) o x Hx) as (_ & _ & s & Hss).
    by destruct (mo_session _ (sk_mem _ Y) _ s Hss) as (_ & [_ ?] & _).
  - intros id pc o sid p Hpc Hp. unfold obj_key. rewrite Eh. destruct (Tb _ _ Hpc) as [Ho | [_ Hn]]; [by eapply K |].
    destruct (Hn _ _ eq_refl) as [-> _]. by destruct Hp.
Qed.

Lemma arrived_step id seen a y y' : sys_ok y -> leak_inv y -> arrive_inv y -> polite a y ->
  step allowedDomains hb a y = Some y' -> id <= connCounter (memory y) ->
  arrived id seen y -> arrived id (seen ++ frames_in id a) y'.
Proof.
  intros Y L [S K] P Hs Hid A.
  assert ((exists w e, a = Run w e) \/ forall w e, a <> Run w e) as [(w & e & ->) | Hno] by (destruct a; eauto).
  { cbn in Hs. destruct (threads y !! w) as [t|] eqn:Ht; [| done]. cbn in Hs.
    destruct (thread_step _ _ t e (memory y)) as [[[t' m'] ts]|] eqn:Hr; [| done]. injection Hs as <-.
    by eapply as_arrived. }
  destruct (frame_actions _ _ _ Y Hs Hno) as (Eh & Tb & En).
  replace (frames_in id a) with (@nil stream_frame) by (destruct a; [by destruct (Hno w e) | done..]). rewrite app_nil_r.
  split; unfold told_open; rewrite Eh; [apply (ar_told _ _ _ A) |]. intros o x sid Hx Hk.
  destruct (ar_data _ _ _ A o x sid Hx Hk) as (rest & Hd & Hh). exists rest. split; [done |].
  intros pc Hpc Hrec. destruct (Tb _ _ Hpc) as [Ho | [_ Hn]]; [| destruct (Hn _ _ eq_refl); lia].
  apply Hh; [done |]. eapply receptive_entry; [apply En | done].
Qed.

(** A session starts with nothing. *)
Lemma arrived_new y : sys_ok y -> forall id, connCounter (memory y) < id ->
  forall y', heap (memory y') = heap (memory y) -> arrived id [] y'.
Proof.
  intros Y id Hid y' Eh. split; [by intros sid ?%not_says_nil |]. intros o x sid Hx Hk. exfalso. rewrite Eh in Hx.
  destruct (mo_stream _ (sk_mem _ Y) o x Hx) as (_ & _ & s & Hs).
  destruct (mo_session _ (sk_mem _ Y) _ s Hs) as (_ & [_ Hle] & _). unfold key_of in Hk. injection Hk as Hk1 _. lia.
Qed.
End Arrive.
