(* ===== verification/SessionTraffic.v ===== *)
(** * The traffic of a session

    The account of a session in terms of the frames that went each way, kept
    by every step of every goroutine: ids are opened by OPEN frames read, DATA
    goes to the streams it is for, the credit written is the credit given, and
    OPEN_OK is only said of streams that are open. *)

From S2P Require Import Prelude.
From S2P Require Import GoStrings.
From S2P Require Import Padding.
From S2P Require Import StreamFrame.
From S2P Require Import FrameLog.
From S2P Require Import Target.
From S2P Require Import Allowlist.
From S2P Require Import PskConfig.
From S2P Require Import Session.
From S2P Require Import SessionInv.
From S2P Require Import SessionSafe.
From S2P Require Import SessionSys.
From S2P Require Import SessionLeak.
From S2P Require Import SessionTrace.
From S2P Require Import SessionArrive.

Record traffic_ok (id : Z) (seen sent : frames) (y : sys) : Prop := {
  tr_opened sid T : opened (memory y) id = Some T -> sid ∈ T -> says sid v2TypeOpen seen;
  tr_arrived : arrived id seen y;
  tr_credit sid : given_all id sid (memory y) = credits sid sent;
  tr_told sf : sf ∈ sent -> sf_type sf = v2TypeOpenOK ->
    sf_payload sf = be_put 4 v2InitialWindow /\ told_open id (sf_id sf) (memory y);
  tr_fit : Forall sf_ok sent;
}.

Section Traffic.
Context `{UnicodeTables} (allowedDomains : list allowEntry) (hb : hb_params).
Abbreviation step := (step allowedDomains hb).

(** What holds of the whole system when its clients are polite. *)
Record server_inv (y : sys) : Prop := {
  si_sys : sys_ok y;
  si_leak : leak_inv y;
  si_arrive : arrive_inv y;
  si_sids : all_sids_fit y;
}.

Lemma server_init : server_inv init.
Proof.
  split; [apply init_ok | apply init_leak_inv | apply arrive_init |].
  intros w t. cbn. by rewrite lookup_empty.
Qed.

Lemma server_step a y y' : polite a y -> step a y = Some y' -> server_inv y -> server_inv y'.
Proof.
  intros P Hs [Y L A F]. split; [by eapply step_ok | by eapply leak_inv_step | by eapply arrive_step | by eapply sids_step].
Qed.

(** OPEN_OK is written together with the start of the stream. *)
Lemma open_ok_started t e m t' m' ts w id sf :
  thread_step allowedDomains hb t e m = Some (t', m', ts) -> thread_ok t m ->
  speech t e = Some (id, sf) -> sf_type sf = v2TypeOpenOK -> frames_out id (Run w e) m m' = [sf] ->
  sf_payload sf = be_put 4 v2InitialWindow /\ told_open id (sf_id sf) m'.
Proof.
  intros Hr Hok Hs Hty Ho. destruct t as [i pc|n i sid pc|o i sid pc|o i sid pc|n i p|i]; cbn in Hs; try destruct pc;
    try discriminate Hs; destruct e; try discriminate Hs; injection Hs as -> <-; try discriminate Hty.
  split; [done |]. destruct Hok as (_ & _ & x & Hx & K1 & K2 & _). cbn in Hr. step_cases Hr; injection Hr as <- <- <-.
  - match goal with Hw : write_frame _ _ _ _ = _ |- _ => destruct (write_frame_tables _ _ _ _ _ _ Hw) as (_ & _ & Eh) end.
    exists o, (st_start x). cbn. rewrite Eh, lookup_alter_eq, Hx. split_and!; [done | | done]. unfold key_of. cbn. congruence.
  - exfalso. rewrite (out_write _ _ _ _ _ _ _ (Written ok) _ E0 eq_refl) in Ho. by rewrite decide_True in Ho.
Qed.

(** A step of one goroutine. *)
Section OneStep.
Variables (y : sys) (w0 : who) (e : env) (t : thread) (t' : option thread) (m' : mem) (ts : list thread).
Hypothesis I : server_inv y.
Hypothesis Hpol : polite (Run w0 e) y.
Hypothesis Ht : threads y !! w0 = Some t.
Hypothesis Hr : thread_step allowedDomains hb t e (memory y) = Some (t', m', ts).
Let m := memory y.
Variables (id : Z) (seen sent : frames).
Hypothesis T : traffic_ok id seen sent y.

Lemma ot_opened sid S : opened m' id = Some S -> sid ∈ S -> says sid v2TypeOpen (seen ++ frames_in id (Run w0 e)).
Proof.
  intros HS Hin. rewrite says_app.
  destruct (step_opened _ _ _ _ _ _ _ _ Hr) as [[Hs _] | (id1 & pt & sid1 & spec & Et & -> & Hp & _ & _ & _ & Ho)].
  - left. eapply (tr_opened _ _ _ _ T); [| exact Hin]. by rewrite <-(Hs id).
  - rewrite Ho in HS. case_decide as Hid.
    + subst id1. destruct (opened m id) as [S0|] eqn:E0; unfold m in E0; rewrite E0 in HS; [| done].
      cbn in HS. injection HS as <-. apply elem_of_union in Hin as [->%elem_of_singleton | Hin].
      * right. pose proof (os_who _ _ _ (si_sys _ I) Ht) as Hw. rewrite Et in Hw. cbn in Hw. rewrite <-Hw.
        cbn. rewrite decide_True, Hp by done. by apply says_one.
      * left. by eapply (tr_opened _ _ _ _ T).
    + left. by eapply (tr_opened _ _ _ _ T).
Qed.

Lemma ot_said : frames_out id (Run w0 e) m m' = [] \/
  exists sf, speech t e = Some (id, sf) /\ frames_out id (Run w0 e) m m' = [sf] /\ sf_ok sf.
Proof.
  destruct (step_speech _ _ _ _ _ _ _ _ id w0 Hr) as [? | (sf & Hs & Ho & Hl)]; [by left | right].
  exists sf. split_and!; [done | done |]. eapply speech_ok; [exact Hs | | done]. by eapply (si_sids _ I).
Qed.

Lemma ot_traffic : traffic_ok id (seen ++ frames_in id (Run w0 e)) (sent ++ frames_out id (Run w0 e) m m')
  (Sys (spawn ts (set_thread w0 t' (threads y))) m').
Proof.
  destruct (os_good _ _ _ _ _ _ _ _ _ (si_sys _ I) Ht Hr) as [M' G]. destruct T as [To Ta Tc Tt Tf]. split; cbn [memory].
  - apply ot_opened.
  - destruct (si_arrive _ I) as [S K]. eapply as_arrived; try done; [apply (si_sys _ I) | apply (si_leak _ I)].
  - intros sid. rewrite credits_app, <-Tc. eapply step_credit; [exact Hr | apply (sk_mem _ (si_sys _ I)) | |];
      by destruct (sk_threads _ (si_sys _ I) _ _ Ht).
  - intros sf [Hin | Hin]%elem_of_app Hty.
    + destruct (Tt sf Hin Hty) as [? ?]. split; [done |]. by eapply told_open_stable.
    + destruct ot_said as [E | (sf1 & Hs & E & _)]; rewrite E in Hin; [by apply elem_of_nil in Hin |].
      apply list_elem_of_singleton in Hin as ->. eapply open_ok_started; [exact Hr | | done | done | exact E].
      by destruct (sk_threads _ (si_sys _ I) _ _ Ht).
  - apply Forall_app. split; [done |]. destruct ot_said as [-> | (sf & _ & -> & ?)]; [done | by apply Forall_singleton].
Qed.
End OneStep.

Lemma wire_frame_actions a y y' id : sys_ok y -> step a y = Some y' -> (forall w e, a <> Run w e) ->
  frames_out id a (memory y) (memory y') = [] /\ frames_in id a = [].
Proof. intros Y Hs Hno. destruct a as [w e| | |d]; [by destruct (Hno w e) | done..]. Qed.

Lemma opened_frame a y y' id T : sys_ok y -> step a y = Some y' -> (forall w e, a <> Run w e) ->
  opened (memory y') id = Some T -> opened (memory y) id = Some T \/ T = ∅.
Proof.
  intros Y Hs Hno HT. destruct a as [w e| | |d]; [by destruct (Hno w e) | ..]; cbn in Hs.
  - case_decide; [| done]. injection Hs as <-. unfold opened in *. cbn in HT.
    destruct (decide (id = connCounter (memory y) + 1)) as [-> | Hne].
    + rewrite lookup_insert_eq in HT. injection HT as <-. by right.
    + rewrite lookup_insert_ne in HT by done. by left.
  - injection Hs as <-. left. unfold opened in *. cbn in HT. rewrite lookup_fmap in HT.
    destruct (v2Sessions (memory y) !! id) as [s|]; [| done]. cbn in *.
    by destruct (reap_keeps (now (memory y)) s) as (_ & _ & <-).
  - hcase Hs; [| done]. injection Hs as <-. by left.
Qed.

Lemma traffic_step id seen sent a y y' : server_inv y -> polite a y -> step a y = Some y' ->
  id <= connCounter (memory y) -> traffic_ok id seen sent y ->
  traffic_ok id (seen ++ frames_in id a) (sent ++ frames_out id a (memory y) (memory y')) y'.
Proof.
  intros I P Hs Hid T.
  assert ((exists w e, a = Run w e) \/ forall w e, a <> Run w e) as [(w & e & ->) | Hno] by (destruct a; eauto).
  { cbn in Hs. destruct (threads y !! w) as [t|] eqn:Ht; [| done]. cbn in Hs.
    destruct (thread_step _ _ t e (memory y)) as [[[t' m'] ts]|] eqn:Hr; [| done]. injection Hs as <-. by eapply ot_traffic. }
  pose proof (arrived_step _ _ id seen a y y' (si_sys _ I) (si_leak _ I) (si_arrive _ I) P Hs Hid (tr_arrived _ _ _ _ T)) as Ta.
  destruct (wire_frame_actions _ _ _ id (si_sys _ I) Hs Hno) as [-> Ei]. rewrite Ei in *. rewrite !app_nil_r in *.
  destruct (frame_actions _ _ _ _ _ (si_sys _ I) Hs Hno) as (Eh & _ & _). split; [| done | | | apply (tr_fit _ _ _ _ T)].
  - intros sid S HS Hin. destruct (opened_frame _ _ _ _ _ (si_sys _ I) Hs Hno HS) as [? | ->]; [| by apply elem_of_empty in Hin].
    by eapply (tr_opened _ _ _ _ T).
  - intros sid. rewrite <-(tr_credit _ _ _ _ T sid). by apply given_eq.
  - intros sf Hin Hty. unfold told_open. rewrite Eh. by apply (tr_told _ _ _ _ T).
Qed.

Lemma traffic_new a y y' : server_inv y -> step a y = Some y' -> (forall w e, a <> Run w e) ->
  forall id, connCounter (memory y) < id -> traffic_ok id [] [] y'.
Proof.
  intros I Hs Hno id Hid. destruct (frame_actions _ _ _ _ _ (si_sys _ I) Hs Hno) as (Eh & _ & _). split.
  - intros sid S HS Hin. destruct (opened_frame _ _ _ _ _ (si_sys _ I) Hs Hno HS) as [Ho | ->]; [| by apply elem_of_empty in Hin].
    unfold opened in Ho. destruct (v2Sessions (memory y) !! id) as [s|] eqn:E; [| done].
    destruct (mo_session _ (sk_mem _ (si_sys _ I)) id s E) as (_ & ? & _). lia.
  - by apply (arrived_new y (si_sys _ I) id Hid).
  - intros sid. rewrite (given_eq id sid _ _ Eh), credits_nil. unfold given_all.
    rewrite (map_sum_ext _ (fun _ _ => 0)); [apply map_sum_zero |]. intros o x Hx. unfold given. case_decide as Hk; [| done].
    destruct (mo_stream _ (sk_mem _ (si_sys _ I)) o x Hx) as (_ & _ & s & Hss).
    destruct (mo_session _ (sk_mem _ (si_sys _ I)) _ s Hss) as (_ & [_ ?] & _). unfold key_of in Hk. injection Hk as ? _. lia.
  - intros sf Hin. by apply elem_of_nil in Hin.
  - constructor.
Qed.
End Traffic.
