(* ===== verification/SessionFetch.v ===== *)
(** * What a stream sends back

    The bytes a stream's reader has read from its upstream connection are, in
    order, the DATA frames of the stream that went to the client, followed by
    what the reader has in hand. *)

From S2P Require Import Prelude GoStrings Padding StreamFrame FrameLog Target Allowlist PskConfig.
From S2P Require Import Session SessionInv SessionSafe SessionSys SessionLeak SessionTrace SessionArrive SessionTraffic.

(** The bytes a step reads from the upstream connection of object [o]. *)
Definition pulled (o : nat) (a : action) : bytes :=
  match a with Run (WReader o') (UpRead b _) => if decide (o' = o) then b else [] | _ => [] end.

(** What the reader has read and not sent. *)
Definition due (pc : reader_pc) (rest : bytes) : Prop :=
  match pc with DCheck | DRead => rest = [] | DSend b _ => rest = b | _ => True end.

Record fetch_ok (id : Z) (sent : frames) (F : nat -> bytes) (y : sys) : Prop := {
  fe_told sid : says sid v2TypeData sent -> told_open id sid (memory y);
  fe_data o x sid : heap (memory y) !! o = Some x -> key_of x = (id, sid) ->
    exists rest, F o = data_of sid sent ++ rest /\ (started (st_hist x) = false -> rest = []) /\
      forall pc, threads y !! WReader o = Some (TReader o id sid pc) -> due pc rest;
  fe_none o : heap (memory y) !! o = None -> F o = [];
}.

Section Fetch.
Context `{UnicodeTables} (allowedDomains : list allowEntry) (hb : hb_params).
Abbreviation step := (step allowedDomains hb).

Lemma reader_knows o id sid pc y : sys_ok y -> threads y !! WReader o = Some (TReader o id sid pc) ->
  exists x, heap (memory y) !! o = Some x /\ key_of x = (id, sid) /\ started (st_hist x) = true.
Proof.
  intros Y Ht. destruct (os_ok _ _ _ Y Ht) as (x & Hx & K1 & K2 & Hst & _). exists x. unfold key_of. by rewrite K1, K2.
Qed.

Lemma who_reader t o : who_of t = WReader o -> exists id sid pc, t = TReader o id sid pc.
Proof. destruct t; try discriminate. intros [= ->]. eauto. Qed.

Section OneStep.
Variables (y : sys) (w0 : who) (e : env) (t : thread) (t' : option thread) (m' : mem) (ts : list thread).
Hypothesis I : server_inv y.
Hypothesis Ht : threads y !! w0 = Some t.
Hypothesis Hr : thread_step allowedDomains hb t e (memory y) = Some (t', m', ts).
Let m := memory y.
Let y' := Sys (spawn ts (set_thread w0 t' (threads y))) m'.
Variables (id : Z) (sent : frames) (F : nat -> bytes).
Hypothesis K : fetch_ok id sent F y.
Let out := frames_out id (Run w0 e) m m'.

(** Data for a stream comes from its reader. *)
Lemma of_speaker sid : says sid v2TypeData out ->
  exists o b eof x, t = TReader o id sid (DSend b eof) /\ w0 = WReader o /\
    heap m !! o = Some x /\ key_of x = (id, sid) /\ started (st_hist x) = true.
Proof.
  intros Hs. destruct (ot_said _ _ _ _ _ _ _ _ _ I Ht Hr id) as [E | (sf & Hsp & E & _)]; unfold out, m in Hs;
    rewrite E in Hs; [by apply not_says_nil in Hs |]. apply says_one in Hs as [<- Hty].
  pose proof (os_who _ _ _ (si_sys _ I) Ht) as Hw. pose proof Ht as Ht0. unfold speech in Hsp.
  destruct t as [i pc|n i sid pc|o i sid pc|o i sid pc|n i p|i]; try destruct pc; try discriminate Hsp;
    destruct e; try discriminate Hsp; injection Hsp as -> <-; try discriminate Hty. cbn in Hw. subst w0.
  destruct (reader_knows _ _ _ _ _ (si_sys _ I) Ht0) as (x & Hx & Hk & Hst). cbn. by exists o, b, eof, x.
Qed.

Lemma of_told sid : says sid v2TypeData (sent ++ out) -> told_open id sid m'.
Proof.
  destruct (os_good _ _ _ _ _ _ _ _ _ (si_sys _ I) Ht Hr) as [_ G].
  intros [Hs | Hs]%says_app; apply (told_open_stable _ _ _ _ _ G); [by apply (fe_told _ _ _ _ K) |].
  destruct (of_speaker sid Hs) as (o & b & eof & x & _ & _ & Hx & Hk & Hst). by exists o, x.
Qed.

(** A step of another goroutine sends nothing for the stream. *)
Lemma of_other o x sid : heap m !! o = Some x -> key_of x = (id, sid) -> w0 <> WReader o ->
  data_of sid out = [] /\ pulled o (Run w0 e) = [].
Proof.
  intros Hx Hk Hw. split.
  - apply data_silent. intros Hs. destruct (of_speaker sid Hs) as (o2 & b & eof & x2 & _ & Ew & Hx2 & Hk2 & _).
    apply Hw. rewrite Ew. f_equal. apply (li_unique _ (si_leak _ I) o2 o x2 x Hx2 Hx). congruence.
  - cbn. destruct w0, e; try done. case_decide; [congruence | done].
Qed.

(** A step of the stream's reader. *)
Lemma of_reader o x sid pc rest : t = TReader o id sid pc -> heap m !! o = Some x -> key_of x = (id, sid) -> due pc rest ->
  exists rest', rest ++ pulled o (Run w0 e) = data_of sid out ++ rest' /\
    forall pc', t' = Some (TReader o id sid pc') -> due pc' rest'.
Proof.
  intros Et Hx Hk Hd. pose proof (os_who _ _ _ (si_sys _ I) Ht) as Hw. rewrite Et in Hw. cbn in Hw.
  assert (Hq : ~ says sid v2TypeData out -> data_of sid out = []) by apply data_silent.
  assert (Hno : (forall b eof, pc <> DSend b eof) -> data_of sid out = []).
  { intros Hn. apply Hq. intros Hs. destruct (of_speaker sid Hs) as (o2 & b & eof & x2 & Et2 & _). rewrite Et in Et2.
    injection Et2 as _ E. by destruct (Hn b eof). }
  pose proof Hr as Hr'. rewrite Et in Hr'. cbn in Hr'. unfold reader_step in Hr'. fold m in Hr'. rewrite Hx in Hr'. subst w0.
  destruct pc as [| | b eof | | c |]; destruct e; try discriminate Hr'; cbn [pulled].
  - rewrite Hno by done. rewrite app_nil_r. exists rest. split; [done |]. intros pc' E.
    hcase Hr'; injection Hr' as E' _ _; rewrite E in E'; by injection E' as <-.
  - rewrite Hno, decide_True by done. cbn in Hd. subst rest. exists b. split; [done |]. intros pc' E.
    hcase Hr'; [| discriminate Hr']. repeat hcase Hr'; injection Hr' as E' _ _; rewrite E in E'; injection E' as <-; try done.
    cbn. apply len_zero_nil. pose proof (len_nonneg b). lia.
  - cbn in Hd. subst rest. rewrite app_nil_r. destruct (write_frame id ok _ m) as [r m1] eqn:Hwr.
    assert (Eo : out = if r then [SFrame sid v2TypeData b] else []).
    { unfold out. assert (m' = m1) as -> by (destruct r; by injection Hr' as _ <- _).
      rewrite (out_write _ _ _ _ _ _ _ (Written ok) _ Hwr eq_refl). by rewrite decide_True. }
    rewrite Eo. destruct r.
    + exists []. rewrite data_one. unfold for_stream. cbn. rewrite Z.eqb_refl, app_nil_r. split; [done |].
      intros pc' E. injection Hr' as E' _ _. rewrite E in E'. injection E' as <-. by destruct eof.
    + exists b. split; [done |]. intros pc' E. injection Hr' as E' _ _. rewrite E in E'. by injection E' as <-.
  - rewrite Hno by done. rewrite app_nil_r. exists rest. split; [done |]. intros pc' E.
    repeat hcase Hr'; injection Hr' as E' _ _; rewrite E in E'; by injection E' as <-.
  - rewrite Hno by done. rewrite app_nil_r. exists rest. split; [done |]. intros pc' E. unfold closing_with in Hr'.
    repeat hcase Hr'; try discriminate Hr'; injection Hr' as E' _ _; rewrite E in E'; by injection E' as <-.
  - rewrite Hno by done. rewrite app_nil_r. exists rest. split; [done |]. intros pc' E.
    injection Hr' as E' _ _. by rewrite E in E'.
Qed.

(** The reader of a stream after the step. *)
Lemma of_readers o sid pc' : threads y' !! WReader o = Some (TReader o id sid pc') ->
  (pc' = DCheck /\ exists x, heap m !! o = Some x /\ started (st_hist x) = false) \/
  (w0 = WReader o /\ t' = Some (TReader o id sid pc')) \/
  (w0 <> WReader o /\ threads y !! WReader o = Some (TReader o id sid pc')).
Proof.
  intros Hpc. destruct (os_inv _ _ _ _ _ _ _ _ _ Hr _ _ Hpc) as [[Hin _] | [[Hw E] | [Hne Hold]]]; [left | by right; left | by right; right].
  destruct (step_spawns _ _ _ _ _ _ _ _ Hr) as [-> | [(?&?&?&?&_&->&_) | [(?&?&?&_&->&_) | (n&id1&sid1&o1&Et&->&_)]]];
    repeat (apply elem_of_cons in Hin as [Hin | Hin]; try discriminate Hin); try by apply elem_of_nil in Hin.
  injection Hin as -> -> -> ->. split; [done |]. pose proof (os_ok _ _ _ (si_sys _ I) Ht) as Hok. rewrite Et in Hok.
  destruct Hok as (_ & _ & x & Hx & _ & _ & _ & Hst). by exists x.
Qed.

Lemma of_step : fetch_ok id (sent ++ out) (fun o => F o ++ pulled o (Run w0 e)) y'.
Proof.
  destruct (os_good _ _ _ _ _ _ _ _ _ (si_sys _ I) Ht Hr) as [_ G]. split; cbn [memory y'].
  - apply of_told.
  - intros o x' sid Hx' Hk. rewrite data_app.
    destruct (os_obj _ _ _ _ _ _ _ _ _ (si_sys _ I) Ht Hr o x' Hx') as [(x & Hx & Gx) | (n & id1 & sid1 & Et & _ & -> & ->)].
    + rewrite (obj_guar_key _ _ _ _ Gx) in Hk. destruct (fe_data _ _ _ _ K o x sid Hx Hk) as (rest & -> & Hst & Hd).
      assert (Hst' : started (st_hist x') = false -> started (st_hist x) = false).
      { destruct Gx as (_ & _ & _ & _ & _ & Gs & _). destruct (started (st_hist x)); [| done]. by rewrite Gs. }
      rewrite <-app_assoc. destruct (decide (w0 = WReader o)) as [Ew | Ew].
      * pose proof (os_who _ _ _ (si_sys _ I) Ht) as Hw. rewrite Ew in Hw. pose proof Ht as Ht0. rewrite Ew in Ht0.
        destruct (who_reader _ _ Hw) as (i & j & pc & Et). rewrite Et in Ht0.
        destruct (reader_knows _ _ _ _ _ (si_sys _ I) Ht0) as (x1 & Hx1 & Hk1 & Hst1).
        rewrite Hx in Hx1. injection Hx1 as <-. rewrite Hk in Hk1. injection Hk1 as Ei Ej. subst i j.
        destruct (of_reader o x sid pc rest Et Hx Hk (Hd pc Ht0)) as (rest' & -> & Hd').
        exists rest'. split; [by rewrite app_assoc |]. split; [intros E%Hst'; congruence |]. intros pc' Hpc.
        destruct (of_readers o sid pc' Hpc) as [(_ & x1 & Hx1 & E) | [[_ E] | [? _]]]; [unfold m in Hx1; congruence | by apply Hd' | done].
      * destruct (of_other o x sid Hx Hk Ew) as [-> ->]. exists rest. rewrite !app_nil_r. split; [done |]. split; [auto |].
        intros pc' Hpc. destruct (of_readers o sid pc' Hpc) as [(-> & x1 & Hx1 & E) | [[? _] | [_ Hold]]]; [| done | by apply Hd].
        cbn. apply Hst. unfold m in Hx1. congruence.
    + unfold key_of in Hk. cbn in Hk. injection Hk as -> ->. exists [].
      assert (Hw : w0 = WOpen n) by (rewrite <-(os_who _ _ _ (si_sys _ I) Ht), Et; done).
      rewrite (fe_none _ _ _ _ K _ (next_obj_fresh _ (sk_mem _ (si_sys _ I)))), Hw. cbn [pulled app].
      assert (Ho : data_of sid out = []).
      { apply data_silent. intros Hs. destruct (of_speaker sid Hs) as (? & ? & ? & ? & ? & ? & _). congruence. }
      rewrite Ho, app_nil_r, data_silent; [split; [done | split; [done |]] |].
      * intros pc Hpc. destruct (of_readers _ sid pc Hpc) as [(_ & x & Hx & _) | [[? _] | [_ Hold]]]; [| congruence |].
        -- unfold m in Hx. by rewrite (next_obj_fresh _ (sk_mem _ (si_sys _ I))) in Hx.
        -- destruct (reader_knows _ _ _ _ _ (si_sys _ I) Hold) as (x & Hx & _). by rewrite (next_obj_fresh _ (sk_mem _ (si_sys _ I))) in Hx.
      * intros Hs. destruct (fe_told _ _ _ _ K sid Hs) as (o & x & Hx & Hk & _). rewrite Hw, Et in Ht.
        destruct (li_task _ (si_leak _ I) n id sid _ Ht) as [_ Hno]. by apply (Hno eq_refl o x).
  - intros o Ho. assert (Hx : heap m !! o = None).
    { destruct (heap m !! o) as [x|] eqn:E; [| done]. destruct (gu_heap _ _ _ G _ _ E) as (x' & Hx' & _). congruence. }
    rewrite (fe_none _ _ _ _ K o Hx). cbn. destruct w0, e; try done. case_decide as Eo; [subst o0 | done].
    destruct (who_reader _ _ (os_who _ _ _ (si_sys _ I) Ht)) as (i & j & pc & Et). rewrite Et in Ht.
    destruct (reader_knows _ _ _ _ _ (si_sys _ I) Ht) as (x & Hx' & _). fold m in Hx'. congruence.
Qed.
End OneStep.

(** Other actions start no reader. *)
Lemma readers_stay a y y' o t : sys_ok y -> step a y = Some y' -> (forall w e, a <> Run w e) ->
  threads y' !! WReader o = Some t -> threads y !! WReader o = Some t.
Proof.
  intros Y Hs Hno. destruct a as [w e| | |d]; [by destruct (Hno w e) | ..]; cbn in Hs.
  - case_decide; [| done]. injection Hs as <-. cbn [threads].
    intros [[Hin Hw] | Hw]%(spawn_lookup [TLoop (connCounter (memory y) + 1) LRead; THeart (connCounter (memory y) + 1)]); [| done].
    by apply list_elem_of_In in Hin as [<- | [<- | []]].
  - by injection Hs as <-.
  - hcase Hs; [| done]. by injection Hs as <-.
Qed.

Lemma fetch_step id sent F a y y' : server_inv y -> step a y = Some y' -> fetch_ok id sent F y ->
  fetch_ok id (sent ++ frames_out id a (memory y) (memory y')) (fun o => F o ++ pulled o a) y'.
Proof.
  intros I Hs K. assert ((exists w e, a = Run w e) \/ forall w e, a <> Run w e) as [(w & e & ->) | Hno] by (destruct a; eauto).
  { cbn in Hs. destruct (threads y !! w) as [t|] eqn:Ht; [| done]. cbn in Hs.
    destruct (thread_step _ _ t e (memory y)) as [[[t' m'] ts]|] eqn:Hr; [| done]. injection Hs as <-. by eapply of_step. }
  destruct (wire_frame_actions _ _ _ _ _ id (si_sys _ I) Hs Hno) as [-> _]. rewrite app_nil_r.
  destruct (frame_actions _ _ _ _ _ (si_sys _ I) Hs Hno) as (Eh & _ & _).
  assert (Ep : forall o, pulled o a = []) by (intros o; destruct a; [by destruct (Hno w e) | done..]).
  split; unfold told_open; rewrite ?Eh; [apply (fe_told _ _ _ _ K) | |].
  - intros o x sid Hx Hk. destruct (fe_data _ _ _ _ K o x sid Hx Hk) as (rest & -> & Hst & Hd). exists rest.
    rewrite Ep, app_nil_r. split_and!; [done | done |]. intros pc Hpc. apply Hd. by apply (readers_stay a y y' o _ (si_sys _ I) Hs Hno).
  - intros o Ho. by rewrite (fe_none _ _ _ _ K o Ho), Ep.
Qed.

(** A session starts with nothing. *)
Lemma fetch_new a y y' F : server_inv y -> step a y = Some y' -> (forall w e, a <> Run w e) ->
  (forall o, heap (memory y) !! o = None -> F o = []) ->
  forall id, connCounter (memory y) < id -> fetch_ok id [] F y'.
Proof.
  intros I Hs Hno HF id Hid. destruct (frame_actions _ _ _ _ _ (si_sys _ I) Hs Hno) as (Eh & _ & _). split; rewrite ?Eh; [| | done].
  - by intros sid ?%not_says_nil.
  - intros o x sid Hx Hk. exfalso. destruct (mo_stream _ (sk_mem _ (si_sys _ I)) o x Hx) as (_ & _ & s & Hss).
    destruct (mo_session _ (sk_mem _ (si_sys _ I)) _ s Hss) as (_ & [_ ?] & _). unfold key_of in Hk. injection Hk as ? _. lia.
Qed.

(** Nothing is read for an object that does not exist. *)
Lemma fetch_none_step a y y' F : server_inv y -> step a y = Some y' -> (forall o, heap (memory y) !! o = None -> F o = []) ->
  forall o, heap (memory y') !! o = None -> F o ++ pulled o a = [].
Proof.
  intros I Hs HF. assert (K : fetch_ok (connCounter (memory y) + 1) [] F y).
  { split; [by intros sid ?%not_says_nil | | done]. intros o x sid Hx Hk. exfalso.
    destruct (mo_stream _ (sk_mem _ (si_sys _ I)) o x Hx) as (_ & _ & s & Hss).
    destruct (mo_session _ (sk_mem _ (si_sys _ I)) _ s Hss) as (_ & [_ ?] & _). unfold key_of in Hk. injection Hk as ? _. lia. }
  apply (fe_none _ _ _ _ (fetch_step _ _ _ a y y' I Hs K)).
Qed.
End Fetch.
