(* ===== verification/Camouflage.v ===== *)
(** * Camouflage replies ([camouflageFamilies], [renderCamouflage],
    [renderRobots], [camouflageForPath] of cmd/mxtr-server/main.go)

    What a prober is answered. The current date, formatted, is an argument. *)

From S2P Require Import Prelude GoStrings.

Definition quote : bytes := [x22].
Definition cr : bytes := [x0d].
Definition lf : bytes := [x0a].
Definition crlf : bytes := cr ++ lf.

(** ** Families *)

Record camouflageFamily := CamouflageFamily {
  server : bytes;
  contentType : bytes;
  extraHeaders : list bytes;
  statusBodies : gmap Z bytes;
}.

Definition htmlBody (title heading line footer : bytes) : bytes :=
  go! "<html>" ++ crlf ++ go! "<head><title>" ++ title ++ go! "</title></head>" ++ crlf ++
  go! "<body>" ++ crlf ++ go! "<center><h1>" ++ heading ++ go! "</h1></center>" ++ crlf ++
  go! "<p>" ++ line ++ go! "</p>" ++ crlf ++
  go! "<hr><center>" ++ footer ++ go! "</center>" ++ crlf ++ go! "</body>" ++ crlf ++ go! "</html>" ++ crlf.

Definition nginx : camouflageFamily := {|
  server := go! "nginx";
  contentType := go! "text/html";
  extraHeaders := [];
  statusBodies := list_to_map [
    (400, htmlBody (go! "400 Bad Request") (go! "400 Bad Request") [] (go! "nginx"));
    (403, htmlBody (go! "403 Forbidden") (go! "403 Forbidden") [] (go! "nginx"));
    (404, htmlBody (go! "404 Not Found") (go! "404 Not Found") [] (go! "nginx"));
    (500, htmlBody (go! "500 Internal Server Error") (go! "500 Internal Server Error") [] (go! "nginx"))]
|}.

Definition apache : camouflageFamily := {|
  server := go! "Apache";
  contentType := go! "text/html; charset=iso-8859-1";
  extraHeaders := [];
  statusBodies := list_to_map [
    (400, go! "<!DOCTYPE HTML PUBLIC " ++ quote ++ go! "-//IETF//DTD HTML 2.0//EN" ++ quote ++ go! ">" ++ lf ++
      go! "<html><head>" ++ lf ++ go! "<title>400 Bad Request</title>" ++ lf ++ go! "</head><body>" ++ lf ++
      go! "<h1>Bad Request</h1>" ++ lf ++
      go! "<p>Your browser sent a request that this server could not understand.</p>" ++ lf ++
      go! "</body></html>" ++ lf);
    (403, go! "<!DOCTYPE HTML PUBLIC " ++ quote ++ go! "-//IETF//DTD HTML 2.0//EN" ++ quote ++ go! ">" ++ lf ++
      go! "<html><head>" ++ lf ++ go! "<title>403 Forbidden</title>" ++ lf ++ go! "</head><body>" ++ lf ++
      go! "<h1>Forbidden</h1>" ++ lf ++ go! "<p>You don't have permission to access this resource.</p>" ++
      lf ++ go! "</body></html>" ++ lf);
    (404, go! "<!DOCTYPE HTML PUBLIC " ++ quote ++ go! "-//IETF//DTD HTML 2.0//EN" ++ quote ++ go! ">" ++ lf ++
      go! "<html><head>" ++ lf ++ go! "<title>404 Not Found</title>" ++ lf ++ go! "</head><body>" ++ lf ++
      go! "<h1>Not Found</h1>" ++ lf ++ go! "<p>The requested URL was not found on this server.</p>" ++ lf ++
      go! "</body></html>" ++ lf);
    (500, go! "<!DOCTYPE HTML PUBLIC " ++ quote ++ go! "-//IETF//DTD HTML 2.0//EN" ++ quote ++ go! ">" ++ lf ++
      go! "<html><head>" ++ lf ++ go! "<title>500 Internal Server Error</title>" ++ lf ++
      go! "</head><body>" ++ lf ++ go! "<h1>Internal Server Error</h1>" ++ lf ++
      go! "<p>The server encountered an internal error or misconfiguration and was unable to complete your request.</p>" ++ lf ++ go! "</body></html>" ++ lf)]
|}.

Definition litespeed : camouflageFamily := {|
  server := go! "LiteSpeed";
  contentType := go! "text/html";
  extraHeaders := [];
  statusBodies := list_to_map [
    (400, go! "<html><head><title>400 Bad Request</title></head>" ++ lf ++ go! "<body><h1>Bad Request</h1>" ++
      lf ++ go! "<p>The request could not be understood.</p>" ++ lf ++ go! "</body></html>" ++ lf);
    (403, go! "<html><head><title>403 Forbidden</title></head>" ++ lf ++ go! "<body><h1>Forbidden</h1>" ++
      lf ++ go! "<p>Access denied.</p>" ++ lf ++ go! "</body></html>" ++ lf);
    (404, go! "<html><head><title>404 Not Found</title></head>" ++ lf ++ go! "<body><h1>Not Found</h1>" ++
      lf ++ go! "<p>The requested URL was not found on this server.</p>" ++ lf ++ go! "</body></html>" ++ lf);
    (500, go! "<html><head><title>500 Internal Server Error</title></head>" ++ lf ++
      go! "<body><h1>Internal Server Error</h1>" ++ lf ++ go! "<p>Server error.</p>" ++ lf ++
      go! "</body></html>" ++ lf)]
|}.

Definition caddy : camouflageFamily := {|
  server := go! "Caddy";
  contentType := go! "text/plain; charset=utf-8";
  extraHeaders := [go! "Strict-Transport-Security: max-age=31536000"];
  statusBodies := list_to_map [
    (400, go! "400 Bad Request" ++ lf);
    (403, go! "403 Forbidden" ++ lf);
    (404, go! "404 page not found" ++ lf);
    (500, go! "500 Internal Server Error" ++ lf)]
|}.

Definition cloudflare : camouflageFamily := {|
  server := go! "cloudflare";
  contentType := go! "text/html; charset=UTF-8";
  extraHeaders := [go! "Cache-Control: max-age=0, no-cache, no-store, must-revalidate"; go! "Expires: Thu, 01 Jan 1970 00:00:01 GMT"; go! "Vary: Accept-Encoding"];
  statusBodies := list_to_map [
    (400, go! "<!DOCTYPE html>" ++ lf ++ go! "<html lang=" ++ quote ++ go! "en" ++ quote ++
      go! "><head><meta charset=" ++ quote ++ go! "utf-8" ++ quote ++
      go! "><title>Error 400</title></head><body><center><h1>Error 400</h1></center><hr><center>cloudflare</center></body></html>" ++ lf);
    (403, go! "<!DOCTYPE html>" ++ lf ++ go! "<html lang=" ++ quote ++ go! "en" ++ quote ++
      go! "><head><meta charset=" ++ quote ++ go! "utf-8" ++ quote ++
      go! "><title>Error 403</title></head><body><center><h1>Error 403</h1></center><hr><center>cloudflare</center></body></html>" ++ lf);
    (404, go! "<!DOCTYPE html>" ++ lf ++ go! "<html lang=" ++ quote ++ go! "en" ++ quote ++
      go! "><head><meta charset=" ++ quote ++ go! "utf-8" ++ quote ++
      go! "><title>Error 404</title></head><body><center><h1>Error 404</h1></center><hr><center>cloudflare</center></body></html>" ++ lf);
    (500, go! "<!DOCTYPE html>" ++ lf ++ go! "<html lang=" ++ quote ++ go! "en" ++ quote ++
      go! "><head><meta charset=" ++ quote ++ go! "utf-8" ++ quote ++
      go! "><title>Error 500</title></head><body><center><h1>Error 500</h1></center><hr><center>cloudflare</center></body></html>" ++ lf)]
|}.

Definition gostd : camouflageFamily := {|
  server := [];
  contentType := go! "text/plain; charset=utf-8";
  extraHeaders := [go! "X-Content-Type-Options: nosniff"];
  statusBodies := list_to_map [
    (400, go! "400 Bad Request" ++ lf);
    (403, go! "Forbidden" ++ lf);
    (404, go! "404 page not found" ++ lf);
    (500, go! "Internal Server Error" ++ lf)]
|}.

Definition camouflageFamilies : list camouflageFamily :=
  [nginx; apache; litespeed; caddy; cloudflare; gostd].

Definition statusReasons (status : Z) : bytes :=
  if status =? 400 then go! "Bad Request"
  else if status =? 403 then go! "Forbidden"
  else if status =? 404 then go! "Not Found"
  else if status =? 500 then go! "Internal Server Error"
  else [].

(** [binary.BigEndian.Uint64] of eight random bytes, modulo the number of
    families; index 0 when the source fails. *)
Definition pickRandomFamilyIdx (seed : option bytes) : Z :=
  match seed with
  | None => 0
  | Some b => be_get b mod len camouflageFamilies
  end.

Definition displayName (srv : bytes) : bytes :=
  if bool_decide (srv = []) then go! "(no Server header)" else srv.

(** ** Rendering *)

Definition camouflage_body (fam : camouflageFamily) (status : Z) : bytes :=
  match statusBodies fam !! status with
  | Some b => b
  | None => default [] (statusBodies fam !! 500)
  end.

Definition renderCamouflage (fam : camouflageFamily) (status : Z) (date : bytes) : bytes :=
  let body := camouflage_body fam status in
  go! "HTTP/1.1 " ++ itoa status ++ go! " " ++ statusReasons status ++ crlf ++
  (if bool_decide (server fam = []) then [] else go! "Server: " ++ server fam ++ crlf) ++
  go! "Date: " ++ date ++ crlf ++
  go! "Content-Type: " ++ contentType fam ++ crlf ++
  go! "Content-Length: " ++ itoa (len body) ++ crlf ++
  concat ((fun h => h ++ crlf) <$> extraHeaders fam) ++
  go! "Connection: close" ++ crlf ++ crlf ++
  body.

Definition robots_body : bytes := go! "User-agent: *" ++ lf ++ go! "Disallow:" ++ lf.

Definition renderRobots (fam : camouflageFamily) (date : bytes) : bytes :=
  go! "HTTP/1.1 200 OK" ++ crlf ++
  (if bool_decide (server fam = []) then [] else go! "Server: " ++ server fam ++ crlf) ++
  go! "Date: " ++ date ++
  crlf ++ go! "Content-Type: text/plain; charset=utf-8" ++ crlf ++ go! "Content-Length: " ++
  itoa (len robots_body) ++ crlf ++
  concat ((fun h => h ++ crlf) <$> extraHeaders fam) ++
  go! "Connection: close" ++ crlf ++ crlf ++
  robots_body.

Definition camouflageForPath (fam : camouflageFamily) (pinned : Z) (path date : bytes) : bytes :=
  if bool_decide (path = go! "/robots.txt") then renderRobots fam date
  else renderCamouflage fam pinned date.

(** ** An HTTP client's reading of a response

    The specification of a well-formed reply: a status line, header lines up
    to the blank line, and exactly as many body bytes as the first
    Content-Length says. *)

Record http_response := HttpResponse { hr_status : Z; hr_headers : list bytes; hr_body : bytes }.

(** A line up to its CRLF. *)
Fixpoint take_line (s : bytes) : option (bytes * bytes) :=
  match s with
  | [] => None
  | a :: s' =>
      match a, s' with
      | x0d, x0a :: rest => Some ([], rest)
      | _, _ => '(l, rest) ← take_line s'; Some (a :: l, rest)
      end
  end.

Fixpoint head_lines (fuel : nat) (s : bytes) : option (list bytes * bytes) :=
  match fuel with
  | O => None
  | S fuel' =>
      '(l, rest) ← take_line s;
      match l with
      | [] => Some ([], rest)
      | _ => '(ls, body) ← head_lines fuel' rest; Some (l :: ls, body)
      end
  end.

Definition content_length_name : bytes := go! "Content-Length: ".

Fixpoint content_length (hs : list bytes) : option Z :=
  match hs with
  | [] => None
  | h :: hs' =>
      if has_prefix content_length_name h then atoi (drop (length content_length_name) h)
      else content_length hs'
  end.

Definition status_code (line : bytes) : option Z :=
  if has_prefix (go! "HTTP/1.1 ") line then atoi (take 3 (drop 9 line)) else None.

Definition http_parse (s : bytes) : option http_response :=
  '(ls, body) ← head_lines (S (length s)) s;
  match ls with
  | [] => None
  | l :: hs =>
      st ← status_code l;
      n ← content_length hs;
      if n =? len body then Some (HttpResponse st hs body) else None
  end.

(** ** Lemmas *)

Definition clean (l : bytes) : Prop := l <> [] /\ x0d ∉ l.

Lemma take_line_clean l rest : x0d ∉ l -> take_line (l ++ crlf ++ rest) = Some (l, rest).
Proof.
  induction l as [|a l IH]; intros Hl; [done |].
  assert (a <> x0d) by set_solver. cbn -[crlf]. rewrite IH by set_solver.
  by destruct a.
Qed.

Definition lines (ls : list bytes) : bytes := concat ((fun l => l ++ crlf) <$> ls).

Lemma head_lines_lines fuel ls body :
  Forall clean ls -> (length ls < fuel)%nat -> head_lines fuel (lines ls ++ crlf ++ body) = Some (ls, body).
Proof.
  revert fuel. induction ls as [|l ls IH]; intros [|fuel] Hls Hf; cbn in Hf; try lia.
  - by cbn.
  - apply Forall_cons in Hls as [[Hne Hl] Hls].
    unfold lines. cbn [fmap list_fmap concat head_lines].
    rewrite <-!app_assoc, take_line_clean by done. destruct l; [done |].
    cbn [mbind option_bind]. fold (lines ls).
    rewrite (IH fuel Hls); [done |].
    lia.
Qed.

Lemma length_lines ls : (length ls <= length (lines ls))%nat.
Proof.
  induction ls as [|l ls IH]; [done |].
  change (lines (l :: ls)) with ((l ++ crlf) ++ lines ls). rewrite !length_app.
  change (length crlf) with 2%nat. cbn [length]. lia.
Qed.

Lemma http_parse_lines l hs body st :
  Forall clean (l :: hs) -> status_code l = Some st -> content_length hs = Some (len body) ->
  http_parse (lines (l :: hs) ++ crlf ++ body) = Some (HttpResponse st hs body).
Proof.
  intros Hc Hst Hcl. unfold http_parse. rewrite head_lines_lines; [| done |].
  - cbn. rewrite Hst. cbn. rewrite Hcl. cbn. by rewrite Z.eqb_refl.
  - pose proof (length_lines (l :: hs)). rewrite length_app. lia.
Qed.

Lemma content_length_skip h hs :
  has_prefix content_length_name h = false -> content_length (h :: hs) = content_length hs.
Proof. intros E. cbn [content_length]. by rewrite E. Qed.

Lemma content_length_hit n hs :
  0 <= n < 2 ^ 63 -> content_length ((content_length_name ++ itoa n) :: hs) = Some n.
Proof.
  intros Hn. cbn [content_length]. rewrite has_prefix_app, drop_app_length. by apply atoi_itoa.
Qed.

Lemma clean_app a b : a <> [] -> x0d ∉ a -> x0d ∉ b -> clean (a ++ b).
Proof. intros Hne Ha Hb. split; [by destruct a | set_solver]. Qed.

Lemma no_cr_itoa n : 0 <= n < 2 ^ 63 -> x0d ∉ itoa n.
Proof.
  intros Hn Hin. destruct (itoa_spec n Hn) as (_ & _ & Hd). rewrite Forall_forall in Hd.
  by specialize (Hd _ Hin).
Qed.

(** What the rendering needs of a family. *)
Record family_ok (fam : camouflageFamily) : Prop := {
  fo_server : x0d ∉ server fam;
  fo_type : x0d ∉ contentType fam;
  fo_extra : Forall clean (extraHeaders fam);
  fo_bodies : Forall (fun st => is_Some (statusBodies fam !! st)) [400; 403; 404; 500];
  fo_len : map_Forall (fun _ b => len b < 2 ^ 63) (statusBodies fam);
}.

Definition no_crb (l : bytes) : bool := forallb (fun c => negb (bool_decide (c = x0d))) l.
Lemma no_crb_spec l : no_crb l = true -> x0d ∉ l.
Proof.
  intros Hb Hin. unfold no_crb in Hb. rewrite forallb_forall in Hb.
  apply list_elem_of_In in Hin. by specialize (Hb _ Hin).
Qed.

Definition family_okb (fam : camouflageFamily) : bool :=
  no_crb (server fam) && no_crb (contentType fam) &&
  forallb (fun h => negb (bool_decide (h = [])) && no_crb h) (extraHeaders fam) &&
  forallb (fun st => match statusBodies fam !! st with Some _ => true | None => false end) [400; 403; 404; 500] &&
  forallb (fun p => len p.2 <? 2 ^ 63) (map_to_list (statusBodies fam)).

Lemma family_okb_ok fam : family_okb fam = true -> family_ok fam.
Proof.
  intros [[[[H1 H2]%andb_true_iff H3]%andb_true_iff H4]%andb_true_iff H5]%andb_true_iff.
  split; [by apply no_crb_spec | by apply no_crb_spec | | |].
  - rewrite Forall_forall. intros h Hh%list_elem_of_In. rewrite forallb_forall in H3.
    apply H3, andb_true_iff in Hh as [Hne Hcr]. split; [| by apply no_crb_spec]. intros ->. done.
  - rewrite Forall_forall. intros st Hst%list_elem_of_In. rewrite forallb_forall in H4.
    apply H4 in Hst. destruct (statusBodies fam !! st); [by eexists | done].
  - intros k b Hb%elem_of_map_to_list%list_elem_of_In. rewrite forallb_forall in H5.
    apply H5 in Hb. by apply Z.ltb_lt.
Qed.

Lemma families_ok : Forall family_ok camouflageFamilies.
Proof.
  assert (H : forallb family_okb camouflageFamilies = true) by (vm_compute; reflexivity).
  rewrite forallb_forall in H. rewrite Forall_forall.
  intros fam Hin%list_elem_of_In. by apply family_okb_ok, H.
Qed.

(** The header lines of a reply. *)
Definition reply_headers (fam : camouflageFamily) (ctype body date : bytes) : list bytes :=
  (if bool_decide (server fam = []) then [] else [go! "Server: " ++ server fam]) ++
  [go! "Date: " ++ date; go! "Content-Type: " ++ ctype; content_length_name ++ itoa (len body)] ++
  extraHeaders fam ++ [go! "Connection: close"].

Lemma reply_clean fam ctype body date :
  family_ok fam -> x0d ∉ ctype -> x0d ∉ date -> len body < 2 ^ 63 ->
  Forall clean (reply_headers fam ctype body date).
Proof.
  intros [F1 _ F3 _ _] Hct Hd Hl. pose proof (len_nonneg body).
  assert (Hlit : forall b : bytes, no_crb b = true -> b <> [] -> forall t, x0d ∉ t -> clean (b ++ t))
    by (intros b Hb Hne t Ht; apply clean_app; [done | by apply no_crb_spec | done]).
  unfold reply_headers. repeat (apply Forall_app; split); [| | done |].
  - case_bool_decide; [done |]. constructor; [by apply Hlit | done].
  - repeat (apply Forall_cons; split); [by apply Hlit .. | | done].
    apply Hlit; [done | done | apply no_cr_itoa; lia].
  - constructor; [| done]. split; [done | by apply no_crb_spec].
Qed.

Lemma reply_length fam ctype body date :
  len body < 2 ^ 63 -> content_length (reply_headers fam ctype body date) = Some (len body).
Proof.
  intros Hl. pose proof (len_nonneg body). unfold reply_headers.
  assert (Hgo : forall rest, content_length ([go! "Date: " ++ date; go! "Content-Type: " ++ ctype;
            content_length_name ++ itoa (len body)] ++ rest) = Some (len body)).
  { intros rest. cbn [app].
    rewrite content_length_skip by reflexivity. rewrite content_length_skip.
    - apply content_length_hit. lia.
    - reflexivity. }
  case_bool_decide; [apply Hgo |]. cbn [app].
  rewrite content_length_skip by reflexivity. apply Hgo.
Qed.

Lemma lines_cons l ls : lines (l :: ls) = l ++ crlf ++ lines ls.
Proof. unfold lines. cbn. by rewrite <-app_assoc. Qed.
Lemma lines_app ls1 ls2 : lines (ls1 ++ ls2) = lines ls1 ++ lines ls2.
Proof. unfold lines. by rewrite fmap_app, concat_app. Qed.

Lemma render_reply sl fam ctype body date :
  lines (sl :: reply_headers fam ctype body date) ++ crlf ++ body =
  sl ++ crlf ++
  (if bool_decide (server fam = []) then [] else go! "Server: " ++ server fam ++ crlf) ++
  go! "Date: " ++ date ++ crlf ++ go! "Content-Type: " ++ ctype ++ crlf ++
  content_length_name ++ itoa (len body) ++ crlf ++
  concat ((fun h => h ++ crlf) <$> extraHeaders fam) ++ go! "Connection: close" ++ crlf ++ crlf ++ body.
Proof.
  unfold reply_headers. rewrite lines_cons, !lines_app, !lines_cons.
  change (lines []) with (@nil byte). fold (lines (extraHeaders fam)). rewrite app_nil_r.
  assert (E : lines (if bool_decide (server fam = []) then [] else [go! "Server: " ++ server fam]) =
    if bool_decide (server fam = []) then [] else go! "Server: " ++ server fam ++ crlf).
  { case_bool_decide; [done |]. by rewrite lines_cons, app_nil_r, <-app_assoc. }
  rewrite E. by rewrite <-!app_assoc.
Qed.

Definition status_line (status : Z) : bytes := go! "HTTP/1.1 " ++ itoa status ++ go! " " ++ statusReasons status.

Definition cloak_statuses : list Z := [400; 403; 404; 500].

Lemma status_line_ok status : status ∈ cloak_statuses ->
  status_code (status_line status) = Some status /\ clean (status_line status).
Proof.
  intros Hin. unfold cloak_statuses in Hin. repeat (apply elem_of_cons in Hin as [-> | Hin]); [.. | by apply elem_of_nil in Hin].
  all: split; [vm_compute; reflexivity | split; [done | apply no_crb_spec; vm_compute; reflexivity]].
Qed.

Lemma render_parse fam status date :
  fam ∈ camouflageFamilies -> status ∈ cloak_statuses -> x0d ∉ date ->
  exists body, statusBodies fam !! status = Some body /\
    http_parse (renderCamouflage fam status date) =
      Some (HttpResponse status (reply_headers fam (contentType fam) body date) body).
Proof.
  intros Hf Hst Hd. pose proof families_ok as Hall. rewrite Forall_forall in Hall.
  pose proof (Hall fam Hf) as F. pose proof (fo_bodies fam F) as Hb. rewrite Forall_forall in Hb.
  destruct (Hb status Hst) as [body Ebody]. exists body. split; [done |].
  pose proof (fo_len fam F _ _ Ebody) as Hlen. cbn in Hlen.
  assert (E : renderCamouflage fam status date =
    lines (status_line status :: reply_headers fam (contentType fam) body date) ++ crlf ++ body).
  { rewrite render_reply. unfold renderCamouflage, camouflage_body. rewrite Ebody.
    unfold status_line. by rewrite <-!app_assoc. }
  destruct (status_line_ok status Hst) as [Hcode Hclean].
  rewrite E. apply http_parse_lines; [constructor; [done |] | done | by apply reply_length].
  apply reply_clean; [done | apply (fo_type fam F) | done | done].
Qed.

Lemma robots_parse fam date :
  fam ∈ camouflageFamilies -> x0d ∉ date ->
  http_parse (renderRobots fam date) =
    Some (HttpResponse 200 (reply_headers fam (go! "text/plain; charset=utf-8") robots_body date) robots_body).
Proof.
  intros Hf Hd. pose proof families_ok as Hall. rewrite Forall_forall in Hall.
  pose proof (Hall fam Hf) as F.
  assert (E : renderRobots fam date =
    lines (go! "HTTP/1.1 200 OK" :: reply_headers fam (go! "text/plain; charset=utf-8") robots_body date)
      ++ crlf ++ robots_body) by (rewrite render_reply; done).
  rewrite E. apply http_parse_lines; [constructor | reflexivity | by apply reply_length].
  - split; [done | by apply no_crb_spec].
  - apply reply_clean; [done | by apply no_crb_spec | done | done].
Qed.

(** Every camouflage reply is a well-formed HTTP response, for all six
    families: an HTTP client reads back the status - 200 for /robots.txt, the
    deployment's one pinned status for any other path - the family's header
    lines in their order, and a body of exactly the advertised length. *)
Theorem camouflageForPath_well_formed fam pinned path date :
  fam ∈ camouflageFamilies -> pinned ∈ cloak_statuses -> x0d ∉ date ->
  exists ctype body,
    http_parse (camouflageForPath fam pinned path date) =
      Some (HttpResponse (if bool_decide (path = go! "/robots.txt") then 200 else pinned)
              (reply_headers fam ctype body date) body) /\
    (path <> go! "/robots.txt" -> ctype = contentType fam /\ statusBodies fam !! pinned = Some body).
Proof.
  intros Hf Hp Hd. unfold camouflageForPath. case_bool_decide as E.
  - exists (go! "text/plain; charset=utf-8"), robots_body. split; [by apply robots_parse | done].
  - destruct (render_parse fam pinned date Hf Hp Hd) as (body & Hb & ->).
    by exists (contentType fam), body.
Qed.

Lemma camouflageForPath_well_formed_witness :
  exists ctype body,
    http_parse (camouflageForPath cloudflare 404 (go! "/admin") (go! "Thu, 01 Jan 2026 00:00:00 UTC")) =
      Some (HttpResponse (if bool_decide (go! "/admin" = go! "/robots.txt") then 200 else 404)
              (reply_headers cloudflare ctype body (go! "Thu, 01 Jan 2026 00:00:00 UTC")) body) /\
    (go! "/admin" <> go! "/robots.txt" ->
     ctype = contentType cloudflare /\ statusBodies cloudflare !! 404 = Some body).
Proof.
  apply camouflageForPath_well_formed.
  - unfold camouflageFamilies. do 4 right. left.
  - do 2 right. left.
  - by apply no_crb_spec.
Defined.
