(* ===== verification/Persist.v ===== *)
(** * Persisted state ([secureCreateExclFile], [writeFileSecure],
    [atomicReplaceSecure], [resolvePersistedCN], [resolveCloakFamily] of
    cmd/mxtr-server/main.go) *)

From S2P Require Import Prelude GoStrings Padding Hostnames Logger GoOS Camouflage.

Definition secureCreateExclFile (path : bytes) (mode : Z) : io world oserr Z := os_OpenExcl path mode.

Definition writeFileSecure (path data : bytes) (mode : Z) : io world oserr unit :=
  f ← secureCreateExclFile path mode;
  r ← attempt (file_Write f data);
  match r with
  | inl e => _ ← attempt (os_Remove path); lift (Err e)
  | inr _ => file_Sync f
  end.

Definition tmp_name (path rbuf : bytes) : bytes := path ++ go! "." ++ hex_encode rbuf ++ go! ".tmp".

Definition atomicReplaceSecure (path data : bytes) (mode : Z) : io world oserr unit :=
  rbuf ← rand_Read 4;
  let tmp := tmp_name path rbuf in
  _ ← writeFileSecure tmp data mode;
  r ← attempt (os_Rename tmp path);
  match r with
  | inl e => _ ← attempt (os_Remove tmp); lift (Err e)
  | inr _ => mret tt
  end.

(** The directory is made first, its error ignored. *)
Definition persist {E} (path data : bytes) : io world E (oserr + unit) :=
  let dir := filepath_Dir path in
  _ ← (if bool_decide (dir = [] \/ dir = go! ".") then mret (inr tt) else attempt (os_MkdirAll dir));
  attempt (atomicReplaceSecure path data 384).

Definition resolvePersistedCN {E} (path : bytes) (rotate : bool) `{UnicodeTables} : io world E bytes :=
  found ← (if rotate then mret None else
    r ← attempt (os_ReadFile path);
    match r with
    | inl _ => mret None
    | inr data =>
        let cn := trim_space data in
        if isValidHostname cn then _ ← logged (logInfof (EvCnReused cn)); mret (Some cn)
        else if bool_decide (cn = []) then mret None
        else _ ← logged (logWarnf (EvCnInvalid cn)); mret None
    end);
  match found with
  | Some cn => mret cn
  | None => fun w =>
      let cn := generateSyntheticCN (w_cn w) in
      (r ← persist path (cn ++ lf);
       _ ← logged (match r with
                   | inl _ => logWarnf (EvCnNotPersisted path)
                   | inr _ => logInfof (EvCnPersisted rotate cn path)
                   end);
       mret cn) w
  end.

Definition resolveCloakFamily {E} (statePath : bytes) (rotate : bool) `{UnicodeTables} : io world E Z :=
  found ← (if rotate then mret None else
    r ← attempt (os_ReadFile statePath);
    match r with
    | inl _ => mret None
    | inr data =>
        let s := trim_space data in
        match atoi s with
        | Some idx =>
            if (0 <=? idx) && (idx <? len camouflageFamilies)
            then _ ← logged (logInfof (EvCloakReused idx)); mret (Some idx)
            else _ ← logged (logWarnf (EvCloakUnparseable statePath s)); mret None
        | None => _ ← logged (logWarnf (EvCloakUnparseable statePath s)); mret None
        end
    end);
  match found with
  | Some idx => mret idx
  | None =>
      seed ← attempt (rand_Read 8);
      let idx := pickRandomFamilyIdx (match seed with inl _ => None | inr b => Some b end) in
      r ← persist statePath (itoa idx ++ lf);
      _ ← logged (match r with
                  | inl _ => logWarnf (EvCloakNotPersisted statePath)
                  | inr _ => logInfof (EvCloakPersisted rotate idx statePath)
                  end);
      mret idx
  end.

(** ** Rely and guarantee

    Between the calls of the program other processes do what they like, except
    to the temporary name (which carries 32 random bits) and to the inode it
    leads to. *)

Definition rely (tmp : bytes) (s s' : fs) : Prop :=
  fs_names s' !! tmp = fs_names s !! tmp /\
  forall i, fs_names s !! tmp = Some (Hard i) -> fs_inodes s' !! i = fs_inodes s !! i.

Definition env_ok (tmp : bytes) (w : world) : Prop :=
  Forall (fun t => forall s, rely tmp s (t_env t s)) (w_ticks w).

(** What a call of the program does not touch: any entry but the target and the
    temporary name, any inode that existed and is not behind the temporary
    name. *)
Definition contained (path tmp : bytes) (c : fs * fs) : Prop :=
  (forall n, n <> path -> n <> tmp -> fs_names c.2 !! n = fs_names c.1 !! n) /\
  (forall i, is_Some (fs_inodes c.1 !! i) -> fs_names c.1 !! tmp <> Some (Hard i) ->
     fs_inodes c.2 !! i = fs_inodes c.1 !! i).

Definition kept (path : bytes) (c : fs * fs) : Prop := fs_names c.2 !! path = fs_names c.1 !! path.

(** The whole of the data, on the device, under the target's name. *)
Definition complete (path data : bytes) (mode : Z) (s : fs) : Prop :=
  exists i, fs_names s !! path = Some (Hard i) /\ fs_inodes s !! i = Some (Inode data true mode).

Section rg.
Context (path tmp : bytes) (Hpt : tmp <> path).

(** A Hoare triple that also tells what calls were made. *)
Definition triple {A} (P : fs -> Prop) (m : io world oserr A)
    (Q : res oserr A -> fs -> list (fs * fs) -> Prop) : Prop :=
  forall w, env_ok tmp w -> P (w_fs w) ->
  exists cs, env_ok tmp (m w).2 /\ w_calls (m w).2 = w_calls w ++ cs /\ Q (m w).1 (w_fs (m w).2) cs.

Lemma triple_sys {A} (P : fs -> Prop) f (Q : res oserr A -> fs -> list (fs * fs) -> Prop) :
  (forall s s', P s -> rely tmp s s' -> P s') ->
  (forall t s, P s -> Q (f t s).1 (f t s).2 [(s, (f t s).2)]) ->
  triple P (sys f) Q.
Proof.
  intros Hst Hf w Hw HP. unfold sys. set (t := hd calm (w_ticks w)).
  assert (Ht : P (t_env t (w_fs w))).
  { apply (Hst (w_fs w)); [done |]. unfold t, env_ok in *.
    destruct (w_ticks w) as [|t0 ts]; [by split | by inversion Hw]. }
  specialize (Hf t _ Ht). destruct (f t (t_env t (w_fs w))) as [r s'] eqn:E.
  exists [(t_env t (w_fs w), s')]. cbn. split_and!; [| done | done].
  unfold env_ok in *. cbn. destruct (w_ticks w); [done | by inversion Hw].
Qed.

Lemma triple_bind {A B} P (m : io world oserr A) (k : A -> io world oserr B) R Q :
  triple P m R ->
  (forall a cs, triple (fun s => R (Ok a) s cs) (k a) (fun r s cs' => Q r s (cs ++ cs'))) ->
  (forall e s cs, R (Err e) s cs -> Q (Err e) s cs) ->
  (forall s cs, R Panic s cs -> Q Panic s cs) ->
  triple P (m ≫= k) Q.
Proof.
  intros Hm Hk He Hp w Hw HP. destruct (Hm w Hw HP) as (cs & Hw1 & Hc1 & HR).
  unfold mbind, io_bind. destruct (m w) as [[a | e |] w1] eqn:E; cbn in *.
  - destruct (Hk a cs w1 Hw1 HR) as (cs' & Hw2 & Hc2 & HQ). exists (cs ++ cs').
    split_and!; [done | by rewrite Hc2, Hc1, app_assoc | done].
  - exists cs. auto.
  - exists cs. auto.
Qed.

Lemma triple_attempt {A} P (m : io world oserr A) (Q : res oserr A -> fs -> list (fs * fs) -> Prop) :
  triple P m Q ->
  triple P (attempt m) (fun r s cs => match r with
                                      | Ok (inl e) => Q (Err e) s cs
                                      | Ok (inr a) => Q (Ok a) s cs
                                      | Err _ => False
                                      | Panic => Q Panic s cs
                                      end).
Proof.
  intros Hm w Hw HP. destruct (Hm w Hw HP) as (cs & Hw1 & Hc1 & HQ). exists cs.
  unfold attempt. destruct (m w) as [[a | e |] w1]; done.
Qed.

Lemma triple_ret {A} (P : fs -> Prop) (r : res oserr A) (Q : res oserr A -> fs -> list (fs * fs) -> Prop) :
  (forall s, P s -> Q r s []) -> triple P (lift r) Q.
Proof. intros H w Hw HP. exists []. unfold lift. cbn. rewrite app_nil_r. auto. Qed.

Lemma triple_conseq {A} (P P' : fs -> Prop) (m : io world oserr A) Q Q' :
  triple P' m Q' -> (forall s, P s -> P' s) -> (forall r s cs, Q' r s cs -> Q r s cs) -> triple P m Q.
Proof. intros Hm HP HQ w Hw Hs. destruct (Hm w Hw (HP _ Hs)) as (cs & ? & ? & ?). exists cs. auto. Qed.
End rg.

(** ** The calls of [atomicReplaceSecure] *)

Definition quiet_call (path tmp : bytes) (c : fs * fs) : Prop := contained path tmp c /\ kept path c.

Section replace.
Context (path tmp data : bytes) (mode : Z) (Hpt : tmp <> path).

(** The temporary name leads to an inode that holds [d]. *)
Definition owns (i : Z) (d : bytes) (sy : bool) (s : fs) : Prop :=
  fs_names s !! tmp = Some (Hard i) /\ fs_inodes s !! i = Some (Inode d sy mode).

Lemma owns_stable i d sy s s' : owns i d sy s -> rely tmp s s' -> owns i d sy s'.
Proof. intros [Hn Hi] [Hr1 Hr2]. split; [by rewrite Hr1 | by rewrite Hr2]. Qed.

Lemma quiet_id s : quiet_call path tmp (s, s).
Proof. by split. Qed.

Lemma open_spec :
  triple tmp (fun _ => True) (secureCreateExclFile tmp mode) (fun r s cs =>
    Forall (quiet_call path tmp) cs /\ match r with Ok i => owns i [] false s | Err _ => True | Panic => False end).
Proof.
  apply triple_sys; [done |]. intros t s _. destruct (t_ok t); cbn.
  2: split; [by repeat constructor | done].
  destruct (fs_names s !! tmp) eqn:E; cbn; (split; [| try done]).
  - by repeat constructor.
  - apply Forall_singleton. split; [split |]; unfold kept; cbn.
    + intros n _ Hn. by rewrite lookup_insert_ne.
    + intros i [x Hx] _. rewrite lookup_insert_ne; [done |]. intros <-. by rewrite new_ino_fresh in Hx.
    + by rewrite lookup_insert_ne.
  - split; cbn; by rewrite lookup_insert_eq.
Qed.

(** A call that rewrites the inode behind the temporary name. *)
Lemma alter_quiet i d sy f s : owns i d sy s ->
  quiet_call path tmp (s, Fs (fs_names s) (alter f i (fs_inodes s))).
Proof.
  intros [Hn Hi]. split; [split |]; cbn; [done | | done].
  intros j _ Hj. rewrite lookup_alter_ne; [done |]. congruence.
Qed.

Lemma alter_owns i d sy d' sy' f s : owns i d sy s -> f (Inode d sy mode) = Inode d' sy' mode ->
  owns i d' sy' (Fs (fs_names s) (alter f i (fs_inodes s))).
Proof. intros [Hn Hi] Hf. split; [done |]. cbn. by rewrite lookup_alter_eq, Hi, <-Hf. Qed.

Lemma write_spec i :
  triple tmp (owns i [] false) (file_Write i data) (fun r s cs =>
    Forall (quiet_call path tmp) cs /\ match r with Ok _ => owns i data false s | Err _ => True | Panic => False end).
Proof.
  apply triple_sys; [intros; by eapply owns_stable |]. intros t s Ho.
  destruct (t_ok t); cbn; (split; [apply Forall_singleton; by eapply alter_quiet |]); [| done].
  by eapply alter_owns.
Qed.

Lemma sync_spec i :
  triple tmp (owns i data false) (file_Sync i) (fun r s cs =>
    Forall (quiet_call path tmp) cs /\ match r with Ok _ => owns i data true s | Err _ => True | Panic => False end).
Proof.
  apply triple_sys; [intros; by eapply owns_stable |]. intros t s Ho.
  destruct (t_ok t); cbn; (split; [apply Forall_singleton |]); [by eapply alter_quiet | by eapply alter_owns | by split | done].
Qed.

Lemma remove_spec :
  triple tmp (fun _ => True) (os_Remove tmp) (fun r s cs => Forall (quiet_call path tmp) cs /\ r <> Panic).
Proof.
  apply triple_sys; [done |]. intros t s _. destruct (t_ok t); cbn; [| by repeat constructor].
  destruct (fs_names s !! tmp); cbn; (split; [apply Forall_singleton | done]); [| by split].
  split; [split |]; unfold kept; cbn; [| done |]; [intros n _ ? |]; by rewrite lookup_delete_ne.
Qed.

(** Cleaning up after an error keeps the error. *)
Lemma cleanup_spec e P :
  triple tmp P (_ ← attempt (os_Remove tmp); lift (Err e) : io world oserr unit)
    (fun r s cs => Forall (quiet_call path tmp) cs /\ r = Err e).
Proof.
  eapply triple_bind with (R := fun r s cs => Forall (quiet_call path tmp) cs /\ match r with Ok _ => True | _ => False end).
  - eapply triple_conseq; [apply triple_attempt, remove_spec | done |].
    intros [[e'|a] | e' |] s cs; cbn; [by intros [? _].. | done | by intros [_ []]].
  - intros a cs. apply triple_ret. intros s [Hc _]. by rewrite app_nil_r.
  - by intros ? ? ? [_ []].
  - by intros ? ? [_ []].
Qed.

Lemma writeFileSecure_spec :
  triple tmp (fun _ => True) (writeFileSecure tmp data mode) (fun r s cs =>
    Forall (quiet_call path tmp) cs /\
    match r with Ok _ => exists i, owns i data true s | Err _ => True | Panic => False end).
Proof.
  eapply triple_bind; [apply open_spec | | by intros | by intros ? ? []]. intros i cs. cbn.
  eapply triple_bind with (R := fun r s cs' => Forall (quiet_call path tmp) (cs ++ cs') /\
    match r with Ok (inl _) => True | Ok (inr _) => owns i data false s | _ => False end).
  - intros w Hw [Hc Ho].
    destruct (triple_attempt tmp _ _ _ (write_spec i) w Hw Ho) as (cs' & ? & ? & HQ).
    exists cs'. destruct (attempt (file_Write i data) w) as [[[e|a] | e |] w']; cbn in *; try tauto;
      destruct HQ; split_and!; try done; by apply Forall_app.
  - intros [e | a] cs'; cbn.
    + intros w Hw [Hc _]. destruct (cleanup_spec e (fun _ => True) w Hw I) as (cs2 & ? & ? & Hc2 & Hr).
      exists cs2. rewrite Hr. split_and!; [done.. | | done]. rewrite app_assoc. by apply Forall_app.
    + intros w Hw [Hc Ho]. destruct (sync_spec i w Hw Ho) as (cs2 & ? & ? & Hc2 & Hr).
      exists cs2. split_and!; [done.. | rewrite app_assoc; by apply Forall_app |].
      destruct ((file_Sync i w).1); [by exists i | done..].
  - by intros ? ? ? [_ []].
  - by intros ? ? [_ []].
Qed.

(** A call after which the target is as before, or complete. *)
Definition swap_call (c : fs * fs) : Prop :=
  contained path tmp c /\ (kept path c \/ complete path data mode c.2).

Definition swapped (s : fs) (cs : list (fs * fs)) : Prop :=
  Forall swap_call cs /\ complete path data mode s /\ exists c, last cs = Some c /\ c.2 = s.

Lemma rename_spec :
  triple tmp (fun s => exists i, owns i data true s) (os_Rename tmp path) (fun r s cs =>
    match r with Ok _ => swapped s cs | Err _ => Forall (quiet_call path tmp) cs | Panic => False end).
Proof.
  apply triple_sys; [intros s s' [i Ho] Hr; exists i; by eapply owns_stable |]. intros t s [i [Hn Hi]].
  assert (Hsw : swapped (rename_to tmp path (Hard i) s) [(s, rename_to tmp path (Hard i) s)]).
  { assert (Hc : complete path data mode (rename_to tmp path (Hard i) s))
      by (exists i; cbn; by rewrite lookup_insert_eq).
    split_and!; [| done | by eexists]. apply Forall_singleton. split; [split; cbn | by right]; [| done].
    intros n Hp Ht. by rewrite lookup_insert_ne, lookup_delete_ne by done. }
  assert (Hid : quiet_call path tmp (s, s)) by by split.
  destruct (t_ok t); cbn; [| by apply Forall_singleton]. rewrite Hn.
  destruct (fs_names s !! path) as [[j | l |]|] eqn:Ep; cbn; [| done | by apply Forall_singleton | done].
  destruct (i =? j) eqn:Eij; cbn; [| done]. bool_facts. subst j.
  split_and!; [apply Forall_singleton; split; [by split | by left] | by exists i | by eexists].
Qed.

Lemma quiet_swap cs : Forall (quiet_call path tmp) cs -> Forall swap_call cs.
Proof. intros H. eapply Forall_impl; [exact H |]. intros c [? ?]. split; [done | by left]. Qed.

Lemma replace_tail_spec :
  triple tmp (fun s => exists i, owns i data true s)
    (r ← attempt (os_Rename tmp path);
     match r with inl e => _ ← attempt (os_Remove tmp); lift (Err e) | inr _ => mret tt end)
    (fun r s cs => match r with Ok _ => swapped s cs | Err _ => Forall (quiet_call path tmp) cs | Panic => False end).
Proof.
  eapply triple_bind; [apply triple_attempt, rename_spec | | by intros ? ? ? [] | by intros ? ? []].
  intros [e | a] cs; cbn.
  - intros w Hw Hc. destruct (cleanup_spec e (fun _ => True) w Hw I) as (cs' & ? & ? & Hc' & Hr).
    exists cs'. rewrite Hr. split_and!; [done.. | by apply Forall_app].
  - apply triple_ret. intros s Hs. by rewrite app_nil_r.
Qed.
End replace.

Lemma len_tmp_name path rbuf : len path < len (tmp_name path rbuf).
Proof. unfold tmp_name. rewrite !len_app. pose proof (len_nonneg (hex_encode rbuf)). change (len (go! ".")) with 1. change (len (go! ".tmp")) with 4. lia. Qed.

(** The temporary name of a run that starts in [w]. *)
Definition run_tmp (path : bytes) (w : world) : bytes :=
  tmp_name path (take 4 (default [] (hd (Some []) (w_rand w)) ++ replicate 4 x00)).

(** [C13] [atomicReplaceSecure] under interference and failures. Whatever other
    processes do between its system calls (swap the target for a symbolic
    link, replace it, write to it), as long as they leave the temporary name
    alone, and whichever calls fail, it touches no entry but the target and the
    temporary one and no inode it did not create. After each of its calls,
    hence at any crash point, the target is either as it was before that call
    or the whole new data, on the device, with the mode asked for; when it
    reports an error, no call has changed the target. *)
Theorem atomicReplaceSecure_crash_safe path data mode w :
  env_ok (run_tmp path w) w ->
  exists calls, let '(r, w') := atomicReplaceSecure path data mode w in
  w_calls w' = w_calls w ++ calls /\
  Forall (contained path (run_tmp path w)) calls /\
  Forall (fun c => kept path c \/ complete path data mode c.2) calls /\
  match r with
  | Ok _ => complete path data mode (w_fs w')
  | Err _ => Forall (kept path) calls
  | Panic => False
  end.
Proof.
  intros Hw. destruct (hd (Some []) (w_rand w)) as [b|] eqn:Eb.
  2: { exists []. unfold atomicReplaceSecure, mbind, io_bind, rand_Read. rewrite Eb. cbn. by rewrite app_nil_r. }
  unfold run_tmp in *. rewrite Eb in *. cbn [default from_option id] in *.
  set (rb := take 4 (b ++ replicate 4 x00)) in *. set (tmp := tmp_name path rb) in *.
  set (w1 := World (w_fs w) (w_ticks w) (w_calls w) (tl (w_rand w)) (w_cn w) (w_log w)).
  set (m := _ ← writeFileSecure tmp data mode;
            r ← attempt (os_Rename tmp path);
            match r with inl e => _ ← attempt (os_Remove tmp); lift (Err e) | inr _ => mret tt end
            : io world oserr unit).
  assert (Hm : atomicReplaceSecure path data mode w = m w1).
  { unfold atomicReplaceSecure. unfold mbind at 1, io_bind at 1. unfold rand_Read. by rewrite Eb. }
  assert (Hpt : tmp <> path) by (intros E; pose proof (len_tmp_name path rb) as Hl; change (tmp_name path rb) with tmp in Hl; rewrite E in Hl; lia).
  assert (Hspec : triple tmp (fun _ => True) m
    (fun r s cs => Forall (swap_call path tmp data mode) cs /\
       match r with Ok _ => complete path data mode s | Err _ => Forall (quiet_call path tmp) cs | Panic => False end)).
  { eapply triple_bind; [by apply writeFileSecure_spec | | | by intros ? ? [_ []]].
    - intros a cs w2 Hw2 [Hc Ho]. destruct (replace_tail_spec path tmp data mode Hpt w2 Hw2 Ho) as (cs' & ? & ? & Hr).
      exists cs'. split; [done |]. split; [done |]. destruct (_ w2).1; [| | done].
      + destruct Hr as (? & ? & _). split; [apply Forall_app; split; [by apply quiet_swap | done] | done].
      + assert (Forall (quiet_call path tmp) (cs ++ cs')) by by apply Forall_app.
        split; [by apply quiet_swap | done].
    - intros e s cs [? _]. split; [by apply quiet_swap | done]. }
  destruct (Hspec w1) as (cs & _ & Hc & Hs & Hr); [done | done |]. exists cs.
  rewrite Hm. destruct (m w1) as [r w']. cbn in *. split_and!; [done | | | destruct r; [done | | done]];
    (eapply Forall_impl; [first [exact Hr | exact Hs] |]); by intros ? [? ?].
Qed.

(** ** Reading back what was written *)

Lemma trim_space_line `{UnicodeTables} x :
  Forall (fun c => ascii_space c = false /\ b2z c < 128) x -> trim_space (x ++ lf) = x.
Proof.
  intros Hx. destruct x as [|c x]; [done |]. unfold trim_space.
  inversion Hx as [| ? ? [Hs Hlt] _]; subst. cbn [app drop_while]. rewrite Hs.
  rewrite (proj2 (Z.leb_gt _ _)) by lia.
  change (c :: x ++ lf) with ((c :: x) ++ lf). rewrite rev_app_distr. change (rev lf) with lf.
  assert (Hlf : drop_while ascii_space (lf ++ rev (c :: x)) = drop_while ascii_space (rev (c :: x))) by done.
  rewrite Hlf. apply Forall_rev in Hx.
  destruct (rev (c :: x)) as [|d y] eqn:E; apply (f_equal (@rev byte)) in E; rewrite rev_involutive in E; [done |].
  inversion Hx as [| ? ? [Hd Hd'] _]; subst.
  cbn [drop_while]. rewrite Hd. by rewrite (proj2 (Z.leb_gt _ _)) by lia.
Qed.

Lemma clean_byte c : is_digit c || label_byte c || bool_decide (c = "."%byte) = true ->
  ascii_space c = false /\ b2z c < 128.
Proof. destruct c; vm_compute; try done; intros [=]. Qed.

Lemma hostname_bytes s : isValidHostname s = true -> Forall (fun c => ascii_space c = false /\ b2z c < 128) s.
Proof.
  unfold isValidHostname. case_match; [done |]. case_match; [done |]. intros Hf.
  rewrite <-(join_split "." s). induction (split_on "." s) as [|l ls IH]; [done |].
  cbn in Hf. bool_facts. assert (Hl : Forall (fun c => ascii_space c = false /\ b2z c < 128) l).
  { unfold label_ok in *. bool_facts. rewrite Forall_forall. intros c Hc. apply clean_byte.
    match goal with H : forallb label_byte l = true |- _ => rewrite forallb_forall in H; rewrite H by (by apply list_elem_of_In) end.
    by rewrite orb_true_r. }
  destruct ls as [|l2 ls]; [done |]. change (join "." (l :: l2 :: ls)) with (l ++ "."%byte :: join "." (l2 :: ls)).
  apply Forall_app. split; [done |]. constructor; [by apply clean_byte | by apply IH].
Qed.

Lemma itoa_bytes n : 0 <= n < 2 ^ 63 -> Forall (fun c => ascii_space c = false /\ b2z c < 128) (itoa n).
Proof.
  intros Hn. destruct (itoa_spec n Hn) as (_ & _ & Hd). eapply Forall_impl; [exact Hd |].
  intros c Hc. apply clean_byte. by rewrite Hc.
Qed.

#[local] Arguments sys : simpl never.

(** ** Undisturbed runs: no other process, no failing call *)

Definition file_at (s : fs) (p d : bytes) : Prop :=
  exists i nd, fs_names s !! p = Some (Hard i) /\ fs_inodes s !! i = Some nd /\ i_data nd = d.
Definition absent (s : fs) (p : bytes) : Prop := fs_names s !! p = None.

(** A path that is free or leads to a regular file. *)
Definition cell (s : fs) (p : bytes) : Prop := absent s p \/ exists d, file_at s p d.

Definition tmp_like (p : bytes) : bool := has_suffix (go! ".tmp") p.
Definition no_tmps (s : fs) : Prop := forall p, tmp_like p = true -> absent s p.

(** What replacing [p] does not change. *)
Definition preserves (p : bytes) (s s' : fs) : Prop :=
  forall q, q <> p -> tmp_like q = false -> q ∉ dir_prefixes (filepath_Dir p) ->
  (forall d, file_at s q d -> file_at s' q d) /\ (absent s q -> absent s' q).

Record undisturbed (w : world) : Prop := {
  un_ticks : w_ticks w = [];
  un_rand : Forall is_Some (w_rand w);
  un_tmps : no_tmps (w_fs w);
}.

Lemma sys_undisturbed {A} (f : tick -> fs -> res oserr A * fs) w : w_ticks w = [] ->
  sys f w = ((f calm (w_fs w)).1,
    World (f calm (w_fs w)).2 [] (w_calls w ++ [(w_fs w, (f calm (w_fs w)).2)]) (w_rand w) (w_cn w) (w_log w)).
Proof. intros Hw. unfold sys. rewrite Hw. cbn. by destruct (f calm (w_fs w)). Qed.

Lemma tmp_name_like p r : tmp_like (tmp_name p r) = true.
Proof. apply has_suffix_spec. unfold tmp_name. rewrite !app_assoc. by eexists. Qed.

Lemma replace_undisturbed path data mode w :
  undisturbed w -> cell (w_fs w) path -> tmp_like path = false ->
  exists w' i, atomicReplaceSecure path data mode w = (Ok tt, w') /\
  w_ticks w' = [] /\ w_rand w' = tl (w_rand w) /\ w_cn w' = w_cn w /\ w_log w' = w_log w /\
  (forall q, tmp_like q = true -> absent (w_fs w') q) /\
  (forall q, q <> path -> fs_names (w_fs w') !! q = fs_names (w_fs w) !! q) /\
  fs_names (w_fs w') !! path = Some (Hard i) /\
  fs_inodes (w_fs w') !! i = Some (Inode data true mode) /\
  (forall j nd, fs_inodes (w_fs w) !! j = Some nd -> fs_inodes (w_fs w') !! j = Some nd).
Proof.
  intros [Ht Hr Hn] Hc Hp. unfold atomicReplaceSecure, mbind, io_bind, rand_Read.
  assert (Hb : exists b, hd (Some []) (w_rand w) = Some b).
  { destruct (w_rand w); [by exists [] |]. by inversion Hr as [| ? ? [b ->] _]; exists b. }
  destruct Hb as [b ->]. set (tmp := tmp_name path _).
  assert (Htmp : fs_names (w_fs w) !! tmp = None) by (apply Hn, tmp_name_like).
  assert (Hne : tmp <> path) by (intros E; pose proof (tmp_name_like path (take 4 (b ++ replicate 4 x00))) as E2;
    change (tmp_like tmp = true) in E2; rewrite E in E2; congruence).
  set (i := new_ino (fs_inodes (w_fs w))). pose proof (new_ino_fresh (fs_inodes (w_fs w))) as Hi. fold i in Hi.
  unfold writeFileSecure, secureCreateExclFile, os_OpenExcl, file_Write, file_Sync, os_Rename, attempt, mbind, io_bind.
  rewrite sys_undisturbed by done. cbn. rewrite Htmp. cbn. fold i.
  rewrite sys_undisturbed by done. cbn. rewrite sys_undisturbed by done. cbn.
  set (s3 := Fs _ _).
  assert (HI : fs_inodes s3 !! i = Some (Inode data true mode)).
  { cbn. by rewrite lookup_alter_eq, lookup_alter_eq, lookup_insert_eq. }
  assert (HI2 : forall j nd, fs_inodes (w_fs w) !! j = Some nd -> fs_inodes s3 !! j = Some nd).
  { intros j nd Hj. cbn. by rewrite !lookup_alter_ne, lookup_insert_ne by congruence. }
  rewrite sys_undisturbed by done. cbn [w_fs t_ok calm negb].
  assert (Hn1 : fs_names s3 !! tmp = Some (Hard i)) by (cbn; by rewrite lookup_insert_eq).
  assert (Hn2 : fs_names s3 !! path = fs_names (w_fs w) !! path) by (cbn; by rewrite lookup_insert_ne).
  rewrite Hn1, Hn2.
  assert (Hd : match fs_names (w_fs w) !! path with
    | None => (Ok tt, rename_to tmp path (Hard i) s3)
    | Some Dir => (Err EEXIST, s3)
    | Some d => if bool_decide (Hard i = Dir) then (Err ENOTDIR, s3)
                else if same_inode (Hard i) d then (Ok tt, s3) else (Ok tt, rename_to tmp path (Hard i) s3)
    end = (Ok tt : res oserr unit, rename_to tmp path (Hard i) s3)).
  { destruct Hc as [-> | (d & j & nd & -> & Hj & _)]; [done |]. cbn.
    by rewrite (proj2 (Z.eqb_neq _ _)) by congruence. }
  rewrite Hd. eexists _, i. split; [reflexivity |]. cbn [w_fs w_ticks w_rand w_cn w_log rename_to fs_names fs_inodes fst snd].
  split_and!; [done.. | | | by rewrite lookup_insert_eq | done | done].
  - intros q Hq. unfold absent. cbn. rewrite lookup_insert_ne by congruence.
    destruct (decide (q = tmp)) as [-> | ?]; [by rewrite lookup_delete_eq |].
    rewrite lookup_delete_ne by done. cbn. rewrite lookup_insert_ne by done. by apply Hn.
  - intros q Hq. rewrite lookup_insert_ne by done.
    destruct (decide (q = tmp)) as [-> | ?]; [by rewrite lookup_delete_eq |].
    rewrite lookup_delete_ne by done. cbn. by rewrite lookup_insert_ne.
Qed.

Lemma mkdirs_spec ps names :
  (forall q e, names !! q = Some e -> (mkdirs ps names).2 !! q = Some e) /\
  (forall q, q ∉ ps -> (mkdirs ps names).2 !! q = names !! q).
Proof.
  revert names. induction ps as [|p ps IH]; intros names; [done |]. cbn.
  assert (IHs : forall n, (forall q, q ∉ (p :: ps) -> (mkdirs ps n).2 !! q = n !! q)).
  { intros n q Hq. apply IH. set_solver. }
  destruct (names !! p) as [[i | t |]|] eqn:E; [done | split; [by apply IH | apply IHs].. |].
  split.
  - intros q e Hq. apply IH. rewrite lookup_insert_ne; [done |]. congruence.
  - intros q Hq. rewrite IHs by done. rewrite lookup_insert_ne; [done |]. set_solver.
Qed.

(** A path whose replacement does not get in its own way. *)
Definition place_ok (p : bytes) : Prop :=
  tmp_like p = false /\ (p ∉ dir_prefixes (filepath_Dir p)) /\
  Forall (fun q => tmp_like q = false) (dir_prefixes (filepath_Dir p)).
#[export] Instance place_ok_dec p : Decision (place_ok p).
Proof. unfold place_ok. apply _. Defined.

Lemma persist_undisturbed {E} p data w :
  undisturbed w -> cell (w_fs w) p -> place_ok p ->
  exists w', persist p data w = (Ok (inr tt) : res E (oserr + unit), w') /\
  undisturbed w' /\ w_cn w' = w_cn w /\ w_log w' = w_log w /\
  file_at (w_fs w') p data /\ preserves p (w_fs w) (w_fs w').
Proof.
  intros Hu Hc (Hp & Hpd & Hdt).
  assert (Hmk : exists w1 r, (if bool_decide (filepath_Dir p = [] \/ filepath_Dir p = go! ".") then mret (inr tt)
      else attempt (os_MkdirAll (filepath_Dir p))) w = (Ok r : res E (oserr + unit), w1) /\
    w_ticks w1 = [] /\ w_rand w1 = w_rand w /\ w_cn w1 = w_cn w /\ w_log w1 = w_log w /\
    fs_inodes (w_fs w1) = fs_inodes (w_fs w) /\
    (forall q e, fs_names (w_fs w) !! q = Some e -> fs_names (w_fs w1) !! q = Some e) /\
    (forall q, q ∉ dir_prefixes (filepath_Dir p) -> fs_names (w_fs w1) !! q = fs_names (w_fs w) !! q)).
  { case_bool_decide; [exists w, (inr tt); split_and!; try done; apply Hu |].
    unfold attempt, os_MkdirAll. rewrite sys_undisturbed by apply Hu. cbn.
    pose proof (mkdirs_spec (dir_prefixes (filepath_Dir p)) (fs_names (w_fs w))) as [H1 H2].
    destruct (mkdirs _ _) as [r names] eqn:Em. cbn in *.
    assert (Hr : r <> Panic).
    { clear -Em. revert Em. generalize (fs_names (w_fs w)), (dir_prefixes (filepath_Dir p)). intros m l.
      revert m. induction l; intros m Em; [by cbn in Em; simplify_eq |]. cbn in Em.
      repeat case_match; simplify_eq; eauto. }
    destruct r as [[]|e|]; [| | done]; eexists _, _; (split; [reflexivity |]); cbn; done. }
  destruct Hmk as (w1 & r & Hrun & Ht & Hr & Hcn & Hl & Hin & Hn1 & Hn2).
  assert (Hf1 : forall q d, file_at (w_fs w) q d -> file_at (w_fs w1) q d).
  { intros q d (i & nd & Hq & Hi & Hd). exists i, nd. rewrite Hin. auto. }
  destruct (replace_undisturbed p data 384 w1) as (w' & i & Hrep & ? & Hrr & ? & ? & Htm & Hnm & Hpi & Hii & Hin').
  { split; [done | rewrite Hr; apply Hu |]. intros q Hq. unfold absent. rewrite Hn2; [by apply Hu |].
    intros Hin2. rewrite Forall_forall in Hdt. rewrite Hdt in Hq by done. done. }
  { destruct Hc as [Ha | [d Hd]]; [left; unfold absent; by rewrite Hn2 | right; exists d; auto]. }
  { done. }
  exists w'. split.
  { unfold persist, mbind at 1, io_bind at 1. rewrite Hrun. unfold attempt. by rewrite Hrep. }
  split_and!; [split; [done | rewrite Hrr, Hr; destruct (w_rand w) eqn:Ew; [done |];
    pose proof (un_rand _ Hu) as Hx; rewrite Ew in Hx; by inversion Hx | done] | congruence | congruence | |].
  { exists i, (Inode data true 384). auto. }
  intros q Hq Hqt Hqd. split.
  - intros d Hd. destruct (Hf1 q d Hd) as (j & nd & Hj & Hnd & Hdd). exists j, nd. rewrite Hnm by done. auto.
  - intros Ha. unfold absent. rewrite Hnm by done. by rewrite Hn2.
Qed.

(** ** Restarting *)

Section restart.
Context `{UnicodeTables}.

(** What a file must hold for the next start to take it up. *)
Definition holds_cn (s : fs) (path cn : bytes) : Prop :=
  exists d, file_at s path d /\ trim_space d = cn /\ isValidHostname cn = true.
Definition holds_family (s : fs) (path : bytes) (idx : Z) : Prop :=
  exists d, file_at s path d /\ atoi (trim_space d) = Some idx /\ 0 <= idx < len camouflageFamilies.

Lemma read_file_at {E} s p d w : w_ticks w = [] -> w_fs w = s -> file_at s p d ->
  exists w', attempt (os_ReadFile p) w = (Ok (inr d) : res E (oserr + bytes), w') /\
  w_fs w' = s /\ w_ticks w' = [] /\ w_rand w' = w_rand w /\ w_cn w' = w_cn w /\ w_log w' = w_log w.
Proof.
  intros Ht Hs (i & nd & Hn & Hi & Hd). unfold attempt, os_ReadFile. rewrite sys_undisturbed by done.
  cbn. rewrite Hs, Hn, Hi. cbn. rewrite Hd. by eexists.
Qed.

Lemma resolvePersistedCN_again {E} path cn w :
  undisturbed w -> holds_cn (w_fs w) path cn ->
  exists w', resolvePersistedCN path false w = (Ok cn : res E bytes, w') /\
  undisturbed w' /\ w_fs w' = w_fs w.
Proof.
  intros Hu (d & Hf & Hd & Hv). unfold resolvePersistedCN, mbind, io_bind. cbn.
  destruct (@read_file_at E _ path d w (un_ticks _ Hu) eq_refl Hf) as (w1 & -> & Hs & Ht & Hr & _).
  rewrite Hd, Hv. eexists. split; [reflexivity |]. cbn. split; [| done].
  split; cbn; [done | rewrite Hr; apply Hu | rewrite Hs; apply Hu].
Qed.

Lemma resolveCloakFamily_again {E} path idx w :
  undisturbed w -> holds_family (w_fs w) path idx ->
  exists w', resolveCloakFamily path false w = (Ok idx : res E Z, w') /\
  undisturbed w' /\ w_fs w' = w_fs w.
Proof.
  intros Hu (d & Hf & Hd & Hv). unfold resolveCloakFamily, mbind, io_bind. cbn.
  destruct (@read_file_at E _ path d w (un_ticks _ Hu) eq_refl Hf) as (w1 & -> & Hs & Ht & Hr & _).
  rewrite Hd. rewrite (proj2 (Z.leb_le _ _)), (proj2 (Z.ltb_lt _ _)) by lia. cbn.
  eexists. split; [reflexivity |]. cbn. split; [| done].
  split; cbn; [done | rewrite Hr; apply Hu | rewrite Hs; apply Hu].
Qed.

(** The part of a resolution before the fresh pick: it reads at most, so the
    disk is as before, and a value it finds is one the file holds. *)
Definition looked (w w1 : world) : Prop := undisturbed w1 /\ w_fs w1 = w_fs w.

Lemma logged_looked {E} f w w1 : looked w w1 -> exists w2, (logged f : io world E unit) w1 = (Ok tt, w2) /\ looked w w2.
Proof. intros [[] Hs]. by eexists. Qed.

Lemma read_looked {E} path w : undisturbed w -> cell (w_fs w) path ->
  exists r w1, attempt (os_ReadFile path) w = (Ok r : res E (oserr + bytes), w1) /\ looked w w1 /\
  match r with inr d => file_at (w_fs w) path d | inl _ => True end.
Proof.
  intros Hu [Ha | [d Hd]].
  - unfold attempt, os_ReadFile. rewrite sys_undisturbed by apply Hu. cbn. unfold absent in Ha. rewrite Ha.
    eexists _, _. split; [reflexivity |]. cbn. destruct Hu. by repeat split.
  - destruct (@read_file_at E _ path d w (un_ticks _ Hu) eq_refl Hd) as (w1 & -> & Hs & Ht & Hr & _).
    eexists _, _. split; [reflexivity |]. split; [| done]. split; [| done].
    split; [done | rewrite Hr; apply Hu | rewrite Hs; apply Hu].
Qed.

Lemma preserves_refl p s : preserves p s s.
Proof. by intros q. Qed.

(** The fresh pick of [v]. *)
Lemma persist_looked {E A} f p data (v : A) w w1 :
  looked w w1 -> cell (w_fs w) p -> place_ok p ->
  exists w2, (r ← persist p data; _ ← logged (f r); mret v : io world E A) w1 = (Ok v, w2) /\
  undisturbed w2 /\ file_at (w_fs w2) p data /\ preserves p (w_fs w) (w_fs w2).
Proof.
  intros [Hu Hs] Hc Hp. rewrite <-Hs in *.
  destruct (@persist_undisturbed E p data w1 Hu Hc Hp) as (w2 & Hrun & Hu2 & _ & _ & Hf & Hpr).
  unfold mbind, io_bind. rewrite Hrun. eexists. split; [reflexivity |]. cbn. split; [| done].
  split; cbn; apply Hu2.
Qed.

Lemma resolvePersistedCN_first {E} path rotate w :
  undisturbed w -> cell (w_fs w) path -> place_ok path ->
  exists cn w', resolvePersistedCN path rotate w = (Ok cn : res E bytes, w') /\
  undisturbed w' /\ holds_cn (w_fs w') path cn /\ preserves path (w_fs w) (w_fs w').
Proof.
  intros Hu Hc Hp. unfold resolvePersistedCN. unfold mbind at 1, io_bind at 1.
  match goal with |- context [match ?x with _ => _ end] => set (look := x) end.
  assert (Hlook : exists r w1, look = (Ok r, w1) /\ looked w w1 /\
    match r with Some cn => holds_cn (w_fs w) path cn | None => True end).
  { unfold look. destruct rotate; [by exists None, w |]. unfold mbind at 1, io_bind at 1.
    destruct (@read_looked E path w Hu Hc) as (r & w1 & -> & Hl & Hr).
    destruct r as [e | d]; [by exists None, w1 |].
    destruct (isValidHostname (trim_space d)) eqn:Hv.
    - unfold mbind, io_bind. destruct (@logged_looked E (logInfof (EvCnReused (trim_space d))) w w1 Hl) as (w2 & -> & Hl2).
      exists (Some (trim_space d)), w2. split; [done |]. split; [done |]. by exists d.
    - case_bool_decide; [by exists None, w1 |]. unfold mbind, io_bind.
      destruct (@logged_looked E (logWarnf (EvCnInvalid (trim_space d))) w w1 Hl) as (w2 & -> & Hl2). by exists None, w2. }
  destruct Hlook as (r & w1 & -> & Hl & Hr). destruct r as [cn|].
  { exists cn, w1. split; [done |]. destruct Hl as [? ->]. split; [done |]. split; [done | apply preserves_refl]. }
  set (cn := generateSyntheticCN (w_cn w1)).
  destruct (@persist_looked E _ (fun r => match r with
                 | inl _ => logWarnf (EvCnNotPersisted path)
                 | inr _ => logInfof (EvCnPersisted rotate cn path)
                 end) path (cn ++ lf) cn w w1 Hl Hc Hp) as (w2 & Hrun & Hu2 & Hf & Hpr).
  exists cn, w2. split; [exact Hrun | split; [done | split; [| done]]].
  exists (cn ++ lf). split; [done |]. pose proof (synthetic_valid (w_cn w1)) as Hv.
  split; [by apply trim_space_line, hostname_bytes | done].
Qed.

Lemma pickRandomFamilyIdx_range seed : 0 <= pickRandomFamilyIdx seed < len camouflageFamilies.
Proof.
  unfold pickRandomFamilyIdx. assert (0 < len camouflageFamilies) by done.
  destruct seed; [apply Z.mod_pos_bound; done | lia].
Qed.

Lemma resolveCloakFamily_first {E} path rotate w :
  undisturbed w -> cell (w_fs w) path -> place_ok path ->
  exists idx w', resolveCloakFamily path rotate w = (Ok idx : res E Z, w') /\
  undisturbed w' /\ holds_family (w_fs w') path idx /\ preserves path (w_fs w) (w_fs w').
Proof.
  intros Hu Hc Hp. unfold resolveCloakFamily. unfold mbind at 1, io_bind at 1.
  match goal with |- context [match ?x with _ => _ end] => set (look := x) end.
  assert (Hlook : exists r w1, look = (Ok r, w1) /\ looked w w1 /\
    match r with Some idx => holds_family (w_fs w) path idx | None => True end).
  { unfold look. destruct rotate; [by exists None, w |]. unfold mbind at 1, io_bind at 1.
    destruct (@read_looked E path w Hu Hc) as (r & w1 & -> & Hl & Hr).
    destruct r as [e | d]; [by exists None, w1 |].
    assert (Hbad : exists r w2, (_ ← logged (logWarnf (EvCloakUnparseable path (trim_space d))); mret None
      : io world E (option Z)) w1 = (Ok r, w2) /\ looked w w2 /\
      match r with Some idx => holds_family (w_fs w) path idx | None => True end).
    { unfold mbind, io_bind.
      destruct (@logged_looked E (logWarnf (EvCloakUnparseable path (trim_space d))) w w1 Hl) as (w2 & -> & Hl2).
      by exists None, w2. }
    destruct (atoi (trim_space d)) as [idx|] eqn:Ha; [| exact Hbad].
    destruct (_ && _) eqn:Hv; [| exact Hbad]. bool_facts. unfold mbind, io_bind.
    destruct (@logged_looked E (logInfof (EvCloakReused idx)) w w1 Hl) as (w2 & -> & Hl2).
    exists (Some idx), w2. split; [done |]. split; [done |]. by exists d. }
  destruct Hlook as (r & w1 & -> & Hl & Hr). destruct r as [idx|].
  { exists idx, w1. split; [done |]. destruct Hl as [? ->]. split; [done |]. split; [done | apply preserves_refl]. }
  unfold mbind at 1, io_bind at 1.
  assert (Hseed : exists seed w2, attempt (rand_Read 8) w1 = (Ok seed : res E (oserr + bytes), w2) /\ looked w w2).
  { unfold attempt, rand_Read. destruct Hl as [[Ht Hra Htm] Hs].
    assert (Htl : Forall is_Some (tl (w_rand w1))) by (destruct (w_rand w1); [done | by inversion Hra]).
    destruct (hd (Some []) (w_rand w1)); eexists _, _; split; try reflexivity; by repeat split. }
  destruct Hseed as (seed & w2 & -> & Hl2). set (idx := pickRandomFamilyIdx _).
  destruct (@persist_looked E _ (fun r => match r with
                | inl _ => logWarnf (EvCloakNotPersisted path)
                | inr _ => logInfof (EvCloakPersisted rotate idx path)
                end) path (itoa idx ++ lf) idx w w2 Hl2 Hc Hp) as (w3 & Hrun & Hu3 & Hf & Hpr).
  exists idx, w3. split; [exact Hrun | split; [done | split; [| done]]].
  exists (itoa idx ++ lf). split; [done |].
  pose proof (pickRandomFamilyIdx_range (match seed with inl _ => None | inr b => Some b end)) as Hi. fold idx in Hi.
  assert (len camouflageFamilies < 2 ^ 63) by done.
  rewrite trim_space_line by (apply itoa_bytes; lia). split; [apply atoi_itoa; lia | done].
Qed.
End restart.

(** ** Examples *)

Module PersistExample.
Definition path : bytes := go! "/var/mxtr/psk".
(** Another process keeps planting a symbolic link at the target. *)
Definition plant (s : fs) : fs := Fs (<[path := Sym (go! "/etc/passwd")]> (fs_names s)) (fs_inodes s).
Definition attacked : world :=
  World (Fs ∅ ∅) (replicate 5 (Tick plant true 0)) [] [] (CnDraws 0 0 0 0) fresh_logger.
(** [Sync] fails. *)
Definition no_sync : world :=
  World (Fs ∅ ∅) [calm; calm; Tick id false 0] [] [] (CnDraws 0 0 0 0) fresh_logger.
End PersistExample.

Lemma atomicReplaceSecure_crash_safe_witness :
  exists calls, let '(r, w') := atomicReplaceSecure PersistExample.path (go! "secret") 384 PersistExample.attacked in
  w_calls w' = w_calls PersistExample.attacked ++ calls /\
  Forall (contained PersistExample.path (run_tmp PersistExample.path PersistExample.attacked)) calls /\
  Forall (fun c => kept PersistExample.path c \/ complete PersistExample.path (go! "secret") 384 c.2) calls /\
  match r with
  | Ok _ => complete PersistExample.path (go! "secret") 384 (w_fs w')
  | Err _ => Forall (kept PersistExample.path) calls
  | Panic => False
  end.
Proof.
  apply (atomicReplaceSecure_crash_safe PersistExample.path (go! "secret") 384 PersistExample.attacked).
  unfold env_ok. cbn [w_ticks PersistExample.attacked replicate].
  assert (Hp : forall s, rely (run_tmp PersistExample.path PersistExample.attacked) s (PersistExample.plant s)).
  { intros s. split; [| done]. cbn [PersistExample.plant fs_names]. rewrite lookup_insert_ne; [done |].
    vm_compute. discriminate. }
  repeat (apply Forall_cons_2; [exact Hp |]). apply Forall_nil_2.
Defined.

(** [writeFileSecure] removes its file when the write fails, but not when
    [Sync] does, and [atomicReplaceSecure] returns before its own clean-up: the
    secret stays behind under the temporary name. *)
Theorem sync_failure_leaves_secret :
  let '(r, w') := atomicReplaceSecure PersistExample.path (go! "secret") 384 PersistExample.no_sync in
  r = Err EIO /\ file_at (w_fs w') (run_tmp PersistExample.path PersistExample.no_sync) (go! "secret") /\
  absent (w_fs w') PersistExample.path.
Proof. vm_compute. split; [done |]. split; [| done]. eexists 1, _. by repeat split. Qed.
