(* ===== verification/Startup.v ===== *)
(** * Start-up ([main], [autoDetectPublicIP] of cmd/mxtr-server/main.go) *)

From S2P Require Import Prelude Crypto GoStrings GoNet Padding Allowlist ShareString PskConfig.
From S2P Require Import Hostnames Logger GoOS Camouflage Persist.

Definition version : bytes := go! "0.3.0".

(** The command line. *)
Record options := Options {
  tcpAddr : bytes; pskHex : bytes; pskFile : bytes; cloakState : bytes; rotateCloak : bool;
  certPath : bytes; keyPath : bytes; showVer : bool; genPSK : bool; logLevel : bytes; quiet : bool;
  publicIP : bytes; sniName : bytes; allowList : bytes;
}.

(** The rest of what a start reads: the environment variable, the key pair (an
    error, or the leaf's common name when the chain has a leaf that parses),
    whether a self-signed certificate can be made, the addresses of the
    interfaces ([None] inside the list: not an [IPNet]). *)
Record environ := Environ {
  MXTR_PSK : bytes;
  LoadX509KeyPair : bytes -> bytes -> option (option bytes);
  selfSignedOk : bytes -> bool;
  InterfaceAddrs : option (list (option bytes));
}.

(** How [main] ends before it serves: a normal exit with its standard output,
    or a [log.Fatal]. *)
Inductive halt := Exited (stdout : bytes) | Died (f : fatal).

Record serving := Serving {
  sv_allow : list allowEntry;
  sv_psk : bytes;
  sv_cfg : pskDerivedConfig;
  sv_family : Z;
  sv_cert : bytes;
  sv_host : bytes;
  sv_sni : bytes;
  sv_share : option bytes;  (** the share string, when a TCP listener is started *)
}.

Definition die {A} (f : fatal) : io world halt A := _ ← logged (log_Fatal f); lift (Err (Died f)).
Definition or_die {A} (r : fatal + A) : io world halt A :=
  match r with inl f => die f | inr a => mret a end.

Section main.
Context `{CryptoSuite, UnicodeTables}.

Definition chosen_level (o : options) : fatal + LogLevel :=
  match parseLogLevel (logLevel o) with
  | None => inl (FBadLogLevel (logLevel o))
  | Some l => inr (if quiet o then LogOff else l)
  end.

(** Flag, then environment variable, then file, then a fresh PSK. *)
Definition psk_given (o : options) (e : environ) : bytes :=
  if bool_decide (pskHex o = []) then MXTR_PSK e else pskHex o.

Definition load_psk (o : options) (given : bytes) : io world halt bytes :=
  if bool_decide (given = []) then
    r ← attempt (os_ReadFile (pskFile o));
    match r with
    | inl _ => mret []
    | inr data =>
        let h := trim_space data in
        if bool_decide (h = []) then mret h
        else _ ← logged (logInfof (EvPskLoaded (pskFile o))); mret h
    end
  else mret given.

Definition fresh_psk (o : options) : io world halt bytes :=
  r ← attempt (rand_Read 32);
  match r with
  | inl _ => die FRand
  | inr key =>
      let h := hex_encode key in
      r ← persist (pskFile o) (h ++ lf);
      _ ← logged (match r with
                  | inl _ => logWarnf (EvPskNotPersisted (pskFile o))
                  | inr _ => logInfof (EvPskPersisted (pskFile o))
                  end);
      mret h
  end.

Definition resolvePSK (o : options) (e : environ) : io world halt bytes :=
  h ← load_psk o (psk_given o e);
  if bool_decide (h = []) then fresh_psk o else mret h.

Definition decode_psk (h : bytes) : fatal + bytes :=
  match hex_decode h with
  | None => inl FBadHex
  | Some p => if len p <? 16 then inl FShortPSK else inr p
  end.

Definition statePath (o : options) : bytes :=
  if bool_decide (cloakState o = []) then filepath_Join (filepath_Dir (pskFile o)) (go! "mxtr-cloak.idx")
  else cloakState o.
Definition cnPath (o : options) : bytes := filepath_Join (filepath_Dir (pskFile o)) (go! "mxtr-cert.cn").

(** The name of the certificate the listeners will present. *)
Definition real_cert (o : options) (e : environ) : fatal + option bytes :=
  if bool_decide (keyPath o = []) then inl FKeyMissing
  else match LoadX509KeyPair e (certPath o) (keyPath o) with None => inl FLoadCert | Some cn => inr cn end.

Definition resolveCert (o : options) (e : environ) : io world halt bytes :=
  if bool_decide (certPath o = []) then
    cn ← resolvePersistedCN (cnPath o) (rotateCloak o);
    _ ← (if selfSignedOk e cn then mret tt else die FSelfSigned);
    _ ← logged (logInfof (EvSelfSigned cn));
    mret cn
  else
    leaf ← or_die (real_cert o e);
    _ ← (match leaf with Some cn => logged (logInfof (EvRealCert cn)) | None => mret tt end);
    let name := default [] leaf in
    mret (if bool_decide (name = []) then go! "real-cert" else name).

Fixpoint first_public_v4 (addrs : list (option bytes)) : bytes :=
  match addrs with
  | [] => []
  | None :: rest => first_public_v4 rest
  | Some ip :: rest =>
      if IsLoopback ip || IsLinkLocalUnicast ip || IsPrivate ip then first_public_v4 rest
      else match To4 ip with Some v4 => v4_string v4 | None => first_public_v4 rest end
  end.
Definition autoDetectPublicIP (e : environ) : bytes :=
  match InterfaceAddrs e with None => [] | Some addrs => first_public_v4 addrs end.

Definition placeholder_host : bytes := go! "<YOUR-PUBLIC-IP>".

Definition resolveHost (o : options) (e : environ) : io world halt bytes :=
  host ← (if bool_decide (publicIP o = []) then
            let host := autoDetectPublicIP e in
            if bool_decide (host = []) then mret placeholder_host
            else _ ← logged (logInfof (EvAutoIP host)); mret host
          else mret (publicIP o));
  if bool_decide (host <> placeholder_host) && negb (isPublicIPLiteral host) then die (FPublicIP host)
  else mret host.

Definition check_sni (o : options) (certName : bytes) : fatal + bytes :=
  let sni := if bool_decide (sniName o = []) then certName else sniName o in
  if bool_decide (sni <> []) && negb (isValidHostname sni) then inl (FSni sni) else inr sni.

Definition share_of (o : options) (psk host sni : bytes) : option bytes :=
  if bool_decide (tcpAddr o = []) then None else Some (buildShareString psk host (tcpAddr o) sni).

Fixpoint warn_ignored (entries : list bytes) : io world halt unit :=
  match entries with
  | [] => mret tt
  | entry :: rest => _ ← logged (logWarnf (EvAllowIgnored entry)); warn_ignored rest
  end.

(** What [main] logs about the allowlist: before the log level is applied. *)
Definition announce_allowlist (o : options) : io world halt unit :=
  _ ← warn_ignored (ignored_entries (allowList o));
  let allowed := parseAllowList (allowList o) in
  if 0 <? len allowed then logged (logInfof (EvAllowlist allowed)) else mret tt.

(** [main] from the PSK on, and as a whole. *)
Definition serve (o : options) (e : environ) (allowed : list allowEntry) : io world halt serving :=
  h ← resolvePSK o e;
  psk ← or_die (decode_psk h);
  cfg ← lift (must (derivePskConfig psk));
  family ← resolveCloakFamily (statePath o) (rotateCloak o);
  _ ← logged (logInfof (EvConfig family));
  cert ← resolveCert o e;
  host ← resolveHost o e;
  sni ← or_die (check_sni o cert);
  let share := share_of o psk host sni in
  _ ← (match share with Some s => logged (logInfof (EvShareString s)) | None => mret tt end);
  mret (Serving allowed psk cfg family cert host sni share).

Definition main (o : options) (e : environ) : io world halt serving :=
  if showVer o then lift (Err (Exited (version ++ lf))) else
  _ ← announce_allowlist o;
  level ← or_die (chosen_level o);
  _ ← logged (configureLogger level);
  _ ← logged (logInfof EvStarting);
  if genPSK o then
    r ← attempt (rand_Read 32);
    match r with inl _ => die FRand | inr key => lift (Err (Exited (hex_encode key ++ lf))) end
  else serve o e (parseAllowList (allowList o)).
End main.

(** ** What holds of every run, whatever fails

    [runs m P]: from any world [m] does not panic, returns only results in [P],
    and writes to the log within the configured level. *)

Definition is_share (ev : event) : bool := match ev with EvShareString _ => true | _ => false end.
Definition discarding (g : logger) : bool := match lg_handler g with HDiscard _ => true | _ => false end.

Definition log_ok (g g' : logger) : Prop :=
  currentLogLevel g' = currentLogLevel g /\ lg_handler g' = lg_handler g /\
  exists evs, lg_out g' = lg_out g ++ evs /\
    (level_num (currentLogLevel g) < 3 -> Forall (fun ev => is_share ev = false) evs) /\
    (discarding g = true -> evs = []).

Lemma log_ok_refl g : log_ok g g.
Proof. split_and!; [done.. |]. exists []. by rewrite app_nil_r. Qed.
Lemma log_ok_trans g1 g2 g3 : log_ok g1 g2 -> log_ok g2 g3 -> log_ok g1 g3.
Proof.
  intros (H1 & H2 & e1 & H3 & H4 & H5) (K1 & K2 & e2 & K3 & K4 & K5).
  split_and!; [congruence.. |]. exists (e1 ++ e2). rewrite K3, H3, app_assoc.
  unfold discarding in *. rewrite H1, H2 in *.
  split_and!; [done | intros; apply Forall_app; auto | intros Hd; by rewrite H5, K5].
Qed.

Lemma emit_ok ev g : discarding g = false -> (level_num (currentLogLevel g) < 3 -> is_share ev = false) ->
  log_ok g (emit ev g).
Proof. intros Hd Hs. split_and!; [done.. |]. exists [ev]. split_and!; [done | auto | congruence]. Qed.

Lemma logInfof_ok ev g : log_ok g (logInfof ev g).
Proof.
  unfold logInfof, slog_log, logEnabled. destruct (_ <=? _) eqn:E; [| apply log_ok_refl]. bool_facts.
  change (level_num LogInfo) with 3 in E.
  repeat case_match; try apply log_ok_refl; (apply emit_ok; [unfold discarding; by repeat case_match | lia]).
Qed.
Lemma logWarnf_ok ev g : is_share ev = false -> log_ok g (logWarnf ev g).
Proof.
  intros Hs. unfold logWarnf, slog_log. repeat case_match; try apply log_ok_refl;
    (apply emit_ok; [unfold discarding; by repeat case_match | done]).
Qed.
Lemma log_Fatal_ok f g : log_ok g (log_Fatal f g).
Proof.
  unfold log_Fatal. repeat case_match; try apply log_ok_refl;
    (apply emit_ok; [unfold discarding; by repeat case_match | done]).
Qed.

Definition runs {E A} (m : io world E A) (P : A -> Prop) : Prop := forall w,
  log_ok (w_log w) (w_log (m w).2) /\
  match (m w).1 with Ok a => P a | Err _ => True | Panic => False end.

Create HintDb startup.

Lemma runs_bind {E A B} (m : io world E A) (k : A -> io world E B) P Q :
  runs m P -> (forall a, P a -> runs (k a) Q) -> runs (m ≫= k) Q.
Proof.
  intros Hm Hk w. destruct (Hm w) as [Hl Hr]. unfold mbind, io_bind.
  destruct (m w) as [[a | e |] w1]; cbn in *; [| done..].
  destruct (Hk a Hr w1). split; [by eapply log_ok_trans | done].
Qed.
Lemma runs_ret {E A} (a : A) (P : A -> Prop) : P a -> runs (mret a : io world E A) P.
Proof. intros Ha w. split; [apply log_ok_refl | done]. Qed.
Lemma runs_err {E A} (e : E) (P : A -> Prop) : runs (lift (Err e)) P.
Proof. intros w. split; [apply log_ok_refl | done]. Qed.
Lemma runs_logged {E} f : (forall g, log_ok g (f g)) -> runs (logged f : io world E unit) (fun _ => True).
Proof. intros Hf w. split; [apply Hf | done]. Qed.
Lemma runs_attempt {E F A} (m : io world E A) P :
  runs m P -> runs (attempt m : io world F (E + A)) (fun r => match r with inl _ => True | inr a => P a end).
Proof. intros Hm w. destruct (Hm w). unfold attempt. by destruct (m w) as [[] ?]. Qed.
Lemma runs_sys {A} (f : tick -> fs -> res oserr A * fs) :
  (forall t s, (f t s).1 <> Panic) -> runs (sys f) (fun _ => True).
Proof.
  intros Hf w. unfold sys. set (t := hd _ _). specialize (Hf t (t_env t (w_fs w))).
  destruct (f t _) as [[] ?]; cbn in *; try done; (split; [apply log_ok_refl | done]).
Qed.
Lemma runs_die {A} f (P : A -> Prop) : runs (die f) P.
Proof.
  eapply runs_bind; [apply runs_logged, log_Fatal_ok | intros; apply runs_err].
Qed.
Lemma runs_or_die {A} (r : fatal + A) (P : A -> Prop) : (forall a, r = inr a -> P a) -> runs (or_die r) P.
Proof. destruct r; intros Hr; [apply runs_die | by apply runs_ret, Hr]. Qed.
Lemma runs_impl {E A} (m : io world E A) (P Q : A -> Prop) : runs m P -> (forall a, P a -> Q a) -> runs m Q.
Proof. intros Hm Hi w. destruct (Hm w). split; [done |]. destruct (m w).1; auto. Qed.
Lemma runs_rand n : runs (rand_Read n) (fun _ => True).
Proof. intros w. unfold rand_Read. destruct (hd _ _); (split; [apply log_ok_refl | done]). Qed.

(** Sequences whose intermediate results do not matter. *)
Ltac run_step :=
  first
    [ apply runs_sys; intros t s; cbn; repeat case_match; by simplify_eq/=
    | apply runs_logged; intros; apply logInfof_ok
    | apply runs_logged; intros; by apply logWarnf_ok
    | apply runs_rand
    | apply runs_die
    | apply runs_err ].

Lemma mkdirs_no_panic ps names : (mkdirs ps names).1 <> Panic.
Proof. revert names. induction ps as [|p ps IH]; intros names; [done |]. cbn. repeat case_match; auto; done. Qed.

Lemma runs_cleanup path e P : runs (_ ← attempt (os_Remove path); lift (Err e) : io world oserr unit) P.
Proof.
  eapply runs_bind with (P := fun _ => True); [| intros; apply runs_err].
  eapply runs_impl; [apply runs_attempt |]; [| done]. run_step.
Qed.

Lemma runs_writeFileSecure path data mode : runs (writeFileSecure path data mode) (fun _ => True).
Proof.
  eapply runs_bind; [run_step | intros f _].
  eapply runs_bind; [apply runs_attempt; run_step | intros [e | []] _; [apply runs_cleanup | run_step]].
Qed.

Lemma runs_atomicReplace path data mode : runs (atomicReplaceSecure path data mode) (fun _ => True).
Proof.
  eapply runs_bind; [apply runs_rand | intros rbuf _].
  eapply runs_bind; [apply runs_writeFileSecure | intros [] _].
  eapply runs_bind; [apply runs_attempt; run_step | intros [e | []] _; [apply runs_cleanup | by apply runs_ret]].
Qed.

Lemma runs_persist {E} path data : runs (persist path data : io world E _) (fun _ => True).
Proof.
  eapply runs_bind with (P := fun _ => True); [case_bool_decide; [by apply runs_ret |] | intros _ _].
  - eapply runs_impl; [apply runs_attempt, runs_sys |]; [| done].
    intros t s. destruct (t_ok t); [| done]. pose proof (mkdirs_no_panic (dir_prefixes (filepath_Dir path)) (fs_names s)).
    cbn zeta. by destruct (mkdirs _ _).
  - exact (runs_impl _ _ _ (runs_attempt _ _ (runs_atomicReplace path data 384)) (fun _ _ => I)).
Qed.

(** Read, and keep what is found. *)
Lemma runs_read {E} path : runs (attempt (os_ReadFile path) : io world E (oserr + bytes)) (fun _ => True).
Proof.
  eapply runs_impl; [apply runs_attempt, runs_sys | done].
  intros t s. destruct (t_ok t); [| done]. cbn [negb]. by destruct (follow _ _ _).
Qed.

Lemma runs_persist_then {E A} f path data (v : A) (P : A -> Prop) :
  (forall r g, log_ok g (f r g)) -> P v ->
  runs (r ← persist path data; _ ← logged (f r); mret v : io world E A) P.
Proof.
  intros Hf Hv. eapply runs_bind; [apply runs_persist | intros r _].
  eapply runs_bind; [apply runs_logged, Hf | intros; by apply runs_ret].
Qed.

(** Logging, or not, leaves everything but the log alone. *)
Definition same_state (w w1 : world) : Prop :=
  w_fs w1 = w_fs w /\ w_ticks w1 = w_ticks w /\ w_rand w1 = w_rand w.

Section startup.
Context `{CryptoSuite, UnicodeTables}.

Lemma runs_resolvePersistedCN {E} path rotate :
  runs (resolvePersistedCN path rotate : io world E bytes) (fun cn => isValidHostname cn = true).
Proof.
  eapply runs_bind with (P := fun r => match r with Some cn => isValidHostname cn = true | None => True end).
  - destruct rotate; [by apply runs_ret |]. eapply runs_bind; [apply runs_read | intros [e | d] _; [by apply runs_ret |]].
    cbv zeta. destruct (isValidHostname (trim_space d)) eqn:Hv; [| case_bool_decide; [by apply runs_ret |]];
      (eapply runs_bind; [run_step | intros; by apply runs_ret]).
  - intros [cn |]; [intros; by apply runs_ret |]. intros _ w.
    refine (runs_persist_then (fun r => match r with
      | inl _ => logWarnf (EvCnNotPersisted path)
      | inr _ => logInfof (EvCnPersisted rotate (generateSyntheticCN (w_cn w)) path) end) path _ _ _ _ _ w).
    + intros [] g; [by apply logWarnf_ok | apply logInfof_ok].
    + apply synthetic_valid.
Qed.

Lemma runs_resolveCloakFamily {E} path rotate :
  runs (resolveCloakFamily path rotate : io world E Z) (fun idx => 0 <= idx < len camouflageFamilies).
Proof.
  eapply runs_bind with (P := fun r => match r with Some idx => 0 <= idx < len camouflageFamilies | None => True end).
  - destruct rotate; [by apply runs_ret |]. eapply runs_bind; [apply runs_read | intros [e | d] _; [by apply runs_ret |]].
    cbv zeta. destruct (atoi (trim_space d)) as [idx|]; [destruct ((0 <=? idx) && (idx <? len camouflageFamilies)) eqn:Hv; bool_facts |];
      (eapply runs_bind; [run_step | intros; by apply runs_ret]).
  - intros [idx |]; [intros; by apply runs_ret |]. intros _.
    eapply runs_bind; [apply runs_attempt, runs_rand | intros seed _].
    apply (runs_persist_then (fun r => match r with
      | inl _ => logWarnf (EvCloakNotPersisted path)
      | inr _ => logInfof (EvCloakPersisted rotate (pickRandomFamilyIdx
          (match seed with inl _ => None | inr b => Some b end)) path) end)).
    + intros [] g; [by apply logWarnf_ok | apply logInfof_ok].
    + apply pickRandomFamilyIdx_range.
Qed.

Lemma runs_resolvePSK o e : runs (resolvePSK o e) (fun _ => True).
Proof.
  eapply runs_bind with (P := fun _ => True).
  - unfold load_psk. case_bool_decide; [| by apply runs_ret].
    eapply runs_bind; [apply runs_read | intros [e1 | d] _; [by apply runs_ret |]].
    case_bool_decide; [by apply runs_ret |]. eapply runs_bind; [run_step | intros; by apply runs_ret].
  - intros h _. case_bool_decide; [| by apply runs_ret].
    eapply runs_bind; [apply runs_attempt, runs_rand | intros [e1 | key] _; [run_step |]].
    apply (runs_persist_then (fun r => match r with
      | inl _ => logWarnf (EvPskNotPersisted (pskFile o))
      | inr _ => logInfof (EvPskPersisted (pskFile o)) end)); [| done].
    intros [] g; [by apply logWarnf_ok | apply logInfof_ok].
Qed.

Lemma runs_resolveCert o e : runs (resolveCert o e) (fun cn => cn <> []).
Proof.
  unfold resolveCert. case_bool_decide.
  - eapply runs_bind; [apply runs_resolvePersistedCN | intros cn Hcn].
    eapply runs_bind with (P := fun _ => True); [destruct (selfSignedOk e cn); [by apply runs_ret | run_step] | intros _ _].
    eapply runs_bind; [run_step | intros _ _; apply runs_ret]. by intros ->.
  - eapply runs_bind; [by apply (runs_or_die _ (fun _ => True)) | intros leaf _].
    eapply runs_bind with (P := fun _ => True); [destruct leaf; [run_step | by apply runs_ret] | intros _ _].
    apply runs_ret. by case_bool_decide.
Qed.

Lemma runs_resolveHost o e :
  runs (resolveHost o e) (fun h => h = placeholder_host \/ isPublicIPLiteral h = true).
Proof.
  eapply runs_bind with (P := fun _ => True).
  - case_bool_decide; [cbv zeta; case_bool_decide; [by apply runs_ret |] | by apply runs_ret]. eapply runs_bind; [run_step | intros; by apply runs_ret].
  - intros h _. case_bool_decide as Hh; cbn.
    + destruct (isPublicIPLiteral h) eqn:E; cbn; [apply runs_ret; by right | run_step].
    + apply runs_ret. left. by destruct (decide (h = placeholder_host)).
Qed.

(** What a server that reached its listener works with. *)
Record serving_wf (o : options) (sv : serving) : Prop := {
  wf_psk : 16 <= len (sv_psk sv);
  wf_cfg : derivePskConfig (sv_psk sv) = Some (sv_cfg sv) /\ cfg_bounds (sv_cfg sv);
  wf_family : 0 <= sv_family sv < len camouflageFamilies;
  wf_host : sv_host sv = placeholder_host \/ isPublicIPLiteral (sv_host sv) = true;
  wf_sni : isValidHostname (sv_sni sv) = true;
  wf_allow : sv_allow sv = parseAllowList (allowList o) /\ Forall entry_wf (sv_allow sv);
  wf_share : sv_share sv = share_of o (sv_psk sv) (sv_host sv) (sv_sni sv);
}.

Lemma runs_serve `{!CryptoLaws _} o e :
  runs (serve o e (parseAllowList (allowList o))) (serving_wf o).
Proof.
  eapply runs_bind; [apply runs_resolvePSK | intros h _].
  eapply runs_bind with (P := fun p => 16 <= len p).
  { apply runs_or_die. intros p. unfold decode_psk. repeat case_match; intros [= <-]. bool_facts. lia. }
  intros p Hp. destruct (config_total p) as (c & Hc & Hb).
  eapply runs_bind with (P := fun c' => c' = c); [rewrite Hc; by apply (runs_ret c) | intros c' ->].
  eapply runs_bind; [apply runs_resolveCloakFamily | intros family Hf].
  eapply runs_bind; [run_step | intros _ _].
  eapply runs_bind; [apply runs_resolveCert | intros cert Hcert].
  eapply runs_bind; [apply runs_resolveHost | intros host Hh].
  eapply runs_bind with (P := fun sni => isValidHostname sni = true).
  { apply runs_or_die. intros sni. unfold check_sni.
    set (s := if bool_decide (sniName o = []) then cert else sniName o).
    assert (Hs : s <> []) by (unfold s; by case_bool_decide).
    rewrite (bool_decide_true (s <> [])) by done. destruct (isValidHostname s) eqn:Hv; [| done]. by intros [= <-]. }
  intros sni Hs. eapply runs_bind with (P := fun _ => True).
  { unfold share_of. case_bool_decide; [by apply runs_ret | run_step]. }
  intros _ _. apply runs_ret. split; cbn; try done. split; [done | apply allow_entries_wf].
Qed.

Definition about_allowlist (o : options) (ev : event) : Prop :=
  ev = EvAllowlist (parseAllowList (allowList o)) \/
  exists entry, ev = EvAllowIgnored entry /\ entry ∈ ignored_entries (allowList o).

Lemma warn_ignored_run l w : exists w1 evs, warn_ignored l w = (Ok tt, w1) /\ same_state w w1 /\
  lg_out (w_log w1) = lg_out (w_log w) ++ evs /\ Forall (fun ev => exists entry, ev = EvAllowIgnored entry /\ entry ∈ l) evs.
Proof.
  revert w. induction l as [|entry l IH]; intros w; [exists w, []; by rewrite app_nil_r |]. cbn.
  destruct (IH (logged (E := halt) (logWarnf (EvAllowIgnored entry)) w).2) as (w1 & evs & Hr & Hs & Ho & Hf).
  assert (Hf' : Forall (fun ev => exists en, ev = EvAllowIgnored en /\ en ∈ (entry :: l)) evs).
  { eapply Forall_impl; [exact Hf |]. intros ev (en & -> & ?). exists en. split; [done | by right]. }
  destruct (logWarnf_out (EvAllowIgnored entry) (w_log w)) as [E | E]; cbn in Ho; rewrite E in Ho;
    [exists w1, evs | exists w1, (EvAllowIgnored entry :: evs)]; (split; [exact Hr |]); (split; [exact Hs |]); [done |].
  split; [by rewrite Ho; cbn; rewrite <-app_assoc |]. constructor; [| done]. exists entry. split; [done | by left].
Qed.

Lemma announce_run o w : exists w1 evs, announce_allowlist o w = (Ok tt, w1) /\ same_state w w1 /\
  lg_out (w_log w1) = lg_out (w_log w) ++ evs /\ Forall (about_allowlist o) evs.
Proof.
  unfold announce_allowlist, mbind, io_bind.
  destruct (warn_ignored_run (ignored_entries (allowList o)) w) as (w1 & evs & -> & Hs & Ho & Hf).
  assert (Hf' : Forall (about_allowlist o) evs).
  { eapply Forall_impl; [exact Hf |]. intros ev Hev. by right. }
  destruct (0 <? _); [| by exists w1, evs].
  set (ev := EvAllowlist _). exists (logged (E := halt) (logInfof ev) w1).2.
  destruct (logInfof_out ev (w_log w1)) as [E | E]; [exists evs | exists (evs ++ [ev])];
    (split; [done |]); (split; [exact Hs |]); cbn; rewrite E; [done |]. cbn. rewrite Ho, app_assoc.
  split; [done |]. apply Forall_app. split; [done |]. apply Forall_singleton. by left.
Qed.

Lemma main_wf `{!CryptoLaws _} o e w :
  match (main o e w).1 with Ok sv => serving_wf o sv | Err _ => True | Panic => False end.
Proof.
  unfold main. destruct (showVer o); [done |]. cbv zeta.
  assert (Hr : forall w, match ((if genPSK o then
    r ← attempt (rand_Read 32);
    match r with inl _ => die FRand | inr key => lift (Err (Exited (hex_encode key ++ lf))) end
    else serve o e (parseAllowList (allowList o))) w).1 with Ok sv => serving_wf o sv | Err _ => True | Panic => False end).
  { intros w1. destruct (genPSK o); [| by apply runs_serve].
    unfold attempt, rand_Read, mbind, io_bind. by destruct (hd _ _). }
  unfold mbind, io_bind, logged. destruct (announce_run o w) as (w1 & _ & -> & _).
  destruct (chosen_level o); [done |]. apply Hr.
Qed.

(** [C24] Whatever the command line, the environment, the disk and the failures
    of the operating system, start-up does not panic, and a server that gets
    to its listener is well formed: a PSK of at least 16 bytes, the
    configuration derived from it, within bounds, an existing cloak family,
    a valid host name as SNI, and in the share string nothing but a public
    address literal (or the placeholder) as host. *)
Theorem startup_well_formed `{!CryptoLaws _} o e w :
  match (main o e w).1 with Ok sv => serving_wf o sv | Err _ => True | Panic => False end.
Proof. apply main_wf. Qed.

(** The log level keeps the PSK off the terminal: below level Info start-up
    never prints a share string, whatever happens, and with [-quiet] (or level
    off) it prints nothing at all - except the lines about the allowlist,
    which are logged before the level is applied. *)
Theorem startup_discreet `{!CryptoLaws _} o e w level :
  chosen_level o = inr level -> level_num level < 3 ->
  exists evs, lg_out (w_log (main o e w).2) = lg_out (w_log w) ++ evs /\
  Forall (fun ev => is_share ev = false) evs /\
  (level = LogOff -> Forall (about_allowlist o) evs).
Proof.
  intros Hc Hl. unfold main. destruct (showVer o); [exists []; by rewrite app_nil_r |]. cbv zeta. rewrite Hc.
  set (rest := _ ← logged (logInfof EvStarting); _).
  assert (Hrest : runs rest (serving_wf o)).
  { eapply runs_bind; [run_step | intros _ _]. destruct (genPSK o); [| by apply runs_serve].
    eapply runs_bind; [apply runs_attempt, runs_rand | intros [] _; run_step]. }
  destruct (announce_run o w) as (w1 & evs1 & Hp & _ & Ho1 & Hf1). unfold mbind, io_bind. rewrite Hp. cbn.
  match goal with |- context [rest ?v] => destruct (Hrest v) as [(_ & _ & evs2 & Ho2 & Hs2 & Hd2) _] end.
  exists (evs1 ++ evs2). rewrite Ho2. cbn in *. rewrite Ho1, app_assoc. split; [done |].
  split; [apply Forall_app; split; [| by apply Hs2] |].
  - eapply Forall_impl; [exact Hf1 |]. by intros ev [-> | (? & -> & _)].
  - intros ->. rewrite Hd2 by done. by rewrite app_nil_r.
Qed.
End startup.

(** ** Restarting *)

Lemma bind_ok {E A B} (m : io world E A) (k : A -> io world E B) w a w1 :
  m w = (Ok a, w1) -> (m ≫= k) w = k a w1.
Proof. intros Hm. unfold mbind, io_bind. by rewrite Hm. Qed.

Lemma bind_inv {E A B} (m : io world E A) (k : A -> io world E B) w b w' :
  (m ≫= k) w = (Ok b, w') -> exists a w1, m w = (Ok a, w1) /\ k a w1 = (Ok b, w').
Proof. unfold mbind, io_bind. destruct (m w) as [[a | |] w1]; [by exists a, w1 | done..]. Qed.

Lemma or_die_inv {A} (r : fatal + A) w a w1 : or_die r w = (Ok a, w1) -> r = inr a /\ w1 = w.
Proof. destruct r; cbn; [done |]. unfold mret, io_ret. by intros [= -> ->]. Qed.

Lemma or_die_run {A} (a : A) w : or_die (inr a) w = (Ok a, w).
Proof. done. Qed.

Definition log_only (m : io world halt unit) : Prop := forall w, exists w1, m w = (Ok tt, w1) /\ same_state w w1.
Lemma log_only_logged f : log_only (logged f).
Proof. intros w. by eexists. Qed.
Lemma log_only_skip : log_only (mret tt).
Proof. intros w. by exists w. Qed.

Lemma same_undisturbed w w1 : same_state w w1 -> undisturbed w -> undisturbed w1.
Proof. intros (Hf & Ht & Hr) [? ? ?]. split; by rewrite ?Ht, ?Hr, ?Hf. Qed.

(** Skip a log statement, in a run known to succeed and in one to construct. *)
Lemma log_inv {B} m (k : unit -> io world halt B) w b w' : log_only m ->
  (m ≫= k) w = (Ok b, w') -> exists w1, k tt w1 = (Ok b, w') /\ same_state w w1.
Proof. intros Hm (a & w1 & H1 & H2)%bind_inv. destruct (Hm w) as (w2 & H3 & H4). rewrite H3 in H1; injection H1 as <- <-; by exists w2. Qed.
Lemma log_ok_run {B} m (k : unit -> io world halt B) w (Q : res halt B * world -> Prop) : log_only m ->
  (forall w1, same_state w w1 -> Q (k tt w1)) -> Q ((m ≫= k) w).
Proof. intros Hm HQ. destruct (Hm w) as (w2 & H3 & H4). rewrite (bind_ok m k w tt w2 H3). by apply HQ. Qed.

Section restart.
Context `{CryptoSuite, UnicodeTables}.

Definition holds_psk (o : options) (e : environ) (s : fs) (h : bytes) : Prop :=
  h <> [] /\ (psk_given o e = h \/
             psk_given o e = [] /\ exists d, file_at s (pskFile o) d /\ trim_space d = h).

Lemma resolvePSK_again o e h w : undisturbed w -> holds_psk o e (w_fs w) h ->
  exists w', resolvePSK o e w = (Ok h, w') /\ undisturbed w' /\ w_fs w' = w_fs w.
Proof.
  intros Hu [Hne Hh]. unfold resolvePSK.
  assert (Hload : exists w1, load_psk o (psk_given o e) w = (Ok h, w1) /\ undisturbed w1 /\ w_fs w1 = w_fs w).
  { unfold load_psk. destruct Hh as [-> | [-> (d & Hf & Hd)]].
    - rewrite bool_decide_false by done. by exists w.
    - rewrite bool_decide_true by done.
      destruct (@read_file_at halt _ _ d w (un_ticks _ Hu) eq_refl Hf) as (w1 & Hr & Hs & Ht & Hra & _).
      rewrite (bind_ok _ _ w (inr d) w1 Hr). cbv zeta beta iota. rewrite Hd, bool_decide_false by done.
      eexists. split; [reflexivity |]. cbn. split; [| done].
      split; cbn; [done | rewrite Hra; apply Hu | rewrite Hs; apply Hu]. }
  destruct Hload as (w1 & Hl & Hu1 & Hs1). rewrite (bind_ok _ _ w h w1 Hl).
  rewrite bool_decide_false by done. by exists w1.
Qed.

Lemma hex_encode_nil s : hex_encode s = [] -> s = [].
Proof. by destruct s. Qed.

Lemma resolvePSK_first o e w : undisturbed w -> cell (w_fs w) (pskFile o) -> place_ok (pskFile o) ->
  exists h w', resolvePSK o e w = (Ok h, w') /\ undisturbed w' /\ holds_psk o e (w_fs w') h /\
  preserves (pskFile o) (w_fs w) (w_fs w').
Proof.
  intros Hu Hc Hp. unfold resolvePSK.
  assert (Hload : exists h w1, load_psk o (psk_given o e) w = (Ok h, w1) /\ looked w w1 /\
    (h = [] -> psk_given o e = []) /\ (h <> [] -> holds_psk o e (w_fs w) h)).
  { unfold load_psk. case_bool_decide as Hg.
    2: { exists (psk_given o e), w. split_and!; [done.. | by split; [| left]]. }
    destruct (@read_looked halt _ w Hu Hc) as (r & w1 & Hr & Hl & Hf). rewrite (bind_ok _ _ w r w1 Hr).
    destruct r as [er | d]; [by exists [], w1 |]. cbv zeta. case_bool_decide as Ht; [by rewrite Ht; exists [], w1 |].
    destruct (@logged_looked halt (logInfof (EvPskLoaded (pskFile o))) w w1 Hl) as (w2 & Hr2 & Hl2).
    exists (trim_space d), w2. rewrite (bind_ok _ _ w1 tt w2 Hr2). split_and!; try done.
    intros _. split; [done |]. right. split; [done |]. by exists d. }
  destruct Hload as (h & w1 & Hr & Hl & Hh0 & Hh). rewrite (bind_ok _ _ w h w1 Hr). case_bool_decide as Hhe.
  2: { exists h, w1. destruct Hl as [? ->]. split_and!; [done | done | by apply Hh | apply preserves_refl]. }
  unfold fresh_psk.
  assert (Hkey : exists key w2, attempt (rand_Read 32) w1 = (Ok (inr key) : res halt (oserr + bytes), w2) /\
    looked w w2 /\ key <> []).
  { unfold attempt, rand_Read. destruct Hl as [[Ht Hra Htm] Hs].
    assert (Hb : exists b, hd (Some []) (w_rand w1) = Some b /\ Forall is_Some (tl (w_rand w1))).
    { destruct (w_rand w1); [by exists [] | inversion Hra as [| ? ? [b ->] ?]; by exists b]. }
    destruct Hb as (b & -> & Htl). eexists _, _. split; [reflexivity |]. split; [by repeat split |].
    intros E. apply (f_equal length) in E. rewrite length_take, length_app, length_replicate in E. change (length (@nil byte)) with 0%nat in E. lia. }
  destruct Hkey as (key & w2 & Hk & Hl2 & Hne). rewrite (bind_ok _ _ w1 (inr key) w2 Hk). cbv zeta beta iota.
  destruct (@persist_looked halt _ (fun r => match r with
                  | inl _ => logWarnf (EvPskNotPersisted (pskFile o))
                  | inr _ => logInfof (EvPskPersisted (pskFile o))
                  end) (pskFile o) (hex_encode key ++ lf) (hex_encode key) w w2 Hl2 Hc Hp)
    as (w3 & Hrun & Hu3 & Hf & Hpr).
  exists (hex_encode key), w3. split_and!; [exact Hrun | done | | done].
  split; [by intros Hx%hex_encode_nil |]. right. split; [auto |].
  exists (hex_encode key ++ lf). split; [done |]. apply trim_space_line, hex_encode_bytes.
Qed.

Lemma log_only_announce o : log_only (announce_allowlist o).
Proof. intros w. destruct (announce_run o w) as (w1 & _ & ? & ? & _). by exists w1. Qed.

Definition no_rotate (o : options) : options :=
  Options (tcpAddr o) (pskHex o) (pskFile o) (cloakState o) false (certPath o) (keyPath o) (showVer o)
    (genPSK o) (logLevel o) (quiet o) (publicIP o) (sniName o) (allowList o).

Definition holds_cert (o : options) (e : environ) (s : fs) (cn : bytes) : Prop :=
  if bool_decide (certPath o = []) then selfSignedOk e cn = true /\ holds_cn s (cnPath o) cn
  else exists leaf, real_cert o e = inr leaf /\
       cn = (if bool_decide (default [] leaf = []) then go! "real-cert" else default [] leaf).

Lemma resolveCert_first o e w cn w1 : undisturbed w -> cell (w_fs w) (cnPath o) -> place_ok (cnPath o) ->
  resolveCert o e w = (Ok cn, w1) ->
  undisturbed w1 /\ preserves (cnPath o) (w_fs w) (w_fs w1) /\ holds_cert o e (w_fs w1) cn.
Proof.
  intros Hu Hc Hp. unfold resolveCert, holds_cert. case_bool_decide as Hce.
  - destruct (@resolvePersistedCN_first _ halt (cnPath o) (rotateCloak o) w Hu Hc Hp) as (cn' & w2 & Hr & Hu2 & Hh & Hpr).
    rewrite (bind_ok _ _ w cn' w2 Hr). destruct (selfSignedOk e cn') eqn:Hok; [| done].
    intros (w3 & Hk & Hs3)%log_inv; [| apply log_only_skip].
    apply log_inv in Hk as (w4 & Hk & Hs4); [| apply log_only_logged]. unfold mret, io_ret in Hk. simplify_eq.
    split; [by eapply same_undisturbed, same_undisturbed |].
    destruct Hs3 as [E3 _], Hs4 as [E4 _]. rewrite E4, E3. auto.
  - intros (leaf & w2 & Hleaf & Hk)%bind_inv. apply or_die_inv in Hleaf as [Hleaf ->].
    apply log_inv in Hk as (w4 & Hk & Hs4); [| destruct leaf; [apply log_only_logged | apply log_only_skip]].
    unfold mret, io_ret in Hk. simplify_eq/=. split; [by eapply same_undisturbed |].
    destruct Hs4 as [-> _]. split; [apply preserves_refl | by exists leaf].
Qed.

Lemma resolveCert_again o e w cn : undisturbed w -> holds_cert o e (w_fs w) cn ->
  exists w1, resolveCert (no_rotate o) e w = (Ok cn, w1) /\ undisturbed w1 /\ w_fs w1 = w_fs w.
Proof.
  intros Hu. unfold resolveCert, holds_cert. cbn [certPath no_rotate rotateCloak].
  change (cnPath (no_rotate o)) with (cnPath o). change (real_cert (no_rotate o) e) with (real_cert o e).
  case_bool_decide as Hce.
  - intros [Hok Hh]. destruct (@resolvePersistedCN_again _ halt _ cn w Hu Hh) as (w2 & Hr & Hu2 & Hs2).
    rewrite (bind_ok _ _ w cn w2 Hr), Hok, <-Hs2.
    apply (log_ok_run (mret tt)); [apply log_only_skip | intros w3 Hs3].
    apply (log_ok_run (logged _)); [apply log_only_logged | intros w4 Hs4].
    exists w4. split; [done |]. split; [by eapply same_undisturbed, same_undisturbed |].
    destruct Hs3 as [E3 _], Hs4 as [E4 _]. by rewrite E4, E3.
  - intros (leaf & Hleaf & ->). rewrite Hleaf, (bind_ok _ _ w leaf w (or_die_run _ _)).
    apply (log_ok_run (match leaf with Some cn => _ | None => _ end));
      [destruct leaf; [apply log_only_logged | apply log_only_skip] | intros w4 Hs4].
    exists w4. split; [done |]. split; [by eapply same_undisturbed |]. by destruct Hs4.
Qed.

(** The host depends on the command line and the interfaces only. *)
Lemma resolveHost_steady o e w h w1 : resolveHost o e w = (Ok h, w1) ->
  same_state w w1 /\ forall w2, exists w3, resolveHost (no_rotate o) e w2 = (Ok h, w3) /\ same_state w2 w3.
Proof.
  assert (Hst : exists r, forall w, exists w1, resolveHost o e w = (r, w1) /\ same_state w w1).
  { unfold resolveHost. set (cand := if bool_decide (publicIP o = []) then _ else _).
    assert (Hcand : exists h, forall w, exists w1, cand w = (Ok h, w1) /\ same_state w w1).
    { unfold cand. case_bool_decide; [cbv zeta; case_bool_decide |]; eexists; intros v; by eexists. }
    destruct Hcand as [h0 Hcand]. eexists. intros v. destruct (Hcand v) as (v1 & Hv & Hs1).
    rewrite (bind_ok _ _ v h0 v1 Hv).
    instantiate (1 := if bool_decide (h0 <> placeholder_host) && negb (isPublicIPLiteral h0)
      then Err (Died (FPublicIP h0)) else Ok h0).
    destruct Hs1 as (? & ? & ?). destruct (_ && _); by eexists. }
  destruct Hst as [r Hst]. intros Hrun. destruct (Hst w) as (v & Hv & Hs). rewrite Hrun in Hv. simplify_eq.
  split; [done |]. intros w2. apply Hst.
Qed.

(** The three state files are distinct, none is named like a temporary file,
    and making the directories of one does not take the place of another. *)
Definition state_paths (o : options) : list bytes := [pskFile o; statePath o; cnPath o].
Definition layout_ok (o : options) : Prop :=
  NoDup (state_paths o) /\
  Forall (fun p => tmp_like p = false /\ Forall (fun q => tmp_like q = false /\ (q ∉ state_paths o))
                                           (dir_prefixes (filepath_Dir p))) (state_paths o).
#[export] Instance layout_ok_dec o : Decision (layout_ok o).
Proof. unfold layout_ok. apply _. Defined.

Lemma layout_place o p : layout_ok o -> p ∈ state_paths o -> place_ok p.
Proof.
  intros [_ Hall] Hp. rewrite Forall_forall in Hall. destruct (Hall p Hp) as [Ht Hd]. split; [done |].
  rewrite Forall_forall in Hd. split; [by intros Hin; apply Hd in Hin as [_ ?] |].
  rewrite Forall_forall. intros q Hq. by apply Hd.
Qed.

(** Replacing one state file keeps the others. *)
Lemma layout_preserves o p q s s' : layout_ok o -> p ∈ state_paths o -> q ∈ state_paths o -> q <> p ->
  preserves p s s' -> (forall d, file_at s q d -> file_at s' q d) /\ (cell s q -> cell s' q).
Proof.
  intros [_ Hall] Hp Hq Hne Hpr. rewrite Forall_forall in Hall.
  destruct (Hpr q Hne) as [H1 H2]; [by apply Hall | |].
  { intros Hin. destruct (Hall p Hp) as [_ Hd]. rewrite Forall_forall in Hd. by apply Hd in Hin as [_ ?]. }
  split; [done |]. intros [Ha | [d Hd]]; [left; auto | right; exists d; auto].
Qed.

(** A start that finds its values. *)
Lemma serve_again o e al v h p cfg fam cn host sni : undisturbed v ->
  holds_psk o e (w_fs v) h -> decode_psk h = inr p ->
  (must (derivePskConfig p) : res halt pskDerivedConfig) = Ok cfg ->
  holds_family (w_fs v) (statePath o) fam -> holds_cert o e (w_fs v) cn ->
  (forall w2, exists w3, resolveHost (no_rotate o) e w2 = (Ok host, w3) /\ same_state w2 w3) ->
  check_sni o cn = inr sni ->
  exists w3, serve (no_rotate o) e al v =
    (Ok (Serving al p cfg fam cn host sni (share_of o p host sni)), w3) /\ w_fs w3 = w_fs v.
Proof.
  intros Hv Hpsk Hdec Hcfg Hfam Hcn Hhost Hsni. unfold serve.
  destruct (resolvePSK_again o e h v Hv Hpsk) as (v1 & Hr1 & Hv1 & E1).
  rewrite (bind_ok (resolvePSK (no_rotate o) e) _ v h v1 Hr1), Hdec, (bind_ok _ _ v1 p v1 (or_die_run _ _)).
  rewrite Hcfg, (bind_ok (lift (Ok cfg)) _ v1 cfg v1 eq_refl).
  destruct (@resolveCloakFamily_again _ halt (statePath o) fam v1 Hv1 ltac:(by rewrite E1)) as (v2 & Hr2 & Hv2 & E2).
  rewrite (bind_ok (resolveCloakFamily (statePath (no_rotate o)) (rotateCloak (no_rotate o))) _ v1 fam v2 Hr2).
  apply (log_ok_run (logged _)); [apply log_only_logged | intros v3 Hs3].
  pose proof (same_undisturbed _ _ Hs3 Hv2) as Hv3. destruct Hs3 as [E3 _].
  destruct (resolveCert_again o e v3 cn Hv3 ltac:(by rewrite E3, E2, E1)) as (v4 & Hr4 & Hv4 & E4).
  rewrite (bind_ok _ _ v3 cn v4 Hr4). destruct (Hhost v4) as (v5 & Hr5 & E5 & _).
  rewrite (bind_ok _ _ v4 host v5 Hr5). change (check_sni (no_rotate o) cn) with (check_sni o cn). rewrite Hsni.
  rewrite (bind_ok _ _ v5 sni v5 (or_die_run _ _)). cbv zeta.
  apply (log_ok_run (match _ with Some s => logged _ | None => mret tt end));
    [unfold share_of; case_bool_decide; [apply log_only_skip | apply log_only_logged] | intros v6 [E6 _]].
  exists v6. split; [done | congruence].
Qed.

Lemma serve_restart o e al w sv w' :
  undisturbed w -> Forall (cell (w_fs w)) (state_paths o) -> layout_ok o ->
  serve o e al w = (Ok sv, w') ->
  undisturbed w' /\
  forall w2, undisturbed w2 -> w_fs w2 = w_fs w' ->
  exists w3, serve (no_rotate o) e al w2 = (Ok sv, w3) /\ w_fs w3 = w_fs w'.
Proof.
  intros Hu Hcells Hlay. pose proof (proj1 Hlay) as Hnd.
  apply Forall_cons in Hcells as [Hc1 [Hc2 [Hc3 _]%Forall_cons]%Forall_cons].
  assert (P1 : pskFile o ∈ state_paths o) by by left.
  assert (P2 : statePath o ∈ state_paths o) by by right; left.
  assert (P3 : cnPath o ∈ state_paths o) by by right; right; left.
  assert (N12 : pskFile o <> statePath o /\ pskFile o <> cnPath o /\ statePath o <> cnPath o).
  { unfold state_paths in Hnd. rewrite !NoDup_cons in Hnd. set_solver. }
  destruct N12 as (N12 & N13 & N23).
  (* first run *)
  unfold serve at 1.
  destruct (resolvePSK_first o e w Hu Hc1 (layout_place _ _ Hlay P1)) as (h & w1 & Hr1 & Hu1 & Hh1 & Hp1).
  rewrite (bind_ok _ _ w h w1 Hr1).
  intros (p & ? & [Hdec ->]%or_die_inv & Hrun)%bind_inv. apply bind_inv in Hrun as (cfg & ? & Hcfg & Hrun).
  assert (Hcfg' : must (derivePskConfig p) = Ok cfg) by by injection Hcfg.
  unfold lift in Hcfg. injection Hcfg as _ <-.
  destruct (layout_preserves o _ (statePath o) _ _ Hlay P1 P2 ltac:(congruence) Hp1) as [_ Hk12].
  destruct (layout_preserves o _ (cnPath o) _ _ Hlay P1 P3 ltac:(congruence) Hp1) as [_ Hk13].
  destruct (@resolveCloakFamily_first _ halt (statePath o) (rotateCloak o) w1 Hu1 (Hk12 Hc2) (layout_place _ _ Hlay P2))
    as (fam & w2 & Hr2 & Hu2 & Hh2 & Hp2).
  rewrite (bind_ok _ _ w1 fam w2 Hr2) in Hrun.
  apply log_inv in Hrun as (w3 & Hrun & Hs3); [| apply log_only_logged].
  pose proof (same_undisturbed _ _ Hs3 Hu2) as Hu3. destruct Hs3 as [E3 _].
  destruct (layout_preserves o _ (cnPath o) _ _ Hlay P2 P3 ltac:(congruence) Hp2) as [_ Hk23].
  destruct (layout_preserves o _ (pskFile o) _ _ Hlay P2 P1 ltac:(congruence) Hp2) as [Hf21 _].
  apply bind_inv in Hrun as (cn & w4 & Hr4 & Hrun).
  destruct (resolveCert_first o e w3 cn w4 Hu3 ltac:(rewrite E3; auto) (layout_place _ _ Hlay P3) Hr4) as (Hu4 & Hp4 & Hh4).
  rewrite E3 in Hp4.
  destruct (layout_preserves o _ (pskFile o) _ _ Hlay P3 P1 ltac:(congruence) Hp4) as [Hf31 _].
  destruct (layout_preserves o _ (statePath o) _ _ Hlay P3 P2 ltac:(congruence) Hp4) as [Hf32 _].
  apply bind_inv in Hrun as (host & w5 & Hr5 & Hrun). destruct (resolveHost_steady o e w4 host w5 Hr5) as [Hs5 Hhost].
  apply bind_inv in Hrun as (sni & ? & [Hsni ->]%or_die_inv & Hrun).
  apply log_inv in Hrun as (w6 & Hrun & Hs6);
    [| unfold share_of; case_bool_decide; [apply log_only_skip | apply log_only_logged]].
  unfold mret, io_ret in Hrun. injection Hrun as <- <-.
  assert (Efs : w_fs w6 = w_fs w4) by (destruct Hs5 as [? _], Hs6 as [? _]; congruence).
  split; [by eapply same_undisturbed, same_undisturbed |].
  (* what the disk holds now *)
  assert (Kpsk : holds_psk o e (w_fs w4) h).
  { destruct Hh1 as [Hne [Hg | [Hg (d & Hd & Ht)]]]; (split; [done |]); [by left | right].
    split; [done |]. exists d. auto. }
  assert (Kfam : holds_family (w_fs w4) (statePath o) fam).
  { destruct Hh2 as (d & Hd & Ht). exists d. auto. }
  clear -Kpsk Kfam Hh4 Hdec Hcfg' Hhost Hsni Efs. intros v Hv Ev. rewrite Efs in *.
  rewrite <-Ev in *. by apply (serve_again o e al v h p cfg fam cn host sni).
Qed.

(** [C23] A restart serves the same secrets and names. After an undisturbed first start
    on any disk whose state files are absent or regular, a second start with
    the same options (without [-rotate-cloak]) on the disk the first one left
    serves the same PSK, configuration, cloak family, certificate name, SNI
    and share string, whatever the new random draws, and leaves the disk as
    it is, so clients keep working. The certificate itself is not the same
    one: key, serial number, validity and the organisation in its Subject are
    made anew at every start ([generateSelfSignedCertWithCN]). *)
Theorem restart_serves_the_same o e w sv w' w2 :
  undisturbed w -> Forall (cell (w_fs w)) (state_paths o) -> layout_ok o ->
  main o e w = (Ok sv, w') ->
  w_ticks w2 = [] -> Forall is_Some (w_rand w2) -> w_fs w2 = w_fs w' ->
  exists w3, main (no_rotate o) e w2 = (Ok sv, w3) /\ w_fs w3 = w_fs w2.
Proof.
  intros Hu Hc Hlay Hrun Ht2 Hr2 Hf2. unfold main in *.
  change (showVer (no_rotate o)) with (showVer o). destruct (showVer o); [done |]. cbv zeta in *.
  apply log_inv in Hrun as (w1 & Hrun & Hs1); [| apply log_only_announce].
  apply bind_inv in Hrun as (level & ? & [Hlev ->]%or_die_inv & Hrun).
  do 2 (apply log_inv in Hrun as (? & Hrun & ?); [| apply log_only_logged]).
  destruct (genPSK o) eqn:Hg.
  { exfalso. apply bind_inv in Hrun as ([er | key] & v & _ & Hrun); cbn in Hrun; done. }
  assert (Hx : undisturbed x0) by (by repeat (eapply same_undisturbed; [eassumption |])).
  assert (Ex : w_fs x0 = w_fs w) by (repeat match goal with Hs : same_state _ _ |- _ => destruct Hs as [? _] end; congruence).
  destruct (serve_restart o e _ x0 sv w' Hx ltac:(by rewrite Ex) Hlay Hrun) as [Hu' Hagain].
  apply (log_ok_run (announce_allowlist (no_rotate o))); [apply log_only_announce | intros v1 Hv1].
  change (chosen_level (no_rotate o)) with (chosen_level o). rewrite Hlev, (bind_ok _ _ v1 level v1 (or_die_run _ _)).
  apply (log_ok_run (logged _)); [apply log_only_logged | intros v2 Hv2].
  apply (log_ok_run (logged _)); [apply log_only_logged | intros v3 Hv3].
  change (genPSK (no_rotate o)) with (genPSK o). rewrite Hg, Hf2.
  assert (Hu2 : undisturbed w2) by (split; [done | done | rewrite Hf2; apply Hu']).
  apply Hagain; [by repeat (eapply same_undisturbed; [eassumption |]) |].
  destruct Hv1 as [? _], Hv2 as [? _], Hv3 as [? _]. congruence.
Qed.
End restart.

(** ** Examples *)

Module StartupExample.
(** A first start with the default command line and a public address. *)
Definition opts : options :=
  Options (go! ":9290") [] (go! "./mxtr-psk.hex") [] false [] [] false false (go! "info") false
    (go! "203.0.113.7") [] (go! "example.com").
Definition quiet_opts : options :=
  Options (go! ":9290") [] (go! "./mxtr-psk.hex") [] false [] [] false false (go! "info") true
    (go! "203.0.113.7") [] (go! "com,example.com").
Definition env : environ := Environ [] (fun _ _ => None) (fun _ => true) None.
Definition disk0 : world :=
  World (Fs ∅ ∅) [] [] [Some (replicate 32 x5a); Some [x01; x02; x03; x04]; Some (replicate 8 x03)] (CnDraws 3 41 5 6)
    fresh_logger.
(** Power on again: the same disk, other random draws. *)
Definition reboot (w : world) : world := World (w_fs w) [] [] [Some [x99]] (CnDraws 7 7 7 7) fresh_logger.
End StartupExample.

#[local] Existing Instance Toy.suite.
#[local] Existing Instance Toy.suite_laws.
#[local] Existing Instance ascii_tables.

Lemma startup_well_formed_witness :
  exists sv w', main StartupExample.opts StartupExample.env StartupExample.disk0 = (Ok sv, w') /\
  serving_wf StartupExample.opts sv.
Proof.
  pose proof (startup_well_formed StartupExample.opts StartupExample.env StartupExample.disk0) as Hwf.
  assert (Hok : match (main StartupExample.opts StartupExample.env StartupExample.disk0).1 with Ok _ => True | _ => False end)
    by (vm_compute; exact I).
  destruct (main StartupExample.opts StartupExample.env StartupExample.disk0) as [[sv | e |] w']; [by exists sv, w' | destruct Hok..].
Defined.

Lemma startup_discreet_witness :
  exists evs, lg_out (w_log (main StartupExample.quiet_opts StartupExample.env StartupExample.disk0).2) = [] ++ evs /\
  Forall (fun ev => is_share ev = false) evs /\
  (LogOff = LogOff -> Forall (about_allowlist StartupExample.quiet_opts) evs).
Proof.
  apply (startup_discreet StartupExample.quiet_opts StartupExample.env StartupExample.disk0 LogOff);
    [vm_compute; reflexivity | vm_compute; reflexivity].
Defined.

(** The lines that escape [-quiet]. *)
Example quiet_prints_allowlist :
  lg_out (w_log (main StartupExample.quiet_opts StartupExample.env StartupExample.disk0).2) =
    [EvAllowIgnored (go! "com"); EvAllowlist [AllowEntry (go! "example.com") false]].
Proof. vm_compute. reflexivity. Qed.

Lemma restart_serves_the_same_witness :
  exists sv w' w3, main StartupExample.opts StartupExample.env StartupExample.disk0 = (Ok sv, w') /\
  main (no_rotate StartupExample.opts) StartupExample.env (StartupExample.reboot w') = (Ok sv, w3) /\
  w_fs w3 = w_fs (StartupExample.reboot w').
Proof.
  assert (Hok : match (main StartupExample.opts StartupExample.env StartupExample.disk0).1 with Ok _ => True | _ => False end)
    by (vm_compute; exact I).
  destruct (main StartupExample.opts StartupExample.env StartupExample.disk0) as [[sv | e |] w'] eqn:E; [| destruct Hok..].
  assert (HR : exists w3, main (no_rotate StartupExample.opts) StartupExample.env (StartupExample.reboot w') = (Ok sv, w3) /\
    w_fs w3 = w_fs (StartupExample.reboot w')).
  { refine (restart_serves_the_same StartupExample.opts StartupExample.env StartupExample.disk0 sv w'
      (StartupExample.reboot w') _ _ _ E _ _ _).
    - split; [reflexivity | repeat (apply Forall_cons_2; [by eexists |]); apply Forall_nil_2 | intros p _; apply lookup_empty].
    - rewrite Forall_forall. intros p _. left. apply lookup_empty.
    - by_decision.
    - reflexivity.
    - apply Forall_cons_2; [by eexists | apply Forall_nil_2].
    - reflexivity. }
  destruct HR as (w3 & H3 & Hf). exists sv, w', w3. split; [reflexivity | split; [exact H3 | exact Hf]].
Defined.

(** A CA-signed wildcard certificate needs an explicit [-sni]: its common name
    is the default and no valid host name. *)
Example wildcard_cn_is_fatal :
  check_sni StartupExample.opts (go! "*.example.com") = inl (FSni (go! "*.example.com")).
Proof. vm_compute. reflexivity. Qed.
