(* ===== verification/Listener.v ===== *)
(** * The listener ([runTCP], [underlyingTCP], [dispatchTLSConn] of
    cmd/mxtr-server/main.go)

    The accept loop, the bounded semaphore [gate] and one goroutine per
    admitted connection, as an interleaving of steps. The handler is
    [handleTCPv2]; of it only its [defer conn.Close()] matters here. The
    outcomes of the socket and TLS calls are arguments. *)

From S2P Require Import Prelude GoStrings PskConfig Session.

Definition handshakeTimeout : Z := 10 * 10 ^ 9.
Definition keepAlivePeriod : Z := 25 * 10 ^ 9.

(** ** Before the loop *)

Definition VersionTLS13 : Z := 0x0304.

Record tls_config := TlsConfig {
  Certificates : list bytes;
  MinVersion : Z;
  MaxVersion : Z;
  NextProtos : list bytes;
  SessionTicketsDisabled : bool;
}.

Inductive listen_fatal := FListen | FNoCert.

(** [loadedCert]: the global, [None] for nil. *)
Definition runTCP_start (listening : bool) (loadedCert : option bytes) (cfg : pskDerivedConfig) : listen_fatal + tls_config :=
  if negb listening then inl FListen else
  match loadedCert with
  | None => inl FNoCert
  | Some cert => inr (TlsConfig [cert] VersionTLS13 VersionTLS13 (alpnOrder cfg) true)
  end.

(** ** Connections *)

(** What the dynamic type of a [net.Conn] is; a TLS connection is over TCP or
    not. *)
Inductive conn_kind := KTls (over_tcp : bool) | KTcp | KOther.

Definition is_tls (k : conn_kind) : bool := match k with KTls _ => true | _ => false end.

Definition underlyingTCP (k : conn_kind) : bool :=
  match k with KTls over_tcp => over_tcp | KTcp => true | KOther => false end.

(** The options of the socket under it, and [history]: the handler has been
    called, and with what deadline pending and handshake state. *)
Record lconn := LConn {
  lc_kind : conn_kind;
  lc_nodelay : bool;
  lc_keepalive : option Z;
  lc_deadline : option Z;
  lc_shaken : bool;
  lc_open : bool;
  lc_handled : list (option Z * bool);
}.

Definition accepted (k : conn_kind) : lconn := LConn k false None None false true [].

Definition tune (c : lconn) : lconn :=
  if underlyingTCP (lc_kind c)
  then LConn (lc_kind c) true (Some keepAlivePeriod) (lc_deadline c) (lc_shaken c) (lc_open c) (lc_handled c)
  else c.

Definition set_deadline (d : option Z) (c : lconn) : lconn :=
  LConn (lc_kind c) (lc_nodelay c) (lc_keepalive c) d (lc_shaken c) (lc_open c) (lc_handled c).
Definition shake (c : lconn) : lconn :=
  LConn (lc_kind c) (lc_nodelay c) (lc_keepalive c) (lc_deadline c) true (lc_open c) (lc_handled c).
Definition lclose (c : lconn) : lconn :=
  LConn (lc_kind c) (lc_nodelay c) (lc_keepalive c) (lc_deadline c) (lc_shaken c) false (lc_handled c).
(** The call of the handler. *)
Definition hand_over (c : lconn) : lconn :=
  LConn (lc_kind c) (lc_nodelay c) (lc_keepalive c) (lc_deadline c) (lc_shaken c) (lc_open c)
    (lc_handled c ++ [(lc_deadline c, lc_shaken c)]).

(** ** Goroutines *)

(** [dispatchTLSConn], then [<-gate]. *)
Inductive dispatch_pc := DDeadline | DHandshake | DNoDeadline | DCall | DHandler | DGate.

Inductive denv :=
  | DOk (t : Z)        (* the call succeeded; the time *)
  | DFail              (* it failed *)
  | DReturned.         (* the handler has returned *)

Definition dispatchTLSConn (pc : dispatch_pc) (e : denv) (c : lconn) : option (dispatch_pc * lconn) :=
  match pc, e with
  | DDeadline, _ =>
      if negb (is_tls (lc_kind c)) then Some (DCall, c) else
      match e with
      | DOk t => Some (DHandshake, set_deadline (Some (t + handshakeTimeout)) c)
      | DFail => Some (DGate, lclose c)
      | DReturned => None
      end
  | DHandshake, DOk _ => Some (DNoDeadline, shake c)
  | DHandshake, DFail => Some (DGate, lclose c)
  | DNoDeadline, DOk _ => Some (DCall, set_deadline None c)
  | DNoDeadline, DFail => Some (DGate, lclose c)
  | DCall, DOk _ => Some (DHandler, hand_over c)
  | DHandler, DReturned => Some (DGate, lclose c)
  | _, _ => None
  end.

Record listener := Listener {
  ln_gate : Z;                          (* tokens in the channel *)
  ln_conns : gmap nat lconn;            (* all connections ever accepted *)
  ln_tasks : gmap nat dispatch_pc;      (* the goroutines alive *)
}.

Inductive laction :=
  | LAcceptErr
  | LAccept (n : nat) (k : conn_kind)   (* [n]: a new name *)
  | LRun (n : nat) (e : denv)
  | LDone (n : nat).                    (* the deferred receive from [gate] *)

Definition lstep (a : laction) (l : listener) : option listener :=
  match a with
  | LAcceptErr => Some l
  | LAccept n k =>
      match ln_conns l !! n with
      | Some _ => None
      | None =>
          let c := tune (accepted k) in
          if ln_gate l <? maxConcurrentConns
          then Some (Listener (ln_gate l + 1) (<[n := c]> (ln_conns l)) (<[n := DDeadline]> (ln_tasks l)))
          else Some (Listener (ln_gate l) (<[n := lclose c]> (ln_conns l)) (ln_tasks l))
      end
  | LRun n e =>
      pc ← ln_tasks l !! n;
      c ← ln_conns l !! n;
      '(pc', c') ← dispatchTLSConn pc e c;
      Some (Listener (ln_gate l) (<[n := c']> (ln_conns l)) (<[n := pc']> (ln_tasks l)))
  | LDone n =>
      match ln_tasks l !! n with
      | Some DGate => if 0 <? ln_gate l then Some (Listener (ln_gate l - 1) (ln_conns l) (delete n (ln_tasks l))) else None
      | _ => None
      end
  end.

Definition listening : listener := Listener 0 ∅ ∅.

Inductive lreachable : listener -> Prop :=
  | lreach_init : lreachable listening
  | lreach_step a l l' : lreachable l -> lstep a l = Some l' -> lreachable l'.

Fixpoint lrun (acts : list laction) (l : listener) : option listener :=
  match acts with
  | [] => Some l
  | a :: acts' => l' ← lstep a l; lrun acts' l'
  end.

(** ** The invariant *)

(** What the goroutine of a connection knows of it. *)
Definition conn_ok (pc : option dispatch_pc) (c : lconn) : Prop :=
  (underlyingTCP (lc_kind c) = true -> lc_nodelay c = true /\ lc_keepalive c = Some keepAlivePeriod) /\
  match pc with
  | Some DDeadline => lc_open c = true /\ lc_handled c = [] /\ lc_deadline c = None
  | Some DHandshake => lc_open c = true /\ lc_handled c = [] /\ is_Some (lc_deadline c)
  | Some DNoDeadline => lc_open c = true /\ lc_handled c = [] /\ lc_shaken c = true
  | Some DCall => lc_open c = true /\ lc_handled c = [] /\ lc_deadline c = None /\ (is_tls (lc_kind c) = true -> lc_shaken c = true)
  | Some DHandler => lc_open c = true /\ exists b, lc_handled c = [(None, b)] /\ (is_tls (lc_kind c) = true -> b = true)
  | Some DGate | None =>
      lc_open c = false /\ (lc_handled c = [] \/ exists b, lc_handled c = [(None, b)] /\ (is_tls (lc_kind c) = true -> b = true))
  end.

Record listener_ok (l : listener) : Prop := {
  lo_gate : ln_gate l = Z.of_nat (size (ln_tasks l));
  lo_cap : ln_gate l <= maxConcurrentConns;
  lo_task n : is_Some (ln_tasks l !! n) -> is_Some (ln_conns l !! n);
  lo_conn n c : ln_conns l !! n = Some c -> conn_ok (ln_tasks l !! n) c;
}.

Lemma dispatch_keeps pc e c pc' c' : dispatchTLSConn pc e c = Some (pc', c') -> conn_ok (Some pc) c -> conn_ok (Some pc') c'.
Proof.
  unfold dispatchTLSConn, conn_ok. intros Hd [Ht K]. destruct pc; cbn in K.
  - destruct K as (K1 & K2 & K3). destruct (is_tls (lc_kind c)) eqn:Ek; cbn in Hd.
    + destruct e; try discriminate Hd; injection Hd as <- <-; cbn; split_and!; try done; first [by eexists | by left].
    + injection Hd as <- <-. split_and!; try done. intros E2. congruence.
  - destruct K as (K1 & K2 & K3). destruct e; try discriminate Hd; injection Hd as <- <-; cbn; split_and!; try done. by left.
  - destruct K as (K1 & K2 & K3). destruct e; try discriminate Hd; injection Hd as <- <-; cbn; split_and!; try done. by left.
  - destruct K as (K1 & K2 & K3 & K4). destruct e; try discriminate Hd; injection Hd as <- <-; cbn; split_and!; try done.
    exists (lc_shaken c). by rewrite K2, K3.
  - destruct K as (K1 & K2). destruct e; try discriminate Hd; injection Hd as <- <-; cbn; split_and!; try done. by right.
  - by destruct e.
Qed.

Lemma tune_ok k : let c := tune (accepted k) in conn_ok (Some DDeadline) c /\ conn_ok None (lclose c).
Proof. unfold conn_ok, tune. destruct k as [[]| |]; cbn; (split; split_and!; try done; by left). Qed.

Lemma size_delete_task (T : gmap nat dispatch_pc) n pc : T !! n = Some pc ->
  Z.of_nat (size T) = Z.of_nat (size (delete n T)) + 1.
Proof.
  intros Hn. rewrite (map_size_delete_Some n T) by by eexists.
  assert (size T <> 0%nat); [| lia]. intros E. apply map_size_empty_inv in E. subst T. by rewrite lookup_empty in Hn.
Qed.

Lemma lstep_ok a l l' : lstep a l = Some l' -> listener_ok l -> listener_ok l'.
Proof.
  intros Hs [Lg Lc Lt Lo]. destruct a as [| n k | n e | n]; cbn in Hs.
  - by injection Hs as <-.
  - destruct (ln_conns l !! n) eqn:Hn; [done |]. destruct (tune_ok k) as [T1 T2].
    assert (Htn : ln_tasks l !! n = None) by (destruct (ln_tasks l !! n) eqn:E; [destruct (Lt n ltac:(by eexists)); congruence | done]).
    destruct (_ <? _) eqn:Hg; bool_facts; injection Hs as <-; (split; cbn [ln_gate ln_conns ln_tasks]).
    + rewrite map_size_insert_None by done. lia.
    + lia.
    + intros m [<- | [_ Hm]]%lookup_insert_is_Some; apply lookup_insert_is_Some; [by left |].
      destruct (decide (n = m)); [by left | right; auto].
    + intros m c [[<- <-] | [Hne Hc]]%lookup_insert_Some; [by rewrite lookup_insert_eq |]. rewrite lookup_insert_ne by done. by apply Lo.
    + done.
    + done.
    + intros m Hm. apply lookup_insert_is_Some. destruct (decide (n = m)); [by left | right; auto].
    + intros m c [[<- <-] | [Hne Hc]]%lookup_insert_Some; [by rewrite Htn | by apply Lo].
  - destruct (ln_tasks l !! n) as [pc|] eqn:Hpc; [| done]. destruct (ln_conns l !! n) as [c|] eqn:Hc; [| done]. cbn in Hs.
    destruct (dispatchTLSConn pc e c) as [[pc' c']|] eqn:Hd; [| done]. injection Hs as <-.
    pose proof (Lo n c Hc) as K. rewrite Hpc in K. pose proof (dispatch_keeps _ _ _ _ _ Hd K) as K'.
    split; cbn [ln_gate ln_conns ln_tasks].
    + rewrite map_size_insert_Some; [done | by eexists].
    + done.
    + intros m [<- | [_ Hm]]%lookup_insert_is_Some; apply lookup_insert_is_Some; [by left |].
      destruct (decide (n = m)); [by left | right; auto].
    + intros m c1 [[<- <-] | [Hne Hc1]]%lookup_insert_Some; [by rewrite lookup_insert_eq |]. rewrite lookup_insert_ne by done. by apply Lo.
  - destruct (ln_tasks l !! n) as [[]|] eqn:Hpc; try done. destruct (0 <? ln_gate l); [| done]. injection Hs as <-.
    split; cbn [ln_gate ln_conns ln_tasks].
    + rewrite Lg, (size_delete_task _ n _ Hpc). lia.
    + lia.
    + intros m [? Hm]. apply lookup_delete_Some in Hm as [_ Hm]. apply Lt. by eexists.
    + intros m c Hc. destruct (decide (m = n)) as [-> | Hne]; [| rewrite lookup_delete_ne by done; by apply Lo].
      rewrite lookup_delete_eq. pose proof (Lo n c Hc) as K. by rewrite Hpc in K.
Qed.

Lemma lreachable_ok l : lreachable l -> listener_ok l.
Proof.
  induction 1 as [| a l l' R IH Hs]; [| by eapply lstep_ok].
  split; cbn; [done | done | intros n; by rewrite lookup_empty; intros [] | intros n c; by rewrite lookup_empty].
Qed.

(** ** What the listener guarantees *)

(** [C38] The listener is bounded and leaks nothing: the tokens in the semaphore
    are the goroutines alive, at most 8192; every open connection has one; a
    connection is handed to the handler at most once, without a pending
    deadline, and over TLS only after its handshake; every TCP connection, bare
    or under TLS, has been made NODELAY and keep-alive; at capacity a newcomer is
    closed and nothing else changes; and a goroutine that is done can always
    give its token back. *)
Theorem listener_bounded l :
  lreachable l ->
  ln_gate l = Z.of_nat (size (ln_tasks l)) /\ 0 <= ln_gate l <= maxConcurrentConns /\
  (forall n c, ln_conns l !! n = Some c ->
     (lc_open c = true -> is_Some (ln_tasks l !! n)) /\
     (lc_handled c = [] \/ exists b, lc_handled c = [(None, b)] /\ (is_tls (lc_kind c) = true -> b = true)) /\
     (lc_kind c = KTcp \/ lc_kind c = KTls true -> lc_nodelay c = true /\ lc_keepalive c = Some keepAlivePeriod)) /\
  (forall n k l', ln_gate l = maxConcurrentConns -> lstep (LAccept n k) l = Some l' ->
     ln_gate l' = ln_gate l /\ ln_tasks l' = ln_tasks l /\ lc_open <$> ln_conns l' !! n = Some false) /\
  (forall n, ln_tasks l !! n = Some DGate ->
     exists l', lstep (LDone n) l = Some l' /\ ln_gate l' = ln_gate l - 1 /\ ln_tasks l' = delete n (ln_tasks l)).
Proof.
  intros R. destruct (lreachable_ok l R) as [Lg Lc Lt Lo]. split_and!; [done | lia | done | | |].
  - intros n c Hc. destruct (Lo n c Hc) as [Hu K]. split; [intros Ho; destruct (ln_tasks l !! n); [done | by destruct K; congruence] |].
    split; [| by intros [E | E]; rewrite E in Hu; apply Hu].
    destruct (ln_tasks l !! n) as [[]|]; destruct_and?; first [by left | by right | done].
  - intros n k l' Hg Hs. cbn in Hs. destruct (ln_conns l !! n); [done |].
    rewrite Hg in Hs. replace (_ <? _) with false in Hs by done. injection Hs as <-. cbn [ln_gate ln_tasks ln_conns].
    by rewrite lookup_insert_eq, Hg.
  - intros n Hn. cbn. rewrite Hn. rewrite (proj2 (Z.ltb_lt _ _)); [by eexists |].
    rewrite Lg, (size_delete_task _ n _ Hn). lia.
Qed.

Lemma lrun_reachable acts l l' : lreachable l -> lrun acts l = Some l' -> lreachable l'.
Proof.
  revert l. induction acts as [|a acts IH]; intros l R; cbn; [by intros [= <-] |].
  destruct (lstep a l) as [l1|] eqn:E; [| done]. cbn. apply IH. by eapply lreach_step.
Qed.

(** A TLS connection whose calls succeed reaches the handler, free of the
    handshake's deadline. *)
Lemma admitted_is_served l n c t over_tcp : ln_conns l !! n = Some c -> ln_tasks l !! n = Some DDeadline ->
  lc_kind c = KTls over_tcp -> lc_handled c = [] ->
  exists l' c', lrun (replicate 4 (LRun n (DOk t))) l = Some l' /\ ln_tasks l' !! n = Some DHandler /\
    ln_conns l' !! n = Some c' /\ lc_handled c' = [(None, true)] /\ lc_open c' = lc_open c.
Proof.
  intros Hc Ht Hk Hh. cbn. rewrite Ht, Hc. cbn. rewrite Hk. cbn.
  rewrite !lookup_insert_eq. cbn. rewrite !lookup_insert_eq. cbn. rewrite !lookup_insert_eq. cbn.
  do 2 eexists. split; [reflexivity |]. cbn. rewrite !lookup_insert_eq. split_and!; [done | reflexivity | | done].
  cbn. by rewrite Hh.
Qed.

Module ListenerDemo.
(** Two connections over TLS: one is served, the other fails its handshake. *)
Definition acts : list laction :=
  [LAccept 0 (KTls true); LAccept 1 (KTls true); LAcceptErr] ++ replicate 4 (LRun 0 (DOk 5)) ++
  [LRun 1 (DOk 6); LRun 1 DFail].
Definition final : listener := default listening (lrun acts listening).
End ListenerDemo.

Lemma listener_bounded_witness :
  lreachable ListenerDemo.final /\ ln_tasks ListenerDemo.final !! 1%nat = Some DGate /\
  (lc_handled <$> ln_conns ListenerDemo.final !! 0%nat) = Some [(None, true)] /\
  exists l', lstep (LDone 1) ListenerDemo.final = Some l' /\ ln_gate l' = 1.
Proof.
  assert (R : lreachable ListenerDemo.final).
  { apply (lrun_reachable ListenerDemo.acts listening); [constructor | by vm_compute]. }
  destruct (listener_bounded ListenerDemo.final R) as (_ & _ & _ & _ & Hd).
  assert (Ht : ln_tasks ListenerDemo.final !! 1%nat = Some DGate) by by vm_compute.
  split; [exact R |]. split; [exact Ht |]. split; [by vm_compute |].
  destruct (Hd 1%nat Ht) as (l' & Hs & Hg & _). exists l'. split; [exact Hs |]. by rewrite Hg.
Defined.
