(* ===== verification/ClientConfig.v ===== *)
(** * Client configuration ([parseShareString], the configuration part of
    [main] and the dialling decisions of [dialSession],
    cmd/mxtr-testclient-v2/main.go)

    [url.Parse] of net/url (Go 1.26.1) is written out for what follows
    ["mxtr://"]; only whether it fails matters, not which error it gives. *)

From S2P Require Import Prelude GoStrings GoNet Hostnames ShareString.

(** ** [net/url] *)

(** [strings.Cut] at a byte. *)
Definition cut (c : byte) (s : bytes) : bytes * option bytes :=
  match index_byte c s with
  | Some i => (take i s, Some (drop (S i) s))
  | None => (s, None)
  end.

(** [shouldEscape] in a host. *)
Definition host_escaped (c : byte) : bool :=
  negb (is_lower c || is_upper c || is_digit c ||
        bool_decide (c ∈ go! "-_.~!$&'()*+,;=:[]<>") || bool_decide (c = x22)).

Inductive escape_mode := EncodeHost | EncodeQuery | EncodeOther.

(** [unescape]; in a host only bytes above 127 and the percent sign may be
    escaped, in a query a plus sign is a space. *)
Fixpoint unescape (mode : escape_mode) (s : bytes) : option bytes :=
  match s with
  | [] => Some []
  | c :: s' =>
      if bool_decide (c = "%"%byte) then
        match s' with
        | a :: b :: s'' =>
            h ← from_hex a; l ← from_hex b; r ← unescape mode s'';
            match mode with
            | EncodeHost => if (h <? 8) && negb (h * 16 + l =? 37) then None else Some (z2b (h * 16 + l) :: r)
            | _ => Some (z2b (h * 16 + l) :: r)
            end
        | _ => None
        end
      else
        r ← unescape mode s';
        match mode with
        | EncodeHost => if (b2z c <? 128) && host_escaped c then None else Some (c :: r)
        | EncodeQuery => Some ((if bool_decide (c = "+"%byte) then x20 else c) :: r)
        | EncodeOther => Some (c :: r)
        end
  end.

Definition ctl_byte (c : byte) : bool := (b2z c <? 32) || (b2z c =? 127).

Definition userinfo_byte (c : byte) : bool :=
  is_lower c || is_upper c || is_digit c || bool_decide (c ∈ go! "-._:~!$&'()*+,;=%@").

(** Empty, or a colon and digits. *)
Definition validOptionalPort (p : bytes) : bool :=
  match p with
  | [] => true
  | c :: ds => bool_decide (c = ":"%byte) && forallb is_digit ds
  end.

(** [netip.ParseAddr] followed by the refusal of IPv4. A zone is not taken:
    [net.ParseIP] of the caller refuses it anyway. *)
Definition v6_literal (h : bytes) : bool :=
  bool_decide (addr_kind h = Some ":"%byte) && bool_decide (is_Some (ParseIP h)).

Definition parseHost (host : bytes) : option bytes :=
  match last_index_byte "[" host with
  | Some (S _) => None
  | Some O =>
      j ← last_index_byte "]" host;
      if negb (validOptionalPort (drop (S j) host)) then None else
      port ← unescape EncodeHost (drop (S j) host);
      name ← unescape EncodeHost (take (j - 1) (drop 1 host));
      if v6_literal name then Some (go! "[" ++ name ++ go! "]" ++ port) else None
  | None =>
      match index_byte ":" host with
      | Some i =>
          if negb (bool_decide (last_index_byte ":" host = Some i)) then None
          else if negb (validOptionalPort (drop i host)) then None
          else unescape EncodeHost host
      | None => unescape EncodeHost host
      end
  end.

(** User name, if there is user information ([None] inside: with a password),
    host and raw query of ["mxtr://"] followed by [s]. *)
Record url := Url { u_user : option (option bytes); u_host : bytes; u_query : bytes }.

Definition url_Parse (s : bytes) : option url :=
  let '(u, frag) := cut "#" s in
  if existsb ctl_byte u then None else
  _ ← unescape EncodeOther (default [] frag);
  let '(rest, query) := cut "?" u in
  let '(authority, path) := cut "/" rest in
  _ ← unescape EncodeOther (default [] path);
  match last_index_byte "@" authority with
  | None => host ← parseHost authority; Some (Url None host (default [] query))
  | Some i =>
      host ← parseHost (drop (S i) authority);
      let userinfo := take i authority in
      if negb (forallb userinfo_byte userinfo) then None else
      match cut ":" userinfo with
      | (name, None) => n ← unescape EncodeOther name; Some (Url (Some (Some n)) host (default [] query))
      | (name, Some pw) =>
          _ ← unescape EncodeOther name; _ ← unescape EncodeOther pw;
          Some (Url (Some None) host (default [] query))
      end
  end.

(** [u.Hostname()] and [u.Port()]. *)
Definition split_url_host (h : bytes) : bytes * bytes :=
  let '(host, port) := match last_index_byte ":" h with
                       | Some i => if validOptionalPort (drop i h) then (take i h, drop (S i) h) else (h, [])
                       | None => (h, [])
                       end in
  (if has_prefix (go! "[") host && has_suffix (go! "]") host then take (length host - 2) (drop 1 host) else host, port).

(** [u.Query().Get(key)]: pairs that do not parse are left out, and more than
    10000 of them are not looked at. *)
Definition query_pair (p : bytes) : option (bytes * bytes) :=
  if bool_decide (p = []) || bool_decide (";"%byte ∈ p) then None else
  let '(k, v) := cut "=" p in
  k' ← unescape EncodeQuery k; v' ← unescape EncodeQuery (default [] v); Some (k', v').
Definition query_get (key query : bytes) : bytes :=
  if 10000 <? len (split_on "&" query) then [] else
  default [] (snd <$> head (filter (fun kv => kv.1 = key) (omap query_pair (split_on "&" query)))).

(** ** The program *)

Record shareData := ShareData { sd_host : bytes; sd_port : Z; sd_pskHex : bytes; sd_sni : bytes }.

Section Client.
Context `{UnicodeTables}.

Definition parseShareString (s : bytes) : option shareData :=
  let s := trim_space s in
  if negb (has_prefix (go! "mxtr://") s) then None else
  u ← url_Parse (drop 7 s);
  match u_user u with
  | Some (Some pskB58) =>
      if bool_decide (pskB58 = []) then None else
      pskBytes ← base58Decode pskB58;
      if negb (len pskBytes =? 32) then None else
      let '(host, portText) := split_url_host (u_host u) in
      if negb (isIPLiteral host) then None else
      port ← atoi portText;
      if (port <=? 0) || (65535 <? port) then None else
      let sni := query_get (go! "sni") (u_query u) in
      if negb (bool_decide (sni = [])) && bool_decide (is_Some (ParseIP sni)) then None
      else Some (ShareData host port (hex_encode pskBytes) sni)
  | _ => None
  end.

(** The command line of the client, up to [dialSession]. *)
Record cl_options := ClOptions { cl_share : bytes; cl_server : bytes; cl_psk : bytes; cl_pskFile : bytes }.

(** [None]: a [log.Fatal]. [env_psk] is MXTR_PSK, [read] is [os.ReadFile]. *)
Definition client_config (o : cl_options) (env_psk : bytes) (read : bytes -> option bytes)
  : option (bytes * Z * bytes * bytes) :=
  if negb (bool_decide (cl_share o = [])) then
    sd ← parseShareString (cl_share o);
    Some (sd_host sd, sd_port sd, default [] (hex_decode (sd_pskHex sd)), sd_sni sd)
  else if bool_decide (cl_server o = []) then None else
    '(host, portStr) ← SplitHostPort (cl_server o);
    port ← atoi portStr;
    let h := if bool_decide (cl_psk o = []) then env_psk else cl_psk o in
    h ← (if bool_decide (h = []) && negb (bool_decide (cl_pskFile o = []))
         then trim_space <$> read (cl_pskFile o) else Some h);
    if bool_decide (h = []) then None else
    psk ← hex_decode h;
    if len psk <? 16 then None else Some (host, port, psk, []).

(** [net.JoinHostPort]. *)
Definition JoinHostPort (host port : bytes) : bytes :=
  if bool_decide (":"%byte ∈ host)
  then go! "[" ++ host ++ go! "]:" ++ port else host ++ go! ":" ++ port.

(** What [dialSession] connects to, and the server name it presents. *)
Definition dial_plan (serverHost : bytes) (serverPort : Z) (sni : bytes) : option (bytes * bytes) :=
  if negb (isIPLiteral serverHost) then None
  else Some (JoinHostPort serverHost (itoa serverPort), if bool_decide (sni = []) then serverHost else sni).
End Client.

(** ** Character sets *)

Definition v6_byte (c : byte) : bool :=
  is_digit c || ch c "a" "f" || ch c "A" "F" || bool_decide (c = ":"%byte) || bool_decide (c = "."%byte).

Lemma v4_loop_bytes s fields val n dot fs : v4_loop s fields val n dot = Some fs ->
  Forall (fun c => is_digit c || bool_decide (c = "."%byte) = true) s.
Proof.
  revert fields val n dot. induction s as [|c s IH]; intros fields val n dot; [by constructor |].
  cbn [v4_loop]. destruct (is_digit c) eqn:Ed; [| case_bool_decide as Ec; [| done]];
    repeat (case_match; try done); intros Hs; (constructor; [| by eapply IH]).
  - by rewrite Ed.
  - subst c. done.
Qed.

Lemma hex_group_bytes s off acc o v rest : hex_group s off acc = Some (o, v, rest) ->
  exists p, s = p ++ rest /\ Forall (fun c => v6_byte c = true) p.
Proof.
  revert off acc. induction s as [|c s IH]; intros off acc; cbn [hex_group].
  - intros [= _ _ <-]. by exists [].
  - destruct (from_hex c) eqn:E; [| intros [= _ _ <-]; by exists []].
    case_match; [done |]. intros (p & -> & Hp)%IH. exists (c :: p). split; [done |]. constructor; [| done].
    unfold from_hex in E. unfold v6_byte. repeat case_match; simplify_eq; by rewrite ?orb_true_r.
Qed.

Lemma v4_bytes_v6 s : Forall (fun c => is_digit c || bool_decide (c = "."%byte) = true) s ->
  Forall (fun c => v6_byte c = true) s.
Proof.
  intros H. eapply Forall_impl; [exact H |]. intros c [Hc | Hc]%orb_true_iff; unfold v6_byte; by rewrite Hc, ?orb_true_r.
Qed.

Lemma v6_loop_bytes fuel s acc ell a e rest : v6_loop fuel s acc ell = Some (a, e, rest) ->
  exists p, s = p ++ rest /\ Forall (fun c => v6_byte c = true) p.
Proof.
  revert s acc ell. induction fuel as [|fuel IH]; intros s acc ell; cbn [v6_loop].
  { intros [= _ _ <-]. by exists []. }
  destruct (16 <=? len acc); [intros [= _ _ <-]; by exists [] |].
  destruct (hex_group s 0 0) as [[[off v] s1]|] eqn:Eg; [| done]. cbn [mbind option_bind].
  apply hex_group_bytes in Eg as (p & -> & Hp). destruct (off =? 0); [done |].
  destruct s1 as [|c s2]; [intros [= _ _ <-]; exists p; by rewrite app_nil_r |].
  case_bool_decide as Ec.
  - subst c. repeat (case_match; try done). 
    match goal with |- (?x ≫= _) = _ -> _ => destruct x as [fs|] eqn:Ef; [| done] end. cbn.
    intros [= _ _ <-]. exists (p ++ "."%byte :: s2). split; [by rewrite app_nil_r |].
    unfold parse_v4_fields in Ef. case_match; [| done]. by eapply v4_bytes_v6, v4_loop_bytes.
  - case_bool_decide as Ec2; cbn [negb]; [subst c | done]. destruct s2 as [|d s3]; [done |].
    assert (Hcol : v6_byte ":" = true) by done.
    case_bool_decide as Ed; [subst d; case_bool_decide; [done |]; case_bool_decide as E3 |].
    + intros [= _ _ <-]. subst s3. exists (p ++ go! "::"). rewrite app_nil_r. split; [done |].
      apply Forall_app. split; [done |]. by repeat constructor.
    + intros (q & -> & Hq)%IH. exists (p ++ go! "::" ++ q). split; [by rewrite <-app_assoc |].
      apply Forall_app. split; [done |]. by repeat constructor.
    + intros (q & Hs & Hq)%IH. rewrite Hs. exists (p ++ go! ":" ++ q). split; [by rewrite <-app_assoc |].
      apply Forall_app. split; [done |]. by constructor.
Qed.

Lemma parse_v6_bytes s ip : parse_v6 s = Some ip -> Forall (fun c => v6_byte c = true) s.
Proof.
  unfold parse_v6. case_bool_decide; [done |].
  assert (Hpre : exists ell s1 p, (match s with
    | c :: d :: s' => if bool_decide (c = ":"%byte /\ d = ":"%byte) then (Some 0%nat, s') else (None, s)
    | _ => (None, s) end) = (ell, s1) /\ s = p ++ s1 /\ Forall (fun c => v6_byte c = true) p).
  { destruct s as [|c [|d s]]; [by exists None, [], [] | by exists None, [c], [] |].
    case_bool_decide as E; [| by exists None, (c :: d :: s), []]. destruct E as [-> ->].
    exists (Some 0%nat), s, (go! "::"). split_and!; [done | done | by repeat constructor]. }
  destruct Hpre as (ell & s1 & p & -> & -> & Hp). intros Hs. apply Forall_app. split; [done |].
  destruct (bool_decide (is_Some ell) && bool_decide (s1 = [])) eqn:E; [bool_facts; subst s1; by constructor |].
  destruct (v6_loop 8 s1 [] ell) as [[[a e] rest]|] eqn:El; [| done]. cbn in Hs.
  case_bool_decide as Er; [| done]. apply v6_loop_bytes in El as (q & -> & Hq). by rewrite Er, app_nil_r.
Qed.
