(* ===== verification/Connect.v ===== *)
(** * From the printed share string to the dial: the server's start-up and the
    client's configuration together *)

From S2P Require Import Prelude Crypto GoStrings GoNet Allowlist ShareString Hostnames.
From S2P Require Import Logger GoOS Persist Startup ClientConfig.

(** ** Strings without anything special *)

(** A byte that neither the URL syntax nor [TrimSpace] treats specially; the
    colon and the brackets of a host are. *)
Definition plain_byte (c : byte) : bool :=
  is_lower c || is_upper c || is_digit c || bool_decide (c = "-"%byte) || bool_decide (c = "."%byte).

Definition plain (s : bytes) : Prop := Forall (fun c => plain_byte c = true) s.
Definition host_text (s : bytes) : Prop := Forall (fun c => plain_byte c || bool_decide (c ∈ go! ":[]") = true) s.

(** By inspection of the 256 bytes. *)
Lemma byte_all (P : byte -> bool) : forallb P (z2b ∘ Z.of_nat <$> seq 0 256) = true -> forall c, P c = true.
Proof.
  rewrite forallb_forall. intros H c. rewrite <-(z2b_b2z c). pose proof (b2z_range c).
  apply H. rewrite <-(Z2Nat.id (b2z c)) by lia. apply list_elem_of_In, list_elem_of_fmap.
  exists (Z.to_nat (b2z c)). split; [done |]. apply elem_of_seq. lia.
Qed.

Definition host_byte_facts (c : byte) : bool :=
  negb (plain_byte c || bool_decide (c ∈ go! ":[]")) ||
  (negb (ascii_space c) && (b2z c <? 128) && negb (ctl_byte c) && negb (host_escaped c) &&
   negb (bool_decide (c ∈ go! "#?/@%+&;="))).

Lemma host_byte_ok c : plain_byte c || bool_decide (c ∈ go! ":[]") = true ->
  ascii_space c = false /\ b2z c < 128 /\ ctl_byte c = false /\ host_escaped c = false /\ c ∉ go! "#?/@%+&;=".
Proof.
  intros Hc. assert (H : host_byte_facts c = true) by (revert c Hc; intros c _; apply byte_all; vm_compute; reflexivity).
  unfold host_byte_facts in H. rewrite Hc in H. cbn [negb orb] in H. bool_facts. by split_and!.
Qed.

Lemma plain_host s : plain s -> host_text s.
Proof. intros H. eapply Forall_impl; [exact H |]. intros c Hc. by rewrite Hc. Qed.

Lemma host_not_in s c : host_text s -> c ∈ go! "#?/@%+&;=" -> c ∉ s.
Proof. intros H Hc Hin. unfold host_text in H. rewrite Forall_forall in H. by destruct (host_byte_ok c (H c Hin)) as (_ & _ & _ & _ & ?). Qed.

Lemma plain_no_colon s : plain s -> ":"%byte ∉ s.
Proof. intros H Hin. unfold plain in H. rewrite Forall_forall in H. specialize (H _ Hin). done. Qed.

Lemma plain_no_bracket s c : plain s -> c ∈ go! "[]" -> c ∉ s.
Proof.
  intros H Hc Hin. unfold plain in H. rewrite Forall_forall in H. specialize (H _ Hin).
  repeat (apply elem_of_cons in Hc as [-> | Hc]; [done |]). by apply elem_of_nil in Hc.
Qed.

Lemma unescape_id mode s : host_text s -> unescape mode s = Some s.
Proof.
  induction 1 as [|c s Hc _ IH]; [done |]. cbn [unescape].
  destruct (host_byte_ok c Hc) as (_ & _ & _ & He & Hn).
  rewrite bool_decide_false by (intros ->; apply Hn; by vm_compute; repeat constructor).
  rewrite IH. cbn. destruct mode; [by rewrite He, andb_false_r | | done].
  rewrite bool_decide_false; [done |]. intros ->. apply Hn. by vm_compute; repeat constructor.
Qed.

Lemma trim_clean `{UnicodeTables} x : Forall (fun c => ascii_space c = false /\ b2z c < 128) x -> trim_space x = x.
Proof.
  intros Hx. destruct x as [|c x]; [done |]. unfold trim_space.
  inversion Hx as [| ? ? [Hs Hlt] _]; subst. cbn [drop_while]. rewrite Hs.
  rewrite (proj2 (Z.leb_gt _ _)) by lia. apply Forall_rev in Hx.
  destruct (rev (c :: x)) as [|d y] eqn:E; apply (f_equal (@rev byte)) in E; rewrite rev_involutive in E; [done |].
  inversion Hx as [| ? ? [Hd Hd'] _]; subst. cbn [drop_while]. rewrite Hd.
  by rewrite (proj2 (Z.leb_gt _ _)) by lia.
Qed.

Lemma cut_none c s : c ∉ s -> cut c s = (s, None).
Proof. intros H. unfold cut. by rewrite (proj2 (index_byte_None c s)). Qed.
Lemma cut_at c a b : c ∉ a -> cut c (a ++ c :: b) = (a, Some b).
Proof. intros H. unfold cut. by rewrite index_byte_app, take_app_length, drop_S_app. Qed.

(** ** What the builder puts together *)

Lemma b58_plain b : plain (base58Encode b).
Proof.
  unfold base58Encode. case_bool_decide; [constructor |]. unfold plain. apply Forall_rev.
  assert (Hall : forall i, plain_byte (b58_char i) = true).
  { intros i. unfold b58_char. destruct (at_ i b58Alphabet) as [x|] eqn:E; [| done].
    assert (Hp : plain b58Alphabet) by (unfold plain; by_decision).
    unfold plain in Hp. rewrite Forall_forall in Hp. apply Hp. unfold at_ in E. case_match; [| done].
    by apply list_elem_of_lookup_2 in E. }
  apply Forall_app. split; [| by apply Forall_replicate]. apply Forall_fmap, Forall_true. intros i. apply Hall.
Qed.

Lemma digits_plain s : Forall (fun c => is_digit c = true) s -> plain s.
Proof. intros H. eapply Forall_impl; [exact H |]. intros c Hc. unfold plain_byte. by rewrite Hc, orb_true_r. Qed.

Lemma hostname_plain s : isValidHostname s = true -> plain s.
Proof.
  unfold isValidHostname. case_match; [done |]. case_match; [done |]. intros Hf.
  rewrite <-(join_split "." s). induction (split_on "." s) as [|l ls IH]; [constructor |].
  cbn in Hf. bool_facts. assert (Hl : plain l).
  { unfold label_ok in *. bool_facts. unfold plain. rewrite Forall_forall. intros c Hc.
    match goal with H : forallb label_byte l = true |- _ => rewrite forallb_forall in H; specialize (H c) end.
    rewrite <-list_elem_of_In in *. unfold plain_byte, label_byte in *.
    match goal with H : _ ∈ _ -> _ |- _ => by rewrite H end. }
  destruct ls as [|l2 ls]; [done |]. change (join "." (l :: l2 :: ls)) with (l ++ "."%byte :: join "." (l2 :: ls)).
  apply Forall_app. split; [done |]. constructor; [done | by apply IH].
Qed.

(** The two ways to write an address in a share string. *)
Inductive host_form : bytes -> bytes -> Prop :=
  | host_v4 h ip : addr_kind h = Some "."%byte -> ParseIP h = Some ip -> host_form h h
  | host_v6 h : v6_literal h = true -> host_form (go! "[" ++ h ++ go! "]") h.

Lemma v4_plain h ip : addr_kind h = Some "."%byte -> ParseIP h = Some ip -> plain h.
Proof.
  intros Hk. unfold ParseIP. rewrite Hk, bool_decide_true by done. unfold parse_v4_fields.
  destruct (v4_loop h [] 0 0 true) eqn:E; [| done]. intros _. apply v4_loop_bytes in E.
  eapply Forall_impl; [exact E |]. intros c [Hc | Hc]%orb_true_iff; unfold plain_byte; by rewrite Hc, ?orb_true_r.
Qed.

Lemma v6_text h : v6_literal h = true -> Forall (fun c => v6_byte c = true) h /\ is_Some (ParseIP h).
Proof.
  unfold v6_literal. intros [Hk Hp]%andb_true_iff. apply bool_decide_eq_true in Hk, Hp. split; [| done].
  destruct Hp as [ip Hp]. unfold ParseIP in Hp. rewrite Hk in Hp. cbn in Hp. by eapply parse_v6_bytes.
Qed.

Definition v6_byte_facts (c : byte) : bool :=
  negb (v6_byte c) || ((plain_byte c || bool_decide (c ∈ go! ":[]")) &&
    negb (bool_decide (c = "["%byte)) && negb (bool_decide (c = "]"%byte))).

Lemma v6_host h : Forall (fun c => v6_byte c = true) h -> host_text h /\ ("["%byte ∉ h) /\ ("]"%byte ∉ h).
Proof.
  intros H. assert (Hb : forall c, v6_byte c = true ->
    plain_byte c || bool_decide (c ∈ go! ":[]") = true /\ c <> "["%byte /\ c <> "]"%byte).
  { intros c Hc. assert (F : v6_byte_facts c = true) by (revert c Hc; intros c _; apply byte_all; vm_compute; reflexivity).
    unfold v6_byte_facts in F. rewrite Hc in F. cbn [negb orb] in F.
    apply andb_true_iff in F as [[F1 F2]%andb_true_iff F3]. bool_facts. by split_and!. }
  split_and!; [eapply Forall_impl; [exact H |]; intros c Hc; by apply Hb | |]; intros Hin;
    rewrite Forall_forall in H; apply H, Hb in Hin; tauto.
Qed.

Lemma validOptionalPort_digits p : Forall (fun c => is_digit c = true) p -> validOptionalPort (":"%byte :: p) = true.
Proof.
  intros Hp. cbn. apply forallb_forall. intros c Hc. rewrite Forall_forall in Hp. by apply Hp, list_elem_of_In.
Qed.

Lemma last_index_byte_None c s : c ∉ s -> last_index_byte c s = None.
Proof.
  intros H. unfold last_index_byte. rewrite (proj2 (index_byte_None c (rev s))); [done |].
  intros Hin. apply H. apply list_elem_of_In in Hin. apply list_elem_of_In. by apply in_rev.
Qed.

Lemma host_form_text hs h : host_form hs h -> host_text hs.
Proof.
  intros [h0 ip Hk Hp | h0 Hv]; [by eapply plain_host, v4_plain |].
  apply v6_text in Hv as [Hb _]. apply v6_host in Hb as [Ht _].
  apply Forall_app. split; [by repeat constructor |]. apply Forall_app. split; [done | by repeat constructor].
Qed.

Lemma parseHost_form hs h p : host_form hs h -> Forall (fun c => is_digit c = true) p ->
  parseHost (hs ++ ":"%byte :: p) = Some (hs ++ ":"%byte :: p).
Proof.
  intros Hf Hp. pose proof (host_form_text _ _ Hf) as Ht.
  assert (Hpt : host_text (":"%byte :: p)).
  { constructor; [done |]. by apply plain_host, digits_plain. }
  assert (Hall : unescape EncodeHost (hs ++ ":"%byte :: p) = Some (hs ++ ":"%byte :: p)).
  { apply unescape_id. by apply Forall_app. }
  assert (Hpn : forall c, c ∈ go! "[]" -> c ∉ (":"%byte :: p)).
  { intros c Hc Hin. apply elem_of_cons in Hin as [-> | Hin]; [by repeat (apply elem_of_cons in Hc as [? | Hc]; [done |]); apply elem_of_nil in Hc |].
    by eapply plain_no_bracket; [by apply digits_plain | exact Hc |]. }
  unfold parseHost. destruct Hf as [h ip Hk Hip | h Hv].
  - pose proof (v4_plain h ip Hk Hip) as Hpl.
    rewrite (last_index_byte_None "[").
    2: { rewrite elem_of_app. intros [Hin | Hin]; [by eapply plain_no_bracket; [exact Hpl | left |] |].
      by eapply Hpn; [left |]. }
    rewrite index_byte_app by by apply plain_no_colon.
    rewrite last_index_byte_app by by apply plain_no_colon, digits_plain.
    rewrite bool_decide_true by done. cbn [negb]. rewrite drop_app_length, validOptionalPort_digits by done. done.
  - pose proof (v6_text h Hv) as [Hb _]. apply v6_host in Hb as (Hht & Hno1 & Hno2).
    rewrite <-!app_assoc. cbn [app str String.list_byte_of_string] in *.
    set (tail := ":"%byte :: p) in *.
    change (go! "[" ++ h ++ go! "]" ++ tail) with ([] ++ "["%byte :: (h ++ "]"%byte :: tail)).
    rewrite last_index_byte_app.
    2: { rewrite elem_of_app, elem_of_cons. intros [? | [? | ?]]; [done | done |]. by eapply Hpn; [left |]. }
    cbn [length app].
    change ("["%byte :: h ++ "]"%byte :: tail) with (("["%byte :: h) ++ "]"%byte :: tail).
    rewrite last_index_byte_app by (apply Hpn; right; left). cbn [mbind option_bind length].
    change (S (length h)) with (length ("["%byte :: h)); rewrite drop_S_app; cbn [length]. rewrite (validOptionalPort_digits p Hp : validOptionalPort tail = true). cbn [negb].
    rewrite (unescape_id _ tail) by done. cbn [mbind option_bind].
    replace (take (S (length h) - 1) (drop 1 (("["%byte :: h) ++ "]"%byte :: tail))) with h.
    2: { cbn [app drop]. rewrite Nat.sub_succ, Nat.sub_0_r, drop_0. by rewrite take_app_length. }
    rewrite (unescape_id _ h) by done. cbn [mbind option_bind]. rewrite Hv. done.
Qed.

Lemma has_affix_false s c p : c ∉ s -> has_prefix (c :: p) s = false /\ has_suffix (p ++ [c]) s = false.
Proof.
  intros H. split.
  - destruct (has_prefix (c :: p) s) eqn:E; [| done]. apply has_prefix_spec in E as [t ->]. destruct H. by left.
  - destruct (has_suffix (p ++ [c]) s) eqn:E; [| done]. apply has_suffix_spec in E as [t ->].
    destruct H. rewrite !elem_of_app. right. right. by left.
Qed.

Lemma split_url_host_form hs h p : host_form hs h -> Forall (fun c => is_digit c = true) p ->
  split_url_host (hs ++ ":"%byte :: p) = (h, p).
Proof.
  intros Hf Hp. unfold split_url_host.
  rewrite last_index_byte_app by by apply plain_no_colon, digits_plain.
  rewrite drop_app_length, take_app_length, drop_S_app, validOptionalPort_digits by done.
  destruct Hf as [h ip Hk Hip | h Hv].
  - pose proof (v4_plain h ip Hk Hip) as Hpl.
    destruct (has_affix_false h "["%byte []) as [Hpre _]; [by eapply plain_no_bracket; [exact Hpl | left] |].
    by rewrite (Hpre : has_prefix (go! "[") h = false).
  - rewrite has_prefix_app. rewrite (proj2 (has_suffix_spec (go! "]") (go! "[" ++ h ++ go! "]"))) by (by exists (go! "[" ++ h)).
    cbn [andb]. f_equal. rewrite !length_app. change (length (go! "[")) with 1%nat. change (length (go! "]")) with 1%nat.
    replace (1 + (length h + 1) - 2)%nat with (length h) by lia.
    change (drop 1 (go! "[" ++ h ++ go! "]")) with (h ++ go! "]"). apply take_app_length.
Qed.

Lemma isIPLiteral_form hs h : host_form hs h -> isIPLiteral h = true.
Proof.
  intros Hf. assert (Hs : ("["%byte ∉ h) /\ ("]"%byte ∉ h) /\ is_Some (ParseIP h)).
  { destruct Hf as [h ip Hk Hip | h Hv].
    - pose proof (v4_plain h ip Hk Hip) as Hpl. split_and!; [by eapply plain_no_bracket; [exact Hpl | left] | | by exists ip].
      eapply plain_no_bracket; [exact Hpl | right; left].
    - apply v6_text in Hv as [Hb Hip]. apply v6_host in Hb as (_ & ? & ?). done. }
  destruct Hs as (H1 & H2 & ip & Hip). unfold isIPLiteral, strip_brackets, trim_suffix, trim_prefix.
  destruct (has_affix_false h "]"%byte [] H2) as [_ E2]. destruct (has_affix_false h "["%byte [] H1) as [E1 _].
  rewrite (E2 : has_suffix (go! "]") h = false). rewrite (E1 : has_prefix (go! "[") h = false). by rewrite Hip.
Qed.

Lemma query_get_sni sni : plain sni ->
  query_get (go! "sni") (if bool_decide (sni = []) then [] else go! "sni=" ++ sni) = sni.
Proof.
  intros Hp. pose proof (plain_host _ Hp) as Ht. case_bool_decide as E; [by subst |].
  assert (Hno : forall c, c ∈ go! "&;" -> c ∉ (go! "sni=" ++ sni)).
  { intros c Hc Hin. apply elem_of_app in Hin as [Hin | Hin].
    - revert Hc Hin. by vm_compute; intros Hc Hin; set_solver.
    - eapply host_not_in; [exact Ht | | exact Hin]. revert Hc. clear. vm_compute. set_solver. }
  unfold query_get. rewrite (split_on_single "&") by (apply Hno; by left). cbn [len length omap list_omap].
  unfold query_pair. rewrite (bool_decide_false (go! "sni=" ++ sni = [])) by done.
  rewrite (bool_decide_false (";"%byte ∈ _)) by (apply Hno; right; left). cbn [orb].
  change (go! "sni=" ++ sni) with (go! "sni" ++ "="%byte :: sni). rewrite cut_at by (vm_compute; set_solver).
  rewrite (unescape_id _ (go! "sni")) by (by repeat constructor). cbn [mbind option_bind default from_option id].
  by rewrite (unescape_id _ sni).
Qed.

(** ** The share string and its parser *)

Section share.
Context `{UnicodeTables}.

Definition query_text (sni : bytes) : bytes := if bool_decide (sni = []) then [] else go! "?sni=" ++ sni.

Lemma buildShareString_text psk hs port sni : hs <> [] ->
  buildShareString psk hs (":"%byte :: port) sni =
  go! "mxtr://" ++ (base58Encode psk ++ "@"%byte :: hs ++ ":"%byte :: port) ++ query_text sni.
Proof.
  intros Hh. unfold buildShareString, query_text. rewrite (bool_decide_true (":"%byte = ":"%byte)) by done.
  rewrite (bool_decide_false (hs = [])) by done. case_bool_decide; rewrite <-?app_assoc; cbn; rewrite ?app_nil_r, <-?app_assoc; done.
Qed.

Definition plain_user_facts (c : byte) : bool := negb (plain_byte c) || userinfo_byte c.

Lemma plain_user s : plain s -> forallb userinfo_byte s = true.
Proof.
  intros Hs. apply forallb_forall. intros c Hc. apply list_elem_of_In in Hc. unfold plain in Hs.
  rewrite Forall_forall in Hs. specialize (Hs c Hc).
  assert (F : plain_user_facts c = true) by (revert c Hs Hc; intros c _ _; apply byte_all; vm_compute; reflexivity).
  unfold plain_user_facts in F. by rewrite Hs in F.
Qed.

Lemma auth_not_in user hp c : plain user -> host_text hp -> c ∈ go! "#?/" -> c ∉ (user ++ "@"%byte :: hp).
Proof.
  intros Hu Hh Hc. assert (Hc' : c ∈ go! "#?/@%+&;=") by (revert Hc; clear; vm_compute; set_solver).
  rewrite elem_of_app, elem_of_cons. intros [Hx | [-> | Hx]].
  - by eapply (host_not_in user); [apply plain_host | |].
  - revert Hc. clear. vm_compute. set_solver.
  - by eapply (host_not_in hp).
Qed.

(** What follows the authority ends it and holds nothing special. *)
Lemma query_text_cases sni : plain sni ->
  (query_text sni = [] /\ sni = [] \/ query_text sni = "?"%byte :: go! "sni=" ++ sni /\ sni <> []) /\
  Forall (fun c => c <> "#"%byte /\ ctl_byte c = false /\ ascii_space c = false /\ b2z c < 128) (query_text sni).
Proof.
  intros Hs. unfold query_text. case_bool_decide; [split; [by left | constructor] |]. split; [by right |].
  apply Forall_app. split; [by_decision |]. eapply Forall_impl; [exact Hs |]. intros c Hc.
  destruct (host_byte_ok c) as (? & ? & ? & _ & Hn); [by rewrite Hc |]. split_and!; try done. intros ->. apply Hn. by left.
Qed.

Lemma host_text_clean s : host_text s -> Forall (fun c => ctl_byte c = false /\ ascii_space c = false /\ b2z c < 128) s.
Proof. intros Hs. eapply Forall_impl; [exact Hs |]. intros c Hc. by destruct (host_byte_ok c Hc) as (? & ? & ? & _). Qed.

(** Every byte of a share string is visible ASCII. *)
Lemma share_clean user hp sni : plain user -> host_text hp -> plain sni ->
  Forall (fun c => ctl_byte c = false /\ ascii_space c = false /\ b2z c < 128) ((user ++ "@"%byte :: hp) ++ query_text sni).
Proof.
  intros Hu Hh Hs. repeat (apply Forall_app; split); [by apply host_text_clean, plain_host | | ].
  - constructor; [done | by apply host_text_clean].
  - eapply Forall_impl; [apply (query_text_cases sni Hs) |]. by intros c (_ & ? & ? & ?).
Qed.

Lemma url_Parse_share user hs h port sni :
  plain user -> host_form hs h -> Forall (fun c => is_digit c = true) port -> plain sni ->
  url_Parse ((user ++ "@"%byte :: hs ++ ":"%byte :: port) ++ query_text sni) =
    Some (Url (Some (Some user)) (hs ++ ":"%byte :: port) (if bool_decide (sni = []) then [] else go! "sni=" ++ sni)).
Proof.
  intros Hu Hf Hp Hs. set (hp := hs ++ ":"%byte :: port). assert (Hhp : host_text hp).
  { apply Forall_app. split; [by eapply host_form_text |]. constructor; [done |]. by apply plain_host, digits_plain. }
  set (auth := user ++ "@"%byte :: hp). pose proof (fun c => auth_not_in user hp c Hu Hhp) as Hin. fold auth in Hin.
  destruct (query_text_cases sni Hs) as [Hq Htail]. rewrite Forall_forall in Htail.
  unfold url_Parse. rewrite (cut_none "#").
  2: { intros Hx. apply elem_of_app in Hx as [Hx | Hx]; [by eapply Hin; [left |] | by apply Htail in Hx as [? _]]. }
  assert (Hctl : existsb ctl_byte (auth ++ query_text sni) = false).
  { destruct (existsb _ _) eqn:E; [| done]. apply existsb_exists in E as (c & Hc & Hx). apply list_elem_of_In in Hc.
    pose proof (share_clean user hp sni Hu Hhp Hs) as Hcl. rewrite Forall_forall in Hcl.
    apply Hcl in Hc as [Hc _]. congruence. }
  rewrite Hctl. cbn [default from_option id unescape mbind option_bind].
  assert (Hcut : cut "?" (auth ++ query_text sni) = (auth, if bool_decide (sni = []) then None else Some (go! "sni=" ++ sni))).
  { destruct Hq as [[-> ->] | [-> Hne]].
    - rewrite app_nil_r. by apply cut_none, Hin; right; left.
    - rewrite bool_decide_false by done. apply cut_at, Hin. right. left. }
  rewrite Hcut. rewrite (cut_none "/" auth) by (apply Hin; do 2 right; left).
  cbn [default from_option id unescape mbind option_bind]. unfold auth.
  rewrite last_index_byte_app by (eapply host_not_in; [exact Hhp | vm_compute; set_solver]).
  rewrite drop_S_app, take_app_length. unfold hp at 1. rewrite (parseHost_form hs h port) by done.
  cbn [mbind option_bind]. fold hp. rewrite plain_user by done. cbn [negb].
  rewrite cut_none by by apply plain_no_colon. rewrite unescape_id by by apply plain_host.
  cbn [mbind option_bind]. by case_bool_decide.
Qed.

Lemma share_parsed psk hs h port sni :
  len psk = 32 -> host_form hs h -> 0 < port <= 65535 -> (sni = [] \/ isValidHostname sni = true) ->
  parseShareString (buildShareString psk hs (":"%byte :: itoa port) sni) =
    Some (ShareData h port (hex_encode psk) sni).
Proof.
  intros Hpsk Hf Hport Hsni.
  assert (Hs : plain sni /\ ParseIP sni = None).
  { destruct Hsni as [-> | Hv]; [split; [constructor | done] |]. split; [by apply hostname_plain |].
    unfold isValidHostname in Hv. by repeat (case_match; try done). }
  destruct Hs as [Hs Hip]. destruct (itoa_spec port) as (_ & _ & Hd); [lia |].
  assert (Hne : hs <> []) by (destruct Hf as [h0 ip Hk _ | h0 _]; [by intros -> | done]).
  assert (Hpn : psk <> []) by (intros ->; done).
  rewrite buildShareString_text by done. unfold parseShareString.
  rewrite trim_clean.
  2: { apply Forall_app. split; [by_decision |].
    assert (Hh : host_text (hs ++ ":"%byte :: itoa port)).
    { apply Forall_app. split; [by eapply host_form_text |]. constructor; [done |]. by apply plain_host, digits_plain. }
    eapply Forall_impl; [by apply (share_clean (base58Encode psk) _ sni (b58_plain psk) Hh Hs) |]. by intros c (_ & ? & ?). }
  rewrite has_prefix_app. cbn [negb]. change 7%nat with (length (go! "mxtr://")). rewrite drop_app_length.
  rewrite (url_Parse_share _ hs h) by (done || apply b58_plain). cbn [mbind option_bind u_user u_host u_query].
  destruct (proj1 (base58_inverse psk (base58Encode psk)) (conj Hpn eq_refl)) as [Hb Hdec].
  rewrite bool_decide_false by done. rewrite Hdec. cbn [mbind option_bind].
  rewrite (proj2 (Z.eqb_eq _ _)) by done. cbn [negb].
  rewrite (split_url_host_form hs h) by done. rewrite (isIPLiteral_form hs) by done. cbn [negb].
  rewrite atoi_itoa by lia. cbn [mbind option_bind].
  rewrite (proj2 (Z.leb_gt _ _)), (proj2 (Z.ltb_ge _ _)) by lia. cbn [orb].
  rewrite query_get_sni by done. rewrite Hip. rewrite (bool_decide_false (is_Some None)) by (by intros [? ?]).
  by rewrite andb_false_r.
Qed.

(** What the server prints, the client reads: for a 32-byte PSK, an IPv4
    address or a bracketed IPv6 address, a port and an optional host name as
    SNI, [parseShareString] of [buildShareString] gives exactly the host, the
    port, the PSK and the SNI that went in. *)
Theorem share_string_roundtrip psk hs h port sni :
  len psk = 32 -> host_form hs h -> 0 < port <= 65535 -> (sni = [] \/ isValidHostname sni = true) ->
  parseShareString (buildShareString psk hs (":"%byte :: itoa port) sni) =
    Some (ShareData h port (hex_encode psk) sni).
Proof. apply share_parsed. Qed.

(** Whatever it is given, [parseShareString] lets through only an address
    literal, a port from 1 to 65535, a PSK of 32 bytes, and no address as SNI:
    the client never resolves a name to find its server. *)
Theorem parseShareString_wf s sd : parseShareString s = Some sd ->
  isIPLiteral (sd_host sd) = true /\ 1 <= sd_port sd <= 65535 /\
  (exists psk, hex_decode (sd_pskHex sd) = Some psk /\ len psk = 32) /\ ParseIP (sd_sni sd) = None.
Proof.
  unfold parseShareString. case_match; [done |]. intros Hp. apply bind_Some in Hp as (u & _ & Hp).
  destruct (u_user u) as [[user|]|]; [| done..]. case_bool_decide; [done |].
  apply bind_Some in Hp as (psk & _ & Hp). destruct (len psk =? 32) eqn:El; cbn [negb] in Hp; [| done].
  destruct (split_url_host (u_host u)) as [host portText]. destruct (isIPLiteral host) eqn:Eh; cbn [negb] in Hp; [| done].
  apply bind_Some in Hp as (port & _ & Hp). destruct (_ || _) eqn:Er in Hp; [done |]. bool_facts.
  destruct (negb _ && _) eqn:Es in Hp; [done |]. injection Hp as <-. cbn [sd_host sd_port sd_pskHex sd_sni]. split_and!; [done | lia | lia | |].
  - exists psk. split; [apply hex_decode_encode | done].
  - apply andb_false_iff in Es as [Es | Es]; bool_facts; [by rewrite Es |]. by apply eq_None_not_Some.
Qed.
End share.

(** ** From one start-up to the other *)

Section connect.
Context `{CryptoSuite, UnicodeTables, !CryptoLaws _}.

(** [C31] The share string of a running server leads its client there: whatever
    happened during start-up, when the server serves with a 32-byte PSK, a
    listen address of the form [":port"] and a host written as an IPv4 address
    or a bracketed IPv6 address, a client started with [-share] and the printed
    string takes the server's PSK, dials the server's address and port, and
    presents the server's SNI, whatever its other flags. *)
Theorem share_string_connects o e w sv w' h port server psk_flag file env_psk read :
  main o e w = (Ok sv, w') ->
  len (sv_psk sv) = 32 -> host_form (sv_host sv) h ->
  tcpAddr o = ":"%byte :: itoa port -> 0 < port <= 65535 ->
  exists s, sv_share sv = Some s /\
  client_config (ClOptions s server psk_flag file) env_psk read = Some (h, port, sv_psk sv, sv_sni sv) /\
  dial_plan h port (sv_sni sv) = Some (JoinHostPort h (itoa port), sv_sni sv).
Proof.
  intros Hrun Hpsk Hf Htcp Hport. pose proof (main_wf o e w) as Hwf. rewrite Hrun in Hwf. cbn in Hwf.
  destruct Hwf as [_ _ _ _ Hsni _ Hshare]. rewrite Hshare. unfold share_of. rewrite Htcp, bool_decide_false by done.
  eexists. split; [reflexivity |].
  assert (Hp : parseShareString (buildShareString (sv_psk sv) (sv_host sv) (":"%byte :: itoa port) (sv_sni sv)) =
    Some (ShareData h port (hex_encode (sv_psk sv)) (sv_sni sv))) by (by apply share_parsed; auto).
  assert (Hs : sv_sni sv <> []) by (by intros Hs; rewrite Hs in Hsni).
  split.
  - unfold client_config. cbn [cl_share]. rewrite bool_decide_false.
    2: { intros E. rewrite E in Hp. done. }
    cbn [negb]. rewrite Hp. cbn [mbind option_bind sd_host sd_port sd_pskHex sd_sni]. by rewrite hex_decode_encode.
  - unfold dial_plan. rewrite (isIPLiteral_form _ _ Hf). cbn [negb]. by rewrite bool_decide_false.
Qed.
End connect.

(** ** Examples *)

#[local] Existing Instance Toy.suite.
#[local] Existing Instance Toy.suite_laws.
#[local] Existing Instance ascii_tables.

Lemma share_string_roundtrip_witness :
  parseShareString (buildShareString (replicate 32 x07) (go! "[2001:db8::1]") (go! ":443") (go! "a.example")) =
    Some (ShareData (go! "2001:db8::1") 443 (hex_encode (replicate 32 x07)) (go! "a.example")).
Proof.
  apply (share_string_roundtrip (replicate 32 x07) (go! "[2001:db8::1]") (go! "2001:db8::1") 443 (go! "a.example")).
  - reflexivity.
  - apply (host_v6 (go! "2001:db8::1")). vm_compute. reflexivity.
  - lia.
  - right. vm_compute. reflexivity.
Defined.

Lemma share_string_connects_witness :
  exists sv w' s, main StartupExample.opts StartupExample.env StartupExample.disk0 = (Ok sv, w') /\
  sv_share sv = Some s /\
  client_config (ClOptions s [] [] []) [] (fun _ => None) = Some (go! "203.0.113.7", 9290, sv_psk sv, sv_sni sv) /\
  dial_plan (go! "203.0.113.7") 9290 (sv_sni sv) = Some (JoinHostPort (go! "203.0.113.7") (itoa 9290), sv_sni sv).
Proof.
  assert (Hok : match (main StartupExample.opts StartupExample.env StartupExample.disk0).1 with
    | Ok sv => len (sv_psk sv) = 32 /\ sv_host sv = go! "203.0.113.7" | _ => False end)
    by (vm_compute; split; reflexivity).
  destruct (main StartupExample.opts StartupExample.env StartupExample.disk0) as [[sv | e |] w'] eqn:E; [| destruct Hok..].
  cbn [fst] in Hok. destruct Hok as [Hlen Hhost].
  assert (Hform : host_form (sv_host sv) (go! "203.0.113.7")).
  { rewrite Hhost. eapply host_v4; vm_compute; reflexivity. }
  assert (HR : exists s, sv_share sv = Some s /\
    client_config (ClOptions s [] [] []) [] (fun _ => None) = Some (go! "203.0.113.7", 9290, sv_psk sv, sv_sni sv) /\
    dial_plan (go! "203.0.113.7") 9290 (sv_sni sv) = Some (JoinHostPort (go! "203.0.113.7") (itoa 9290), sv_sni sv)).
  { refine (share_string_connects StartupExample.opts StartupExample.env StartupExample.disk0 sv w' (go! "203.0.113.7") 9290
      [] [] [] [] (fun _ => None) E Hlen Hform _ _); [vm_compute; reflexivity | lia]. }
  destruct HR as (s & H1 & H2 & H3). exists sv, w', s. split; [reflexivity |]. split; [exact H1 |]. split; [exact H2 | exact H3].
Defined.

(** The unbalanced bracket the start-up check lets through reaches the client's
    dial, and a 16-byte PSK gives a string the client refuses. *)
Example unbalanced_bracket :
  isPublicIPLiteral (go! "203.0.113.7]") = true /\
  sd_host <$> parseShareString (buildShareString (replicate 32 x07) (go! "203.0.113.7]") (go! ":443") []) =
    Some (go! "203.0.113.7]").
Proof. vm_compute. split; reflexivity. Qed.

Example short_psk_share :
  decode_psk (hex_encode (replicate 16 x07)) = inr (replicate 16 x07) /\
  parseShareString (buildShareString (replicate 16 x07) (go! "203.0.113.7") (go! ":443") []) = None.
Proof. vm_compute. split; reflexivity. Qed.
