(* ===== verification/Probe.v ===== *)
(** * HTTP probes ([looksLikeHTTP], [drainHTTPRequest], [httpRequestPath] of
    cmd/mxtr-server/main.go)

    Recognising an HTTP request by its first four bytes, and reading the rest
    of it one byte at a time up to the blank line. *)

From S2P Require Import Prelude GoIO GoStrings.

Definition httpMethods : list bytes :=
  [go! "GET "; go! "POST"; go! "HEAD"; go! "PUT "; go! "DELE"; go! "OPTI";
   go! "CONN"; go! "PATC"; go! "TRAC"].

Definition looksLikeHTTP (buf : bytes) : bool :=
  if len buf <? 4 then false else existsb (fun m => has_prefix m buf) httpMethods.

Definition maxHTTPHeaderRead : Z := 8192.

Definition httpRequestPath `{UnicodeTables} (line : bytes) : bytes :=
  match fields line with
  | _ :: path :: _ => path
  | _ => []
  end.

(** The closure's state: the end-of-headers automaton and the first line. *)
Record drain := Drain { dr_s : Z; dr_line : bytes; dr_lineDone : bool }.

Definition drain_init : drain := Drain 0 [] false.

(** [step]: the new state, and whether the blank line has been seen. *)
Definition drain_step (b : byte) (d : drain) : drain * bool :=
  let '(line, ldone) :=
    if dr_lineDone d then (dr_line d, true)
    else if bool_decide (b = x0a) then (dr_line d, true)
    else if negb (bool_decide (b = x0d)) && (len (dr_line d) <? 256) then (dr_line d ++ [b], false)
    else (dr_line d, false) in
  let s := dr_s d in
  if bool_decide (b = x0d) then
    (Drain (if (s =? 0) || (s =? 2) then s + 1 else 1) line ldone, false)
  else if bool_decide (b = x0a) then
    if (s =? 1) || (s =? 3) then (Drain (s + 1) line ldone, s + 1 =? 4)
    else (Drain 0 line ldone, false)
  else (Drain 0 line ldone, false).

Fixpoint drain_prefix (p : bytes) (d : drain) : drain * bool :=
  match p with
  | [] => (d, false)
  | b :: p' =>
      match drain_step b d with
      | (d', true) => (d', true)
      | (d', false) => drain_prefix p' d'
      end
  end.

(** One byte per [conn.Read]; [n] is what is left of [maxHTTPHeaderRead]. *)
Fixpoint drain_read (n : nat) (d : drain) (r : reader) : drain * reader :=
  match n with
  | O => (d, r)
  | S n' =>
      match read 1 r with
      | (Ok (b :: _), r') =>
          match drain_step b d with
          | (d', true) => (d', r')
          | (d', false) => drain_read n' d' r'
          end
      | (_, r') => (d, r')
      end
  end.

Definition drainHTTPRequest `{UnicodeTables} (prefix : bytes) (r : reader) : bytes * reader :=
  match drain_prefix prefix drain_init with
  | (d, true) => (httpRequestPath (dr_line d), r)
  | (d, false) =>
      let '(d', r') := drain_read (Z.to_nat (maxHTTPHeaderRead - len prefix)) d r in
      (httpRequestPath (dr_line d'), r')
  end.

(** ** The automaton against its specification *)

Definition blank_line : bytes := [x0d; x0a; x0d; x0a].

(** The longest prefix of [blank_line] that ends what has been read (given
    backwards), up to three bytes. *)
Definition progress (rw : bytes) : Z :=
  match rw with
  | x0d :: x0a :: x0d :: _ => 3
  | x0a :: x0d :: _ => 2
  | x0d :: _ => 1
  | _ => 0
  end.

(** The first line of what has been read. *)
Fixpoint until_lf (w : bytes) : bytes :=
  match w with [] => [] | b :: w' => if bool_decide (b = x0a) then [] else b :: until_lf w' end.
Definition first_line (w : bytes) : bytes :=
  take 256 (filter (fun c => c <> x0d) (until_lf w)).

Definition drain_after (w : bytes) : drain :=
  Drain (progress (rev w)) (first_line w) (bool_decide (x0a ∈ w)).

(** [w] ends with the blank line. *)
Definition blank_ended (w : bytes) : bool := has_suffix blank_line w.

Lemma progress_range rw : 0 <= progress rw <= 3.
Proof.
  unfold progress. repeat match goal with |- context [match ?x with _ => _ end] => destruct x end; lia.
Qed.

Lemma progress_step b rw :
  progress (b :: rw) =
    if bool_decide (b = x0d) then (if (progress rw =? 0) || (progress rw =? 2) then progress rw + 1 else 1)
    else if bool_decide (b = x0a) then (if progress rw =? 1 then 2 else if progress rw =? 3 then 2 else 0)
    else 0.
Proof.
  destruct (decide (b = x0d)) as [-> | Hcr].
  { destruct rw as [|c1 [|c2 rw]]; [done | by destruct c1 |]. destruct c1; try done.
    - by destruct c2.
    - destruct c2; try done. by destruct rw as [|[]]. }
  rewrite (bool_decide_false (b = x0d)) by done.
  destruct (decide (b = x0a)) as [-> | Hlf].
  { destruct rw as [|c1 rw]; [done |]. destruct c1; try done; cbn.
    - by destruct rw as [|[]].
    - destruct rw as [|c2 rw]; [done |]. destruct c2; try done. by destruct rw as [|[]]. }
  rewrite bool_decide_false by done. by destruct b.
Qed.

Lemma blank_ended_step b w :
  blank_ended (w ++ [b]) = bool_decide (b = x0a) && (progress (rev w) =? 3).
Proof.
  apply Bool.eq_iff_eq_true. unfold blank_ended.
  rewrite has_suffix_spec, andb_true_iff, bool_decide_eq_true, Z.eqb_eq. split.
  - intros [k E]. change blank_line with ([x0d; x0a; x0d] ++ [x0a]) in E.
    rewrite app_assoc in E. apply app_inj_tail in E as [-> ->]. split; [done |].
    by rewrite rev_app_distr.
  - intros [-> Hp]. destruct (rev w) as [|c1 [|c2 [|c3 rw]]] eqn:Er; cbn in Hp; try done;
      try (destruct c1; try done); try (destruct c2; try done); try (destruct c3; try done).
    exists (rev rw). apply (f_equal (@rev byte)) in Er. rewrite rev_involutive in Er. rewrite Er.
    cbn. by rewrite <-!app_assoc.
Qed.

Lemma until_lf_none w : x0a ∉ w -> until_lf w = w.
Proof.
  induction w as [|b w IH]; intros Hw; [done |]. cbn.
  rewrite bool_decide_false by set_solver. by rewrite IH by set_solver.
Qed.

Lemma until_lf_app w u : until_lf (w ++ u) = if bool_decide (x0a ∈ w) then until_lf w else w ++ until_lf u.
Proof.
  induction w as [|b w IH]; [done |]. cbn. rewrite IH.
  destruct (decide (b = x0a)) as [-> | Hne].
  - rewrite !bool_decide_true; [done | by left | done].
  - rewrite (bool_decide_false (b = x0a)) by done.
    destruct (decide (x0a ∈ w)); [rewrite !bool_decide_true; [done | by right | done] |].
    by rewrite !bool_decide_false by (done || set_solver).
Qed.

Lemma first_line_step b w :
  first_line (w ++ [b]) =
    if bool_decide (x0a ∈ w) then first_line w
    else if bool_decide (b = x0a) then first_line w
    else if negb (bool_decide (b = x0d)) && (len (first_line w) <? 256) then first_line w ++ [b]
    else first_line w.
Proof.
  unfold first_line. rewrite until_lf_app. destruct (decide (x0a ∈ w)) as [Hw | Hw].
  { by rewrite bool_decide_true. }
  rewrite bool_decide_false, (until_lf_none w) by done. cbn [until_lf].
  destruct (decide (b = x0a)) as [-> | Hlf]; [by rewrite bool_decide_true, app_nil_r |].
  rewrite (bool_decide_false (b = x0a)) by done. rewrite filter_app. cbn [filter list_filter].
  destruct (decide (b = x0d)) as [-> | Hcr].
  - rewrite decide_False by naive_solver. by rewrite app_nil_r, bool_decide_true.
  - rewrite decide_True, bool_decide_false by done. cbn [negb andb].
    set (f := filter _ w). unfold len. rewrite length_take. destruct (Z.ltb_spec (Z.of_nat (256 `min` length f)) 256).
    + rewrite (take_ge f), take_ge by (rewrite ?length_app; cbn; lia). done.
    + rewrite take_app_le by lia. done.
Qed.

Lemma drain_step_spec b w :
  blank_ended w = false ->
  (drain_step b (drain_after w)).2 = blank_ended (w ++ [b]) /\
  dr_line (drain_step b (drain_after w)).1 = first_line (w ++ [b]) /\
  (blank_ended (w ++ [b]) = false -> (drain_step b (drain_after w)).1 = drain_after (w ++ [b])).
Proof.
  intros _. rewrite blank_ended_step. unfold drain_after at 1 2 3. unfold drain_step. cbn [dr_s dr_line dr_lineDone].
  assert (Hld : bool_decide (x0a ∈ w ++ [b]) = bool_decide (x0a ∈ w) || bool_decide (b = x0a)).
  { apply Bool.eq_iff_eq_true. rewrite orb_true_iff, !bool_decide_eq_true. set_solver. }
  unfold drain_after. rewrite rev_app_distr. cbn [rev app].
  rewrite progress_step, first_line_step, Hld. pose proof (progress_range (rev w)) as Hr.
  set (s := progress (rev w)) in *.
  destruct (bool_decide (x0a ∈ w)), (decide (b = x0d)) as [-> | Hcr]; cbn [orb].
  all: try (rewrite !(bool_decide_true (x0d = x0d)) by done; cbn; done).
  all: rewrite !(bool_decide_false (b = x0d)) by done;
    destruct (decide (b = x0a)) as [-> | Hlf];
    [ rewrite !(bool_decide_true (x0a = x0a)) by done; cbn [andb]
    | rewrite !(bool_decide_false (b = x0a)) by done; cbn [andb negb] ].
  all: try (destruct (s =? 1) eqn:E1; bool_facts; [rewrite E1; cbn; done |];
    destruct (s =? 3) eqn:E3; bool_facts; [rewrite E3; cbn; done |]; cbn; done).
  all: try (cbn; done).
  destruct (len (first_line w) <? 256); cbn; done.
Qed.

(** ** Draining a request *)

(** [w] ends with its first blank line. *)
Definition first_blank (w : bytes) : Prop :=
  blank_ended w = true /\ forall v, v `prefix_of` w -> v <> w -> blank_ended v = false.

(** No [Read] returns zero bytes without an error. *)
Definition rd_nonempty (r : reader) : Prop := Forall (fun s => s <> []) (rd_segs r).

Lemma read1_spec r : rd_nonempty r ->
  match rd_data r with
  | [] => read 1 r = (Err (rd_end r), r)
  | b :: d => exists r', read 1 r = (Ok [b], r') /\ rd_nonempty r' /\ rd_data r' = d /\ rd_end r' = rd_end r
  end.
Proof.
  destruct r as [segs e]. intros Hne. destruct segs as [|s segs]; [done |].
  apply Forall_cons in Hne as [Hs Hne]. rewrite rd_data_cons. destruct s as [|b s]; [done |].
  cbn [app]. unfold read. cbn [rd_segs rd_end]. destruct (len (b :: s) <=? 1) eqn:E; bool_facts.
  - assert (s = []) as -> by (destruct s; [done | zlen]). by exists (Reader segs e).
  - exists (Reader (s :: segs) e). split_and!; try done.
    constructor; [| done]. intros ->. zlen.
Qed.

Lemma read_nonempty n r : rd_nonempty r -> rd_nonempty (read n r).2.
Proof.
  destruct r as [segs e]. intros Hne. destruct segs as [|s segs]; [done |].
  apply Forall_cons in Hne as [Hs Hne]. unfold read. cbn [rd_segs rd_end].
  destruct (len s <=? n) eqn:E; bool_facts; [done |].
  constructor; [| done]. intros Ed. apply (f_equal length) in Ed. rewrite length_drop in Ed.
  unfold len in E. destruct s; [done |]. cbn in *. lia.
Qed.

Lemma read_loop_nonempty fuel want acc r :
  rd_nonempty r -> rd_nonempty (read_loop fuel want acc r).2.
Proof.
  revert acc r. induction fuel as [|fuel IH]; intros acc r Hne; cbn [read_loop]; gcase; try done.
  pose proof (read_nonempty (want - len acc) r Hne) as Hr.
  destruct (read _ _) as [[b|err|] r']; cbn in Hr; [by apply IH | done | done].
Qed.

Lemma readFull_nonempty n r : rd_nonempty r -> rd_nonempty (readFull n r).2.
Proof.
  intros Hne. unfold readFull. pose proof (read_loop_nonempty (S (length (rd_segs r))) n [] r Hne) as Hr.
  destruct (read_loop _ _ _ _) as [[got err] r']. cbn in Hr. gcase; [done |].
  destruct err as [[]|]; try done. by gcase.
Qed.

Lemma first_blank_app w b u :
  first_blank (w ++ b :: u) -> blank_ended w = false.
Proof.
  intros [_ H]. apply H; [by exists (b :: u) |]. intros E.
  apply (f_equal length) in E. rewrite length_app in E. cbn in E. lia.
Qed.

Lemma drain_prefix_spec p w u :
  u <> [] -> first_blank (w ++ p ++ u) ->
  drain_prefix p (drain_after w) = (drain_after (w ++ p), false).
Proof.
  revert w. induction p as [|b p IH]; intros w Hu Hf; cbn [drain_prefix]; [by rewrite app_nil_r |].
  pose proof (first_blank_app w b (p ++ u) Hf) as Hw.
  destruct (drain_step_spec b w Hw) as (H1 & _ & H3).
  replace (w ++ (b :: p) ++ u) with ((w ++ [b]) ++ p ++ u) in Hf by by rewrite <-app_assoc.
  assert (Hwb : blank_ended (w ++ [b]) = false).
  { destruct Hf as [_ Hf]. apply Hf; [by exists (p ++ u) |]. intros E.
    apply (f_equal length) in E. rewrite !length_app in E. destruct u; [done | cbn in E; lia]. }
  destruct (drain_step b (drain_after w)) as [d' fin]. cbn in H1, H3. rewrite Hwb in H1. subst fin.
  rewrite (H3 Hwb), (IH (w ++ [b]) Hu Hf). by rewrite <-app_assoc.
Qed.

Lemma drain_read_spec n w u rest r :
  rd_nonempty r -> rd_data r = u ++ rest -> u <> [] -> first_blank (w ++ u) -> (length u <= n)%nat ->
  exists r', (drain_read n (drain_after w) r).2 = r' /\ rd_data r' = rest /\
    dr_line (drain_read n (drain_after w) r).1 = first_line (w ++ u).
Proof.
  revert w u r. induction n as [|n IH]; intros w u r Hne Hd Hu Hf Hl; [destruct u; [done | cbn in Hl; lia] |].
  destruct u as [|b u]; [done |]. cbn in Hl. pose proof (read1_spec r Hne) as Hread. rewrite Hd in Hread.
  destruct Hread as (r1 & Hr1 & Hne1 & Hd1 & He1). cbn [drain_read]. rewrite Hr1.
  pose proof (first_blank_app w b u Hf) as Hw. destruct (drain_step_spec b w Hw) as (H1 & H2 & H3).
  destruct (drain_step b (drain_after w)) as [d' fin]. cbn in H1, H2, H3. subst fin.
  destruct u as [|b2 u].
  - rewrite (proj1 Hf). exists r1. split_and!; [done | done | done].
  - assert (Hf' : first_blank ((w ++ [b]) ++ b2 :: u)) by by rewrite <-app_assoc.
    rewrite (first_blank_app _ _ _ Hf'), (H3 (first_blank_app _ _ _ Hf')).
    replace (w ++ b :: b2 :: u) with ((w ++ [b]) ++ b2 :: u) by by rewrite <-app_assoc.
    apply (IH (w ++ [b]) (b2 :: u)); [done | done | done | done | lia].
Qed.

(** The first line of a request whose line has no CR or LF in it. *)
Lemma first_line_request line rest :
  x0d ∉ line -> x0a ∉ line -> len line <= 256 -> first_line (line ++ [x0d; x0a] ++ rest) = line.
Proof.
  intros Hcr Hlf Hl. unfold first_line. rewrite until_lf_app, bool_decide_false by done.
  cbn [app until_lf]. rewrite (bool_decide_false (x0d = x0a)), bool_decide_true by done.
  rewrite filter_app. replace (filter _ [x0d]) with (@nil byte) by reflexivity. rewrite app_nil_r.
  assert (E : filter (fun c => c <> x0d) line = line).
  { clear Hlf Hl. induction line as [|b line IH]; [done |].
    rewrite filter_cons_True by set_solver. by rewrite IH by set_solver. }
  rewrite E. apply take_ge. unfold len in Hl. lia.
Qed.

Section Drain.
Context `{UnicodeTables}.

Lemma drain_request prefix u rest r :
  rd_nonempty r -> rd_data r = u ++ rest -> u <> [] -> first_blank (prefix ++ u) ->
  len (prefix ++ u) <= maxHTTPHeaderRead ->
  (drainHTTPRequest prefix r).1 = httpRequestPath (first_line (prefix ++ u)) /\
  rd_data (drainHTTPRequest prefix r).2 = rest.
Proof.
  intros Hne Hd Hu Hf Hl. unfold drainHTTPRequest. change drain_init with (drain_after []).
  rewrite (drain_prefix_spec prefix [] u Hu Hf). cbn [app].
  destruct (drain_read_spec (Z.to_nat (maxHTTPHeaderRead - len prefix)) prefix u rest r Hne Hd Hu Hf)
    as (r' & H1 & H2 & H3); [unfold len in *; rewrite length_app in Hl; lia |].
  destruct (drain_read _ _ _) as [d' r1]. cbn in *. subst r1. by rewrite H3.
Qed.

(** Draining an HTTP request reads exactly through the blank line that
    ends its headers, however the connection cuts the bytes, leaves the body
    unread, and yields the target of the request's first line. *)
Theorem drainHTTPRequest_exact prefix u rest r :
  rd_nonempty r -> rd_data r = u ++ rest -> u <> [] -> first_blank (prefix ++ u) ->
  len (prefix ++ u) <= maxHTTPHeaderRead ->
  (drainHTTPRequest prefix r).1 = httpRequestPath (first_line (prefix ++ u)) /\
  rd_data (drainHTTPRequest prefix r).2 = rest.
Proof. apply drain_request. Qed.

(** ** Request lines *)

Definition word (w : bytes) : Prop := w <> [] /\ Forall (fun c => ascii_space c = false) w.

Lemma fields_go_word cur w s :
  Forall (fun c => ascii_space c = false) w -> fields_go cur (w ++ s) = fields_go (rev w ++ cur) s.
Proof.
  revert cur. induction w as [|c w IH]; intros cur Hw; [done |].
  apply Forall_cons in Hw as [Hc Hw]. cbn. rewrite Hc, IH by done. by rewrite <-app_assoc.
Qed.

Lemma fields_go_cut w s : word w -> fields_go [] (w ++ x20 :: s) = w :: fields_go [] s.
Proof.
  intros [Hne Hw]. rewrite fields_go_word by done. rewrite app_nil_r. cbn.
  rewrite bool_decide_false; [cbn; by rewrite rev_involutive |].
  intros E. apply Hne. apply (f_equal (@rev byte)) in E. by rewrite rev_involutive in E.
Qed.

Lemma fields_go_last w : word w -> fields_go [] w = [w].
Proof.
  intros [Hne Hw]. rewrite <-(app_nil_r w) at 1. rewrite fields_go_word by done. cbn.
  rewrite app_nil_r, bool_decide_false; [by rewrite rev_involutive |].
  intros E. apply Hne. apply (f_equal (@rev byte)) in E. by rewrite rev_involutive in E.
Qed.

Lemma request_path method path version :
  word method -> word path -> ascii_only (method ++ x20 :: path ++ x20 :: version) = true ->
  httpRequestPath (method ++ x20 :: path ++ x20 :: version) = path.
Proof.
  intros H1 H2 Ha. unfold httpRequestPath, fields. rewrite Ha.
  rewrite !fields_go_cut by done. cbn. done.
Qed.
End Drain.

(** The first four bytes decide. *)
Lemma looksLikeHTTP_prefix a b : len a = 4 -> looksLikeHTTP (a ++ b) = looksLikeHTTP a.
Proof.
  intros Ha. unfold looksLikeHTTP. rewrite len_app. pose proof (len_nonneg b).
  rewrite !(proj2 (Z.ltb_ge _ _)) by lia.
  assert (Hm : Forall (fun m => length m = 4%nat) httpMethods) by by repeat constructor.
  induction Hm as [|m ms Hlen _ IH]; [done |]. cbn. rewrite IH. f_equal. unfold has_prefix.
  rewrite Hlen, take_app_le; [done | unfold len in Ha; lia].
Qed.

Module ProbeWitness.
#[export] Existing Instance ascii_tables.
Definition request : bytes := go! "GET /robots.txt HTTP/1.1" ++ [x0d; x0a] ++ go! "Host: x" ++ blank_line.
End ProbeWitness.
Import ProbeWitness.

Definition first_blankb (w : bytes) : bool :=
  blank_ended w && forallb (fun i => negb (blank_ended (take i w))) (seq 0 (length w)).

Lemma first_blankb_ok w : first_blankb w = true -> first_blank w.
Proof.
  intros [H1 H2]%andb_true_iff. split; [done |]. intros v [k ->] Hne.
  rewrite forallb_forall in H2. specialize (H2 (length v)). rewrite take_app_length in H2.
  destruct (blank_ended v); [| done]. cbn in H2. symmetry. apply H2. apply in_seq.
  rewrite length_app. destruct k; [by rewrite app_nil_r in Hne | cbn; lia].
Qed.

Lemma drainHTTPRequest_exact_witness :
  (drainHTTPRequest (go! "GET ") (Reader [take 10 (drop 4 request); drop 14 request ++ [x01]] EOF)).1 =
    httpRequestPath (first_line request) /\
  rd_data (drainHTTPRequest (go! "GET ") (Reader [take 10 (drop 4 request); drop 14 request ++ [x01]] EOF)).2 = [x01].
Proof.
  apply (drainHTTPRequest_exact (go! "GET ") (drop 4 request)).
  - repeat constructor; done.
  - reflexivity.
  - done.
  - apply first_blankb_ok. vm_compute. reflexivity.
  - vm_compute. discriminate.
Defined.
