(* ===== verification/Handshake.v ===== *)
(** * The handshake ([computeMac], [deriveKey], [readClientHandshake],
    [writeServerHandshake] of cmd/mxtr-server/main.go, the head of [handleTCPv2]
    in session_v2.go, and the client's side in [dialSession])

    Both hellos are a 16-byte nonce, a padding length, the padding, and a
    truncated HMAC of all that under a label of the direction. *)

From S2P Require Import Prelude GoIO Crypto GoStrings Camouflage Probe.

Definition nonceLen : Z := 16.
Definition macLen : Z := 16.
Definition maxHandshakePad : Z := 255.
Definition maxTotalHandshake : Z := nonceLen + 1 + maxHandshakePad + macLen.

Section Handshake.
Context `{CryptoSuite} `{UnicodeTables} (psk : bytes).

Definition computeMac (input label : bytes) : bytes :=
  take (Z.to_nat macLen) (hmac_sha256 psk (input ++ label)).

(** [chacha20poly1305.KeySize] is 32. *)
Definition deriveKey (nonceC nonceS info : bytes) : bytes :=
  hkdf_sha256 psk (nonceC ++ nonceS) info 32.

Inductive hs_err := HsIO (e : ioerr) | HttpProbe | MacMismatch | HsRand.

(** An error carries [raw], the bytes consumed; the buffer of a short read is
    returned whole, zeros included. *)
Definition readClientHandshake : io reader (hs_err * bytes) bytes :=
  prefix ← map_err (fun e => (HsIO e.1, short_buf 4 e.2)) (readFull 4);
  _ ← lift (fail_if (looksLikeHTTP prefix) (HttpProbe, prefix));
  rest1 ← map_err (fun e => (HsIO e.1, prefix ++ short_buf (nonceLen + 1 - 4) e.2))
            (readFull (nonceLen + 1 - 4));
  let first := prefix ++ rest1 in
  padb ← lift (must (at_ nonceLen first));
  let padLen := b2z padb in
  rest ← map_err (fun e => (HsIO e.1, first ++ short_buf (padLen + macLen) e.2))
           (readFull (padLen + macLen));
  pad ← lift (must (slice 0 padLen rest));
  gotMac ← lift (must (slice padLen (len rest) rest));
  nonce ← lift (must (slice 0 nonceLen first));
  let wantMac := computeMac (nonce ++ [padb] ++ pad) (go! "c2s-hs") in
  _ ← lift (fail_if (negb (bool_decide (gotMac = wantMac))) (MacMismatch, first ++ rest));
  mret nonce.

(** A hello, for either direction. *)
Definition hello (label nonce pad : bytes) : bytes :=
  let macInput := nonce ++ [z2b (len pad)] ++ pad in
  nonce ++ [z2b (len pad)] ++ pad ++ computeMac macInput label.

(** The random source of [writeServerHandshake]: the nonce ([None]: the
    source fails), the padding length, the padding. *)
Record hello_oracle := HelloOracle {
  ho_nonce : option (nat -> byte);
  ho_padLen : Z;
  ho_pad : option (nat -> byte);
}.

Definition fill (f : nat -> byte) (n : Z) : bytes := f <$> seq 0 (Z.to_nat n).

Definition writeServerHandshake (o : hello_oracle) : io writer hs_err bytes := fun w =>
  match ho_nonce o with
  | None => (Err HsRand, w)
  | Some f =>
      let nonceS := fill f nonceLen in
      let padLen := ho_padLen o mod (maxHandshakePad + 1) in
      match ho_pad o with
      | None => (Err HsRand, w)
      | Some g =>
          let pad := fill g padLen in
          let macInput := nonceS ++ [z2b padLen] ++ pad in
          let mac := computeMac macInput (go! "s2c-hs") in
          match write (nonceS ++ [z2b padLen] ++ pad ++ mac) w with
          | (Ok _, w') => (Ok nonceS, w')
          | (Err e, w') => (Err (HsIO e), w')
          | (Panic, w') => (Panic, w')
          end
      end
  end.

(** ** The server's side of a connection, up to the session *)

Record conn := Conn { c_in : reader; c_out : writer }.

(** What the deployment and the run contribute: family, pinned status, the
    current date, the randomness, the outcome of the [SetDeadline] calls. *)
Record server_env := ServerEnv {
  se_family : camouflageFamily;
  se_status : Z;
  se_date : bytes;
  se_hello : hello_oracle;
  se_deadline1 : bool;
  se_deadline2 : bool;
}.

Inductive hs_outcome :=
  | Probed (path : bytes)
  | Garbage
  | Dropped
  | Crashed
  | Established (nonceC nonceS keyC2S keyS2C : bytes).

Definition handshake_conn (env : server_env) (c : conn) : hs_outcome * conn :=
  if negb (se_deadline1 env) then (Dropped, c) else
  match readClientHandshake (c_in c) with
  | (Err (_, raw), r) =>
      if looksLikeHTTP raw then
        let '(path, r') := drainHTTPRequest raw r in
        (Probed path,
         Conn r' (write (camouflageForPath (se_family env) (se_status env) path (se_date env)) (c_out c)).2)
      else (Garbage, Conn r (write (renderCamouflage (se_family env) 400 (se_date env)) (c_out c)).2)
  | (Panic, r) => (Crashed, Conn r (c_out c))
  | (Ok nonceC, r) =>
      match writeServerHandshake (se_hello env) (c_out c) with
      | (Ok nonceS, w) =>
          if se_deadline2 env then
            (Established nonceC nonceS (deriveKey nonceC nonceS (go! "c2s-key"))
               (deriveKey nonceC nonceS (go! "s2c-key")), Conn r w)
          else (Dropped, Conn r w)
      | (Err _, w) => (Dropped, Conn r w)
      | (Panic, w) => (Crashed, Conn r w)
      end
  end.

(** ** The client's side, after the outer TLS *)

(** The hello of [dialSession]: nonce and padding are what [rand.Read] left in
    the buffers. *)
Definition client_hello (nonceC pad : bytes) : bytes :=
  let macIn := nonceC ++ [z2b (len pad)] ++ pad in
  ((nonceC ++ [z2b (len pad)]) ++ pad) ++ computeMac macIn (go! "c2s-hs").

(** Reading the server's hello: the keys, client to server first. *)
Definition client_finish (nonceC : bytes) : io reader hs_err (bytes * bytes) :=
  first ← map_err (fun e => HsIO e.1) (readFull (nonceLen + 1));
  nonceS ← lift (must (slice 0 nonceLen first));
  padb ← lift (must (at_ nonceLen first));
  let srvPadLen := b2z padb in
  rest ← map_err (fun e => HsIO e.1) (readFull (srvPadLen + macLen));
  srvPad ← lift (must (slice 0 srvPadLen rest));
  srvMacGot ← lift (must (slice srvPadLen (len rest) rest));
  let srvMacIn := nonceS ++ [padb] ++ srvPad in
  let srvMacWant := computeMac srvMacIn (go! "s2c-hs") in
  _ ← lift (fail_if (negb (bool_decide (srvMacGot = srvMacWant))) MacMismatch);
  mret (deriveKey nonceC nonceS (go! "c2s-key"), deriveKey nonceC nonceS (go! "s2c-key")).

(** ** Reading a hello *)

Context `{!CryptoLaws _}.

Lemma len_computeMac input label : len (computeMac input label) = macLen.
Proof.
  unfold computeMac. rewrite len_take, hmac_len. done.
Qed.

Lemma len_hello label nonce pad : len nonce = nonceLen -> len (hello label nonce pad) = 33 + len pad.
Proof. intros Hn. unfold hello. rewrite !len_app, len_computeMac, Hn. cbn. unfold nonceLen, macLen, len. cbn. lia. Qed.

(** The reads, one by one, on a hello cut anywhere. *)
Lemma hello_parts label nonce pad more :
  len nonce = nonceLen -> len pad <= maxHandshakePad ->
  hello label nonce pad ++ more =
    (nonce ++ [z2b (len pad)]) ++ (pad ++ computeMac (nonce ++ [z2b (len pad)] ++ pad) label) ++ more /\
  b2z (z2b (len pad)) = len pad.
Proof.
  intros Hn Hp. split; [unfold hello; by rewrite <-!app_assoc |].
  rewrite b2z_z2b, Z.mod_small; [done |]. pose proof (len_nonneg pad). unfold maxHandshakePad in *. lia.
Qed.

Lemma slice_app_l {A} (a b : list A) n : len a = n -> slice 0 n (a ++ b) = Some a.
Proof.
  intros <-. pose proof (len_nonneg a). pose proof (len_nonneg b).
  rewrite slice_Some by zlen. rewrite drop_0. unfold len.
  by rewrite take_app_length' by lia.
Qed.
Lemma slice_app_r {A} (a b : list A) n : len a = n -> slice n (len (a ++ b)) (a ++ b) = Some b.
Proof.
  intros <-. pose proof (len_nonneg a). pose proof (len_nonneg b).
  rewrite slice_Some by zlen. unfold len. rewrite drop_app_length' by lia.
  rewrite take_ge; [done |]. rewrite length_app. lia.
Qed.
Lemma at_app {A} (a : list A) x b n : len a = n -> at_ n (a ++ x :: b) = Some x.
Proof.
  intros <-. unfold at_. pose proof (len_nonneg a). rewrite (proj2 (Z.leb_le _ _)) by lia.
  unfold len. by rewrite Nat2Z.id, list_lookup_middle.
Qed.

Lemma server_reads_hello nonce pad more r :
  rd_data r = hello (go! "c2s-hs") nonce pad ++ more ->
  len nonce = nonceLen -> len pad <= maxHandshakePad -> looksLikeHTTP nonce = false ->
  exists r', readClientHandshake r = (Ok nonce, r') /\ rd_data r' = more /\ rd_end r' = rd_end r.
Proof.
  intros Hd Hn Hp Hh. destruct (hello_parts (go! "c2s-hs") nonce pad more Hn Hp) as [Hparts Hb].
  rewrite Hparts in Hd. set (mac := computeMac _ _) in Hd.
  unfold readClientHandshake, mbind, io_bind, map_err, lift.
  assert (Hn4 : len (take 4 nonce) = 4) by (unfold nonceLen in *; zlen).
  destruct (readFull_ok 4 r (take 4 nonce) (drop 4 nonce ++ [z2b (len pad)] ++ (pad ++ mac) ++ more))
    as (r1 & -> & Hd1 & He1); [| done |].
  { rewrite Hd, <-!app_assoc, (app_assoc (take 4 nonce)), take_drop. done. }
  unfold fail_if. rewrite <-(looksLikeHTTP_prefix _ (drop 4 nonce)), take_drop, Hh by done.
  destruct (readFull_ok (nonceLen + 1 - 4) r1 (drop 4 nonce ++ [z2b (len pad)]) ((pad ++ mac) ++ more))
    as (r2 & -> & Hd2 & He2); [by rewrite Hd1, <-!app_assoc | unfold nonceLen in *; zlen |].
  assert (Ef : take 4 nonce ++ drop 4 nonce ++ [z2b (len pad)] = nonce ++ [z2b (len pad)])
    by by rewrite app_assoc, take_drop.
  rewrite Ef, (at_app nonce _ [] nonceLen Hn). cbn [must]. rewrite Hb.
  destruct (readFull_ok (len pad + macLen) r2 (pad ++ mac) more) as (r3 & -> & Hd3 & He3);
    [done | unfold mac; rewrite len_app, len_computeMac; done |].
  rewrite (slice_app_l pad mac) by done. cbn [must]. rewrite (slice_app_r pad mac) by done. cbn [must].
  rewrite (slice_app_l nonce) by done. cbn [must].
  rewrite bool_decide_true by done. cbn.
  exists r3. split_and!; [done | done | congruence].
Qed.

Lemma client_reads_hello nonceC nonce pad more r :
  rd_data r = hello (go! "s2c-hs") nonce pad ++ more ->
  len nonce = nonceLen -> len pad <= maxHandshakePad ->
  exists r', client_finish nonceC r =
      (Ok (deriveKey nonceC nonce (go! "c2s-key"), deriveKey nonceC nonce (go! "s2c-key")), r') /\
    rd_data r' = more /\ rd_end r' = rd_end r.
Proof.
  intros Hd Hn Hp. destruct (hello_parts (go! "s2c-hs") nonce pad more Hn Hp) as [Hparts Hb].
  rewrite Hparts in Hd. set (mac := computeMac _ _) in Hd.
  unfold client_finish, mbind, io_bind, map_err, lift.
  destruct (readFull_ok (nonceLen + 1) r (nonce ++ [z2b (len pad)]) ((pad ++ mac) ++ more))
    as (r2 & -> & Hd2 & He2); [by rewrite Hd | unfold nonceLen in *; zlen |].
  rewrite (slice_app_l nonce) by done. cbn [must]. rewrite (at_app nonce _ [] nonceLen Hn). cbn [must]. rewrite Hb.
  destruct (readFull_ok (len pad + macLen) r2 (pad ++ mac) more) as (r3 & -> & Hd3 & He3);
    [done | unfold mac; rewrite len_app, len_computeMac; done |].
  rewrite (slice_app_l pad mac) by done. cbn [must]. rewrite (slice_app_r pad mac) by done. cbn [must].
  unfold fail_if. rewrite bool_decide_true by done. cbn.
  exists r3. split_and!; [done | done | congruence].
Qed.

(** A method has no zero byte in it. *)
Lemma short_not_http d : len d < 4 -> looksLikeHTTP (short_buf 4 d) = false.
Proof.
  intros Hd. destruct (looksLikeHTTP _) eqn:E; [exfalso | done].
  assert (Hl : length (short_buf 4 d) = 4%nat).
  { unfold short_buf, zeros, len in *. rewrite length_app, length_replicate. lia. }
  assert (Hz : x00 ∈ short_buf 4 d).
  { unfold short_buf, zeros, len in *. apply elem_of_app. right.
    replace (Z.to_nat _) with (S (3 - length d)) by lia. left. }
  unfold looksLikeHTTP in E. hcase E; [done |]. apply existsb_exists in E as (m & Hm & Hp).
  assert (Hms : Forall (fun m => length m = 4%nat /\ x00 ∉ m) httpMethods).
  { repeat (apply Forall_cons; split); [split; [done | apply (bool_decide_unpack _); reflexivity] .. | done]. }
  rewrite Forall_forall in Hms. apply list_elem_of_In, Hms in Hm as [Hlm Hzm].
  apply has_prefix_spec in Hp as [k Ek].
  destruct k; [rewrite app_nil_r in Ek; congruence |].
  rewrite Ek, length_app in Hl. cbn in Hl. lia.
Qed.

Lemma split_hello (d : bytes) : 17 <= len d ->
  exists nonce padb rest, d = nonce ++ [padb] ++ rest /\ len nonce = nonceLen.
Proof.
  intros Hd. destruct (drop 16 d) as [|padb rest] eqn:E.
  - apply (f_equal len) in E. zlen.
  - exists (take 16 d), padb, rest. split; [by rewrite <-(take_drop 16 d) at 1; rewrite E |].
    unfold nonceLen. zlen.
Qed.

Lemma cut_pad (rest : bytes) k : 0 <= k -> k + macLen <= len rest ->
  exists pad mac more, rest = pad ++ mac ++ more /\ len pad = k /\ len mac = macLen.
Proof.
  intros Hk Hl. exists (take (Z.to_nat k) rest), (take 16 (drop (Z.to_nat k) rest)), (drop 16 (drop (Z.to_nat k) rest)).
  rewrite !take_drop. unfold macLen in *. split_and!; [done | zlen | zlen].
Qed.

(** Every outcome of reading a client hello: accepted, exactly when the
    connection starts with a well-formed hello whose nonce is no HTTP method;
    or refused, with a [raw] that looks like HTTP exactly when the first four
    bytes do. *)
Lemma readClientHandshake_cases r :
  (exists nonce pad r', readClientHandshake r = (Ok nonce, r') /\
     len nonce = nonceLen /\ len pad <= maxHandshakePad /\ looksLikeHTTP nonce = false /\
     rd_data r = hello (go! "c2s-hs") nonce pad ++ rd_data r') \/
  (exists e raw r', readClientHandshake r = (Err (e, raw), r') /\
     looksLikeHTTP raw = looksLikeHTTP (take 4 (rd_data r)) /\
     (looksLikeHTTP raw = true -> raw = take 4 (rd_data r) /\ rd_data r' = drop 4 (rd_data r) /\
        (rd_nonempty r -> rd_nonempty r'))).
Proof.
  set (d := rd_data r). unfold readClientHandshake, mbind, io_bind, map_err, lift.
  destruct (readFull_spec 4 r ltac:(lia)) as (r1 & He1 & Hd1 & E). pose proof (readFull_nonempty 4 r) as Hne.
  rewrite E in *. clear E. fold d in Hd1 |- *. cbn [snd] in Hne. change (Z.to_nat 4) with 4%nat in *.
  destruct (4 <=? len d) eqn:E4; bool_facts.
  2: { right. do 3 eexists. split; [reflexivity |]. cbn [snd]. rewrite short_not_http by lia.
       split; [| done]. unfold looksLikeHTTP. rewrite (proj2 (Z.ltb_lt _ _)) by zlen. done. }
  assert (Hl4 : len (take 4 d) = 4) by zlen.
  unfold fail_if. destruct (looksLikeHTTP (take 4 d)) eqn:Eh.
  { right. do 3 eexists. split; [reflexivity |]. rewrite Eh. done. }
  assert (Hraw : forall b, looksLikeHTTP (take 4 d ++ b) = false)
    by (intros b; by rewrite looksLikeHTTP_prefix).
  destruct (readFull_spec (nonceLen + 1 - 4) r1 ltac:(done)) as (r2 & He2 & Hd2 & E). rewrite E. clear E.
  rewrite Hd1. change (Z.to_nat (nonceLen + 1 - 4)) with 13%nat in *. change (nonceLen + 1 - 4) with 13.
  destruct (13 <=? len (drop 4 d)) eqn:E17; bool_facts.
  2: { right. do 3 eexists. split; [reflexivity |]. cbn [snd]. rewrite Hraw. done. }
  destruct (split_hello d) as (nonce & padb & rest & Ed & Hn); [zlen |].
  assert (Ef : take 4 d ++ take 13 (drop 4 d) = nonce ++ [padb]).
  { rewrite take_take_drop. change (4 + 13)%nat with 17%nat. rewrite Ed, app_assoc.
    unfold len, nonceLen in Hn. by rewrite take_app_length' by (rewrite length_app; cbn; lia). }
  assert (Er2 : rd_data r2 = rest).
  { rewrite Hd2, Hd1, drop_drop, Ed. change (4 + 13)%nat with 17%nat. rewrite app_assoc.
    unfold len, nonceLen in Hn. by rewrite drop_app_length' by (rewrite length_app; cbn; lia). }
  rewrite Ef, (at_app nonce padb [] nonceLen Hn). cbn [must].
  assert (Hh : forall b, looksLikeHTTP ((nonce ++ [padb]) ++ b) = false) by (intros b; by rewrite <-Ef, <-app_assoc).
  pose proof (b2z_range padb) as Hb.
  destruct (readFull_spec (b2z padb + macLen) r2) as (r3 & He3 & Hd3 & E); [unfold macLen; lia |].
  rewrite E, Er2. clear E.
  destruct (b2z padb + macLen <=? len rest) eqn:E3; bool_facts.
  2: { right. do 3 eexists. split; [reflexivity |]. rewrite Hh. done. }
  destruct (cut_pad rest (b2z padb) ltac:(lia) E3) as (pad & mac & more & Er & Hp & Hm).
  assert (Et : take (Z.to_nat (b2z padb + macLen)) rest = pad ++ mac).
  { rewrite Er, app_assoc. unfold len in *. rewrite take_app_length'; [done | rewrite length_app; lia]. }
  assert (Ed3 : rd_data r3 = more).
  { rewrite Hd3, Er2, Er, app_assoc. unfold len in *. rewrite drop_app_length'; [done | rewrite length_app; lia]. }
  rewrite Et, (slice_app_l pad mac), (slice_app_r pad mac), (slice_app_l nonce) by done. cbn [must].
  case_bool_decide as Em; cbn [negb].
  2: { right. do 3 eexists. split; [reflexivity |]. rewrite Hh. done. }
  left. exists nonce, pad, r3. split_and!; [done | done | unfold maxHandshakePad; lia | |].
  - assert (E4n : take 4 d = take 4 nonce).
    { rewrite Ed, take_app_le; [done | unfold len, nonceLen in Hn; lia]. }
    rewrite <-(take_drop 4 nonce), looksLikeHTTP_prefix by (by rewrite <-E4n). by rewrite <-E4n.
  - rewrite Ed3. fold d. rewrite Ed, Er, Em. unfold hello. rewrite Hp, z2b_b2z, <-!app_assoc. done.
Qed.

Lemma len_fill f n : 0 <= n -> len (fill f n) = n.
Proof. intros Hn. unfold fill. rewrite len_fmap. unfold len. rewrite length_seq. lia. Qed.

(** The server's hello on a connection that takes it. *)
Lemma writeServerHandshake_ok o f g w :
  ho_nonce o = Some f -> ho_pad o = Some g -> w_room w = None ->
  exists pad, len pad <= maxHandshakePad /\
    writeServerHandshake o w =
      (Ok (fill f nonceLen), Writer (w_out w ++ hello (go! "s2c-hs") (fill f nonceLen) pad) None).
Proof.
  intros Hf Hg Hw. set (n := ho_padLen o mod (maxHandshakePad + 1)).
  assert (Hn : 0 <= n <= maxHandshakePad).
  { pose proof (Z.mod_pos_bound (ho_padLen o) (maxHandshakePad + 1)). unfold maxHandshakePad in *. lia. }
  exists (fill g n). rewrite len_fill by lia. split; [lia |].
  unfold writeServerHandshake. rewrite Hf, Hg. fold n. unfold write. rewrite Hw. unfold hello.
  by rewrite len_fill by lia.
Qed.

(** ** Properties *)

(** The two ends agree: a client and a server with the same PSK, the
    client's nonce not starting with an HTTP method, complete the handshake
    whatever the padding lengths and however the network cuts the bytes; they
    hold the same two keys, one per direction, and neither has consumed a byte
    of what follows the hellos. *)
Theorem handshake_agreement env nonceC padC f g c more_c r_client more_s :
  len nonceC = nonceLen -> len padC <= maxHandshakePad -> looksLikeHTTP nonceC = false ->
  rd_data (c_in c) = client_hello nonceC padC ++ more_c -> w_room (c_out c) = None ->
  ho_nonce (se_hello env) = Some f -> ho_pad (se_hello env) = Some g ->
  se_deadline1 env = true -> se_deadline2 env = true ->
  exists nonceS keyC2S keyS2C server_hello c',
    handshake_conn env c = (Established nonceC nonceS keyC2S keyS2C, c') /\
    rd_data (c_in c') = more_c /\ w_out (c_out c') = w_out (c_out c) ++ server_hello /\
    (rd_data r_client = server_hello ++ more_s ->
     exists r', client_finish nonceC r_client = (Ok (keyC2S, keyS2C), r') /\ rd_data r' = more_s).
Proof.
  intros Hn Hp Hh Hd Hw Hf Hg H1 H2.
  assert (Ec : client_hello nonceC padC = hello (go! "c2s-hs") nonceC padC).
  { unfold client_hello, hello. by rewrite <-!app_assoc. }
  rewrite Ec in Hd. destruct (server_reads_hello nonceC padC more_c (c_in c) Hd Hn Hp Hh) as (r' & Hr & Hd' & _).
  destruct (writeServerHandshake_ok (se_hello env) f g (c_out c) Hf Hg Hw) as (pad & Hpad & Hws).
  unfold handshake_conn. rewrite H1, Hr, Hws, H2. cbn [negb].
  do 5 eexists. split; [reflexivity |]. split_and!; [done | reflexivity |].
  intros Hc. destruct (client_reads_hello nonceC (fill f nonceLen) pad more_s r_client Hc) as (r2 & -> & Hd2 & _);
    [by rewrite len_fill | done |]. by exists r2.
Qed.

(** [C33] The server admits exactly the holders of the PSK: it accepts a
    connection iff its bytes start with a hello - nonce, padding, truncated
    HMAC under its own PSK and the client's label - whose nonce does not look
    like an HTTP method; it then has consumed that hello and nothing more, at
    most 288 bytes. *)
Theorem server_accepts_iff r nonce :
  (exists r', readClientHandshake r = (Ok nonce, r')) <->
  (exists pad more, len nonce = nonceLen /\ len pad <= maxHandshakePad /\ looksLikeHTTP nonce = false /\
     rd_data r = client_hello nonce pad ++ more /\ rd_data (readClientHandshake r).2 = more /\
     len (client_hello nonce pad) <= maxTotalHandshake).
Proof.
  assert (Ec : forall pad, client_hello nonce pad = hello (go! "c2s-hs") nonce pad).
  { intros pad. unfold client_hello, hello. by rewrite <-!app_assoc. }
  split.
  - intros (r' & Hr).
    destruct (readClientHandshake_cases r) as [(n & pad & r1 & Hr1 & H1 & H2 & H3 & H4) | (e & raw & r1 & Hr1 & _)];
      [| congruence].
    rewrite Hr in Hr1. injection Hr1 as <- <-. exists pad, (rd_data r'). rewrite Hr, Ec, len_hello by done.
    split_and!; try done. unfold maxTotalHandshake, nonceLen, maxHandshakePad, macLen in *. lia.
  - intros (pad & more & H1 & H2 & H3 & H4 & _ & _). rewrite Ec in H4.
    destruct (server_reads_hello nonce pad more r H4 H1 H2 H3) as (r' & Hr & _). by exists r'.
Qed.

(** What a refused connection is answered. *)
Lemma refused_reply env c :
  (forall n, (readClientHandshake (c_in c)).1 <> Ok n) -> w_room (c_out c) = None -> se_deadline1 env = true ->
  (looksLikeHTTP (take 4 (rd_data (c_in c))) = false /\
   (handshake_conn env c).1 = Garbage /\
   w_out (c_out (handshake_conn env c).2) =
     w_out (c_out c) ++ renderCamouflage (se_family env) 400 (se_date env)) \/
  (looksLikeHTTP (take 4 (rd_data (c_in c))) = true /\
   exists r1 path, rd_data r1 = drop 4 (rd_data (c_in c)) /\ (rd_nonempty (c_in c) -> rd_nonempty r1) /\
   path = (drainHTTPRequest (take 4 (rd_data (c_in c))) r1).1 /\
   (handshake_conn env c).1 = Probed path /\
   c_in (handshake_conn env c).2 = (drainHTTPRequest (take 4 (rd_data (c_in c))) r1).2 /\
   w_out (c_out (handshake_conn env c).2) =
     w_out (c_out c) ++ camouflageForPath (se_family env) (se_status env) path (se_date env)).
Proof.
  intros Hno Hw H1. unfold handshake_conn. rewrite H1. cbn [negb].
  destruct (readClientHandshake_cases (c_in c)) as [(n & pad & r1 & Hr1 & _) | (e & raw & r1 & Hr1 & Hraw & Hhttp)].
  { destruct (Hno n). by rewrite Hr1. }
  rewrite Hr1. rewrite <-Hraw. destruct (looksLikeHTTP raw) eqn:E; [right | left].
  - split; [done |]. destruct (Hhttp eq_refl) as (-> & Hd & Hne).
    exists r1, (drainHTTPRequest (take 4 (rd_data (c_in c))) r1).1.
    destruct (drainHTTPRequest _ r1) as [path r2]. split_and!; try done. cbn. unfold write. by rewrite Hw.
  - split_and!; [done | done |]. cbn. unfold write. by rewrite Hw.
Qed.

(** [C18] A connection that is not admitted - wrong PSK, garbage, a short or
    timed-out hello, an HTTP probe - is always answered, with exactly one
    well-formed HTTP response of the deployment's family: status 400 unless
    the first four bytes are an HTTP method, else 200 or the pinned status.
    How the handshake failed does not show. *)
Theorem refused_is_camouflaged env c :
  (forall n, (readClientHandshake (c_in c)).1 <> Ok n) -> w_room (c_out c) = None -> se_deadline1 env = true ->
  se_family env ∈ camouflageFamilies -> se_status env ∈ cloak_statuses -> x0d ∉ se_date env ->
  exists reply status ctype body,
    w_out (c_out (handshake_conn env c).2) = w_out (c_out c) ++ reply /\
    http_parse reply = Some (HttpResponse status (reply_headers (se_family env) ctype body (se_date env)) body) /\
    (if looksLikeHTTP (take 4 (rd_data (c_in c)))
     then status = 200 \/ status = se_status env
     else status = 400 /\ ctype = contentType (se_family env)).
Proof.
  intros Hno Hw H1 Hf Hs Hd.
  destruct (refused_reply env c Hno Hw H1) as [(E & _ & Hout) | (E & r1 & path & _ & _ & _ & _ & _ & Hout)]; rewrite E.
  - destruct (render_parse (se_family env) 400 (se_date env) Hf ltac:(by left) Hd) as (body & _ & Hp).
    by exists (renderCamouflage (se_family env) 400 (se_date env)), 400, (contentType (se_family env)), body.
  - exists (camouflageForPath (se_family env) (se_status env) path (se_date env)).
    unfold camouflageForPath in *. case_bool_decide.
    + exists 200, (go! "text/plain; charset=utf-8"), robots_body.
      split_and!; [done | by apply robots_parse | by left].
    + destruct (render_parse (se_family env) (se_status env) (se_date env) Hf Hs Hd) as (body & _ & Hp).
      exists (se_status env), (contentType (se_family env)), body. split_and!; [done | done | by right].
Qed.

(** An HTTP request is answered for its own path: for any method the
    server recognises, target and headers up to 8 KiB, the reply is the one
    for exactly that target, and the headers are consumed to the blank line. *)
Theorem http_request_answered env c method path version headers rest :
  let request_line := method ++ x20 :: path ++ x20 :: version in
  let request := request_line ++ [x0d; x0a] ++ headers in
  rd_data (c_in c) = request ++ rest -> rd_nonempty (c_in c) ->
  looksLikeHTTP request = true -> word method -> word path ->
  ascii_only request_line = true -> x0d ∉ request_line -> x0a ∉ request_line -> len request_line <= 256 ->
  first_blank request -> len request <= maxHTTPHeaderRead ->
  w_room (c_out c) = None -> se_deadline1 env = true ->
  (handshake_conn env c).1 = Probed path /\
  w_out (c_out (handshake_conn env c).2) =
    w_out (c_out c) ++ camouflageForPath (se_family env) (se_status env) path (se_date env) /\
  rd_data (c_in (handshake_conn env c).2) = rest.
Proof.
  intros rl rq Hd Hne Hh Hm Hp Ha Hcr Hlf Hl Hfb Hlen Hw H1.
  assert (Hrl : 3 <= len rl).
  { destruct Hm as [Hm _], Hp as [Hp _]. unfold rl. destruct method; [done |]. destruct path; [done |].
    zlen. }
  assert (Hrq : 5 <= len rq) by (unfold rq; zlen).
  assert (Ht : take 4 (rd_data (c_in c)) = take 4 rq) by (rewrite Hd, take_app_le; [done | unfold len in *; lia]).
  assert (H4 : looksLikeHTTP (take 4 rq) = true).
  { rewrite <-(looksLikeHTTP_prefix _ (drop 4 rq)) by zlen. by rewrite take_drop. }
  assert (Hno : forall n, (readClientHandshake (c_in c)).1 <> Ok n).
  { intros n Hn.
    destruct (readClientHandshake_cases (c_in c)) as [(m & pad & r1 & Hr1 & K1 & K2 & K3 & K4) | (e & raw & r1 & Hr1 & _)];
      [| by rewrite Hr1 in Hn].
    rewrite <-(take_drop 4 m), looksLikeHTTP_prefix in K3 by (unfold nonceLen in K1; zlen).
    rewrite <-Ht, K4 in H4. unfold hello in H4. rewrite <-app_assoc, take_app_le in H4
      by (unfold len, nonceLen in K1; lia). congruence. }
  destruct (refused_reply env c Hno Hw H1) as [(E & _) | (_ & r1 & p & Hd1 & Hne1 & Ep & Eo & Ein & Hout)]; [congruence |].
  assert (Hd1' : rd_data r1 = drop 4 rq ++ rest).
  { rewrite Hd1, Hd. apply drop_app_le. unfold len in *. lia. }
  assert (Hdr : (drainHTTPRequest (take 4 rq) r1).1 = path /\ rd_data (drainHTTPRequest (take 4 rq) r1).2 = rest).
  { destruct (drain_request (take 4 rq) (drop 4 rq) rest r1) as [-> ->]; try by rewrite ?take_drop.
    - by apply Hne1.
    - intros E. apply (f_equal len) in E. zlen.
    - rewrite take_drop. split; [| done]. unfold rq. rewrite first_line_request by done.
      by apply request_path. }
  rewrite Ht in Ep. rewrite (proj1 Hdr) in Ep. subst p. split_and!; [done | done |].
  rewrite Ein, Ht. exact (proj2 Hdr).
Qed.
End Handshake.

(** ** Concrete connections *)

Module HsWitness.
#[export] Existing Instance ascii_tables.
#[export] Existing Instance Toy.suite.
#[export] Existing Instance Toy.suite_laws.
Definition psk : bytes := go! "0123456789abcdef".
Definition nonceC : bytes := go! "sixteen byte key".
Definition dep_env : server_env :=
  ServerEnv nginx 404 (go! "Thu, 01 Jan 2026 00:00:00 UTC")
    (HelloOracle (Some (fun i => z2b (Z.of_nat i))) 3 (Some (fun i => z2b (200 + Z.of_nat i)))) true true.
Definition hello_c : bytes := client_hello psk nonceC [x01; x02].
Definition conn_ok : conn := Conn (Reader [take 5 hello_c; drop 5 hello_c ++ [x09]] EOF) (Writer [] None).
Definition conn_bad : conn := Conn (Reader [go! "SSH-2.0-x"] EOF) (Writer [] None).
Definition conn_http : conn := Conn (Reader [take 10 ProbeWitness.request; drop 10 ProbeWitness.request ++ [x01]] EOF) (Writer [] None).
End HsWitness.
Import HsWitness.

(** The client reads what the server has written. *)
Definition hello_s : bytes := w_out (c_out (handshake_conn psk dep_env conn_ok).2).

Lemma handshake_agreement_witness :
  exists nonceS keyC2S keyS2C c' r',
    handshake_conn psk dep_env conn_ok = (Established nonceC nonceS keyC2S keyS2C, c') /\
    rd_data (c_in c') = [x09] /\
    client_finish psk nonceC (Reader [hello_s; [x07]] EOF) = (Ok (keyC2S, keyS2C), r') /\ rd_data r' = [x07].
Proof.
  destruct (handshake_agreement psk dep_env nonceC [x01; x02] (fun i => z2b (Z.of_nat i))
           (fun i => z2b (200 + Z.of_nat i)) conn_ok [x09] (Reader [hello_s; [x07]] EOF) [x07]
           eq_refl ltac:(vm_compute; discriminate) eq_refl ltac:(vm_compute; reflexivity)
           eq_refl eq_refl eq_refl eq_refl eq_refl)
    as (nonceS & k1 & k2 & sh & c' & E & Hd & Hw & Hc).
  destruct Hc as (r' & Hr & Hd').
  - unfold hello_s, rd_data. rewrite E. cbn [snd rd_segs concat]. rewrite Hw. reflexivity.
  - exists nonceS, k1, k2, c', r'. split_and!; [exact E | exact Hd | exact Hr | exact Hd'].
Defined.

Lemma server_accepts_iff_witness :
  (exists r', readClientHandshake psk (c_in conn_ok) = (Ok nonceC, r')) <->
  (exists pad more, len nonceC = nonceLen /\ len pad <= maxHandshakePad /\ looksLikeHTTP nonceC = false /\
     rd_data (c_in conn_ok) = client_hello psk nonceC pad ++ more /\
     rd_data (readClientHandshake psk (c_in conn_ok)).2 = more /\
     len (client_hello psk nonceC pad) <= maxTotalHandshake).
Proof. apply (server_accepts_iff psk (c_in conn_ok) nonceC). Defined.

Lemma refused_is_camouflaged_witness :
  exists reply status ctype body,
    w_out (c_out (handshake_conn psk dep_env conn_bad).2) = [] ++ reply /\
    http_parse reply = Some (HttpResponse status (reply_headers nginx ctype body (se_date dep_env)) body) /\
    (if looksLikeHTTP (take 4 (rd_data (c_in conn_bad)))
     then status = 200 \/ status = 404
     else status = 400 /\ ctype = contentType nginx).
Proof.
  apply (refused_is_camouflaged psk dep_env conn_bad).
  - intros n. vm_compute. discriminate.
  - reflexivity.
  - reflexivity.
  - left.
  - do 2 right. left.
  - apply (bool_decide_unpack _). reflexivity.
Defined.

Lemma http_request_answered_witness :
  (handshake_conn psk dep_env conn_http).1 = Probed (go! "/robots.txt") /\
  w_out (c_out (handshake_conn psk dep_env conn_http).2) =
    [] ++ camouflageForPath nginx 404 (go! "/robots.txt") (se_date dep_env) /\
  rd_data (c_in (handshake_conn psk dep_env conn_http).2) = [x01].
Proof.
  apply (http_request_answered psk dep_env conn_http (go! "GET") (go! "/robots.txt") (go! "HTTP/1.1")
           (go! "Host: x" ++ blank_line) [x01]).
  - reflexivity.
  - repeat constructor; done.
  - reflexivity.
  - split; [done | repeat constructor].
  - split; [done | repeat constructor].
  - reflexivity.
  - apply (bool_decide_unpack _). reflexivity.
  - apply (bool_decide_unpack _). reflexivity.
  - vm_compute. discriminate.
  - apply first_blankb_ok. vm_compute. reflexivity.
  - vm_compute. discriminate.
  - reflexivity.
  - reflexivity.
Defined.
