(* ===== verification/Deadlines.v ===== *)
(** * How long a connection is held before it is admitted ([dispatchTLSConn],
    [drainHTTPRequest] of cmd/mxtr-server/main.go, the head of [handleTCPv2] of
    session_v2.go)

    The handshake of [Handshake.v] with a clock, in nanoseconds. A peer is the
    bytes it sends with their times of arrival; what is read under a deadline
    is what arrives before it. Computing takes no time, and neither does the
    close_notify of [tls.Conn.Close]. *)

From S2P Require Import Prelude GoIO Crypto GoStrings Camouflage PskConfig Session Listener Probe Handshake.

Definition second : Z := 10 ^ 9.
Definition millisecond : Z := 10 ^ 6.

Definition jitterMinMS : Z := 1.
Definition jitterMaxMS : Z := 15.
(** Of [drainHTTPRequest] and of the two replies. *)
Definition replyTimeout : Z := 5 * second.

(** ** A peer in time *)

Record peer_stream := PeerStream { ps_bytes : list (Z * byte); ps_eof : option Z }.

(** The bytes that arrive before [d]; none overtakes another. *)
Fixpoint in_time (d : Z) (l : list (Z * byte)) : bytes :=
  match l with
  | (t, b) :: l' => if t <? d then b :: in_time d l' else []
  | [] => []
  end.

Definition eof_in_time (d : Z) (s : peer_stream) : option Z :=
  if bool_decide (length (in_time d (ps_bytes s)) = length (ps_bytes s))
  then t ← ps_eof s; if t <? d then Some t else None
  else None.

(** What reads under the deadline [d] find. *)
Definition reader_until (d : Z) (s : peer_stream) : reader :=
  let b := in_time d (ps_bytes s) in
  Reader (if bool_decide (b = []) then [] else [b]) (match eof_in_time d s with Some _ => EOF | None => Timeout end).

(** The number of bytes taken from it, [r'] being left. *)
Definition taken (d : Z) (s : peer_stream) (r' : reader) : nat :=
  length (in_time d (ps_bytes s)) - length (rd_data r').

Definition advance (k : nat) (s : peer_stream) : peer_stream := PeerStream (drop k (ps_bytes s)) (ps_eof s).

(** The time after [k] bytes, and after the error that follows them. *)
Definition arrival (now : Z) (k : nat) (s : peer_stream) : Z := foldl (fun t a => Z.max t a.1) now (take k (ps_bytes s)).
Definition read_until (now d : Z) (k : nat) (failed : bool) (s : peer_stream) : Z :=
  let t := arrival now k s in
  if failed then Z.max t (default d (eof_in_time d s)) else t.

(** A call that takes [cost] ([None]: for ever) under the deadline [d]. *)
Definition blocks (cost : option Z) (now d : Z) : bool * Z :=
  match cost with
  | Some c => if now + Z.max 0 c <? d then (true, now + Z.max 0 c) else (false, Z.max now d)
  | None => (false, Z.max now d)
  end.

(** ** The handler and the dispatcher with a clock *)

Record costs := Costs { co_tls : option Z; co_jitter : Z; co_write : option Z }.

Definition is_io (e : hs_err) : bool := match e with HsIO _ => true | _ => false end.

(** Whether the loop of [drainHTTPRequest] ends without an error. *)
Definition drained (raw read : bytes) : bool :=
  (drain_prefix (raw ++ read) drain_init).2 || (maxHTTPHeaderRead <=? len raw + len read).

Definition jitter (raw : Z) : Z := (jitterMinMS + raw mod (jitterMaxMS - jitterMinMS + 1)) * millisecond.

(** The outcome, the time, and the deadline left on the connection. *)
Definition held := (hs_outcome * Z * option Z)%type.

Section Timed.
Context `{CryptoSuite} `{UnicodeTables} (psk : bytes).

Definition probe_timed (env : server_env) (co : costs) (raw : bytes) (s : peer_stream) (now : Z) : held :=
  let d := now + replyTimeout in
  let '(path, r') := drainHTTPRequest raw (reader_until d s) in
  let k := taken d s r' in
  let t := read_until now d k (negb (drained raw (take k (in_time d (ps_bytes s))))) s in
  let d' := t + replyTimeout in
  (Probed path, (blocks (co_write co) t d').2, Some d').

Definition handle_timed (env : server_env) (co : costs) (s : peer_stream) (now : Z) : held :=
  if negb (se_deadline1 env) then (Dropped, now, None) else
  let d := now + handshakeTimeout in
  match readClientHandshake psk (reader_until d s) with
  | (Err (e, raw), r') =>
      let k := taken d s r' in
      let t := read_until now d k (is_io e) s in
      if looksLikeHTTP raw then probe_timed env co raw (advance k s) t
      else (Garbage, (blocks (co_write co) t (t + replyTimeout)).2, Some (t + replyTimeout))
  | (Panic, _) => (Crashed, now, Some d)
  | (Ok nonceC, r') =>
      let t := read_until now d (taken d s r') false s + jitter (co_jitter co) in
      match writeServerHandshake psk (se_hello env) (Writer [] None), blocks (co_write co) t d with
      | (Ok nonceS, _), (true, t') =>
          if se_deadline2 env then
            (Established nonceC nonceS (deriveKey psk nonceC nonceS (go! "c2s-key"))
               (deriveKey psk nonceC nonceS (go! "s2c-key")), t', None)
          else (Dropped, t', Some d)
      | (Ok _, _), (false, t') => (Dropped, t', Some d)
      | _, _ => (Dropped, t, Some d)
      end
  end.

Definition dispatch_timed (env : server_env) (co : costs) (s : peer_stream) (now : Z) : held :=
  let d := now + handshakeTimeout in
  match blocks (co_tls co) now d with
  | (true, t) => handle_timed env co s t
  | (false, t) => (Dropped, t, Some d)
  end.
End Timed.

(** ** The clock *)

Lemma arrival_ge now k s : now <= arrival now k s.
Proof.
  unfold arrival. generalize (take k (ps_bytes s)). intros l. revert now.
  induction l as [|a l IH]; intros now; cbn; [lia |]. etrans; [| apply IH]. lia.
Qed.

Lemma arrival_lt now d k s : now < d -> (k <= length (in_time d (ps_bytes s)))%nat -> arrival now k s < d.
Proof.
  unfold arrival. generalize (ps_bytes s). intros l. revert now k.
  induction l as [|[t b] l IH]; intros now k Hn Hk; cbn in *; [by rewrite take_nil |].
  destruct k as [|k]; [done |]. cbn. destruct (Z.ltb_spec t d); cbn in Hk; [| lia]. apply IH; [lia | lia].
Qed.

Lemma read_until_bounds now d k failed s : now < d -> (k <= length (in_time d (ps_bytes s)))%nat ->
  now <= read_until now d k failed s <= d /\ (failed = false -> read_until now d k failed s < d).
Proof.
  intros Hn Hk. pose proof (arrival_ge now k s). pose proof (arrival_lt now d k s Hn Hk). unfold read_until.
  destruct failed; [| lia]. split; [| done]. split; [lia |]. apply Z.max_lub; [lia |].
  unfold eof_in_time. case_bool_decide; cbn; [| lia]. destruct (ps_eof s) as [t|]; cbn; [| lia].
  destruct (Z.ltb_spec t d); cbn; lia.
Qed.

Lemma taken_le d s r' : (taken d s r' <= length (in_time d (ps_bytes s)))%nat.
Proof. unfold taken. lia. Qed.

Lemma blocks_bounds cost now d :
  now <= (blocks cost now d).2 <= Z.max now d /\ ((blocks cost now d).1 = true -> (blocks cost now d).2 < d).
Proof. unfold blocks. destruct cost as [c|]; [destruct (Z.ltb_spec (now + Z.max 0 c) d) |]; cbn; split; (done || lia). Qed.

Lemma jitter_bounds raw : 0 <= jitter raw <= jitterMaxMS * millisecond.
Proof.
  unfold jitter. pose proof (Z.mod_pos_bound raw (jitterMaxMS - jitterMinMS + 1) ltac:(done)).
  unfold jitterMinMS, jitterMaxMS, millisecond in *. lia.
Qed.

Lemma in_time_mono d d' l : d <= d' -> in_time d l `prefix_of` in_time d' l.
Proof.
  intros Hd. induction l as [|[t b] l IH]; cbn; [done |]. destruct (Z.ltb_spec t d); [| apply prefix_nil].
  rewrite (proj2 (Z.ltb_lt t d')) by lia. by apply prefix_cons.
Qed.

Lemma reader_until_data d s : rd_data (reader_until d s) = in_time d (ps_bytes s).
Proof. unfold reader_until, rd_data. case_bool_decide as E; cbn; [done | by rewrite app_nil_r]. Qed.

Section Held.
Context `{CryptoSuite} `{UnicodeTables} `{!CryptoLaws _} (psk : bytes).

Definition established (o : hs_outcome) : bool := match o with Established _ _ _ _ => true | _ => false end.

(** The client's hello, before the deadline. *)
Definition greeted (d : Z) (s : peer_stream) (o : hs_outcome) : Prop :=
  match o with
  | Established nonceC _ _ _ => exists pad, len pad <= maxHandshakePad /\ client_hello psk nonceC pad `prefix_of` in_time d (ps_bytes s)
  | _ => True
  end.

Lemma client_hello_hello nonce pad : client_hello psk nonce pad = hello psk (go! "c2s-hs") nonce pad.
Proof. unfold client_hello, hello. by rewrite <-!app_assoc. Qed.

Lemma probe_held env co raw s now : let '(o, t, d) := probe_timed env co raw s now in
  now <= t <= now + 2 * replyTimeout /\ o <> Crashed /\ established o = false.
Proof.
  unfold probe_timed. set (d := now + replyTimeout). destruct (drainHTTPRequest _ _) as [path r'].
  set (fl := negb _). pose proof (read_until_bounds now d (taken d s r') fl s) as Ht.
  set (t := read_until _ _ _ _ _) in *. pose proof (blocks_bounds (co_write co) t (t + replyTimeout)) as Hb.
  unfold d, replyTimeout, second in *. specialize (Ht ltac:(lia) (taken_le _ _ _)). split; [lia | done].
Qed.

Lemma handle_held env co s now : let '(o, t, d) := handle_timed psk env co s now in
  now <= t <= now + 20 * second /\ o <> Crashed /\
  (established o = true -> t < now + handshakeTimeout /\ d = None) /\ greeted (now + handshakeTimeout) s o.
Proof.
  unfold handle_timed. destruct (se_deadline1 env); cbn [negb]; [| unfold second; split_and!; (done || lia)].
  set (d := now + handshakeTimeout). assert (Hd : now < d) by (unfold d, handshakeTimeout; lia).
  pose proof (fun r' fl => read_until_bounds now d (taken d s r') fl s Hd (taken_le _ _ _)) as Ht.
  destruct (readClientHandshake_cases psk (reader_until d s)) as [(n & pad & r' & -> & _ & Hp & _ & Hr) | (e & raw & r' & -> & _)].
  - specialize (Ht r' false). set (t1 := read_until _ _ _ _ _) in *. pose proof (jitter_bounds (co_jitter co)) as Hj.
    set (t := t1 + jitter _). pose proof (blocks_bounds (co_write co) t d) as Hb.
    assert (Hg : greeted d s (Established n [] [] [])).
    { exists pad. split; [done |]. rewrite client_hello_hello, reader_until_data in *. by eexists. }
    unfold d, handshakeTimeout, jitterMaxMS, millisecond, second in *.
    destruct (writeServerHandshake _ _ _) as [[nS | ? |] ?]; destruct (blocks _ _ _) as [[] t']; cbn [fst snd] in Hb.
    1: destruct (se_deadline2 env).
    all: split_and!; try lia; try done. intros _. split; [lia | done].
  - specialize (Ht r' (is_io e)). set (t := read_until _ _ _ _ _) in *. destruct (looksLikeHTTP raw).
    + pose proof (probe_held env co raw (advance (taken d s r') s) t) as Hpr. destruct (probe_timed _ _ _ _ _) as [[o t'] d'].
      destruct Hpr as (Hp1 & Hp2 & Hp3). unfold d, handshakeTimeout, replyTimeout, second in *.
      split_and!; [lia | lia | done | congruence | by destruct o].
    + pose proof (blocks_bounds (co_write co) t (t + replyTimeout)) as Hb.
      unfold d, handshakeTimeout, replyTimeout, second in *. split_and!; (done || lia).
Qed.

(** [C19] No peer holds a connection for long without the PSK: whatever it
    sends, however slowly, and whether or not it reads, the connection is done
    with within 30 seconds of being accepted (the TLS handshake, the hello, an
    HTTP request and the reply each under a deadline of their own), without a
    panic, or has become a session within 20 seconds, with no deadline left
    and after a hello under the PSK that had arrived in that time. *)
Theorem held_briefly env co s t0 :
  let '(o, t, d) := dispatch_timed psk env co s t0 in
  t0 <= t <= t0 + 30 * second /\ o <> Crashed /\
  (established o = true -> t < t0 + 20 * second /\ d = None) /\ greeted (t0 + 20 * second) s o.
Proof.
  unfold dispatch_timed. pose proof (blocks_bounds (co_tls co) t0 (t0 + handshakeTimeout)) as Hb.
  destruct (blocks _ _ _) as [[] t1]; cbn [fst snd] in Hb; unfold handshakeTimeout in *.
  - pose proof (handle_held env co s t1) as Hh. destruct (handle_timed _ _ _ _ _) as [[o t] d].
    destruct Hh as (H1 & H2 & H3 & H4). unfold handshakeTimeout, second in *. split_and!; try lia; [done | |].
    + intros He. destruct (H3 He). split; [lia | done].
    + destruct o as [| | | |nC nS k1 k2]; try done. destruct H4 as (pad & Hp & Hpre). exists pad. split; [done |].
      etrans; [exact Hpre |]. apply in_time_mono. lia.
  - unfold second in *. split_and!; (done || lia).
Qed.

Lemma prefix_length_le (a b : bytes) : a `prefix_of` b -> (length a <= length b)%nat.
Proof. intros [k ->]. rewrite length_app. lia. Qed.

(** [C20] A client that is prompt enough is admitted: when its TLS handshake
    ends within ten seconds and its hello has arrived ten seconds after that,
    less the longest jitter and what the write of the server's hello takes,
    the session is established. *)
Theorem prompt_client_admitted env co s t0 c w f g nonceC padC :
  co_tls co = Some c -> 0 <= c < handshakeTimeout -> co_write co = Some w ->
  0 <= w < handshakeTimeout - jitterMaxMS * millisecond ->
  len nonceC = nonceLen -> len padC <= maxHandshakePad -> looksLikeHTTP nonceC = false ->
  client_hello psk nonceC padC `prefix_of`
    in_time (t0 + c + handshakeTimeout - jitterMaxMS * millisecond - w) (ps_bytes s) ->
  ho_nonce (se_hello env) = Some f -> ho_pad (se_hello env) = Some g ->
  se_deadline1 env = true -> se_deadline2 env = true ->
  exists nonceS keyC2S keyS2C t, dispatch_timed psk env co s t0 = (Established nonceC nonceS keyC2S keyS2C, t, None).
Proof.
  intros Ec Hc Ew Hw Hn Hp Hh Hpre Hf Hg H1 H2. unfold dispatch_timed. rewrite Ec. unfold blocks at 1.
  rewrite Z.max_r, (proj2 (Z.ltb_lt _ _)) by lia. unfold handle_timed. rewrite H1. cbn [negb].
  set (now := t0 + c) in *. set (d := now + handshakeTimeout). set (d1 := now + handshakeTimeout - _ - w) in *.
  assert (Hd1 : d1 <= d) by (unfold d, d1, jitterMaxMS, millisecond; lia).
  destruct (in_time_mono d1 d (ps_bytes s) Hd1) as [more Hmore]. pose proof (prefix_length_le _ _ Hpre) as Hlen.
  destruct Hpre as [rest Hrest]. rewrite Hrest, client_hello_hello, <-app_assoc in Hmore.
  destruct (server_reads_hello psk nonceC padC (rest ++ more) (reader_until d s)) as (r' & -> & Hr' & _);
    [by rewrite reader_until_data | done.. |].
  assert (Ht : taken d s r' = length (client_hello psk nonceC padC)).
  { unfold taken. rewrite Hmore, Hr', client_hello_hello, length_app. lia. }
  rewrite Ht. unfold read_until. pose proof (arrival_lt now d1 (length (client_hello psk nonceC padC)) s) as Ha.
  pose proof (jitter_bounds (co_jitter co)). set (t := arrival _ _ _) in *.
  destruct (writeServerHandshake_ok psk (se_hello env) f g (Writer [] None) Hf Hg eq_refl) as (pad & _ & ->).
  rewrite Ew. unfold blocks. rewrite Z.max_r, (proj2 (Z.ltb_lt _ _)), H2 by (unfold d, d1 in *; lia). by do 4 eexists.
Qed.
End Held.

(** ** Witnesses *)

Import HsWitness.

(** A peer that is as slow as it may be at every stage, and one that sends its
    hello a byte every millisecond. *)
Module HeldWitness.
Definition slow : peer_stream := PeerStream ((fun b => (20 * second - 2, b)) <$> go! "GET ") None.
Definition slow_costs : costs := Costs (Some (10 * second - 1)) 0 None.
Definition prompt : peer_stream :=
  PeerStream (imap (fun i b => (second + Z.of_nat i * millisecond, b)) hello_c) None.
Definition prompt_costs : costs := Costs (Some second) 7 (Some millisecond).
End HeldWitness.

Lemma held_briefly_witness :
  (let '(o, t, d) := dispatch_timed psk dep_env HeldWitness.slow_costs HeldWitness.slow 0 in
   0 <= t <= 30 * second /\ o <> Crashed) /\
  (dispatch_timed psk dep_env HeldWitness.slow_costs HeldWitness.slow 0).1 = (Probed [], 30 * second - 2).
Proof.
  split.
  - pose proof (held_briefly psk dep_env HeldWitness.slow_costs HeldWitness.slow 0) as Hh.
    destruct (dispatch_timed psk dep_env HeldWitness.slow_costs HeldWitness.slow 0) as [[o t] d].
    destruct Hh as (Ht & Ho & _). split; [exact Ht | exact Ho].
  - vm_compute. reflexivity.
Defined.

Lemma prompt_client_admitted_witness :
  exists nonceS keyC2S keyS2C t,
    dispatch_timed psk dep_env HeldWitness.prompt_costs HeldWitness.prompt 0 = (Established nonceC nonceS keyC2S keyS2C, t, None).
Proof.
  apply (prompt_client_admitted psk dep_env HeldWitness.prompt_costs HeldWitness.prompt 0 second millisecond
           (fun i => z2b (Z.of_nat i)) (fun i => z2b (200 + Z.of_nat i)) nonceC [x01; x02]).
  - reflexivity.
  - split; [discriminate | reflexivity].
  - reflexivity.
  - split; [discriminate | reflexivity].
  - reflexivity.
  - discriminate.
  - reflexivity.
  - exists []. vm_compute. reflexivity.
  - reflexivity.
  - reflexivity.
  - reflexivity.
  - reflexivity.
Defined.
