(* ===== verification/Client.v ===== *)
(** * The client session of cmd/mxtr-testclient-v2/main.go

    [readLoop], [open], [close], the [stream] operations ([deliver],
    [markClosed], [acquireWindow], [Read]) and the bridge of [handleSocks5], as
    an interleaving of steps in the style of [Session]: one step runs one
    goroutine up to its next access to shared memory. One process has one
    session, so the memory is that session.

    [closeMu] does not appear: its critical sections ([deliver],
    [markClosed]) are only ever entered by the goroutine of [readLoop], which
    also runs [close]. The history fields record what happened and are read by
    no step. *)

From S2P Require Import Prelude Padding StreamFrame Target.

Definition maxStreamPayloadV2 : Z := (16384 - 2) - 7.

(** [make(chan []byte, 32)], and the [16*1024] of the bridge's buffer. *)
Definition incomingCap : Z := 32.
Definition bridgeBuf : Z := 16 * 1024.

(** Go's [int64]. *)
Definition i64 (z : Z) : Z := (z + 2 ^ 63) mod 2 ^ 64 - 2 ^ 63.

(** ** A stream *)

Record channel := Channel { items : list bytes; shut : bool }.

Record cursor := Cursor { pendingChunk : option bytes; pendingPos : Z }.

(** What [winMu] guards; [parked]: the writer is in [winCond.Wait].
    [history]: credit received, credit used, OPEN_OKs with a window. *)
Record window := Window {
  sendWindow : Z; flowControlled : bool; parked : bool;
  w_granted : Z; w_taken : Z; w_oks : nat;
}.

(** [history] of the download: accepted from the session, returned by
    [Read], written to the local connection. *)
Record download := Download { d_recv : bytes; d_got : bytes; d_out : bytes }.

(** [history] of the upload: read from the local connection, sent in DATA
    frames; a piece has been dropped. *)
Record upload := Upload { u_in : bytes; u_sent : bytes; u_gap : bool }.

(** [announced], [dropped] (history): the OPEN frame has been written; [open] has
    deleted the stream. *)
Record life := Life { announced : bool; dropped : bool }.

Record cstream := CStream {
  cs_id : Z;
  incoming : channel;
  openOK : bool;                (* the channel holds a token *)
  openErr : option bytes;
  cs_closed : bool;
  pending : cursor;
  win : window;
  local : bool;                 (* the bridged local connection is open *)
  down : download;
  up : upload;
  cs_life : life;
}.

Definition new_cstream (sid : Z) : cstream :=
  CStream sid (Channel [] false) false None false (Cursor None 0)
    (Window 0 false false 0 0 0) true (Download [] [] []) (Upload [] [] false) (Life false false).

Definition set_incoming (f : channel -> channel) (x : cstream) : cstream :=
  CStream (cs_id x) (f (incoming x)) (openOK x) (openErr x) (cs_closed x) (pending x) (win x)
    (local x) (down x) (up x) (cs_life x).
Definition set_openOK (b : bool) (x : cstream) : cstream :=
  CStream (cs_id x) (incoming x) b (openErr x) (cs_closed x) (pending x) (win x)
    (local x) (down x) (up x) (cs_life x).
Definition set_openErr (e : option bytes) (x : cstream) : cstream :=
  CStream (cs_id x) (incoming x) (openOK x) e (cs_closed x) (pending x) (win x)
    (local x) (down x) (up x) (cs_life x).
Definition set_cs_closed (x : cstream) : cstream :=
  CStream (cs_id x) (incoming x) (openOK x) (openErr x) true (pending x) (win x)
    (local x) (down x) (up x) (cs_life x).
Definition set_win (f : window -> window) (x : cstream) : cstream :=
  CStream (cs_id x) (incoming x) (openOK x) (openErr x) (cs_closed x) (pending x) (f (win x))
    (local x) (down x) (up x) (cs_life x).
Definition set_local (b : bool) (x : cstream) : cstream :=
  CStream (cs_id x) (incoming x) (openOK x) (openErr x) (cs_closed x) (pending x) (win x)
    b (down x) (up x) (cs_life x).
Definition set_up (f : upload -> upload) (x : cstream) : cstream :=
  CStream (cs_id x) (incoming x) (openOK x) (openErr x) (cs_closed x) (pending x) (win x)
    (local x) (down x) (f (up x)) (cs_life x).
Definition set_life (f : life -> life) (x : cstream) : cstream :=
  CStream (cs_id x) (incoming x) (openOK x) (openErr x) (cs_closed x) (pending x) (win x)
    (local x) (down x) (up x) (f (cs_life x)).

(** [st.incoming <- payload]. *)
Definition chan_push (p : bytes) (x : cstream) : cstream :=
  CStream (cs_id x) (Channel (items (incoming x) ++ [p]) (shut (incoming x))) (openOK x) (openErr x)
    (cs_closed x) (pending x) (win x) (local x)
    (Download (d_recv (down x) ++ p) (d_got (down x)) (d_out (down x))) (up x) (cs_life x).

(** The critical sections under [winMu]. *)
Definition win_open (v : Z) (w : window) : window :=
  Window v true (parked w) (w_taken w + v) (w_taken w) (S (w_oks w)).
Definition win_credit (n : Z) (w : window) : window :=
  Window (i64 (sendWindow w + n)) (flowControlled w) false (w_granted w + n) (w_taken w) (w_oks w).
Definition win_wake (w : window) : window :=
  Window (sendWindow w) (flowControlled w) false (w_granted w) (w_taken w) (w_oks w).
Definition win_park (w : window) : window :=
  Window (sendWindow w) (flowControlled w) true (w_granted w) (w_taken w) (w_oks w).
(** Without flow control a send is its own credit. *)
Definition win_free (n : Z) (w : window) : window :=
  Window (sendWindow w) (flowControlled w) (parked w) (w_granted w + n) (w_taken w + n) (w_oks w).
Definition win_take (n : Z) (w : window) : window :=
  Window (sendWindow w - n) (flowControlled w) (parked w) (w_granted w) (w_taken w + n) (w_oks w).

(** One turn of the loop of [acquireWindow] under [winMu]. *)
Inductive acquired := Acquired (w : window) | WindowClosed | MustWait (w : window).

Definition acquireWindow (n : Z) (closed : bool) (w : window) : acquired :=
  if negb (flowControlled w) then Acquired (win_free n w)
  else if sendWindow w <? n then
    if closed then WindowClosed else MustWait (win_park w)
  else Acquired (win_take n w).

(** [st.Read(p)] with [len(p) = n]: blocked, end of file, or bytes. *)
Inductive read_result := RBlocked | REof | RBytes (b : bytes) (x : cstream).

Definition copy_pending (n : Z) (c : bytes) (pos : Z) (q : channel) (x : cstream) : read_result :=
  let b := take (Z.to_nat n) (drop (Z.to_nat pos) c) in
  let pos' := pos + len b in
  let cur := if len c <=? pos' then Cursor None 0 else Cursor (Some c) pos' in
  RBytes b
    (CStream (cs_id x) q (openOK x) (openErr x) (cs_closed x) cur (win x) (local x)
       (Download (d_recv (down x)) (d_got (down x) ++ b) (d_out (down x))) (up x) (cs_life x)).

Definition stream_Read (n : Z) (x : cstream) : read_result :=
  match pendingChunk (pending x) with
  | Some c => copy_pending n c (pendingPos (pending x)) (incoming x) x
  | None =>
      match items (incoming x) with
      | c :: rest => copy_pending n c 0 (Channel rest (shut (incoming x))) x
      | [] => if shut (incoming x) then REof else RBlocked
      end
  end.

(** Bytes written to the local connection. *)
Definition local_write (b : bytes) (x : cstream) : cstream :=
  CStream (cs_id x) (incoming x) (openOK x) (openErr x) (cs_closed x) (pending x) (win x) (local x)
    (Download (d_recv (down x)) (d_got (down x)) (d_out (down x) ++ b)) (up x) (cs_life x).

(** ** Goroutines *)

Inductive cwho := CLoop | CSock (n : nat) | CUp (n : nat).

#[export] Instance cwho_eq_dec : EqDecision cwho.
Proof. solve_decision. Defined.

#[export] Instance cwho_countable : Countable cwho.
Proof.
  refine (inj_countable'
    (fun w => match w with CLoop => inl tt | CSock n => inr (inl n) | CUp n => inr (inr n) end)
    (fun x => match x with inl _ => CLoop | inr (inl n) => CSock n | inr (inr n) => CUp n end) _).
  by intros [].
Defined.

(** The steps of [markClosed]. *)
Inductive marker :=
  | MCas (o : nat)      (* closed.CompareAndSwap *)
  | MChan (o : nat)     (* close(st.incoming) *)
  | MCast (o : nat).    (* winCond.Broadcast *)

(** [readLoop], then its deferred [s.close()]. *)
Inductive readLoop_pc :=
  | RRead
  | RLoad (sf : stream_frame)
  | RWin (o : nat) (v : Z)
  | ROk (o : nat)
  | RErr (o : nat) (msg : bytes)
  | RDeliver (o : nat) (p : bytes)
  | RSend (o : nat) (p : bytes)
  | RCredit (o : nat) (n : Z)
  | RMark (sid : Z) (k : marker)
  | RDelete (sid : Z)
  | RPong (p : bytes)
  | RClose
  | RRange (todo vis : gset Z)
  | RVisit (todo vis : gset Z) (k : marker)
  | RConn.

(** A SOCKS5 connection from [sess.open] to the end of [io.Copy(c, st)]. *)
Inductive sock_pc :=
  | SStart (host : bytes) (port : Z)
  | SStore (sid : Z) (host : bytes) (port : Z)
  | SOpen (target : bytes)
  | SWait
  | SDelete
  | SFail
  | SReply
  | SDown
  | SOut (b : bytes).

(** The goroutine from the local connection to the session; [fin]: the read
    that brought [rest] also brought an error. *)
Inductive up_pc :=
  | URead
  | UAcquire (rest : bytes) (fin : bool)
  | UPark (rest : bytes) (fin : bool)
  | UWrite (rest : bytes) (fin : bool)
  | UClose.

Inductive cthread :=
  | CtLoop (pc : readLoop_pc)
  | CtSock (n : nat) (pc : sock_pc)
  | CtUp (n : nat) (pc : up_pc).

Definition cwho_of (t : cthread) : cwho :=
  match t with CtLoop _ => CLoop | CtSock n _ => CSock n | CtUp n _ => CUp n end.

(** ** Shared memory *)

(** The stream object of SOCKS5 connection [n] is number [n]. *)
Record cmem := CMem {
  c_conn : bool;                            (* open *)
  c_seqRead : Z;
  c_seqWrite : Z;
  c_streams : gmap Z nat;
  nextID : Z;
  c_closed : bool;
  c_heap : gmap nat cstream;
  next_sock : nat;
  c_wire : list (Z * stream_frame * bool);  (* history: nonce, frame, success of each write *)
  c_ids : list (Z * nat);                   (* history: ids handed out and to whom, newest first *)
  c_panicked : bool;
}.

Definition upd_streams (f : gmap Z nat -> gmap Z nat) (m : cmem) : cmem :=
  CMem (c_conn m) (c_seqRead m) (c_seqWrite m) (f (c_streams m)) (nextID m) (c_closed m)
    (c_heap m) (next_sock m) (c_wire m) (c_ids m) (c_panicked m).
Definition upd_heap (f : gmap nat cstream -> gmap nat cstream) (m : cmem) : cmem :=
  CMem (c_conn m) (c_seqRead m) (c_seqWrite m) (c_streams m) (nextID m) (c_closed m)
    (f (c_heap m)) (next_sock m) (c_wire m) (c_ids m) (c_panicked m).
Definition on_stream (o : nat) (f : cstream -> cstream) : cmem -> cmem := upd_heap (alter f o).
Definition c_panic (m : cmem) : cmem :=
  CMem (c_conn m) (c_seqRead m) (c_seqWrite m) (c_streams m) (nextID m) (c_closed m)
    (c_heap m) (next_sock m) (c_wire m) (c_ids m) true.
Definition count_read (m : cmem) : cmem :=
  CMem (c_conn m) ((c_seqRead m + 1) mod 2 ^ 64) (c_seqWrite m) (c_streams m) (nextID m) (c_closed m)
    (c_heap m) (next_sock m) (c_wire m) (c_ids m) (c_panicked m).
Definition set_c_closed (m : cmem) : cmem :=
  CMem (c_conn m) (c_seqRead m) (c_seqWrite m) (c_streams m) (nextID m) true
    (c_heap m) (next_sock m) (c_wire m) (c_ids m) (c_panicked m).
Definition close_c_conn (m : cmem) : cmem :=
  CMem false (c_seqRead m) (c_seqWrite m) (c_streams m) (nextID m) (c_closed m)
    (c_heap m) (next_sock m) (c_wire m) (c_ids m) (c_panicked m).
Definition new_sock (m : cmem) : cmem :=
  CMem (c_conn m) (c_seqRead m) (c_seqWrite m) (c_streams m) (nextID m) (c_closed m)
    (c_heap m) (S (next_sock m)) (c_wire m) (c_ids m) (c_panicked m).

(** [atomic.AddUint32(&s.nextID, 2) - 2], in uint32. *)
Definition alloc_id (n : nat) (m : cmem) : Z * cmem :=
  let next := (nextID m + 2) mod 2 ^ 32 in
  let sid := (next - 2) mod 2 ^ 32 in
  (sid, CMem (c_conn m) (c_seqRead m) (c_seqWrite m) (c_streams m) next (c_closed m)
          (c_heap m) (next_sock m) (c_wire m) ((sid, n) :: c_ids m) (c_panicked m)).

(** [s.writeStreamFrame]: [ok] is the fate of the network write; a closed
    connection always fails. The counter moves on success only. *)
Definition c_write (ok : bool) (sf : stream_frame) (m : cmem) : bool * cmem :=
  if maxStreamPayloadV2 <? len (sf_payload sf) then (false, m)
  else if c_closed m then (false, m)
  else
    let ok := ok && c_conn m in
    (ok, CMem (c_conn m) (c_seqRead m)
           (if ok then (c_seqWrite m + 1) mod 2 ^ 64 else c_seqWrite m)
           (c_streams m) (nextID m) (c_closed m) (c_heap m) (next_sock m)
           (c_wire m ++ [(c_seqWrite m, sf, ok)]) (c_ids m) (c_panicked m)).

Inductive cenv :=
  | CTau
  | CFrame (pt : bytes)               (* readAEADFrame returned a plaintext *)
  | CErr                              (* readAEADFrame failed *)
  | CWritten (ok : bool)              (* fate of a frame write *)
  | CKey (k : Z)                      (* Range visits this key next *)
  | COpenOK | COpenErr | CTimeout     (* the case the select of open takes *)
  | CBuf (n : Z)                      (* Read with a buffer of this length *)
  | CLocalRead (b : bytes) (fin : bool)
  | CLocalWrite (short : option nat). (* None: all of it *)

Definition coutcome : Type := option (option cthread * cmem * list cthread).
Definition cnext (t : cthread) (m : cmem) : coutcome := Some (Some t, m, []).
Definition cexit (m : cmem) : coutcome := Some (None, m, []).
Definition cblocked : coutcome := None.

(** One step of [markClosed]; [None]: it has returned. *)
Definition mark_step (k : marker) (m : cmem) : option marker * cmem :=
  match k with
  | MCas o =>
      match c_heap m !! o with
      | Some x => if cs_closed x then (None, m) else (Some (MChan o), on_stream o set_cs_closed m)
      | None => (None, m)
      end
  | MChan o =>
      match c_heap m !! o with
      | Some x =>
          if shut (incoming x) then (None, c_panic m)
          else (Some (MCast o), on_stream o (set_incoming (fun q => Channel (items q) true)) m)
      | None => (None, m)
      end
  | MCast o => (None, on_stream o (set_win win_wake) m)
  end.

(** The switch of [readLoop]; [st]: what [s.streams.Load(sid)] returned. *)
Definition readLoop_dispatch (sf : stream_frame) (st : option nat) : readLoop_pc :=
  let '(SFrame sid t payload) := sf in
  if t =? v2TypeOpenOK then
    match st with
    | Some o => if 4 <=? len payload then RWin o (be_get (take 4 payload)) else ROk o
    | None => RRead
    end
  else if t =? v2TypeOpenErr then match st with Some o => RErr o payload | None => RRead end
  else if t =? v2TypeData then match st with Some o => RDeliver o payload | None => RRead end
  else if t =? v2TypeWindowUpdate then
    match st with
    | Some o => if 4 <=? len payload then RCredit o (be_get (take 4 payload)) else RRead
    | None => RRead
    end
  else if t =? v2TypeClose then match st with Some o => RMark sid (MCas o) | None => RRead end
  else if t =? v2TypePing then RPong payload
  else RRead.

Definition readLoop_step (pc : readLoop_pc) (e : cenv) (m : cmem) : coutcome :=
  let goto pc := cnext (CtLoop pc) in
  match pc, e with
  | RRead, CFrame pt =>
      (* the length is what readAEADFrame can return *)
      if c_conn m && (len pt <=? maxPlaintextSize) then
        let m1 := count_read m in
        match parse_stream_frame pt with
        | Ok sf => goto (RLoad sf) m1
        | Err _ => goto RClose m1
        | Panic => goto RClose (c_panic m1)
        end
      else cblocked
  | RRead, CErr => goto RClose m
  | RLoad sf, CTau => goto (readLoop_dispatch sf (c_streams m !! sf_id sf)) m
  | RWin o v, CTau => goto (ROk o) (on_stream o (set_win (win_open v)) m)
  | ROk o, CTau => goto RRead (on_stream o (set_openOK true) m)
  | RErr o msg, CTau =>
      goto RRead (on_stream o (fun x => match openErr x with
                                        | None => set_openErr (Some msg) x
                                        | Some _ => x
                                        end) m)
  | RDeliver o p, CTau =>
      match c_heap m !! o with
      | None => cblocked
      | Some x => if cs_closed x then goto RRead m else goto (RSend o p) m
      end
  | RSend o p, CTau =>
      match c_heap m !! o with
      | None => cblocked
      | Some x =>
          if shut (incoming x) then goto RRead (c_panic m)
          else if len (items (incoming x)) <? incomingCap then goto RRead (on_stream o (chan_push p) m)
          else cblocked
      end
  | RCredit o n, CTau => goto RRead (on_stream o (set_win (win_credit n)) m)
  | RMark sid k, CTau =>
      match mark_step k m with
      | (Some k, m1) => goto (RMark sid k) m1
      | (None, m1) => goto (RDelete sid) m1
      end
  | RDelete sid, CTau => goto RRead (upd_streams (delete sid) m)
  | RPong p, CWritten ok => goto RRead (c_write ok (SFrame 0 v2TypePong p) m).2
  | RClose, CTau =>
      if c_closed m then cexit m
      else goto (RRange (dom (c_streams m)) ∅) (set_c_closed m)
  | RRange todo vis, CKey k =>
      if decide (k ∈ vis) then cblocked else
      match c_streams m !! k with
      | Some o => goto (RVisit (todo ∖ {[k]}) ({[k]} ∪ vis) (MCas o)) m
      | None =>
          if decide (k ∈ todo) then goto (RRange (todo ∖ {[k]}) ({[k]} ∪ vis)) m else cblocked
      end
  | RRange todo vis, CTau => if decide (todo = ∅) then goto RConn m else cblocked
  | RVisit todo vis k, CTau =>
      match mark_step k m with
      | (Some k, m1) => goto (RVisit todo vis k) m1
      | (None, m1) => goto (RRange todo vis) m1
      end
  | RConn, CTau => cexit (close_c_conn m)
  | _, _ => cblocked
  end.

Definition mark_announced (x : cstream) : cstream := set_life (fun l => Life true (dropped l)) x.
Definition mark_dropped (x : cstream) : cstream := set_life (fun l => Life (announced l) true) x.

(** [open] and the download half of [handleSocks5]. A host name over 255 bytes
    leaves [open] after the [Store]. *)
Definition sock_step (n : nat) (pc : sock_pc) (e : cenv) (m : cmem) : coutcome :=
  let goto pc := cnext (CtSock n pc) in
  match pc, e with
  | SStart host port, CTau =>
      let '(sid, m1) := alloc_id n m in goto (SStore sid host port) m1
  | SStore sid host port, CTau =>
      let m1 := upd_streams <[sid := n]> (upd_heap <[n := new_cstream sid]> m) in
      match client_target host port with
      | None => goto SFail m1
      | Some target => goto (SOpen target) m1
      end
  | _, _ =>
  match c_heap m !! n with
  | None => cblocked
  | Some x =>
  let sid := cs_id x in
  match pc, e with
  | SOpen target, CWritten ok =>
      let '(ok, m1) := c_write ok (SFrame sid v2TypeOpen target) m in
      if ok then goto SWait (on_stream n mark_announced m1) else goto SDelete m1
  | SWait, COpenOK => if openOK x then goto SReply (on_stream n (set_openOK false) m) else cblocked
  | SWait, COpenErr =>
      match openErr x with
      | Some _ => goto SDelete (on_stream n (set_openErr None) m)
      | None => cblocked
      end
  | SWait, CTimeout => goto SDelete m
  | SDelete, CTau => goto SFail (upd_streams (delete sid) (on_stream n mark_dropped m))
  | SFail, CTau => cexit (on_stream n (set_local false) m)
  | SReply, CTau => Some (Some (CtSock n SDown), m, [CtUp n URead])
  | SDown, CBuf k =>
      if 0 <? k then
        match stream_Read k x with
        | RBlocked => cblocked
        | REof => cexit (on_stream n (set_local false) m)
        | RBytes b x' =>
            let m1 := on_stream n (fun _ => x') m in
            if 0 <? len b then goto (SOut b) m1 else goto SDown m1
        end
      else cblocked
  | SOut b, CLocalWrite None => goto SDown (on_stream n (local_write b) m)
  | SOut b, CLocalWrite (Some k) =>
      cexit (on_stream n (fun x => set_local false (local_write (take k b) x)) m)
  | _, _ => cblocked
  end
  end
  end.

Definition piece (rest : bytes) : bytes := take (Z.to_nat maxStreamPayloadV2) rest.

Definition up_read (b : bytes) (u : upload) : upload := Upload (u_in u ++ b) (u_sent u) (u_gap u).
Definition up_sent (b : bytes) (u : upload) : upload := Upload (u_in u) (u_sent u ++ b) (u_gap u).
Definition up_drop (u : upload) : upload := Upload (u_in u) (u_sent u) true.

(** The upload half of [handleSocks5]: [break] leaves the inner loop only. *)
Definition up_step (n : nat) (pc : up_pc) (e : cenv) (m : cmem) : coutcome :=
  let goto pc := cnext (CtUp n pc) in
  let after (fin : bool) := goto (if fin then UClose else URead) in
  match c_heap m !! n with
  | None => cblocked
  | Some x =>
  let sid := cs_id x in
  match pc, e with
  | URead, CLocalRead b fin =>
      (* a closed connection delivers nothing but an error *)
      if (len b <=? bridgeBuf) && (local x || (bool_decide (b = []) && fin)) then
        let m1 := on_stream n (set_up (up_read b)) m in
        if 0 <? len b then goto (UAcquire b fin) m1 else after fin m1
      else cblocked
  | UAcquire rest fin, CTau =>
      match acquireWindow (len (piece rest)) (cs_closed x) (win x) with
      | Acquired w => goto (UWrite rest fin) (on_stream n (set_win (fun _ => w)) m)
      | WindowClosed => after fin (on_stream n (set_up up_drop) m)
      | MustWait w => goto (UPark rest fin) (on_stream n (set_win (fun _ => w)) m)
      end
  | UPark rest fin, CTau => if parked (win x) then cblocked else goto (UAcquire rest fin) m
  | UWrite rest fin, CWritten ok =>
      let '(ok, m1) := c_write ok (SFrame sid v2TypeData (piece rest)) m in
      if ok then
        let rest' := drop (length (piece rest)) rest in
        let m2 := on_stream n (set_up (up_sent (piece rest))) m1 in
        if 0 <? len rest' then goto (UAcquire rest' fin) m2 else after fin m2
      else after fin (on_stream n (set_up up_drop) m1)
  | UClose, CWritten ok => cexit (c_write ok (SFrame sid v2TypeClose []) m).2
  | _, _ => cblocked
  end
  end.

Definition cthread_step (t : cthread) (e : cenv) (m : cmem) : coutcome :=
  match t with
  | CtLoop pc => readLoop_step pc e m
  | CtSock n pc => sock_step n pc e m
  | CtUp n pc => up_step n pc e m
  end.

(** ** The system *)

Record csys := CSys { c_threads : gmap cwho cthread; c_mem : cmem }.

Definition c_spawn (ts : list cthread) (T : gmap cwho cthread) : gmap cwho cthread :=
  foldr (fun t T => <[cwho_of t := t]> T) T ts.

Definition c_set_thread (w : cwho) (t : option cthread) (T : gmap cwho cthread) : gmap cwho cthread :=
  match t with Some t => <[w := t]> T | None => delete w T end.

Inductive caction :=
  | CRun (w : cwho) (e : cenv)              (* one step of a goroutine *)
  | CConnect (host : bytes) (port : Z).     (* a SOCKS5 request for host:port has been read *)

Definition cstep (a : caction) (y : csys) : option csys :=
  match a with
  | CRun w e =>
      t ← c_threads y !! w;
      '(t', m', ts) ← cthread_step t e (c_mem y);
      Some (CSys (c_spawn ts (c_set_thread w t' (c_threads y))) m')
  | CConnect host port =>
      let n := next_sock (c_mem y) in
      Some (CSys (<[CSock n := CtSock n (SStart host port)]> (c_threads y)) (new_sock (c_mem y)))
  end.

(** What [dialSession] returns: counters at 1, the read loop started. *)
Definition dialed_session : csys :=
  CSys {[CLoop := CtLoop RRead]} (CMem true 1 1 ∅ 1 false ∅ 0 [] [] false).

Inductive creachable : csys -> Prop :=
  | creach_init : creachable dialed_session
  | creach_step a y y' : creachable y -> cstep a y = Some y' -> creachable y'.

Fixpoint crun (acts : list caction) (y : csys) : option csys :=
  match acts with
  | [] => Some y
  | a :: acts' => y' ← cstep a y; crun acts' y'
  end.
