(* ===== verification/Dial.v ===== *)
(** * [dialSession] of cmd/mxtr-testclient-v2/main.go, as a whole

    From the host, port and server name of the configuration to a running
    session: the dial, the outer TLS handshake, both hellos. *)

From S2P Require Import Prelude GoIO Crypto GoStrings GoNet Camouflage Session Probe Handshake Hostnames Allowlist ShareString ClientConfig Client.

Inductive dial_err := EdLiteral | EdDial | EdTls | EdWrite (e : ioerr) | EdHello (e : hs_err).

(** What the outside answers: the fates of the dial and of the TLS handshake,
    the bytes of [rand.Read] and the draw of [mrand.IntN]. *)
Record dial_env := DialEnv {
  de_dial : bool;
  de_tls : bool;
  de_nonce : nat -> byte;
  de_padLen : Z;
  de_pad : nat -> byte;
}.

(** The connection made: its address, the server name presented, and whether
    it is open at the end. *)
Record dial_conn := Dialed { dd_addr : bytes; dd_serverName : bytes; dd_open : bool; dd_conn : conn }.

Section Dial.
Context `{CryptoSuite} `{UnicodeTables} (psk : bytes).

Definition nonce_of (env : dial_env) : bytes := fill (de_nonce env) nonceLen.
Definition pad_of (env : dial_env) : bytes := fill (de_pad env) (de_padLen env mod (maxHandshakePad + 1)).

(** [c]: the TLS connection as it will be. The keys are those of client to
    server first. *)
Definition dialSession (serverHost : bytes) (serverPort : Z) (sni : bytes) (env : dial_env) (c : conn)
    : res dial_err (bytes * bytes * csys) * option dial_conn :=
  match dial_plan serverHost serverPort sni with
  | None => (Err EdLiteral, None)
  | Some (addr, serverName) =>
      if negb (de_dial env) then (Err EdDial, None) else
      let conn opened c := Some (Dialed addr serverName opened c) in
      if negb (de_tls env) then (Err EdTls, conn false c) else
      match write (client_hello psk (nonce_of env) (pad_of env)) (c_out c) with
      | (Err e, w) => (Err (EdWrite e), conn false (Conn (c_in c) w))
      | (Panic, w) => (Panic, conn false (Conn (c_in c) w))
      | (Ok _, w) =>
          match client_finish psk (nonce_of env) (c_in c) with
          | (Err e, r) => (Err (EdHello e), conn false (Conn r w))
          | (Panic, r) => (Panic, conn false (Conn r w))
          | (Ok (keyC2S, keyS2C), r) => (Ok (keyC2S, keyS2C, dialed_session), conn true (Conn r w))
          end
      end
  end.

Context `{!CryptoLaws _}.

(** ** Reading the server's hello *)

Lemma cut_first (d : bytes) : 17 <= len d -> exists nonce padb, take 17 d = nonce ++ [padb] /\ len nonce = nonceLen /\
  d = nonce ++ [padb] ++ drop 17 d.
Proof.
  intros Hd. destruct (split_hello d Hd) as (nonce & padb & rest & Ed & Hn). exists nonce, padb.
  assert (Hl : length (nonce ++ [padb]) = 17%nat) by (unfold len, nonceLen in Hn; rewrite length_app; cbn; lia).
  rewrite Ed, app_assoc. split_and!; [by rewrite take_app_length' | done | by rewrite drop_app_length', <-app_assoc].
Qed.

Lemma client_finish_cases nonceC r :
  (exists nonceS pad r', client_finish psk nonceC r =
       (Ok (deriveKey psk nonceC nonceS (go! "c2s-key"), deriveKey psk nonceC nonceS (go! "s2c-key")), r') /\
     len nonceS = nonceLen /\ len pad <= maxHandshakePad /\
     rd_data r = hello psk (go! "s2c-hs") nonceS pad ++ rd_data r') \/
  (exists e r', client_finish psk nonceC r = (Err e, r')).
Proof.
  set (d := rd_data r). unfold client_finish, mbind, io_bind, map_err, lift.
  destruct (readFull_spec (nonceLen + 1) r ltac:(done)) as (r1 & _ & Hd1 & E). rewrite E. clear E. fold d in Hd1 |- *.
  change (Z.to_nat (nonceLen + 1)) with 17%nat in *.
  destruct (nonceLen + 1 <=? len d) eqn:E17; bool_facts; [| right; by do 2 eexists].
  destruct (cut_first d E17) as (nonce & padb & Ef & Hn & Ed).
  rewrite Ef, (slice_app_l nonce), (at_app nonce padb [] nonceLen Hn) by done. cbn [must].
  pose proof (b2z_range padb) as Hb. set (rest := drop 17 d) in *.
  destruct (readFull_spec (b2z padb + macLen) r1) as (r2 & _ & Hd2 & E); [unfold macLen; lia |].
  rewrite E, Hd1. clear E. fold rest in Hd1 |- *.
  destruct (b2z padb + macLen <=? len rest) eqn:E3; bool_facts; [| right; by do 2 eexists].
  destruct (cut_pad rest (b2z padb) ltac:(lia) E3) as (pad & mac & more & Er & Hp & Hm).
  assert (Hl : length (pad ++ mac) = Z.to_nat (b2z padb + macLen)) by (unfold len in *; rewrite length_app; lia).
  assert (Et : take (Z.to_nat (b2z padb + macLen)) rest = pad ++ mac) by by rewrite Er, app_assoc, take_app_length'.
  assert (Ed2 : rd_data r2 = more) by by rewrite Hd2, Hd1, Er, app_assoc, drop_app_length'.
  rewrite Et, (slice_app_l pad mac), (slice_app_r pad mac) by done. cbn [must]. unfold fail_if.
  case_bool_decide as Em; cbn [negb]; [| right; by do 2 eexists].
  left. exists nonce, pad, r2. split_and!; [done | done | unfold maxHandshakePad; lia |].
  rewrite Ed2, Ed, Er, Em. unfold hello. by rewrite Hp, z2b_b2z, <-!app_assoc.
Qed.

(** ** What the dial guarantees *)

Lemma len_pad_of env : len (pad_of env) <= maxHandshakePad.
Proof.
  pose proof (Z.mod_pos_bound (de_padLen env) (maxHandshakePad + 1) ltac:(done)) as Hb.
  unfold pad_of. rewrite len_fill by lia. lia.
Qed.

(** [C22] A dial leaks nothing and trusts nobody without the PSK: it never
    panics; after any failure the connection it made is closed; and a session
    is returned, fresh and on an open connection to the IP literal it was
    given, only if the first bytes of the server are a hello authenticated
    under the PSK, of which no byte more has been read, with the two keys of
    the two nonces. *)
Theorem dialSession_exact host port sni env c :
  let '(r, d) := dialSession host port sni env c in
  r <> Panic /\
  (forall e x, r = Err e -> d = Some x -> dd_open x = false) /\
  (forall keyC2S keyS2C y, r = Ok (keyC2S, keyS2C, y) ->
     isIPLiteral host = true /\ y = dialed_session /\
     exists x nonceS pad, d = Some x /\ dd_open x = true /\
       dial_plan host port sni = Some (dd_addr x, dd_serverName x) /\
       w_out (c_out (dd_conn x)) = w_out (c_out c) ++ client_hello psk (nonce_of env) (pad_of env) /\
       len nonceS = nonceLen /\ len pad <= maxHandshakePad /\
       rd_data (c_in c) = hello psk (go! "s2c-hs") nonceS pad ++ rd_data (c_in (dd_conn x)) /\
       keyC2S = deriveKey psk (nonce_of env) nonceS (go! "c2s-key") /\
       keyS2C = deriveKey psk (nonce_of env) nonceS (go! "s2c-key")).
Proof.
  unfold dialSession. destruct (dial_plan host port sni) as [[addr name]|] eqn:Ep; [| by split_and!].
  assert (Hip : isIPLiteral host = true).
  { unfold dial_plan in Ep. by destruct (isIPLiteral host). }
  destruct (de_dial env); cbn [negb]; [| by split_and!].
  destruct (de_tls env); cbn [negb]; [| split_and!; [done | by intros e x _ [= <-] | done]].
  set (h := client_hello _ _ _). unfold write. destruct (w_room (c_out c)) as [k|]; [destruct (len h <=? k) |].
  2: { split_and!; [done | by intros e x _ [= <-] | done]. }
  all: destruct (client_finish_cases (nonce_of env) (c_in c)) as [(nonceS & pad & r' & -> & Hn & Hp & Hd) | (e & r' & ->)];
    [| split_and!; [done | by intros ? x _ [= <-] | done]];
    (split_and!; [done | done |]; intros k1 k2 y [= <- <- <-]; split_and!; [done | done |];
     do 3 eexists; split; [reflexivity |]; by split_and!).
Qed.

(** [C21] Dial and accept fit together: between a client and a server with the
    same PSK, whatever their random bytes (the client's nonce apart, which
    must not begin like an HTTP method), on a connection that delivers each
    the other's hello, in any pieces, both get a session under the same keys,
    each with the counter for what it reads where the other's counter for
    what it writes is, and neither has lost a byte of what follows. *)
Theorem dial_meets_server host port sni env se cc cs f g more_c more_s t :
  isIPLiteral host = true -> de_dial env = true -> de_tls env = true ->
  looksLikeHTTP (nonce_of env) = false ->
  ho_nonce (se_hello se) = Some f -> ho_pad (se_hello se) = Some g -> se_deadline1 se = true -> se_deadline2 se = true ->
  c_out cc = Writer [] None -> c_out cs = Writer [] None ->
  let '(r, d) := dialSession host port sni env cc in
  let '(o, cs') := handshake_conn psk se cs in
  rd_data (c_in cs) = client_hello psk (nonce_of env) (pad_of env) ++ more_c ->
  rd_data (c_in cc) = w_out (c_out cs') ++ more_s ->
  exists nonceS keyC2S keyS2C y x,
    r = Ok (keyC2S, keyS2C, y) /\ o = Established (nonce_of env) nonceS keyC2S keyS2C /\
    c_seqWrite (c_mem y) = seqRead (new_session t) /\
    c_seqRead (c_mem y) = seqWrite (new_session t) /\
    d = Some x /\ w_out (c_out (dd_conn x)) = client_hello psk (nonce_of env) (pad_of env) /\
    rd_data (c_in cs') = more_c /\ rd_data (c_in (dd_conn x)) = more_s.
Proof.
  intros Hip Hdial Htls Hh Hf Hg H1 H2 Hcc Hcs.
  destruct (dialSession host port sni env cc) as [r d] eqn:Er. destruct (handshake_conn psk se cs) as [o cs'] eqn:Eo.
  intros Hc Hs. pose proof (len_pad_of env) as Hp.
  assert (Hn : len (nonce_of env) = nonceLen) by (by apply len_fill).
  assert (Ec : client_hello psk (nonce_of env) (pad_of env) = hello psk (go! "c2s-hs") (nonce_of env) (pad_of env)).
  { unfold client_hello, hello. by rewrite <-!app_assoc. }
  rewrite Ec in Hc. destruct (server_reads_hello psk _ _ more_c (c_in cs) Hc Hn Hp Hh) as (rs & Hrs & Hds & _).
  destruct (writeServerHandshake_ok psk (se_hello se) f g (c_out cs) Hf Hg) as (pad & Hpad & Hws); [by rewrite Hcs |].
  unfold handshake_conn in Eo. rewrite H1, Hrs, Hws, H2, Hcs in Eo. cbn [negb] in Eo. injection Eo as <- <-.
  cbn [c_out w_out c_in app] in Hs |- *.
  destruct (client_reads_hello psk (nonce_of env) (fill f nonceLen) pad more_s (c_in cc) Hs) as (rc & Hrc & Hdc & _);
    [by apply len_fill | done |].
  unfold dialSession, dial_plan in Er. rewrite Hip, Hdial, Htls, Hcc in Er. cbn [negb write w_room] in Er.
  rewrite Hrc in Er. injection Er as <- <-. do 5 eexists. by split_and!.
Qed.
End Dial.

(** ** Witnesses *)

Import HsWitness.

Module DialWitness.
Definition host : bytes := go! "203.0.113.7".
Definition env : dial_env := DialEnv true true (fun i => z2b (Z.of_nat i + 100)) 2 (fun _ => x01).
Definition from_client : bytes := client_hello psk (nonce_of env) (pad_of env).
Definition cs : conn := Conn (Reader [take 5 from_client; drop 5 from_client ++ [x09]] EOF) (Writer [] None).
Definition from_server : bytes := w_out (c_out (handshake_conn psk dep_env cs).2).
Definition cc : conn := Conn (Reader [from_server; [x07]] EOF) (Writer [] None).
(** A server that answers with something else. *)
Definition impostor : conn := Conn (Reader [replicate 400 x41] EOF) (Writer [] None).
End DialWitness.
Import DialWitness.

Lemma dial_meets_server_witness :
  exists nonceS keyC2S keyS2C y x cs',
    dialSession psk host 443 (go! "a.example") env cc = (Ok (keyC2S, keyS2C, y), Some x) /\
    handshake_conn psk dep_env cs = (Established (nonce_of env) nonceS keyC2S keyS2C, cs') /\
    rd_data (c_in cs') = [x09] /\ rd_data (c_in (dd_conn x)) = [x07] /\ dd_serverName x = go! "a.example".
Proof.
  assert (Hs : (dd_serverName <$> (dialSession psk host 443 (go! "a.example") env cc).2) = Some (go! "a.example")) by (vm_compute; reflexivity).
  pose proof (dial_meets_server psk host 443 (go! "a.example") env dep_env cc cs (fun i => z2b (Z.of_nat i))
    (fun i => z2b (200 + Z.of_nat i)) [x09] [x07] 0 eq_refl eq_refl eq_refl eq_refl eq_refl eq_refl eq_refl eq_refl eq_refl eq_refl) as Hm.
  destruct (dialSession psk host 443 (go! "a.example") env cc) as [r d].
  destruct (handshake_conn psk dep_env cs) as [o cs'] eqn:Eo.
  destruct Hm as (nonceS & k1 & k2 & y & x & -> & -> & _ & _ & -> & _ & H1 & H2).
  - vm_compute. reflexivity.
  - unfold cc, from_server. rewrite Eo. cbn [c_in rd_data rd_segs concat snd]. by rewrite app_nil_r.
  - exists nonceS, k1, k2, y, x, cs'. split_and!; [reflexivity | reflexivity | exact H1 | exact H2 | exact (f_equal (default []) Hs)].
Defined.

Lemma dialSession_exact_witness :
  exists x, dialSession psk host 443 [] env impostor = (Err (EdHello MacMismatch), Some x) /\ dd_open x = false.
Proof.
  pose proof (dialSession_exact psk host 443 [] env impostor) as Hd.
  assert (E : (dialSession psk host 443 [] env impostor).1 = Err (EdHello MacMismatch)) by (vm_compute; reflexivity).
  assert (Es : is_Some (dialSession psk host 443 [] env impostor).2) by (vm_compute; eexists; reflexivity).
  destruct (dialSession psk host 443 [] env impostor) as [r d]. cbn [fst snd] in E, Es. destruct Es as [x ->]. subst r.
  exists x. split; [reflexivity |]. destruct Hd as (_ & Hc & _). exact (Hc (EdHello MacMismatch) x eq_refl eq_refl).
Defined.
