(* ===== verification/ClientInv.v ===== *)
(** * Invariants of the client session

    What holds of every stream object, given what the read loop, the
    connection's handler and its upload goroutine are doing. Each part depends
    on as little of the state as it can, so that a step only has to re-establish
    the parts it touches. *)

From S2P Require Import Prelude Padding StreamFrame Target Client.

(** ** Parts of the invariant *)

(** The bytes of the chunk being read that [Read] has not returned yet. *)
Definition unread (c : cursor) : bytes :=
  match pendingChunk c with
  | Some b => drop (Z.to_nat (pendingPos c)) b
  | None => []
  end.

Record window_ok (w : window) : Prop := {
  wo_credit : w_granted w < 2 ^ 63 -> sendWindow w = w_granted w - w_taken w /\ 0 <= sendWindow w;
  wo_taken : 0 <= w_taken w;
  wo_flow : flowControlled w = true -> (0 < w_oks w)%nat;
  wo_parked : parked w = true -> flowControlled w = true;
}.

Record data_ok (x : cstream) : Prop := {
  do_fifo : d_recv (down x) = d_got (down x) ++ unread (pending x) ++ concat (items (incoming x));
  do_room : len (items (incoming x)) <= incomingCap;
  do_pos : 0 <= pendingPos (pending x);
  do_win : window_ok (win x);
}.

(** Closed, channel closed and writer woken go together, except while the
    read loop is marking this very stream. *)
Definition settled (x : cstream) : Prop :=
  shut (incoming x) = cs_closed x /\ (cs_closed x = true -> parked (win x) = false).

Definition marking (lp : option readLoop_pc) : option marker :=
  match lp with
  | Some (RMark _ k) | Some (RVisit _ _ k) => Some k
  | _ => None
  end.

Definition mark_ok (lp : option readLoop_pc) (o : nat) (x : cstream) : Prop :=
  match marking lp with
  | Some (MChan o') =>
      if decide (o' = o) then cs_closed x = true /\ shut (incoming x) = false else settled x
  | Some (MCast o') =>
      if decide (o' = o) then cs_closed x = true /\ shut (incoming x) = true else settled x
  | _ => settled x
  end /\
  (forall p, lp = Some (RSend o p) -> cs_closed x = false).

(** What the handler knows of its stream. *)
Definition untouched (x : cstream) : Prop :=
  d_got (down x) = [] /\ d_out (down x) = [] /\ u_in (up x) = [] /\ u_sent (up x) = [] /\
  u_gap (up x) = false /\ parked (win x) = false.

Definition sock_ok (sk : option sock_pc) (pu : option up_pc) (x : cstream) : Prop :=
  match sk with
  | Some (SStart _ _) | Some (SStore _ _ _) => False
  | Some (SOpen _) | Some SDelete =>
      pu = None /\ dropped (cs_life x) = false /\ untouched x
  | Some SFail => pu = None /\ untouched x
  | Some SWait | Some SReply =>
      pu = None /\ announced (cs_life x) = true /\ dropped (cs_life x) = false /\ untouched x
  | Some SDown =>
      announced (cs_life x) = true /\ dropped (cs_life x) = false /\ d_got (down x) = d_out (down x)
  | Some (SOut b) =>
      announced (cs_life x) = true /\ dropped (cs_life x) = false /\
      d_got (down x) = d_out (down x) ++ b
  | None =>
      d_out (down x) `prefix_of` d_got (down x) /\
      (pu <> None -> announced (cs_life x) = true /\ dropped (cs_life x) = false)
  end.

(** What the upload goroutine knows of its stream. *)
Definition rest_of (pu : option up_pc) : bytes :=
  match pu with
  | Some (UAcquire rest _) | Some (UPark rest _) | Some (UWrite rest _) => rest
  | _ => []
  end.

Definition in_hand (pu : option up_pc) : Z :=
  match pu with Some (UWrite rest _) => len (piece rest) | _ => 0 end.

Record up_ok (pu : option up_pc) (x : cstream) : Prop := {
  uo_bytes : u_gap (up x) = false -> u_in (up x) = u_sent (up x) ++ rest_of pu;
  uo_credit : len (u_sent (up x)) + in_hand pu <= w_taken (win x);
  uo_parked : parked (win x) = true -> exists rest fin, pu = Some (UPark rest fin) /\
    ((w_oks (win x) <= 1)%nat -> w_granted (win x) < 2 ^ 63 -> sendWindow (win x) < len (piece rest));
}.

(** A piece is dropped only once the stream or the session is closed, or
    after a frame write has failed. *)
Definition gap_ok (m : cmem) (x : cstream) : Prop :=
  u_gap (up x) = true ->
  cs_closed x = true \/ c_closed m = true \/ exists n sf, (n, sf, false) ∈ c_wire m.

(** ** Ids and the table of streams *)

(** [nextID] is a uint32: ids repeat after 2^31 of them. *)
Definition few_ids (m : cmem) : Prop := len (c_ids m) <= 2 ^ 31.

Definition live (x : cstream) : Prop :=
  announced (cs_life x) = true /\ dropped (cs_life x) = false /\ cs_closed x = false.

Definition reg_ok (lp : option readLoop_pc) (m : cmem) (o : nat) (x : cstream) : Prop :=
  (cs_id x, o) ∈ c_ids m /\
  (few_ids m ->
   (cs_closed x = true \/ dropped (cs_life x) = true \/ c_streams m !! cs_id x = Some o) /\
   match lp with
   | Some (RDelete sid) => cs_id x = sid -> cs_closed x = true
   | Some (RRange todo _) => live x -> cs_id x ∈ todo
   | Some (RVisit todo _ k) => live x -> cs_id x ∈ todo \/ k = MCas o
   | Some RConn | None => ~ live x
   | _ => True
   end).

Record obj_ok (lp : option readLoop_pc) (sk : option sock_pc) (pu : option up_pc)
    (m : cmem) (o : nat) (x : cstream) : Prop := {
  oo_data : data_ok x;
  oo_mark : mark_ok lp o x;
  oo_sock : sock_ok sk pu x;
  oo_up : up_ok pu x;
  oo_gap : gap_ok m x;
  oo_reg : reg_ok lp m o x;
}.

(** ** The whole state *)

Definition loop_pc_of (T : gmap cwho cthread) : option readLoop_pc :=
  match T !! CLoop with Some (CtLoop pc) => Some pc | _ => None end.
Definition sock_pc_of (T : gmap cwho cthread) (n : nat) : option sock_pc :=
  match T !! CSock n with Some (CtSock _ pc) => Some pc | _ => None end.
Definition up_pc_of (T : gmap cwho cthread) (n : nat) : option up_pc :=
  match T !! CUp n with Some (CtUp _ pc) => Some pc | _ => None end.

Definition has_id (m : cmem) (sid : Z) : Prop :=
  exists o x, c_heap m !! o = Some x /\ cs_id x = sid.

Definition marker_ok (m : cmem) (k : marker) (P : cstream -> Prop) : Prop :=
  match k with MCas o | MChan o | MCast o => exists x, c_heap m !! o = Some x /\ P x end.

(** What the read loop knows, its objects apart. *)
Definition loop_ok (lp : option readLoop_pc) (m : cmem) : Prop :=
  match lp with
  | Some (RWin _ v) => c_closed m = false /\ 0 <= v < 2 ^ 32
  | Some (RCredit _ n) => c_closed m = false /\ 0 <= n < 2 ^ 32
  | Some (RMark sid k) => c_closed m = false /\ marker_ok m k (fun x => cs_id x = sid)
  | Some (RDelete sid) => c_closed m = false /\ has_id m sid
  | Some (RPong p) => c_closed m = false
  | Some (RRange _ _) => c_closed m = true
  | Some (RVisit _ _ k) => c_closed m = true /\ marker_ok m k (fun _ => True)
  | Some RConn | None => c_closed m = true
  | Some _ => c_closed m = false
  end.

(** The writes that reached the connection whole. *)
Definition delivered (w : list (Z * stream_frame * bool)) : list (Z * stream_frame) :=
  fst <$> filter (fun e => e.2 = true) w.

Definition ids (n : nat) : list Z := (fun i => (1 + 2 * Z.of_nat i) mod 2 ^ 32) <$> rev (seq 0 n).
#[global] Arguments ids n : simpl never.

Record global_ok (m : cmem) : Prop := {
  gl_panic : c_panicked m = false;
  gl_nonces w1 n sf ok w2 : c_wire m = w1 ++ (n, sf, ok) :: w2 -> n = (1 + len (delivered w1)) mod 2 ^ 64;
  gl_seq : c_seqWrite m = (1 + len (delivered (c_wire m))) mod 2 ^ 64;
  gl_sizes : Forall (fun e => len (sf_payload e.1.2) <= maxStreamPayloadV2) (c_wire m);
  gl_ids : (c_ids m).*1 = ids (length (c_ids m));
  gl_next : nextID m = (1 + 2 * len (c_ids m)) mod 2 ^ 32;
  gl_table sid o : c_streams m !! sid = Some o -> exists x, c_heap m !! o = Some x /\ cs_id x = sid;
  gl_socks n x : c_heap m !! n = Some x -> (n < next_sock m)%nat;
}.

(** A handler before its [Store], and one that does not exist yet. *)
Definition early_ok (T : gmap cwho cthread) (m : cmem) (n : nat) : Prop :=
  match sock_pc_of T n with
  | Some (SStart _ _) => c_heap m !! n = None
  | Some (SStore sid _ _) => c_heap m !! n = None /\ (sid, n) ∈ c_ids m
  | _ => True
  end /\
  (c_heap m !! n = None -> up_pc_of T n = None) /\
  ((next_sock m <= n)%nat -> T !! CSock n = None /\ T !! CUp n = None).

Record cinv (y : csys) : Prop := {
  ci_who w t : c_threads y !! w = Some t -> cwho_of t = w;
  ci_loop : loop_ok (loop_pc_of (c_threads y)) (c_mem y);
  ci_global : global_ok (c_mem y);
  ci_early n : early_ok (c_threads y) (c_mem y) n;
  ci_obj o x : c_heap (c_mem y) !! o = Some x ->
    obj_ok (loop_pc_of (c_threads y)) (sock_pc_of (c_threads y) o) (up_pc_of (c_threads y) o)
      (c_mem y) o x;
}.
