(* ===== verification/ClientLoop.v ===== *)
(** * The client's read loop keeps the invariant *)

From S2P Require Import Prelude Padding StreamFrame Target Client ClientInv.

(** ** Changing one object, one table entry, or nothing an object depends on *)

Lemma on_stream_lookup o1 f m o x' :
  c_heap (on_stream o1 f m) !! o = Some x' ->
  (o = o1 /\ exists x, c_heap m !! o = Some x /\ x' = f x) \/ (o <> o1 /\ c_heap m !! o = Some x').
Proof.
  cbn. intros H. destruct (decide (o1 = o)) as [<- | Hne].
  - left. split; [done |]. rewrite lookup_alter_eq in H. destruct (_ !! _) as [x|]; [| done].
    cbn in H. simplify_eq. by exists x.
  - right. rewrite lookup_alter_ne in H by done. done.
Qed.

Lemma on_stream_dom o1 f m o : c_heap (on_stream o1 f m) !! o = None <-> c_heap m !! o = None.
Proof.
  cbn. destruct (decide (o1 = o)) as [<- |].
  - rewrite lookup_alter_eq. by destruct (_ !! _).
  - by rewrite lookup_alter_ne.
Qed.

(** An object keeps its place in the heap, with its id. *)
Definition ids_kept (m m' : cmem) : Prop :=
  forall o x, c_heap m !! o = Some x -> exists x', c_heap m' !! o = Some x' /\ cs_id x' = cs_id x.

Lemma on_stream_kept o1 f m : (forall x, cs_id (f x) = cs_id x) -> ids_kept m (on_stream o1 f m).
Proof.
  intros Hf o x Hx. cbn. destruct (decide (o1 = o)) as [<- | Hne].
  - rewrite lookup_alter_eq, Hx. cbn. by exists (f x).
  - rewrite lookup_alter_ne by done. by exists x.
Qed.

Lemma gap_ok_mono m m' x :
  (c_closed m = true -> c_closed m' = true) ->
  (forall e, e ∈ c_wire m -> e ∈ c_wire m') -> gap_ok m x -> gap_ok m' x.
Proof. intros Hc Hw G Hg. destruct (G Hg) as [? | [? | (n & sf & ?)]]; eauto 6. Qed.

Lemma obj_ok_mem lp sk pu m m' o x :
  c_ids m' = c_ids m -> c_streams m' !! cs_id x = c_streams m !! cs_id x ->
  (c_closed m = true -> c_closed m' = true) ->
  (forall e, e ∈ c_wire m -> e ∈ c_wire m') ->
  obj_ok lp sk pu m o x -> obj_ok lp sk pu m' o x.
Proof.
  intros Hi Hs Hc Hw [D M S U G R]. split; [done.. | by eapply gap_ok_mono |].
  unfold reg_ok, few_ids in *. by rewrite Hi, Hs.
Qed.

(** ** Moving the read loop *)

(** Places where it is not marking a stream, nor past its own close. *)
Definition relaxed (pc : readLoop_pc) : bool :=
  match pc with
  | RSend _ _ | RMark _ _ | RDelete _ | RRange _ _ | RVisit _ _ _ | RConn => false
  | _ => true
  end.

Lemma relaxed_marking pc : relaxed pc = true -> marking (Some pc) = None.
Proof. by destruct pc. Qed.

Definition plain (lp : option readLoop_pc) : Prop :=
  match marking lp with Some (MChan _) | Some (MCast _) => False | _ => True end.

Lemma mark_settled lp o x : plain lp -> mark_ok lp o x -> settled x.
Proof. unfold plain. intros Hp [Hm _]. destruct (marking lp) as [[]|]; done. Qed.

Lemma settled_mark lp o x :
  plain lp -> (forall p, lp <> Some (RSend o p)) -> settled x -> mark_ok lp o x.
Proof.
  unfold plain. intros Hp Hs S. split; [destruct (marking lp) as [[]|]; done |].
  intros p Hp'. by destruct (Hs p).
Qed.

Lemma mark_move lp lp' o x :
  mark_ok lp o x -> plain lp -> plain lp' -> (forall p, lp' <> Some (RSend o p)) -> mark_ok lp' o x.
Proof. intros M Hp Hp' Hs. apply settled_mark; [done | done | exact (mark_settled _ _ _ Hp M)]. Qed.

Lemma obj_relax lp pc sk pu m o x :
  plain lp -> relaxed pc = true ->
  obj_ok lp sk pu m o x -> obj_ok (Some pc) sk pu m o x.
Proof.
  intros Hp Hr [D M S U G [R1 R2]]. split; [done | | done | done | done |].
  - apply settled_mark; [by destruct pc | by destruct pc | by eapply mark_settled].
  - split; [done |]. intros Hf. destruct (R2 Hf) as [? _]. split; [done | by destruct pc].
Qed.

(** ** What a step of the read loop establishes *)

Record loop_post (T : gmap cwho cthread) (m : cmem) (lp' : option readLoop_pc) (m' : cmem) : Prop := {
  lp_ok : loop_ok lp' m';
  lp_global : global_ok m';
  lp_ids : c_ids m' = c_ids m;
  lp_next : next_sock m' = next_sock m;
  lp_dom o : c_heap m' !! o = None <-> c_heap m !! o = None;
  lp_obj o x : c_heap m' !! o = Some x ->
    obj_ok lp' (sock_pc_of T o) (up_pc_of T o) m' o x;
}.

(** A step that touches no object and no table. *)
Lemma loop_post_relax T m lp pc m' :
  (forall o x, c_heap m !! o = Some x -> obj_ok lp (sock_pc_of T o) (up_pc_of T o) m o x) ->
  plain lp -> relaxed pc = true ->
  loop_ok (Some pc) m' -> global_ok m' -> c_ids m' = c_ids m -> next_sock m' = next_sock m ->
  c_heap m' = c_heap m -> c_streams m' = c_streams m ->
  (c_closed m = true -> c_closed m' = true) -> (forall e, e ∈ c_wire m -> e ∈ c_wire m') ->
  loop_post T m (Some pc) m'.
Proof.
  intros HO Hp Hr Hl Hg Hi Hn Hh Hs Hc Hw. split; try done; rewrite Hh; [done |].
  intros o x Hx. apply (obj_ok_mem _ _ _ m); [done | by rewrite Hs | done | done |].
  eapply obj_relax; eauto.
Qed.

(** A step that changes one object and goes on. *)
Lemma loop_post_obj T m lp pc o1 f :
  (forall o x, c_heap m !! o = Some x -> obj_ok lp (sock_pc_of T o) (up_pc_of T o) m o x) ->
  plain lp -> relaxed pc = true -> (forall x, cs_id (f x) = cs_id x) ->
  loop_ok (Some pc) (on_stream o1 f m) -> global_ok (on_stream o1 f m) ->
  (forall x, c_heap m !! o1 = Some x ->
     obj_ok (Some pc) (sock_pc_of T o1) (up_pc_of T o1) m o1 x ->
     obj_ok (Some pc) (sock_pc_of T o1) (up_pc_of T o1) m o1 (f x)) ->
  loop_post T m (Some pc) (on_stream o1 f m).
Proof.
  intros HO Hp Hr Hid Hl Hg Hf. split; try done; [apply on_stream_dom |].
  intros o x' Hx'. apply (obj_ok_mem _ _ _ m); [done.. |].
  destruct (on_stream_lookup _ _ _ _ _ Hx') as [(-> & x & Hx & ->) | (Hne & Hx)].
  - apply Hf; [done |]. eapply obj_relax; eauto.
  - eapply obj_relax; eauto.
Qed.

(** ** Global facts *)

Lemma global_on_stream o f m :
  (forall x, cs_id (f x) = cs_id x) -> global_ok m -> global_ok (on_stream o f m).
Proof.
  intros Hf [P N Q Z I X T S]. split; try done.
  - intros sid o' Ho. destruct (T sid o' Ho) as (x & Hx & Hi).
    destruct (on_stream_kept o f m Hf o' x Hx) as (x' & Hx' & Hi'). exists x'. by rewrite Hi'.
  - intros n x' Hx'. destruct (on_stream_lookup _ _ _ _ _ Hx') as [(-> & x & Hx & _) | (_ & Hx)]; eauto.
Qed.

Lemma global_count_read m : global_ok m -> global_ok (count_read m).
Proof. by intros []. Qed.

Lemma delivered_snoc w n sf ok :
  delivered (w ++ [(n, sf, ok)]) = if ok then delivered w ++ [(n, sf)] else delivered w.
Proof.
  unfold delivered. rewrite filter_app, fmap_app. destruct ok; cbn.
  - rewrite decide_True by done. done.
  - rewrite decide_False by done. by rewrite app_nil_r.
Qed.

(** A frame write: its effects, apart from the wire. *)
Lemma c_write_spec ok sf m :
  let '(r, m') := c_write ok sf m in
  c_heap m' = c_heap m /\ c_streams m' = c_streams m /\ c_ids m' = c_ids m /\
  c_closed m' = c_closed m /\ next_sock m' = next_sock m /\
  (forall e, e ∈ c_wire m -> e ∈ c_wire m') /\
  (global_ok m -> global_ok m') /\
  (if r then c_closed m = false /\ len (sf_payload sf) <= maxStreamPayloadV2 /\
             delivered (c_wire m') = delivered (c_wire m) ++ [(c_seqWrite m, sf)]
   else (len (sf_payload sf) <= maxStreamPayloadV2 ->
         c_closed m = true \/ (c_seqWrite m, sf, false) ∈ c_wire m')).
Proof.
  unfold c_write. destruct (_ <? len _) eqn:E; bool_facts.
  { split_and!; try done. intros. lia. }
  destruct (c_closed m) eqn:Ec; [split_and!; try done; by left |].
  cbn [c_heap c_streams c_ids c_closed next_sock c_wire].
  split_and!; try done.
  - intros e He. apply elem_of_app. by left.
  - intros [P N Q Z I X T S]. split; try done; cbn [c_wire c_seqWrite].
    + intros w1 n sf' ok' w2. destruct w2 as [|e w2 _] using rev_ind.
      * intros [Ew [= <- <- <-]]%app_inj_tail. by rewrite Ew in Q.
      * rewrite app_comm_cons, app_assoc. intros [Ew _]%app_inj_tail. by eapply N.
    + rewrite delivered_snoc. destruct (_ && _); [| done].
      rewrite Q, len_app, len_cons, len_nil. rewrite Zplus_mod_idemp_l. f_equal. lia.
    + apply Forall_app. by split; [| apply Forall_singleton].
  - rewrite delivered_snoc. destruct (_ && _); [done |].
    intros _. right. apply elem_of_app. right. by apply list_elem_of_singleton.
Qed.

Lemma global_upd_streams f m :
  (forall sid o, f (c_streams m) !! sid = Some o -> c_streams m !! sid = Some o) ->
  global_ok m -> global_ok (upd_streams f m).
Proof. intros Hf [P N Q Z I X T S]. split; try done. intros sid o Ho. apply T. by apply Hf. Qed.

Lemma global_set_closed m : global_ok m -> global_ok (set_c_closed m).
Proof. by intros []. Qed.
Lemma global_close_conn m : global_ok m -> global_ok (close_c_conn m).
Proof. by intros []. Qed.
#[export] Hint Resolve global_on_stream global_count_read global_set_closed global_close_conn : mxtr.

(** ** Ids *)

Lemma ids_S n : ids (S n) = ((1 + 2 * Z.of_nat n) mod 2 ^ 32) :: ids n.
Proof. unfold ids. by rewrite seq_S, rev_unit. Qed.

Lemma ids_NoDup n : Z.of_nat n <= 2 ^ 31 -> NoDup (ids n).
Proof.
  intros Hn. unfold ids. apply NoDup_fmap_2_strong.
  - intros i j Hi Hj. rewrite list_elem_of_In, <-in_rev, <-list_elem_of_In, elem_of_seq in Hi, Hj.
    intros E. assert (Hi' : 0 <= 1 + 2 * Z.of_nat i < 2 ^ 32) by lia.
    assert (Hj' : 0 <= 1 + 2 * Z.of_nat j < 2 ^ 32) by lia.
    rewrite !Z.mod_small in E by done. lia.
  - apply NoDup_ListNoDup, NoDup_rev, NoDup_ListNoDup, NoDup_seq.
Qed.

(** Within 2^31 opens, an id belongs to one connection. *)
Lemma id_unique m sid o o' :
  global_ok m -> few_ids m -> (sid, o) ∈ c_ids m -> (sid, o') ∈ c_ids m -> o = o'.
Proof.
  intros G Hf Ho Ho'. assert (Hn : NoDup (c_ids m).*1).
  { rewrite (gl_ids m G). apply ids_NoDup. unfold few_ids, len in Hf. lia. }
  clear G Hf. induction (c_ids m) as [|[s p] l IH]; [by apply elem_of_nil in Ho |].
  cbn in Hn. apply NoDup_cons in Hn as [Hs Hn].
  apply elem_of_cons in Ho as [Ho | Ho]; apply elem_of_cons in Ho' as [Ho' | Ho']; simplify_eq; try done.
  - exfalso. apply Hs. apply list_elem_of_fmap. by exists (s, o').
  - exfalso. apply Hs. apply list_elem_of_fmap. by exists (s, o).
  - by apply IH.
Qed.

(** ** [markClosed] *)

Definition mark_at (k : option marker) (o : nat) (x : cstream) : Prop :=
  match k with
  | Some (MChan o') =>
      if decide (o' = o) then cs_closed x = true /\ shut (incoming x) = false else settled x
  | Some (MCast o') =>
      if decide (o' = o) then cs_closed x = true /\ shut (incoming x) = true else settled x
  | _ => settled x
  end.

Definition marked_obj (k : marker) : nat := match k with MCas o | MChan o | MCast o => o end.

(** Everything but the registration of the stream. *)
Definition core_ok (k : option marker) (sk : option sock_pc) (pu : option up_pc)
    (m : cmem) (o : nat) (x : cstream) : Prop :=
  data_ok x /\ mark_at k o x /\ sock_ok sk pu x /\ up_ok pu x /\ gap_ok m x.

Lemma obj_core lp sk pu m o x : obj_ok lp sk pu m o x -> core_ok (marking lp) sk pu m o x.
Proof. intros [D [M _] S U G _]. by split_and!. Qed.

Lemma core_obj lp sk pu m o x :
  (forall p, lp <> Some (RSend o p)) -> core_ok (marking lp) sk pu m o x -> reg_ok lp m o x ->
  obj_ok lp sk pu m o x.
Proof. intros Hs (D & M & S & U & G) R. split; try done. split; [done |]. intros p Hp. by destruct (Hs p). Qed.

Lemma win_wake_ok w : window_ok w -> window_ok (win_wake w).
Proof. by intros [A B C D]; split. Qed.

Lemma up_ok_wake pu x : up_ok pu x -> up_ok pu (set_win win_wake x).
Proof. by intros [A B C]; split. Qed.

(** Some fields the steps of [markClosed] leave alone. *)
Definition same_stream (x x' : cstream) : Prop :=
  cs_id x' = cs_id x /\ cs_life x' = cs_life x /\ (cs_closed x = true -> cs_closed x' = true).

Lemma mark_step_spec (sk : nat -> option sock_pc) (pu : nat -> option up_pc) k m r m' :
  mark_step k m = (r, m') ->
  (forall o x, c_heap m !! o = Some x -> core_ok (Some k) (sk o) (pu o) m o x) ->
  marker_ok m k (fun _ => True) -> global_ok m ->
  (exists f, m' = on_stream (marked_obj k) f m /\ (forall x, cs_id (f x) = cs_id x) /\
     forall x, c_heap m !! marked_obj k = Some x -> same_stream x (f x) /\
       cs_closed (f x) = true) /\
  (forall k', r = Some k' -> marked_obj k' = marked_obj k) /\
  forall o x, c_heap m' !! o = Some x -> core_ok r (sk o) (pu o) m o x.
Proof.
  intros Hs HO Hk G. destruct k as [o1 | o1 | o1]; cbn in Hs, Hk |- *;
    destruct Hk as (x1 & Hx1 & _); try rewrite Hx1 in Hs.
  - destruct (cs_closed x1) eqn:Ec; simplify_eq.
    + split_and!; [| done | exact HO]. exists id. split_and!; [| done |].
      * destruct m'. unfold on_stream, upd_heap. cbn. by rewrite alter_id.
      * intros x Hx. assert (x = x1) as -> by congruence. done.
    + split_and!; [by exists set_cs_closed | by intros k' [= <-] |].
      intros o x' [(-> & x & Hx & ->) | (Hne & Hx)]%on_stream_lookup.
      * assert (x = x1) as -> by congruence. destruct (HO _ _ Hx) as (D & M & S & U & Gp).
        split_and!; [by destruct D | | by destruct (sk o1) as [[]|] | by destruct U | ].
        -- cbn. rewrite decide_True by done. split; [done |]. destruct M as [M _]. by rewrite M.
        -- intros _. by left.
      * destruct (HO _ _ Hx) as (D & M & S & U & Gp). split_and!; try done.
        cbn. by rewrite decide_False.
  - destruct (HO _ _ Hx1) as (D & M & S & U & Gp). cbn in M. rewrite decide_True in M by done.
    destruct M as [Mc Ms]. rewrite Ms in Hs. simplify_eq.
    split_and!; [| by intros k' [= <-] |].
    { eexists. split_and!; [done | done |]. intros x Hx. by assert (x = x1) as -> by congruence. }
    intros o x' [(-> & x & Hx & ->) | (Hne & Hx)]%on_stream_lookup.
    + assert (x = x1) as -> by congruence.
      split_and!; [by destruct D | | by destruct (sk o1) as [[]|] | by destruct U | done].
      cbn. by rewrite decide_True.
    + destruct (HO _ _ Hx) as (D' & M' & S' & U' & Gp'). split_and!; try done.
      cbn in M' |- *. by rewrite decide_False in * by done.
  - simplify_eq. destruct (HO _ _ Hx1) as (D & M & S & U & Gp). cbn in M.
    rewrite decide_True in M by done. destruct M as [Mc Ms].
    split_and!; [| done |].
    + exists (set_win win_wake). split_and!; [done | done |].
      intros x Hx. assert (x = x1) as -> by congruence. done.
    + intros o x' [(-> & x & Hx & ->) | (Hne & Hx)]%on_stream_lookup.
      * assert (x = x1) as -> by congruence.
        split_and!; [| | | by apply up_ok_wake | done].
        -- destruct D as [A B C W]. split; try done. by apply win_wake_ok.
        -- split; cbn; [by rewrite Ms, Mc | done].
        -- destruct (sk o1) as [[]|]; cbn in *; unfold untouched in *; cbn; naive_solver.
      * destruct (HO _ _ Hx) as (D' & M' & S' & U' & Gp'). split_and!; try done.
        cbn in M' |- *. by rewrite decide_False in M'.
Qed.

(** ** The cases *)

Lemma be4_bound p : 4 <= len p -> 0 <= be_get (take 4 p) < 2 ^ 32.
Proof.
  intros Hp. pose proof (be_get_bound (take 4 p)) as H.
  assert (len (take 4 p) = 4) as E by zlen. rewrite E in H. exact H.
Qed.

Lemma i64_small z : - 2 ^ 63 <= z < 2 ^ 63 -> i64 z = z.
Proof. intros. unfold i64. rewrite Z.mod_small by lia. lia. Qed.

Lemma win_open_ok v w : 0 <= v < 2 ^ 32 -> window_ok w -> window_ok (win_open v w).
Proof. intros Hv [A B C D]. split; cbn; try done; lia. Qed.

Lemma win_credit_ok n w : 0 <= n < 2 ^ 32 -> window_ok w -> window_ok (win_credit n w).
Proof.
  intros Hn [A B C D]. split; cbn; try done. intros Hg.
  destruct A as [A1 A2]; [lia |]. rewrite i64_small by lia. lia.
Qed.

(** A critical section of the read loop under [winMu]. *)
Lemma obj_set_win f lp sk pu m o x :
  relaxed lp = true -> (window_ok (win x) -> window_ok (f (win x))) ->
  w_taken (f (win x)) = w_taken (win x) ->
  (parked (f (win x)) = true ->
     parked (win x) = true /\ ((w_oks (f (win x)) <= 1)%nat -> (w_oks (win x) <= 0)%nat \/ f (win x) = win x)) ->
  obj_ok (Some lp) sk pu m o x -> obj_ok (Some lp) sk pu m o (set_win f x).
Proof.
  intros Hr Hw Ht Hp [[A B C W] [M Ms] S [U1 U2 U3] G R]. pose proof (relaxed_marking lp Hr) as Hm.
  rewrite Hm in M. split.
  - split; try done. by apply Hw.
  - split; [rewrite Hm | done]. destruct M as [M1 M2]. split; [done |]. cbn. intros Hc.
    destruct (parked (f (win x))) eqn:E; [| done]. destruct (Hp eq_refl) as [Hp' _].
    by rewrite M2 in Hp'.
  - assert (Hu : untouched x -> untouched (set_win f x)).
    { intros (? & ? & ? & ? & ? & Hpk). split_and!; try done. cbn.
      destruct (parked (f (win x))) eqn:E; [| done]. destruct (Hp eq_refl) as [Hp' _]. congruence. }
    destruct sk as [[]|]; cbn in *; naive_solver.
  - split; [done | cbn; by rewrite Ht |]. cbn. intros E. destruct (Hp E) as [E' Hf].
    destruct (U3 E') as (rest & fin & -> & Hlt). exists rest, fin. split; [done |].
    intros Ho Hg. destruct (Hf Ho) as [Ho' | Heq].
    + pose proof (wo_flow _ W (wo_parked _ W E')). lia.
    + rewrite Heq in *. auto.
  - done.
  - done.
Qed.

Section Cases.
Context (T : gmap cwho cthread) (m : cmem).

Abbreviation objs lp := (forall o x, c_heap m !! o = Some x ->
  obj_ok lp (sock_pc_of T o) (up_pc_of T o) m o x).
Abbreviation post := (loop_post T m).

(** The result of a step of the read loop. *)
Definition loop_result (r : coutcome) : Prop :=
  match r with
  | None => True
  | Some (t', m', ts) => ts = [] /\ exists lp', t' = CtLoop <$> lp' /\ post lp' m'
  end.

Lemma result_goto pc m' : post (Some pc) m' -> loop_result (cnext (CtLoop pc) m').
Proof. intros H. split; [done |]. by exists (Some pc). Qed.
Lemma result_exit m' : post None m' -> loop_result (cexit m').
Proof. intros H. split; [done |]. by exists None. Qed.

Lemma case_read e :
  objs (Some RRead) -> c_closed m = false -> global_ok m -> loop_result (readLoop_step RRead e m).
Proof.
  intros HO Hc G. destruct e; try done; cbn [readLoop_step].
  - destruct (_ && _); [| done]. destruct (parse_stream_frame pt) as [sf | e' |] eqn:E.
    + apply result_goto. eapply loop_post_relax; eauto with mxtr; done.
    + apply result_goto. eapply loop_post_relax; eauto with mxtr; done.
    + by destruct (parse_no_panic pt).
  - apply result_goto. eapply loop_post_relax; eauto with mxtr; done.
Qed.

Lemma case_mark_start sid o :
  objs (Some (RLoad (SFrame sid v2TypeClose []))) -> c_closed m = false -> global_ok m -> c_streams m !! sid = Some o ->
  post (Some (RMark sid (MCas o))) m.
Proof.
  intros HO Hc G Ho. split; try done.
  - split; [done |]. cbn. by apply (gl_table m G).
  - intros o' x Hx. destruct (HO o' x Hx) as [D M S U Gp [R1 R2]]. split; try done.
    by eapply mark_move.
Qed.

Lemma case_load sf e :
  objs (Some (RLoad sf)) -> c_closed m = false -> global_ok m ->
  loop_result (readLoop_step (RLoad sf) e m).
Proof.
  intros HO Hc G. destruct e; try done. apply result_goto. destruct sf as [sid t p]. cbn [sf_id].
  assert (Hrel : forall pc, relaxed pc = true -> loop_ok (Some pc) m -> post (Some pc) m)
    by (intros; eapply loop_post_relax; eauto; done).
  unfold readLoop_dispatch. destruct (c_streams m !! sid) as [o|] eqn:Es.
  2: { repeat gcase; apply Hrel; done. }
  repeat gcase; try (apply Hrel; [done | first [done | split; [done | by apply be4_bound]]]).
  apply case_mark_start; try done.
  intros o' x Hx. eapply obj_relax; [| done | by apply HO]. done.
Qed.

Lemma case_win o v e :
  objs (Some (RWin o v)) -> loop_ok (Some (RWin o v)) m -> global_ok m ->
  loop_result (readLoop_step (RWin o v) e m).
Proof.
  intros HO [Hc Hv] G. destruct e; try done. apply result_goto.
  eapply loop_post_obj; eauto with mxtr; try done.
  intros x Hx O. apply obj_set_win; try done.
  - by apply win_open_ok.
  - cbn. intros Hp. split; [done |]. intros. left. lia.
Qed.

Lemma case_credit o n e :
  objs (Some (RCredit o n)) -> loop_ok (Some (RCredit o n)) m -> global_ok m ->
  loop_result (readLoop_step (RCredit o n) e m).
Proof.
  intros HO [Hc Hv] G. destruct e; try done. apply result_goto.
  eapply loop_post_obj; eauto with mxtr; try done.
  intros x Hx O. apply obj_set_win; try done. by apply win_credit_ok.
Qed.

(** Changing only the results of [open]. *)
Lemma obj_tokens lp sk pu o ok err x :
  obj_ok lp sk pu m o x -> obj_ok lp sk pu m o (set_openOK ok (set_openErr err x)).
Proof.
  intros [[A B C D] M S [U1 U2 U3] G R]. by split.
Qed.

Lemma case_ok o e :
  objs (Some (ROk o)) -> c_closed m = false -> global_ok m -> loop_result (readLoop_step (ROk o) e m).
Proof.
  intros HO Hc G. destruct e; try done. apply result_goto.
  eapply loop_post_obj; eauto with mxtr; try done.
  intros x Hx O. apply (obj_tokens _ _ _ _ true (openErr x)) in O. by destruct x.
Qed.

Lemma case_err o msg e :
  objs (Some (RErr o msg)) -> c_closed m = false -> global_ok m ->
  loop_result (readLoop_step (RErr o msg) e m).
Proof.
  intros HO Hc G. destruct e; try done. apply result_goto.
  assert (forall x, cs_id (match openErr x with None => set_openErr (Some msg) x | Some _ => x end) = cs_id x)
    by (intros x; by destruct (openErr x)).
  eapply loop_post_obj; eauto with mxtr; try done.
  intros x Hx O. destruct (openErr x); [done |].
  apply (obj_tokens _ _ _ _ (openOK x) (Some msg)) in O. by destruct x.
Qed.

Lemma case_deliver o p e :
  objs (Some (RDeliver o p)) -> c_closed m = false -> global_ok m ->
  loop_result (readLoop_step (RDeliver o p) e m).
Proof.
  intros HO Hc G. destruct e; try done. cbn [readLoop_step].
  destruct (c_heap m !! o) as [x|] eqn:Hx; [| done].
  destruct (cs_closed x) eqn:Ec; apply result_goto.
  { eapply loop_post_relax; eauto; done. }
  split; try done. intros o' x' Hx'. destruct (HO o' x' Hx') as [D M S U Gp [R1 R2]]. split; try done.
  split; [by eapply mark_settled, M |]. intros p' [= -> <-]. congruence.
Qed.

Lemma chan_push_ok lp sk pu o x p :
  relaxed lp = true -> len (items (incoming x)) < incomingCap ->
  obj_ok (Some lp) sk pu m o x -> obj_ok (Some lp) sk pu m o (chan_push p x).
Proof.
  intros Hr Hl [[A B C D] M S [U1 U2 U3] G R]. split; try done.
  - split; try done; cbn.
    + rewrite A, concat_app, <-!app_assoc. cbn. by rewrite app_nil_r.
    + zlen.
Qed.

Lemma case_send o p e :
  objs (Some (RSend o p)) -> c_closed m = false -> global_ok m ->
  loop_result (readLoop_step (RSend o p) e m).
Proof.
  intros HO Hc G. destruct e; try done. cbn [readLoop_step].
  destruct (c_heap m !! o) as [x|] eqn:Hx; [| done].
  destruct (oo_mark _ _ _ _ _ _ (HO o x Hx)) as [[Msh _] Mcl]. rewrite (Mcl p eq_refl) in Msh.
  rewrite Msh. destruct (_ <? incomingCap) eqn:El; bool_facts; [| done]. apply result_goto.
  eapply loop_post_obj; eauto with mxtr; try done.
  intros x' Hx' O. assert (x' = x) as -> by congruence. by apply chan_push_ok.
Qed.

Lemma case_pong p e :
  objs (Some (RPong p)) -> c_closed m = false -> global_ok m ->
  loop_result (readLoop_step (RPong p) e m).
Proof.
  intros HO Hc G. destruct e; try done. cbn [readLoop_step]. apply result_goto.
  pose proof (c_write_spec ok (SFrame 0 v2TypePong p) m) as W.
  destruct (c_write _ _ _) as [r m']. cbn [snd]. destruct W as (Hh & Hs & Hi & Hcl & Hn & Hw & Hg & _).
  eapply loop_post_relax; eauto; try done; cbn; congruence.
Qed.

(** One step of [markClosed] under any continuation of the loop. *)
Lemma case_mark lp lp' k r m' :
  mark_step k m = (r, m') -> marking lp = Some k -> marking lp' = r ->
  objs lp -> marker_ok m k (fun _ => True) -> global_ok m -> loop_ok lp' m' ->
  (forall p o, lp' <> Some (RSend o p)) ->
  (forall o x x', c_heap m !! o = Some x -> same_stream x x' ->
     (o = marked_obj k -> cs_closed x' = true) ->
     (forall k', r = Some k' -> marked_obj k' = marked_obj k) ->
     reg_ok lp m o x -> reg_ok lp' m o x') ->
  post lp' m'.
Proof.
  intros Hs Hk Hr HO Hm G L Hsend HR.
  assert (HC : forall o x, c_heap m !! o = Some x ->
    core_ok (Some k) (sock_pc_of T o) (up_pc_of T o) m o x).
  { intros o x Hx. rewrite <-Hk. by apply obj_core, HO. }
  destruct (mark_step_spec (sock_pc_of T) (up_pc_of T) k m r m' Hs HC Hm G)
    as ((f & -> & Hf & Hsame) & Hkk & HC').
  split; [done | by apply global_on_stream | done | done | apply on_stream_dom |].
  intros o x' Hx'. apply (obj_ok_mem _ _ _ m); [done.. |].
  apply core_obj; [done | rewrite Hr; by apply HC' |].
  destruct (on_stream_lookup _ _ _ _ _ Hx') as [(-> & x & Hx & ->) | (Hne & Hx)].
  - destruct (Hsame x Hx) as [Hsm Hcl]. eapply HR; eauto. apply HO; done.
  - apply (HR o x' x'); [done | done | by intros -> | done | by apply HO].
Qed.

(** The stream stays registered while it is being marked. *)
Lemma reg_same lp o x x' :
  same_stream x x' -> reg_ok lp m o x ->
  (cs_id x', o) ∈ c_ids m /\
  (few_ids m -> cs_closed x' = true \/ dropped (cs_life x') = true \/ c_streams m !! cs_id x' = Some o).
Proof.
  intros (Hi & Hl & Hc) [R1 R2]. rewrite Hi, Hl. split; [done |].
  intros Hf. destruct (R2 Hf) as [[? | ?] _]; auto.
Qed.

Lemma live_same x x' : same_stream x x' -> live x' -> live x.
Proof.
  intros (Hi & Hl & Hc) (H1 & H2 & H3). rewrite Hl in H1, H2. split_and!; [done.. |].
  destruct (cs_closed x); [by rewrite Hc in H3 | done].
Qed.

Lemma marker_kept (P : cstream -> Prop) k k' f :
  (forall x, P x -> P (f x)) -> marked_obj k' = marked_obj k ->
  marker_ok m k P -> marker_ok (on_stream (marked_obj k) f m) k' P.
Proof.
  intros Hf Hk Hm. assert (exists x, c_heap m !! marked_obj k = Some x /\ P x) as (x & Hx & Hp)
    by by destruct k.
  assert (exists x, c_heap (on_stream (marked_obj k) f m) !! marked_obj k' = Some x /\ P x) as Hr.
  { exists (f x). rewrite Hk. cbn. rewrite lookup_alter_eq, Hx. auto. }
  by destruct k'.
Qed.

Lemma case_rmark sid k e :
  objs (Some (RMark sid k)) -> loop_ok (Some (RMark sid k)) m -> global_ok m ->
  loop_result (readLoop_step (RMark sid k) e m).
Proof.
  intros HO [Hc Hm] G. destruct e; try done. cbn [readLoop_step].
  assert (Hm' : marker_ok m k (fun _ => True)) by (destruct k; naive_solver).
  destruct (mark_step k m) as [r m1] eqn:Es.
  assert (HC : forall o x, c_heap m !! o = Some x -> core_ok (Some k) (sock_pc_of T o) (up_pc_of T o) m o x).
  { intros o x Hx. by apply (obj_core (Some (RMark sid k))), HO. }
  destruct (mark_step_spec _ _ k m r m1 Es HC Hm' G) as ((f & E & Hf & _) & Hkk & _).
  destruct r as [k'|]; apply result_goto.
  - eapply (case_mark (Some (RMark sid k)) (Some (RMark sid k'))); try done.
    + split; [by rewrite E |]. rewrite E. apply marker_kept; auto. intros x Hx. by rewrite Hf.
    + intros o x x' Hx Hs _ _ R. destruct (reg_same _ _ _ _ Hs R) as [? R2]. split; [done |]. auto.
  - assert (exists x, c_heap m !! marked_obj k = Some x /\ cs_id x = sid) as (xk & Hxk & Hik) by by destruct k.
    eapply (case_mark (Some (RMark sid k)) (Some (RDelete sid))); try done.
    + split; [by rewrite E |]. destruct (on_stream_kept (marked_obj k) f m Hf _ _ Hxk) as (x' & Hx' & Hi').
      exists (marked_obj k), x'. rewrite E. split; [done | congruence].
    + intros o x x' Hx Hs Hcl _ R. destruct (reg_same _ _ _ _ Hs R) as [R1 R2]. split; [done |].
      intros Hfew. split; [auto |]. intros Hi. apply Hcl.
      apply (id_unique m sid); [done | done | by rewrite <-Hi |].
      rewrite <-Hik. by apply (oo_reg _ _ _ _ _ _ (HO _ _ Hxk)).
Qed.

Lemma case_delete sid e :
  objs (Some (RDelete sid)) -> loop_ok (Some (RDelete sid)) m -> global_ok m ->
  loop_result (readLoop_step (RDelete sid) e m).
Proof.
  intros HO [Hc _] G. destruct e; try done. apply result_goto. split; try done.
  - apply global_upd_streams; [| done]. intros k o. by intros [_ ?]%lookup_delete_Some.
  - intros o x Hx. destruct (HO o x Hx) as [D M S U Gp [R1 R2]].
    split; [done | by eapply mark_move | done | done | try done |].
    split; [done |]. intros Hfew. destruct (R2 Hfew) as [Ha Hcl]. split; [| done].
    destruct (decide (cs_id x = sid)) as [Hi | Hi]; [left; auto |].
    cbn. rewrite lookup_delete_ne by done. done.
Qed.

Lemma case_close e :
  objs (Some RClose) -> c_closed m = false -> global_ok m ->
  loop_result (readLoop_step RClose e m).
Proof.
  intros HO Hc G. destruct e; try done. cbn [readLoop_step]. rewrite Hc. apply result_goto.
  split; try done; [by apply global_set_closed |].
  intros o x Hx. destruct (HO o x Hx) as [D M S U Gp [R1 R2]].
    split; [done | by eapply mark_move | done | done | try done |].
  { by eapply gap_ok_mono; [| | exact Gp]. }
  split; [done |]. intros Hfew. destruct (R2 Hfew) as [Ha _]. split; [done |].
    intros (_ & Hd & Hcl). apply elem_of_dom. destruct Ha as [? | [? | ->]]; [congruence.. | done].
Qed.

Lemma reg_range lp o x todo :
  reg_ok lp m o x -> (few_ids m -> live x -> cs_id x ∈ todo) -> forall vis, reg_ok (Some (RRange todo vis)) m o x.
Proof. intros [R1 R2] H vis. split; [done |]. intros Hf. destruct (R2 Hf). auto. Qed.

Lemma case_range todo vis e :
  objs (Some (RRange todo vis)) -> c_closed m = true -> global_ok m ->
  loop_result (readLoop_step (RRange todo vis) e m).
Proof.
  intros HO Hc G. destruct e; try done; cbn [readLoop_step].
  - destruct (decide (todo = ∅)) as [-> |]; [| done]. apply result_goto. split; try done.
    intros o x Hx. destruct (HO o x Hx) as [D M S U Gp [R1 R2]].
    split; [done | by eapply mark_move | done | done | try done |].
    split; [done |]. intros Hf. destruct (R2 Hf) as [Ha Hl]. split; [done |].
    intros HL. specialize (Hl HL). set_solver.
  - destruct (decide (k ∈ vis)); [done |]. destruct (c_streams m !! k) as [o1|] eqn:Ek.
    + apply result_goto. split; try done.
      { split; [done |]. destruct (gl_table m G k o1 Ek) as (x & Hx & _). by exists x. }
      intros o x Hx. destruct (HO o x Hx) as [D M S U Gp [R1 R2]].
    split; [done | by eapply mark_move | done | done | try done |].
      split; [done |]. intros Hf. destruct (R2 Hf) as [Ha Hl]. split; [done |].
      intros HL. specialize (Hl HL). destruct (decide (cs_id x = k)) as [<- |]; [right | left; set_solver].
      destruct HL as (_ & Hd & Hcl). destruct Ha as [? | [? | Ha]]; congruence.
    + destruct (decide (k ∈ todo)); [| done]. apply result_goto. split; try done.
      intros o x Hx. destruct (HO o x Hx) as [D M S U Gp [R1 R2]].
    split; [done | by eapply mark_move | done | done | try done |].
      split; [done |]. intros Hf. destruct (R2 Hf) as [Ha Hl]. split; [done |].
      intros HL. specialize (Hl HL). destruct (decide (cs_id x = k)) as [<- |]; [| set_solver].
      destruct HL as (_ & Hd & Hcl). destruct Ha as [? | [? | Ha]]; congruence.
Qed.

Lemma case_visit todo vis k e :
  objs (Some (RVisit todo vis k)) -> loop_ok (Some (RVisit todo vis k)) m -> global_ok m ->
  loop_result (readLoop_step (RVisit todo vis k) e m).
Proof.
  intros HO [Hc Hm] G. destruct e; try done. cbn [readLoop_step].
  destruct (mark_step k m) as [r m1] eqn:Es.
  assert (HC : forall o x, c_heap m !! o = Some x -> core_ok (Some k) (sock_pc_of T o) (up_pc_of T o) m o x).
  { intros o x Hx. by apply (obj_core (Some (RVisit todo vis k))), HO. }
  destruct (mark_step_spec _ _ k m r m1 Es HC Hm G) as ((f & E & Hf & Hsm) & Hkk & _).
  destruct r as [k'|]; apply result_goto.
  - eapply (case_mark (Some (RVisit todo vis k)) (Some (RVisit todo vis k'))); try done.
    + split; [by rewrite E |]. rewrite E. by apply marker_kept; auto.
    + intros o x x' Hx Hs Hcl _ R. destruct (reg_same _ _ _ _ Hs R) as [? R2]. split; [done |].
      intros Hfew. split; [auto |]. intros HL. destruct R as [_ R]. destruct (R Hfew) as [_ Hl].
      destruct (Hl (live_same _ _ Hs HL)) as [? | ->]; [by left; destruct Hs as [-> _] |].
      exfalso. destruct HL as (_ & _ & Hc'). by rewrite (Hcl eq_refl) in Hc'.
  - eapply (case_mark (Some (RVisit todo vis k)) (Some (RRange todo vis))); try done; [by rewrite E |].
    intros o x x' Hx Hs Hcl _ R. destruct (reg_same _ _ _ _ Hs R) as [? R2]. split; [done |].
    intros Hfew. split; [auto |]. intros HL. destruct R as [_ R]. destruct (R Hfew) as [_ Hl].
    destruct (Hl (live_same _ _ Hs HL)) as [? | ->]; [by destruct Hs as [-> _] |].
    exfalso. destruct HL as (_ & _ & Hc'). by rewrite (Hcl eq_refl) in Hc'.
Qed.

Lemma case_conn e :
  objs (Some RConn) -> c_closed m = true -> global_ok m -> loop_result (readLoop_step RConn e m).
Proof.
  intros HO Hc G. destruct e; try done. apply result_exit.
  split; [done | by apply global_close_conn | done.. |].
  intros o x Hx. destruct (HO o x Hx) as [D M S U Gp R].
  split; [done | by eapply mark_move | done..].
Qed.
End Cases.

Lemma loop_step_keeps T m pc e :
  (forall o x, c_heap m !! o = Some x -> obj_ok (Some pc) (sock_pc_of T o) (up_pc_of T o) m o x) ->
  loop_ok (Some pc) m -> global_ok m -> loop_result T m (readLoop_step pc e m).
Proof.
  intros HO L G. destruct pc; cbn in L.
  - by apply case_read.
  - by apply case_load.
  - by apply case_win.
  - by apply case_ok.
  - by apply case_err.
  - by apply case_deliver.
  - by apply case_send.
  - by apply case_credit.
  - by apply case_rmark.
  - by apply case_delete.
  - by apply case_pong.
  - by apply case_close.
  - by apply case_range.
  - by apply case_visit.
  - by apply case_conn.
Qed.
