(* ===== verification/ClientSteps.v ===== *)
(** * The client's handlers and upload goroutines keep the invariant *)

From S2P Require Import Prelude Padding StreamFrame Target Client ClientInv ClientLoop.

(** ** What a stream's own goroutines may do to it *)

Definition quiet (x x' : cstream) : Prop :=
  cs_id x' = cs_id x /\ cs_closed x' = cs_closed x /\ shut (incoming x') = shut (incoming x) /\
  (cs_closed x = true -> parked (win x) = false -> parked (win x') = false) /\
  cs_life x' = cs_life x.

Lemma quiet_refl x : quiet x x.
Proof. by split_and!. Qed.

Lemma quiet_settled x x' : quiet x x' -> settled x -> settled x'.
Proof.
  intros (_ & Hc & Hs & Hp & _) [S1 S2]. split; [congruence |]. rewrite Hc. intros E. auto.
Qed.

Lemma quiet_mark lp o x x' : quiet x x' -> mark_ok lp o x -> mark_ok lp o x'.
Proof.
  intros Q [M Ms]. pose proof (quiet_settled _ _ Q) as HS. destruct Q as (_ & Hc & Hs & _).
  split; [| intros p Hp; rewrite Hc; by eapply Ms].
  destruct (marking lp) as [[]|]; try case_decide; rewrite ?Hc, ?Hs; auto.
Qed.

Lemma quiet_live x x' : quiet x x' -> live x' -> live x.
Proof. intros (_ & Hc & _ & _ & Hl). unfold live. by rewrite Hc, Hl. Qed.

Lemma quiet_reg lp m o x x' : quiet x x' -> reg_ok lp m o x -> reg_ok lp m o x'.
Proof.
  intros Q [R1 R2]. pose proof (quiet_live _ _ Q) as HL. destruct Q as (Hi & Hc & _ & _ & Hl).
  unfold reg_ok. rewrite Hi. split; [done |]. intros Hf. destruct (R2 Hf) as [Ha Hb]. rewrite Hc, Hl.
  split; [done |]. destruct lp as [[]|]; auto.
Qed.

Lemma quiet_obj lp sk pu sk' pu' m o x x' :
  quiet x x' -> obj_ok lp sk pu m o x ->
  data_ok x' -> sock_ok sk' pu' x' -> up_ok pu' x' -> gap_ok m x' -> obj_ok lp sk' pu' m o x'.
Proof.
  intros Q [_ M _ _ _ R] D S U G. split; try done; [by eapply quiet_mark | by eapply quiet_reg].
Qed.

(** ** [Read] *)

Lemma copy_pending_spec k c pos q x b x' :
  copy_pending k c pos q x = RBytes b x' -> 0 <= pos ->
  b ++ unread (pending x') = drop (Z.to_nat pos) c /\ 0 <= pendingPos (pending x') /\
  incoming x' = q /\ d_got (down x') = d_got (down x) ++ b /\ d_recv (down x') = d_recv (down x) /\
  d_out (down x') = d_out (down x) /\ win x' = win x /\ up x' = up x /\
  cs_id x' = cs_id x /\ cs_closed x' = cs_closed x /\ cs_life x' = cs_life x.
Proof.
  intros [= <- <-] Hpos. cbn. set (d := drop _ c). pose proof (len_nonneg (take (Z.to_nat k) d)).
  split; [| split_and!; try done; gcase; cbn; lia].
  transitivity (take (Z.to_nat k) d ++ drop (Z.to_nat k) d); [f_equal | apply take_drop].
  assert (Hd : len d = Z.max 0 (len c - pos)) by (unfold d; zlen).
  assert (Ht : len (take (Z.to_nat k) d) = Z.min (Z.max 0 k) (len d)) by (rewrite len_take; lia).
  gcase; cbn.
  - symmetry. apply drop_ge. unfold len in *. lia.
  - unfold d at 2. rewrite drop_drop. unfold len in *. f_equal. lia.
Qed.

Lemma stream_Read_spec k x b x' :
  stream_Read k x = RBytes b x' -> data_ok x ->
  data_ok x' /\ quiet x x' /\ d_got (down x') = d_got (down x) ++ b /\
  d_out (down x') = d_out (down x) /\ up x' = up x /\ win x' = win x.
Proof.
  unfold stream_Read. intros H [F Rm P W]. destruct (pendingChunk (pending x)) as [c|] eqn:Ep.
  - apply copy_pending_spec in H as (Hu & Hp & Hq & Hg & Hr & Ho & Hw & Hup & Hi & Hc & Hl); [| done].
    split_and!; try done; [split; try done | split_and!; try done]; rewrite ?Hr, ?Hg, ?Hq, ?Hw; try done.
    rewrite F. unfold unread at 1. rewrite Ep, <-Hu. by rewrite !app_assoc.
  - destruct (items (incoming x)) as [|c rest] eqn:Eq; [by destruct (shut _) |].
    apply copy_pending_spec in H as (Hu & Hp & Hq & Hg & Hr & Ho & Hw & Hup & Hi & Hc & Hl); [| done].
    split_and!; try done; [split; try done | split_and!; try done]; rewrite ?Hr, ?Hg, ?Hq, ?Hw; try done.
    + rewrite F. unfold unread at 1. rewrite Ep. cbn [concat items app].
      change (drop (Z.to_nat 0) c) with c in Hu. rewrite <-Hu. by rewrite !app_assoc.
    + cbn [items]. zlen.
Qed.

(** ** The rest of the state *)

Lemma loop_ok_kept lp m m' :
  ids_kept m m' -> c_closed m' = c_closed m -> loop_ok lp m -> loop_ok lp m'.
Proof.
  intros Hk Hc. assert (Hmk : forall k P, (forall x x', cs_id x' = cs_id x -> P x -> P x') ->
    marker_ok m k P -> marker_ok m' k P).
  { intros k P HP Hm. assert (exists x, c_heap m !! marked_obj k = Some x /\ P x) as (x & Hx & HPx)
      by by destruct k.
    destruct (Hk _ _ Hx) as (x' & Hx' & Hi).
    assert (exists x, c_heap m' !! marked_obj k = Some x /\ P x) as Hr by eauto. by destruct k. }
  unfold loop_ok. rewrite Hc. destruct lp as [[]|]; try done.
  - intros [? Hm]. split; [done |]. eapply Hmk; [| done]. intros ? ? ->. done.
  - intros [? (o & x & Hx & Hi)]. split; [done |]. destruct (Hk _ _ Hx) as (x' & Hx' & Hi').
    exists o, x'. split; [done | congruence].
  - intros [? Hm]. split; [done |]. by eapply Hmk.
Qed.

(** What a step of connection [n]'s goroutines establishes. *)
Record own_post (T : gmap cwho cthread) (m : cmem) (n : nat)
    (sk : option sock_pc) (pu : option up_pc) (m' : cmem) : Prop := {
  op_loop : loop_ok (loop_pc_of T) m';
  op_global : global_ok m';
  op_ids : forall e, e ∈ c_ids m -> e ∈ c_ids m';
  op_next : next_sock m' = next_sock m;
  op_dom o : o <> n -> (c_heap m' !! o = None <-> c_heap m !! o = None);
  op_early :
    match sk with
    | Some (SStart _ _) => c_heap m' !! n = None
    | Some (SStore sid _ _) => c_heap m' !! n = None /\ (sid, n) ∈ c_ids m'
    | _ => True
    end;
  op_gone : c_heap m' !! n = None -> pu = None;
  op_own x : c_heap m' !! n = Some x -> obj_ok (loop_pc_of T) sk pu m' n x;
  op_obj o x : o <> n -> c_heap m' !! o = Some x ->
    obj_ok (loop_pc_of T) (sock_pc_of T o) (up_pc_of T o) m' o x;
}.

Abbreviation all_ok T m := (forall o x, c_heap m !! o = Some x ->
  obj_ok (loop_pc_of T) (sock_pc_of T o) (up_pc_of T o) m o x).

(** A frame write and a change of the own stream: the usual step. *)
Lemma own_post_obj T m n sk pu m1 f :
  all_ok T m -> loop_ok (loop_pc_of T) m -> global_ok m1 ->
  c_heap m1 = c_heap m -> c_streams m1 = c_streams m -> c_ids m1 = c_ids m ->
  c_closed m1 = c_closed m -> next_sock m1 = next_sock m ->
  (forall e, e ∈ c_wire m -> e ∈ c_wire m1) ->
  is_Some (c_heap m !! n) -> (forall x, cs_id (f x) = cs_id x) ->
  match sk with Some (SStart _ _) | Some (SStore _ _ _) => False | _ => True end ->
  (forall x, c_heap m !! n = Some x ->
     obj_ok (loop_pc_of T) (sock_pc_of T n) (up_pc_of T n) m1 n x ->
     obj_ok (loop_pc_of T) sk pu m1 n (f x)) ->
  own_post T m n sk pu (on_stream n f m1).
Proof.
  intros HO L G Hh Hs Hi Hc Hn Hw [x0 Hx0] Hf Hsk Hown.
  assert (Hm : forall o x, c_heap m !! o = Some x ->
    obj_ok (loop_pc_of T) (sock_pc_of T o) (up_pc_of T o) m1 o x).
  { intros o x Hx. apply (obj_ok_mem _ _ _ m); try done; [by rewrite Hs | congruence | by apply HO]. }
  split.
  - apply (loop_ok_kept _ m); [| done | done]. intros o x Hx. rewrite <-Hh in Hx.
    by apply (on_stream_kept n f m1 Hf).
  - by apply global_on_stream.
  - cbn. by rewrite Hi.
  - done.
  - intros o Hne. rewrite on_stream_dom. by rewrite Hh.
  - by destruct sk as [[]|].
  - rewrite on_stream_dom, Hh, Hx0. done.
  - intros x Hx. destruct (on_stream_lookup _ _ _ _ _ Hx) as [(_ & x1 & Hx1 & ->) | (? & _)]; [| done].
    rewrite Hh in Hx1. apply (obj_ok_mem _ _ _ m1); try done. auto.
  - intros o x Hne Hx. destruct (on_stream_lookup _ _ _ _ _ Hx) as [(? & _) | (_ & Hx')]; [done |].
    rewrite Hh in Hx'. apply (obj_ok_mem _ _ _ m1); try done. auto.
Qed.

(** The parts of [obj_ok] that a step leaves alone. *)
Ltac keep :=
  try done;
  try match goal with
  | H : data_ok _ |- data_ok _ => solve [destruct H; by split]
  | H : up_ok _ _ |- up_ok _ _ => solve [destruct H; by split]
  end.

(** ** The handler *)

Definition sock_result (T : gmap cwho cthread) (m : cmem) (n : nat) (r : coutcome) : Prop :=
  match r with
  | None => True
  | Some (t', m', ts) => exists sk pu, t' = CtSock n <$> sk /\
      ((ts = [] /\ pu = up_pc_of T n) \/ (ts = [CtUp n URead] /\ pu = Some URead)) /\
      own_post T m n sk pu m'
  end.

Lemma sock_goto T m n pc m' :
  own_post T m n (Some pc) (up_pc_of T n) m' -> sock_result T m n (cnext (CtSock n pc) m').
Proof. intros H. exists (Some pc), (up_pc_of T n). split_and!; [done | by left | done]. Qed.
Lemma sock_exit T m n m' :
  own_post T m n None (up_pc_of T n) m' -> sock_result T m n (cexit m').
Proof. intros H. exists None, (up_pc_of T n). split_and!; [done | by left | done]. Qed.

(** Nothing but the handler's place changes. *)
Lemma on_stream_id n m : on_stream n (fun x => x) m = m.
Proof. destruct m. unfold on_stream, upd_heap. cbn. f_equal. apply alter_id. done. Qed.

Section Handler.
Context (T : gmap cwho cthread) (m : cmem) (n : nat).
Context (HO : all_ok T m) (L : loop_ok (loop_pc_of T) m) (G : global_ok m).

Lemma few_ids_mono m' : (len (c_ids m) <= len (c_ids m')) -> few_ids m' -> few_ids m.
Proof. unfold few_ids. lia. Qed.

(** The id goes to [n]; nothing else depends on it. *)
Lemma case_start host port :
  sock_pc_of T n = Some (SStart host port) -> c_heap m !! n = None -> up_pc_of T n = None ->
  sock_result T m n (sock_step n (SStart host port) CTau m).
Proof.
  intros Hs Hn Hu. cbn [sock_step]. unfold alloc_id. apply sock_goto.
  assert (Hsid : ((nextID m + 2) mod 2 ^ 32 - 2) mod 2 ^ 32 = (1 + 2 * len (c_ids m)) mod 2 ^ 32).
  { rewrite (gl_next m G). rewrite Zminus_mod_idemp_l.
    replace (_ + 2 - 2) with ((1 + 2 * len (c_ids m)) mod 2 ^ 32) by lia. by rewrite Zmod_mod. }
  set (sid := (_ - 2) mod 2 ^ 32) in *. split; cbn [c_heap c_ids next_sock].
  - apply (loop_ok_kept _ m); [| done | done]. intros o x Hx. by exists x.
  - destruct G as [P N Q Z I X Tb S]. split; try done; cbn [c_ids nextID].
    + rewrite fmap_cons, I. cbn [length]. rewrite ids_S, Hsid. done.
    + rewrite len_cons, X, Zplus_mod_idemp_l. f_equal. lia.
  - intros e He. apply elem_of_cons. by right.
  - done.
  - done.
  - split; [done |]. apply elem_of_cons. by left.
  - done.
  - intros x Hx. congruence.
  - intros o x Hne Hx. destruct (HO o x Hx) as [D M S U Gp [R1 R2]]. split; try done.
    split; [cbn; apply elem_of_cons; by right |]. intros Hf. apply R2.
    eapply few_ids_mono; [| exact Hf]. cbn [c_ids]. rewrite len_cons. lia.
Qed.

Lemma store_own sid sk :
  c_heap m !! n = None -> (sid, n) ∈ c_ids m ->
  sk = SFail \/ (exists t, sk = SOpen t) ->
  obj_ok (loop_pc_of T) (Some sk) None
    (upd_streams <[sid := n]> (upd_heap <[n := new_cstream sid]> m)) n (new_cstream sid).
Proof.
  intros Hn Hid Hsk. split.
  - by split.
  - split; [| done]. assert (Hne : forall k, marking (loop_pc_of T) = Some k -> marked_obj k <> n).
    { intros k Hk He. assert (exists x, c_heap m !! marked_obj k = Some x) as [x Hx]; [| congruence].
      destruct (loop_pc_of T) as [[]|]; simplify_eq/=;
        destruct L as [_ Hm]; destruct k; destruct Hm as (x & Hx & _); eauto. }
    destruct (marking _) as [[]|] eqn:E; try done; rewrite decide_False by (by apply (Hne _ eq_refl)); done.
  - destruct Hsk as [-> | [t ->]]; done.
  - by split.
  - done.
  - split; [done |]. intros Hf. split.
    + right. right. cbn. by rewrite lookup_insert_eq.
    + destruct (loop_pc_of T) as [[]|]; try done; try (by intros (? & _)).
      destruct L as [_ (o & x & Hx & Hi)]. intros <-. exfalso. cbn in Hi.
      assert (o = n) as ->; [| congruence].
      apply (id_unique m sid); [done | done | | done]. rewrite <-Hi.
      apply (oo_reg _ _ _ _ _ _ (HO o x Hx)).
Qed.

Lemma store_post sid sk :
  up_pc_of T n = None -> c_heap m !! n = None -> (n < next_sock m)%nat -> (sid, n) ∈ c_ids m ->
  sk = SFail \/ (exists t, sk = SOpen t) ->
  own_post T m n (Some sk) (up_pc_of T n)
    (upd_streams <[sid := n]> (upd_heap <[n := new_cstream sid]> m)).
Proof.
  intros Hu Hn Hlt Hid Hsk. set (m' := upd_streams _ _).
  assert (Hk : ids_kept m m').
  { intros o x Hx. exists x. cbn. by rewrite lookup_insert_ne by (intros ->; congruence). }
  split; try done.
  - by apply (loop_ok_kept _ m).
  - destruct G as [P N Q Z I X Tb S]. split; try done; cbn.
    + intros k o [(<- & <-) | (Hne & Ho)]%lookup_insert_Some.
      { exists (new_cstream sid). by rewrite lookup_insert_eq. }
      destruct (Tb k o Ho) as (x & Hx & Hi). destruct (Hk o x Hx) as (x' & Hx' & Hi').
      exists x'. split; [done | congruence].
    + intros o x [(<- & _) | (_ & Ho)]%lookup_insert_Some; [done | by eapply S].
  - intros o Hne. cbn. by rewrite lookup_insert_ne.
  - by destruct Hsk as [-> | [t ->]].
  - intros x Hx. cbn in Hx. rewrite lookup_insert_eq in Hx. simplify_eq. rewrite Hu. by apply store_own.
  - intros o x Hne Hx. cbn in Hx. rewrite lookup_insert_ne in Hx by done.
    destruct (HO o x Hx) as [D M S U Gp [R1 R2]]. split; try done.
    split; [done |]. intros Hf. destruct (R2 Hf) as [Ha Hb]. split; [| done].
    cbn. rewrite lookup_insert_ne; [done |]. intros ->. apply Hne.
    by apply (id_unique m (cs_id x)).
Qed.

Lemma case_store sid host port :
  up_pc_of T n = None -> c_heap m !! n = None -> (n < next_sock m)%nat -> (sid, n) ∈ c_ids m ->
  sock_result T m n (sock_step n (SStore sid host port) CTau m).
Proof.
  intros. cbn [sock_step]. destruct (client_target host port) as [target|];
    apply sock_goto; apply store_post; eauto.
Qed.

(** Steps that only change the own stream. *)
Lemma own_step sk pu f :
  is_Some (c_heap m !! n) -> (forall x, cs_id (f x) = cs_id x) ->
  match sk with Some (SStart _ _) | Some (SStore _ _ _) => False | _ => True end ->
  (forall x, c_heap m !! n = Some x ->
     obj_ok (loop_pc_of T) (sock_pc_of T n) (up_pc_of T n) m n x ->
     obj_ok (loop_pc_of T) sk pu m n (f x)) ->
  own_post T m n sk pu (on_stream n f m).
Proof. intros. by apply own_post_obj. Qed.

Lemma own_move sk pu :
  is_Some (c_heap m !! n) ->
  match sk with Some (SStart _ _) | Some (SStore _ _ _) => False | _ => True end ->
  (forall x, c_heap m !! n = Some x ->
     obj_ok (loop_pc_of T) (sock_pc_of T n) (up_pc_of T n) m n x ->
     obj_ok (loop_pc_of T) sk pu m n x) ->
  own_post T m n sk pu m.
Proof. intros. rewrite <-(on_stream_id n m) at 2. by apply own_step. Qed.

Lemma case_open target ok :
  sock_pc_of T n = Some (SOpen target) -> is_Some (c_heap m !! n) ->
  sock_result T m n (sock_step n (SOpen target) (CWritten ok) m).
Proof.
  intros Hs [x0 Hx0]. cbn [sock_step]. rewrite Hx0.
  pose proof (c_write_spec ok (SFrame (cs_id x0) v2TypeOpen target) m) as W.
  destruct (c_write _ _ _) as [r m1]. destruct W as (Hh & Hst & Hi & Hc & Hn & Hw & Hg & Hr).
  destruct r; apply sock_goto.
  - apply own_post_obj; eauto. intros x Hx [D M S U Gp [R1 R2]]. rewrite Hs in S.
    destruct S as (Hu & Hd & Hun). destruct Hr as (Hcl & _). split; keep.
    split; [done |]. intros Hf. destruct (R2 Hf) as [Ha _]. split; [done |].
    destruct (loop_pc_of T) as [[]|] eqn:E; try done; cbn in L; try naive_solver congruence.
  - rewrite <-(on_stream_id n m1). apply own_post_obj; eauto.
    intros x Hx [D M S U Gp R]. rewrite Hs in S. split; keep.
Qed.

Lemma case_wait e :
  sock_pc_of T n = Some SWait -> is_Some (c_heap m !! n) ->
  sock_result T m n (sock_step n SWait e m).
Proof.
  intros Hs [x0 Hx0]. cbn [sock_step]. rewrite Hx0. destruct e; try done.
  - destruct (openOK x0); [| done]. apply sock_goto. apply own_step; eauto.
    intros x Hx O. apply (obj_tokens _ _ _ _ _ false (openErr x)) in O. rewrite Hs in O. by destruct x, O.
  - destruct (openErr x0); [| done]. apply sock_goto. apply own_step; eauto.
    intros x Hx O. apply (obj_tokens _ _ _ _ _ (openOK x) None) in O. rewrite Hs in O.
    destruct x, O as [D M (? & ? & ? & ?) U Gp R]. by split.
  - apply sock_goto. apply own_move; eauto.
    intros x Hx [D M S U Gp R]. rewrite Hs in S. destruct S as (? & ? & ? & ?). split; keep.
Qed.

Lemma case_sdelete e :
  sock_pc_of T n = Some SDelete -> is_Some (c_heap m !! n) ->
  sock_result T m n (sock_step n SDelete e m).
Proof.
  intros Hs [x0 Hx0]. cbn [sock_step]. rewrite Hx0. destruct e; try done. apply sock_goto.
  assert (Hown : own_post T m n (Some SFail) (up_pc_of T n) (on_stream n mark_dropped m)).
  { apply own_step; eauto. intros x Hx [D M S U Gp [R1 R2]]. rewrite Hs in S.
    destruct S as (? & ? & ?). split; keep. split; [done |]. intros Hf.
    destruct (R2 Hf) as [Ha Hb]. split; [by right; left |].
    destruct (loop_pc_of T) as [[]|]; try done; intros (_ & Hd & _); done. }
  destruct Hown as [A B C D E F H I J]. split; keep.
  - apply global_upd_streams; [| done]. intros k o. by intros [_ ?]%lookup_delete_Some.
  - intros x Hx. destruct (I x Hx) as [D' M S U Gp [R1 R2]]. split; keep.
    split; [done |]. intros Hf. destruct (R2 Hf) as [_ Hb]. split; [| done]. right. left.
    destruct (on_stream_lookup _ _ _ _ _ Hx) as [(_ & x1 & _ & ->) | (? & _)]; done.
  - intros o x Hne Hx. destruct (J o x Hne Hx) as [D' M S U Gp [R1 R2]]. split; keep.
    split; [done |]. intros Hf. destruct (R2 Hf) as [Ha Hb]. split; [| done].
    cbn. rewrite lookup_delete_ne; [done |]. intros Heq. apply Hne.
    apply (id_unique m (cs_id x)); [done | done | done |].
    rewrite <-Heq. apply (oo_reg _ _ _ _ _ _ (HO n x0 Hx0)).
Qed.

Lemma case_sfail e :
  sock_pc_of T n = Some SFail -> is_Some (c_heap m !! n) ->
  sock_result T m n (sock_step n SFail e m).
Proof.
  intros Hs [x0 Hx0]. cbn [sock_step]. rewrite Hx0. destruct e; try done. apply sock_exit.
  apply own_step; eauto. intros x Hx O. rewrite Hs in O. pose proof O as [D M [Hu Hun] U Gp R].
  eapply (quiet_obj _ _ _ _ _ _ _ x); [by split_and! | exact O | by destruct D | | by destruct U | done].
  rewrite Hu. split; [| done]. cbn. destruct Hun as (-> & -> & _). done.
Qed.

Lemma case_reply e :
  sock_pc_of T n = Some SReply -> is_Some (c_heap m !! n) ->
  sock_result T m n (sock_step n SReply e m).
Proof.
  intros Hs [x0 Hx0]. cbn [sock_step]. rewrite Hx0. destruct e; try done.
  exists (Some SDown), (Some URead). split_and!; [done | by right |].
  apply own_move; eauto. intros x Hx [D M S U Gp R]. rewrite Hs in S.
  destruct S as (Hu & Ha & Hd & Hg & Ho & Hin & Hse & Hgap & Hp). rewrite Hu in U.
  split; keep.
  - split_and!; [done | done | by rewrite Hg, Ho].
  - destruct U as [U1 U2 U3]. split; keep. by rewrite Hp.
Qed.

Lemma case_down e :
  sock_pc_of T n = Some SDown -> is_Some (c_heap m !! n) ->
  sock_result T m n (sock_step n SDown e m).
Proof.
  intros Hs [x0 Hx0]. cbn [sock_step]. rewrite Hx0. destruct e as [| | | | | | | |k| |]; try done.
  destruct (0 <? k); [| done]. destruct (stream_Read k x0) as [| | b x'] eqn:Er; [done | |].
  - apply sock_exit. apply own_step; eauto. intros x Hx O. rewrite Hs in O.
    pose proof O as [D M (Ha & Hd & Hg) U Gp R].
    eapply (quiet_obj _ _ _ _ _ _ _ x); [by split_and! | exact O | by destruct D | | by destruct U | done].
    split; [cbn; by rewrite Hg | done].
  - destruct (stream_Read_spec k x0 b x' Er (oo_data _ _ _ _ _ _ (HO n x0 Hx0)))
      as (D' & Q & Hg & Ho & Hup & Hw).
    assert (Hown : forall pc, (pc = SDown /\ b = []) \/ pc = SOut b ->
      own_post T m n (Some pc) (up_pc_of T n) (on_stream n (fun _ => x') m)).
    { intros pc Hpc.
      assert (E : on_stream n (fun _ => x') m = on_stream n (fun y => if decide (cs_id y = cs_id x') then x' else y) m).
      { unfold on_stream, upd_heap. f_equal. apply alter_ext. intros y Hy.
        assert (y = x0) as -> by congruence. destruct Q as [Hi _]. by rewrite Hi, decide_True. }
      rewrite E. apply own_step; eauto.
      - intros y. by case_decide.
      - by destruct Hpc as [[-> _] | ->].
      - intros x Hx O. assert (x = x0) as -> by congruence. pose proof Q as [Hi _].
        rewrite decide_True by congruence. rewrite Hs in O.
        pose proof O as [D M (Ha & Hd & Hgo) U Gp R]. eapply quiet_obj; [exact Q | exact O | done | | |].
        + destruct Q as (_ & _ & _ & _ & Hl). destruct Hpc as [[-> ->] | ->]; cbn; rewrite Hl, Hg, Ho, Hgo; split_and!; try done.
          by rewrite app_nil_r.
        + destruct U as [U1 U2 U3]. by split; rewrite ?Hup, ?Hw.
        + unfold gap_ok. rewrite Hup. destruct Q as (_ & -> & _). done. }
    destruct (0 <? len b) eqn:Eb; bool_facts; apply sock_goto; apply Hown; [by right |].
    left. split; [done |]. apply len_zero_nil. pose proof (len_nonneg b). lia.
Qed.

Lemma case_out b e :
  sock_pc_of T n = Some (SOut b) -> is_Some (c_heap m !! n) ->
  sock_result T m n (sock_step n (SOut b) e m).
Proof.
  intros Hs [x0 Hx0]. cbn [sock_step]. rewrite Hx0.
  destruct e as [| | | | | | | | | |[k|]]; try done.
  - apply sock_exit. apply own_step; eauto. intros x Hx O. rewrite Hs in O.
    pose proof O as [D M (Ha & Hd & Hg) U Gp R].
    eapply (quiet_obj _ _ _ _ _ _ _ x); [by split_and! | exact O | by destruct D | | by destruct U | done].
    split; [| done]. cbn. rewrite Hg. apply prefix_app. exists (drop k b). by rewrite take_drop.
  - apply sock_goto. apply own_step; eauto. intros x Hx O. rewrite Hs in O.
    pose proof O as [D M (Ha & Hd & Hg) U Gp R].
    eapply (quiet_obj _ _ _ _ _ _ _ x); [by split_and! | exact O | by destruct D | | by destruct U | done]. done.
Qed.
End Handler.

(** ** The upload goroutine *)

Definition up_result (T : gmap cwho cthread) (m : cmem) (n : nat) (r : coutcome) : Prop :=
  match r with
  | None => True
  | Some (t', m', ts) => ts = [] /\ exists pu, t' = CtUp n <$> pu /\
      own_post T m n (sock_pc_of T n) pu m'
  end.

Lemma up_goto T m n pc m' :
  own_post T m n (sock_pc_of T n) (Some pc) m' -> up_result T m n (cnext (CtUp n pc) m').
Proof. intros H. split; [done |]. by exists (Some pc). Qed.
Lemma up_exit T m n m' :
  own_post T m n (sock_pc_of T n) None m' -> up_result T m n (cexit m').
Proof. intros H. split; [done |]. by exists None. Qed.

Lemma sock_ok_up sk pc pu' x x' :
  sock_ok sk (Some pc) x -> down x' = down x -> cs_life x' = cs_life x -> sock_ok sk pu' x'.
Proof.
  intros S Hd Hl. destruct sk as [[]|]; cbn in *; rewrite ?Hd, ?Hl; try naive_solver.
Qed.

Lemma piece_drop rest : rest = piece rest ++ drop (length (piece rest)) rest.
Proof.
  unfold piece. rewrite length_take. destruct (decide (length rest <= Z.to_nat maxStreamPayloadV2)%nat).
  - rewrite Nat.min_r by done. rewrite take_ge, drop_all by done. by rewrite app_nil_r.
  - rewrite Nat.min_l by lia. by rewrite take_drop.
Qed.

Lemma len_piece rest : len (piece rest) <= maxStreamPayloadV2.
Proof. unfold piece. rewrite len_take. unfold maxStreamPayloadV2. lia. Qed.

Section Uploader.
Context (T : gmap cwho cthread) (m : cmem) (n : nat) (pc : up_pc) (x0 : cstream).
Context (HO : all_ok T m) (L : loop_ok (loop_pc_of T) m) (G : global_ok m).
Context (Hpc : up_pc_of T n = Some pc) (Hx0 : c_heap m !! n = Some x0).

Lemma not_early : match sock_pc_of T n with Some (SStart _ _) | Some (SStore _ _ _) => False | _ => True end.
Proof.
  pose proof (oo_sock _ _ _ _ _ _ (HO n x0 Hx0)) as S. unfold sock_ok in S. by repeat case_match.
Qed.

(** A step that may also write a frame, from [m] to [m1]. *)
Lemma up_own f pu m1 :
  global_ok m1 -> c_heap m1 = c_heap m -> c_streams m1 = c_streams m -> c_ids m1 = c_ids m ->
  c_closed m1 = c_closed m -> next_sock m1 = next_sock m ->
  (forall e, e ∈ c_wire m -> e ∈ c_wire m1) ->
  (forall x, down (f x) = down x) -> (forall x, cs_id (f x) = cs_id x) ->
  quiet x0 (f x0) -> data_ok (f x0) -> up_ok pu (f x0) -> gap_ok m1 (f x0) ->
  own_post T m n (sock_pc_of T n) pu (on_stream n f m1).
Proof.
  intros G1 Hh Hst Hi Hc Hn Hw Hd Hid Q D U Gp. apply own_post_obj; eauto; [apply not_early |].
  intros x Hx O. assert (x = x0) as -> by congruence. eapply quiet_obj; eauto.
  rewrite Hpc in O. apply (sock_ok_up _ pc pu x0); [by destruct O | done |].
  by destruct Q as (_ & _ & _ & _ & ->).
Qed.

(** A step inside the goroutine. *)
Lemma up_own_local f pu :
  (forall x, down (f x) = down x) -> (forall x, cs_id (f x) = cs_id x) ->
  quiet x0 (f x0) -> data_ok (f x0) -> up_ok pu (f x0) -> gap_ok m (f x0) ->
  own_post T m n (sock_pc_of T n) pu (on_stream n f m).
Proof. intros. by apply up_own. Qed.

Lemma up_move pu : up_ok pu x0 -> own_post T m n (sock_pc_of T n) pu m.
Proof.
  intros U. rewrite <-(on_stream_id n m) at 2. pose proof (HO n x0 Hx0) as [].
  by apply up_own_local; [.. | apply quiet_refl | | |].
Qed.

Lemma own_up_ok : up_ok (Some pc) x0.
Proof. rewrite <-Hpc. apply (oo_up _ _ _ _ _ _ (HO n x0 Hx0)). Qed.
Lemma own_data_ok : data_ok x0.
Proof. apply (oo_data _ _ _ _ _ _ (HO n x0 Hx0)). Qed.
Lemma own_gap_ok : gap_ok m x0.
Proof. apply (oo_gap _ _ _ _ _ _ (HO n x0 Hx0)). Qed.

(** Only [UPark] can be parked. *)
Lemma not_parked : (forall rest fin, pc <> UPark rest fin) -> parked (win x0) = false.
Proof.
  intros Hne. destruct (parked (win x0)) eqn:E; [| done].
  destruct (uo_parked _ _ own_up_ok E) as (rest & fin & [= ->] & _). by destruct (Hne rest fin).
Qed.

(** After a piece has been dropped. *)
Lemma up_ok_drop pu x :
  u_sent (up x) = u_sent (up x0) -> w_taken (win x) = w_taken (win x0) -> parked (win x) = false ->
  u_gap (up x) = true -> in_hand pu = 0 -> up_ok pu x.
Proof.
  intros Hs Ht Hp Hg Hi. pose proof (uo_credit _ _ own_up_ok) as H.
  split; [congruence | | congruence]. rewrite Hi, Hs, Ht.
  assert (0 <= in_hand (Some pc)) by (destruct pc; cbn; auto with mxtr; lia). lia.
Qed.
End Uploader.

Lemma in_hand_after (fin : bool) : in_hand (Some (if fin then UClose else URead)) = 0.
Proof. by destruct fin. Qed.
Lemma rest_after (fin : bool) : rest_of (Some (if fin then UClose else URead)) = [].
Proof. by destruct fin. Qed.

Lemma win_take_ok k w : 0 <= k -> k <= sendWindow w -> window_ok w -> window_ok (win_take k w).
Proof. intros Hk Hs [A B C D]. split; cbn; try done; [| lia]. intros Hg. destruct (A Hg). lia. Qed.
Lemma win_free_ok k w : 0 <= k -> window_ok w -> window_ok (win_free k w).
Proof. intros Hk [A B C D]. split; cbn; try done; [| lia]. intros Hg. destruct A; lia. Qed.

Section UpCases.
Context (T : gmap cwho cthread) (m : cmem) (n : nat).
Context (HO : all_ok T m) (L : loop_ok (loop_pc_of T) m) (G : global_ok m).

Lemma case_uread e :
  up_pc_of T n = Some URead -> is_Some (c_heap m !! n) -> up_result T m n (up_step n URead e m).
Proof.
  intros Hpc [x0 Hx0]. unfold up_step. rewrite Hx0. destruct e; try done.
  destruct (_ && _); [| done].
  pose proof (own_up_ok _ _ _ _ _ HO Hpc Hx0) as [U1 U2 U3].
  pose proof (not_parked _ _ _ _ _ HO Hpc Hx0 ltac:(done)) as Hp.
  assert (Hown : forall pc, rest_of (Some pc) = b -> in_hand (Some pc) = 0 ->
    own_post T m n (sock_pc_of T n) (Some pc) (on_stream n (set_up (up_read b)) m)).
  { intros pc Hr Hi. eapply up_own_local; eauto; [by split_and! | | | ].
    - pose proof (own_data_ok _ _ _ _ HO Hx0) as []. by split.
    - split; [| rewrite Hi; cbn in *; lia | cbn; by rewrite Hp].
      rewrite Hr. cbn. intros Hg. rewrite (U1 Hg). cbn. by rewrite app_nil_r.
    - exact (own_gap_ok _ _ _ _ HO Hx0). }
  destruct (0 <? len b) eqn:Eb; bool_facts; apply up_goto; apply Hown; try done.
  - assert (b = []) as -> by (apply len_zero_nil; pose proof (len_nonneg b); lia). apply rest_after.
  - apply in_hand_after.
Qed.

Lemma case_uacquire rest fin e :
  up_pc_of T n = Some (UAcquire rest fin) -> is_Some (c_heap m !! n) ->
  up_result T m n (up_step n (UAcquire rest fin) e m).
Proof.
  intros Hpc [x0 Hx0]. unfold up_step. rewrite Hx0. destruct e; try done.
  pose proof (own_up_ok _ _ _ _ _ HO Hpc Hx0) as [U1 U2 U3].
  pose proof (not_parked _ _ _ _ _ HO Hpc Hx0 ltac:(done)) as Hp.
  pose proof (own_data_ok _ _ _ _ HO Hx0) as [A B C W]. pose proof (len_nonneg (piece rest)) as Hl.
  pose proof (own_gap_ok _ _ _ _ HO Hx0) as Gp.
  assert (Hown : forall w, window_ok w -> w_taken w = w_taken (win x0) + len (piece rest) -> parked w = false ->
    own_post T m n (sock_pc_of T n) (Some (UWrite rest fin)) (on_stream n (set_win (fun _ => w)) m)).
  { intros w Hw Ht Hpk. eapply up_own_local; eauto; [by split_and! | by split | ].
    split; cbn; [done | rewrite Ht; cbn in U2; lia | by rewrite Hpk]. }
  unfold acquireWindow. destruct (flowControlled (win x0)) eqn:Ef; cbn [negb].
  2: { apply up_goto, Hown; [by apply win_free_ok | done | done]. }
  destruct (_ <? _) eqn:Ew; bool_facts.
  2: { apply up_goto, Hown; [by apply win_take_ok | done | done]. }
  destruct (cs_closed x0) eqn:Ec; apply up_goto; eapply up_own_local; eauto.
  - by split_and!.
  - by split.
  - eapply up_ok_drop; eauto. apply in_hand_after.
  - intros _. by left.
  - split_and!; try done. by rewrite Ec.
  - split; try done. destruct W as [W1 W2 W3 W4]. by split.
  - split; cbn; [done | done |]. intros _. exists rest, fin. done.
Qed.

Lemma case_upark rest fin e :
  up_pc_of T n = Some (UPark rest fin) -> is_Some (c_heap m !! n) ->
  up_result T m n (up_step n (UPark rest fin) e m).
Proof.
  intros Hpc [x0 Hx0]. unfold up_step. rewrite Hx0. destruct e; try done.
  destruct (parked (win x0)) eqn:Ep; [done |].
  pose proof (own_up_ok _ _ _ _ _ HO Hpc Hx0) as [U1 U2 U3].
  apply up_goto. eapply up_move; eauto. split; [done | done | congruence].
Qed.

Lemma case_uwrite rest fin e :
  up_pc_of T n = Some (UWrite rest fin) -> is_Some (c_heap m !! n) ->
  up_result T m n (up_step n (UWrite rest fin) e m).
Proof.
  intros Hpc [x0 Hx0]. unfold up_step. rewrite Hx0. destruct e; try done.
  pose proof (c_write_spec ok (SFrame (cs_id x0) v2TypeData (piece rest)) m) as W.
  destruct (c_write _ _ _) as [r m1]. destruct W as (Hh & Hst & Hi & Hc & Hn & Hw & Hg & Hr).
  pose proof (own_up_ok _ _ _ _ _ HO Hpc Hx0) as [U1 U2 U3].
  pose proof (not_parked _ _ _ _ _ HO Hpc Hx0 ltac:(done)) as Hp.
  pose proof (own_data_ok _ _ _ _ HO Hx0) as [A B C W].
  pose proof (own_gap_ok _ _ _ _ HO Hx0) as Gp. cbn in U1, U2.
  destruct r.
  - assert (Hown : forall pc, rest_of (Some pc) = drop (length (piece rest)) rest -> in_hand (Some pc) = 0 ->
      own_post T m n (sock_pc_of T n) (Some pc) (on_stream n (set_up (up_sent (piece rest))) m1)).
    { intros pc Hrest Hin. eapply up_own; eauto; [by split_and! | by split | |].
      - split; [| rewrite Hin; cbn; rewrite len_app; lia | cbn; by rewrite Hp].
        rewrite Hrest. cbn. intros Hgap. rewrite (U1 Hgap), <-app_assoc. f_equal. apply piece_drop.
      - cbn. by apply (gap_ok_mono m); [rewrite Hc | exact Hw | exact Gp]. }
    destruct (0 <? len _) eqn:El; bool_facts; apply up_goto, Hown; try done.
    + rewrite rest_after. symmetry. apply len_zero_nil. pose proof (len_nonneg (drop (length (piece rest)) rest)). lia.
    + apply in_hand_after.
  - apply up_goto. eapply up_own; eauto.
    + by split_and!.
    + by split.
    + eapply up_ok_drop; eauto. apply in_hand_after.
    + intros _. destruct (Hr (len_piece rest)) as [? | ?]; [right; left; congruence | right; right; eauto].
Qed.

Lemma case_uclose e :
  up_pc_of T n = Some UClose -> is_Some (c_heap m !! n) -> up_result T m n (up_step n UClose e m).
Proof.
  intros Hpc [x0 Hx0]. unfold up_step. rewrite Hx0. destruct e; try done.
  pose proof (c_write_spec ok (SFrame (cs_id x0) v2TypeClose []) m) as W.
  destruct (c_write _ _ _) as [r m1]. destruct W as (Hh & Hst & Hi & Hc & Hn & Hw & Hg & Hr).
  pose proof (own_up_ok _ _ _ _ _ HO Hpc Hx0) as [U1 U2 U3].
  pose proof (not_parked _ _ _ _ _ HO Hpc Hx0 ltac:(done)) as Hp.
  apply up_exit. cbn [snd]. rewrite <-(on_stream_id n m1). eapply up_own; eauto.
  - apply quiet_refl.
  - exact (own_data_ok _ _ _ _ HO Hx0).
  - split; [done | done | congruence].
  - apply (gap_ok_mono m); [rewrite Hc; done | exact Hw | exact (own_gap_ok _ _ _ _ HO Hx0)].
Qed.
End UpCases.

(** ** Putting the goroutines together *)

(** The places of goroutines after one of them has moved. *)
Lemma loop_pc_set T w t ts :
  w <> CLoop -> (forall t, t ∈ ts -> cwho_of t <> CLoop) ->
  loop_pc_of (c_spawn ts (c_set_thread w t T)) = loop_pc_of T.
Proof.
  intros Hw Hts. unfold loop_pc_of. replace (_ !! CLoop) with (T !! CLoop); [done |].
  induction ts as [|s ts IH]; cbn.
  - destruct t; cbn; [by rewrite lookup_insert_ne | by rewrite lookup_delete_ne].
  - rewrite lookup_insert_ne by (apply Hts; by left). apply IH. intros s' Hs'. apply Hts. by right.
Qed.

Lemma set_thread_eq T w (t : option cthread) : c_set_thread w t T !! w = t.
Proof. destruct t; cbn; [apply lookup_insert_eq | apply lookup_delete_eq]. Qed.
Lemma set_thread_ne T w w' (t : option cthread) : w' <> w -> c_set_thread w t T !! w' = T !! w'.
Proof. intros. destruct t; cbn; [by apply lookup_insert_ne | by apply lookup_delete_ne]. Qed.

Lemma who_set T w t :
  (forall w t, T !! w = Some t -> cwho_of t = w) -> (forall t', t = Some t' -> cwho_of t' = w) ->
  forall w' t', c_set_thread w t T !! w' = Some t' -> cwho_of t' = w'.
Proof.
  intros HT Ht w' t'. destruct (decide (w' = w)) as [-> | Hne].
  - rewrite set_thread_eq. intros ->. by apply Ht.
  - rewrite set_thread_ne by done. apply HT.
Qed.

Lemma cinv_loop y pc e t' m' ts :
  cinv y -> c_threads y !! CLoop = Some (CtLoop pc) ->
  readLoop_step pc e (c_mem y) = Some (t', m', ts) ->
  cinv (CSys (c_spawn ts (c_set_thread CLoop t' (c_threads y))) m').
Proof.
  intros [W L G E O] Ht Hs. destruct y as [T m]. cbn [c_threads c_mem] in *.
  assert (Hl : loop_pc_of T = Some pc) by (unfold loop_pc_of; by rewrite Ht). rewrite Hl in L, O.
  pose proof (loop_step_keeps T m pc e O L G) as R. rewrite Hs in R.
  destruct R as (-> & lp' & -> & [Lp Gp Ip Np Dp Op]). cbn [c_spawn foldr].
  set (T' := c_set_thread _ _ T).
  assert (El : loop_pc_of T' = lp') by (unfold loop_pc_of, T'; rewrite set_thread_eq; by destruct lp').
  assert (Es : forall n, T' !! CSock n = T !! CSock n) by (intros; by apply set_thread_ne).
  assert (Eu : forall n, T' !! CUp n = T !! CUp n) by (intros; by apply set_thread_ne).
  split; cbn [c_threads c_mem].
  - apply who_set; [done |]. intros t2 Ht2. by destruct lp'; simplify_eq/=.
  - by rewrite El.
  - done.
  - intros n. pose proof (E n) as (E1 & E2 & E3). unfold early_ok, sock_pc_of, up_pc_of in *.
    rewrite Es, Eu, Dp, Ip, Np. split_and!; try done. repeat case_match; try done; by rewrite Dp.
  - intros o x Hx. rewrite El. unfold sock_pc_of, up_pc_of. rewrite Es, Eu. by apply Op.
Qed.

Lemma early_mono T m n :
  early_ok T m n -> forall m', (forall e, e ∈ c_ids m -> e ∈ c_ids m') -> next_sock m' = next_sock m ->
  (c_heap m' !! n = None <-> c_heap m !! n = None) -> early_ok T m' n.
Proof.
  intros (E1 & E2 & E3) m' Hi Hn Hd. unfold early_ok. rewrite Hn. split_and!; [| by rewrite Hd | done].
  repeat case_match; rewrite ?Hd; naive_solver.
Qed.

(** A step of connection [n] that leaves it at [sk], [pu]. *)
Lemma cinv_own y T' m' n sk pu :
  cinv y -> own_post (c_threads y) (c_mem y) n sk pu m' -> (n < next_sock (c_mem y))%nat ->
  (forall w t, T' !! w = Some t -> cwho_of t = w) ->
  (forall w, w <> CSock n -> w <> CUp n -> T' !! w = c_threads y !! w) ->
  sock_pc_of T' n = sk -> up_pc_of T' n = pu -> cinv (CSys T' m').
Proof.
  intros [W L G E O] [Lp Gp Ip Np Dp Ep Bp Wp Op] Hlt HW Hne Hsk Hpu.
  assert (El : loop_pc_of T' = loop_pc_of (c_threads y)) by (unfold loop_pc_of; by rewrite Hne).
  assert (Es : forall o, o <> n -> sock_pc_of T' o = sock_pc_of (c_threads y) o)
    by (intros; unfold sock_pc_of; rewrite Hne; congruence).
  assert (Eu : forall o, o <> n -> up_pc_of T' o = up_pc_of (c_threads y) o)
    by (intros; unfold up_pc_of; rewrite Hne; congruence).
  split; cbn [c_threads c_mem]; [done | by rewrite El | done | |].
  - intros o. destruct (decide (o = n)) as [-> | Ho].
    + unfold early_ok. rewrite Hsk, Hpu, Np. split_and!; [done | done | lia].
    + unfold early_ok. rewrite Es, Eu, Np, !Hne by congruence.
      destruct (early_mono _ _ _ (E o) m') as (E1 & E2 & E3); [done | done | by apply Dp |].
      split_and!; [done | done |]. by rewrite <-Np.
  - intros o x Hx. rewrite El. destruct (decide (o = n)) as [-> | Ho].
    + rewrite Hsk, Hpu. by apply Wp.
    + rewrite Es, Eu by done. by apply Op.
Qed.

Lemma cinv_alive y n :
  cinv y -> c_threads y !! CSock n <> None \/ c_threads y !! CUp n <> None -> (n < next_sock (c_mem y))%nat.
Proof.
  intros I H. destruct (decide (next_sock (c_mem y) <= n)%nat) as [Hle |]; [| lia].
  destruct (ci_early y I n) as (_ & _ & E). destruct (E Hle). naive_solver.
Qed.

Lemma sock_step_keeps T m n pc e :
  all_ok T m -> loop_ok (loop_pc_of T) m -> global_ok m -> early_ok T m n ->
  sock_pc_of T n = Some pc -> (n < next_sock m)%nat -> sock_result T m n (sock_step n pc e m).
Proof.
  intros HO L G (E1 & E2 & _) Hs Hlt. rewrite Hs in E1.
  assert (Hlive : is_Some (c_heap m !! n) -> sock_result T m n (sock_step n pc e m)).
  { intros Hx. pose proof Hx as [x0 Hx0]. destruct pc; try (destruct E1; congruence); [congruence |..].
    - destruct e; try (cbn [sock_step]; by rewrite Hx0). by apply case_open.
    - by apply case_wait.
    - by apply case_sdelete.
    - by apply case_sfail.
    - by apply case_reply.
    - by apply case_down.
    - by apply case_out. }
  destruct (c_heap m !! n) as [x|] eqn:Hx; [by apply Hlive |].
  destruct pc; try (cbn [sock_step]; by rewrite Hx).
  - destruct e; try (cbn [sock_step]; by rewrite Hx). by apply case_start; auto.
  - destruct E1 as [_ Hid]. destruct e; try (cbn [sock_step]; by rewrite Hx). by apply case_store; auto.
Qed.

Lemma up_step_keeps T m n pc e :
  all_ok T m -> loop_ok (loop_pc_of T) m -> global_ok m -> early_ok T m n ->
  up_pc_of T n = Some pc -> up_result T m n (up_step n pc e m).
Proof.
  intros HO L G (_ & E2 & _) Hs.
  assert (Hx : is_Some (c_heap m !! n)).
  { destruct (c_heap m !! n) eqn:Hx; [done |]. rewrite E2 in Hs; done. }
  destruct pc.
  - by apply case_uread.
  - by apply case_uacquire.
  - by apply case_upark.
  - by apply case_uwrite.
  - by apply case_uclose.
Qed.

Lemma cinv_sock y n pc e t' m' ts :
  cinv y -> c_threads y !! CSock n = Some (CtSock n pc) ->
  sock_step n pc e (c_mem y) = Some (t', m', ts) ->
  cinv (CSys (c_spawn ts (c_set_thread (CSock n) t' (c_threads y))) m').
Proof.
  intros I Ht Hs. assert (Hpc : sock_pc_of (c_threads y) n = Some pc) by (unfold sock_pc_of; by rewrite Ht).
  assert (Hlt : (n < next_sock (c_mem y))%nat) by (apply cinv_alive; [done | left; congruence]).
  pose proof (sock_step_keeps _ _ n pc e (ci_obj y I) (ci_loop y I) (ci_global y I) (ci_early y I n) Hpc Hlt) as R.
  rewrite Hs in R. destruct R as (sk & pu & -> & Hts & P).
  assert (HW : forall w t, c_set_thread (CSock n) (CtSock n <$> sk) (c_threads y) !! w = Some t -> cwho_of t = w).
  { apply who_set; [apply (ci_who y I) |]. intros t2 Ht2. by destruct sk; simplify_eq/=. }
  apply (cinv_own y _ _ n sk pu); [done | done | done | | | |].
  - destruct Hts as [[-> _] | [-> _]]; [done |]. cbn. intros w t [(<- & <-) | (_ & Hw)]%lookup_insert_Some; auto.
  - intros w Hw1 Hw2. destruct Hts as [[-> _] | [-> _]]; cbn; [| rewrite lookup_insert_ne by done]; by apply set_thread_ne.
  - unfold sock_pc_of. destruct Hts as [[-> _] | [-> _]]; cbn; [| rewrite lookup_insert_ne by done];
      rewrite set_thread_eq; by destruct sk.
  - unfold up_pc_of. destruct Hts as [[-> ->] | [-> ->]]; cbn; [by rewrite set_thread_ne | by rewrite lookup_insert_eq].
Qed.

Lemma cinv_up y n pc e t' m' ts :
  cinv y -> c_threads y !! CUp n = Some (CtUp n pc) ->
  up_step n pc e (c_mem y) = Some (t', m', ts) ->
  cinv (CSys (c_spawn ts (c_set_thread (CUp n) t' (c_threads y))) m').
Proof.
  intros I Ht Hs. assert (Hpc : up_pc_of (c_threads y) n = Some pc) by (unfold up_pc_of; by rewrite Ht).
  assert (Hlt : (n < next_sock (c_mem y))%nat) by (apply cinv_alive; [done | right; congruence]).
  pose proof (up_step_keeps _ _ n pc e (ci_obj y I) (ci_loop y I) (ci_global y I) (ci_early y I n) Hpc) as R.
  rewrite Hs in R. destruct R as (-> & pu & -> & P). cbn [c_spawn foldr].
  apply (cinv_own y _ _ n (sock_pc_of (c_threads y) n) pu); [done | done | done | | | |].
  - apply who_set; [apply (ci_who y I) |]. intros t2 Ht2. by destruct pu; simplify_eq/=.
  - intros w Hw1 Hw2. by apply set_thread_ne.
  - unfold sock_pc_of. by rewrite set_thread_ne.
  - unfold up_pc_of. rewrite set_thread_eq. by destruct pu.
Qed.

Lemma cinv_connect y host port y' :
  cinv y -> cstep (CConnect host port) y = Some y' -> cinv y'.
Proof.
  intros [W L G E O] [= <-]. set (n := next_sock (c_mem y)). destruct (E n) as (_ & Eu & Eg).
  destruct Eg as [Hsk Hup]; [done |].
  assert (Hn : c_heap (c_mem y) !! n = None).
  { destruct (c_heap (c_mem y) !! n) as [x|] eqn:Hx; [| done]. pose proof (gl_socks _ G n x Hx). lia. }
  set (T' := <[CSock n := _]> (c_threads y)).
  assert (El : loop_pc_of T' = loop_pc_of (c_threads y)) by (unfold loop_pc_of, T'; by rewrite lookup_insert_ne).
  assert (Es : forall o, o <> n -> T' !! CSock o = c_threads y !! CSock o)
    by (intros; unfold T'; rewrite lookup_insert_ne; congruence).
  assert (Hu : forall o, T' !! CUp o = c_threads y !! CUp o) by (intros; unfold T'; by rewrite lookup_insert_ne).
  split; cbn [c_threads c_mem].
  - intros w t [(<- & <-) | (_ & Hw)]%lookup_insert_Some; auto.
  - rewrite El. by apply (loop_ok_kept _ (c_mem y)); [intros o x Hx; exists x | |].
  - destruct G as [P N Q Z I X Tb S]. split; try done. intros o x Hx. cbn. pose proof (S o x Hx). lia.
  - intros o. destruct (decide (o = n)) as [-> | Ho].
    + unfold early_ok, sock_pc_of, up_pc_of, T'. rewrite lookup_insert_eq, lookup_insert_ne, Hup by done.
      split_and!; [done | done |]. cbn. fold n. lia.
    + destruct (E o) as (E1 & E2 & E3). unfold early_ok, sock_pc_of, up_pc_of in *. rewrite Es, Hu by done.
      split_and!; [done | done |]. intros Hle. apply E3. cbn in Hle. lia.
  - intros o x Hx. cbn in Hx. assert (Ho : o <> n) by (intros ->; congruence).
    rewrite El. unfold sock_pc_of, up_pc_of. rewrite Es, Hu by done.
    apply (obj_ok_mem _ _ _ (c_mem y)); try done. by apply O.
Qed.

Lemma cinv_step a y y' : cinv y -> cstep a y = Some y' -> cinv y'.
Proof.
  intros I. destruct a as [w e | host port]; [| by apply cinv_connect]. cbn.
  destruct (c_threads y !! w) as [t|] eqn:Ht; [| done]. cbn.
  destruct (cthread_step t e (c_mem y)) as [[[t' m'] ts]|] eqn:Hs; [| done]. cbn. intros [= <-].
  pose proof (ci_who y I w t Ht) as <-. destruct t as [pc | n pc | n pc]; cbn in Ht, Hs |- *.
  - by eapply cinv_loop.
  - by eapply cinv_sock.
  - by eapply cinv_up.
Qed.

Lemma cinv_init : cinv dialed_session.
Proof.
  split; cbn.
  - intros w t Ht. apply lookup_singleton_Some in Ht as [<- <-]. done.
  - done.
  - split; try done. by intros [] ????.
  - intros n. split_and!; done.
  - done.
Qed.

Lemma creachable_inv y : creachable y -> cinv y.
Proof. induction 1; [apply cinv_init | by eapply cinv_step]. Qed.

Lemma crun_reachable acts y y' : creachable y -> crun acts y = Some y' -> creachable y'.
Proof.
  revert y. induction acts as [|a acts IH]; intros y R; cbn; [by intros [= <-] |].
  destruct (cstep a y) as [y1|] eqn:E; [| done]. cbn. apply IH. by eapply creach_step.
Qed.
