(* ===== verification/ClientProps.v ===== *)
(** * What the client session guarantees, and where it can stop *)

From S2P Require Import Prelude Padding StreamFrame Target Client ClientInv ClientLoop ClientSteps.

(** ** Concrete runs, for the witnesses *)

Module CDemo.
Definition frame (sid ty : Z) (p : bytes) : caction := CRun CLoop (CFrame (encode_stream_frame (SFrame sid ty p))).
Definition ticks (w : cwho) (n : nat) : list caction := replicate n (CRun w CTau).
(** Connection [n] up to the bridge, under id [sid], with a send window. *)
Definition connect (n : nat) (sid window : Z) : list caction :=
  [CConnect (go! "matrix.org") 443] ++ ticks (CSock n) 2 ++ [CRun (CSock n) (CWritten true)] ++
  [frame sid v2TypeOpenOK (be_put 4 window)] ++ ticks CLoop 3 ++
  [CRun (CSock n) COpenOK; CRun (CSock n) CTau].
Definition data (sid : Z) (p : bytes) : list caction := frame sid v2TypeData p :: ticks CLoop 3.
Definition final (acts : list caction) : csys := default dialed_session (crun acts dialed_session).
Definition runs (acts : list caction) : bool :=
  match crun acts dialed_session with Some _ => true | None => false end.
Lemma replayed_reachable acts : runs acts = true -> creachable (final acts).
Proof.
  unfold runs, final. destruct (crun acts dialed_session) as [y|] eqn:E; [| done].
  intros _. by apply (crun_reachable acts dialed_session); [apply creach_init |].
Qed.
Definition stream_at (acts : list caction) (o : nat) : cstream :=
  default (new_cstream 0) (c_heap (c_mem (final acts)) !! o).

(** Two DATA frames arrive; the first is being written to the local
    connection. Uploads: 5 bytes fit the window of 8, the next 6 do not. *)
Definition busy : list caction :=
  connect 0 1 8 ++ data 1 (go! "hello ") ++ data 1 (go! "world") ++
  [CRun (CSock 0) (CBuf 4)] ++
  [CRun (CUp 0) (CLocalRead (go! "12345") false); CRun (CUp 0) CTau; CRun (CUp 0) (CWritten true)] ++
  [CRun (CUp 0) (CLocalRead (go! "678901") false); CRun (CUp 0) CTau].

(** Then the connection to the server breaks, and the session ends. *)
Definition ended : list caction :=
  busy ++ [CRun CLoop CErr; CRun CLoop CTau; CRun CLoop (CKey 1)] ++ ticks CLoop 3 ++ ticks CLoop 2.

(** The server sends a second OPEN_OK, with a larger window, while a piece waits. *)
Definition stranded : list caction := busy ++ frame 1 v2TypeOpenOK (be_put 4 100) :: ticks CLoop 3.

(** The local connection of a download fails; the server has sent 33 more
    frames than the handler has read. *)
Definition stall : list caction :=
  connect 0 1 8 ++ data 1 (go! "x") ++ [CRun (CSock 0) (CBuf 4); CRun (CSock 0) (CLocalWrite (Some 0%nat))] ++
  mjoin (replicate 32 (data 1 (go! "x"))) ++
  frame 1 v2TypeData (go! "x") :: ticks CLoop 2.
End CDemo.

(** ** Reading the invariant *)

Lemma shut_closed lp o x : mark_ok lp o x -> shut (incoming x) = true -> cs_closed x = true.
Proof.
  intros [M _] Hs. unfold settled in M.
  destruct (marking lp) as [[]|]; try case_decide; destruct M; congruence.
Qed.

Lemma read_eof k x : stream_Read k x = REof ->
  shut (incoming x) = true /\ unread (pending x) = [] /\ items (incoming x) = [].
Proof. unfold stream_Read, unread. by repeat case_match. Qed.

(** What the handler of a connection has taken and not yet written out. *)
Definition sock_hand (pc : sock_pc) : bytes := match pc with SOut b => b | _ => [] end.

Lemma handler_hand sk pu x : sock_ok sk pu x ->
  exists h, d_got (down x) = d_out (down x) ++ h /\ (forall pc, sk = Some pc -> h = sock_hand pc).
Proof.
  intros S. destruct sk as [pc|]; cbn in S; unfold untouched in S.
  - exists (sock_hand pc). split; [| by intros ? [= ->]].
    destruct pc; cbn; rewrite ?app_nil_r; destruct_and?; done || congruence.
  - destruct S as [[h Hh] _]. by exists h.
Qed.

Section Props.
Context (y : csys) (R : creachable y).

(** No download byte is lost, duplicated or reordered inside the client:
    what was written to the local connection, what [Read] has returned and is
    being written, what is left of the chunk being read and what is in the
    channel (at most 32 chunks) are, in that order, everything accepted from
    the session; and [Read] reports end of file only when the stream is
    closed and all of it has been returned. *)
Theorem client_download_integrity o x :
  c_heap (c_mem y) !! o = Some x ->
  exists in_hand,
    d_recv (down x) =
      d_out (down x) ++ in_hand ++ unread (pending x) ++ concat (items (incoming x)) /\
    len (items (incoming x)) <= incomingCap /\
    (c_threads y !! CSock o = Some (CtSock o SDown) -> in_hand = []) /\
    (forall k, stream_Read k x = REof ->
       cs_closed x = true /\ d_recv (down x) = d_out (down x) ++ in_hand).
Proof.
  intros Hx. destruct (ci_obj y (creachable_inv y R) o x Hx) as [[F Rm P W] M S U Gp Rg].
  destruct (handler_hand _ _ _ S) as (h & Hh & Hd). exists h. rewrite F, Hh, <-app_assoc.
  split_and!; [done | done | |].
  - intros E. apply (Hd SDown). unfold sock_pc_of. by rewrite E.
  - intros k (Hs & Hu & Hi)%read_eof. split; [by eapply shut_closed |].
    rewrite Hu, Hi. cbn. by rewrite !app_nil_r.
Qed.

(** No upload byte is silently dropped while the stream is open: what
    the DATA frames of a stream have carried, followed by what its goroutine
    still holds, is everything read from the local connection; a piece is
    dropped only after the stream or the session has been closed or a frame
    write has failed. *)
Theorem client_upload_integrity o x :
  c_heap (c_mem y) !! o = Some x ->
  (u_gap (up x) = false ->
     u_in (up x) = u_sent (up x) ++ rest_of (up_pc_of (c_threads y) o)) /\
  (cs_closed x = false -> c_closed (c_mem y) = false ->
   (forall n sf, (n, sf, false) ∉ c_wire (c_mem y)) -> u_gap (up x) = false).
Proof.
  intros Hx. destruct (ci_obj y (creachable_inv y R) o x Hx) as [D M S U Gp Rg].
  split; [apply (uo_bytes _ _ U) |]. intros Hc Hs Hw. destruct (u_gap (up x)) eqn:E; [| done].
  destruct (Gp E) as [? | [? | (n & sf & Hin)]]; [congruence.. | by destruct (Hw n sf)].
Qed.

(** [C12] The client never overruns the server's window: the bytes its DATA
    frames have carried are covered by the credit it has received, the counter
    of the window is exactly the credit not yet used, and it is never negative
    (as long as the credit of one stream stays below 2^63). *)
Theorem client_respects_window o x :
  c_heap (c_mem y) !! o = Some x -> w_granted (win x) < 2 ^ 63 ->
  sendWindow (win x) = w_granted (win x) - w_taken (win x) /\ 0 <= sendWindow (win x) /\
  len (u_sent (up x)) + in_hand (up_pc_of (c_threads y) o) <= w_granted (win x).
Proof.
  intros Hx Hg. destruct (ci_obj y (creachable_inv y R) o x Hx) as [[_ _ _ W] M S U Gp Rg].
  destruct (wo_credit _ W Hg) as [Hs Hp]. pose proof (uo_credit _ _ U). split_and!; [done | done | lia].
Qed.

(** [C26] No wake-up of a blocked upload is lost by a CLOSE, nor by credit as
    long as the server sends one OPEN_OK with a window per stream: a parked
    writer is at its [Wait]; if the stream has had at most one such OPEN_OK
    and less than 2^63 of credit, it is waiting for more credit than it has;
    and if its stream is closed the read loop is about to broadcast. Without
    the first condition credit can be lost ([repeated_open_ok_strands]). *)
Theorem client_no_lost_wakeup o x :
  c_heap (c_mem y) !! o = Some x -> parked (win x) = true ->
  (exists rest fin, c_threads y !! CUp o = Some (CtUp o (UPark rest fin)) /\
     ((w_oks (win x) <= 1)%nat -> w_granted (win x) < 2 ^ 63 -> sendWindow (win x) < len (piece rest))) /\
  (cs_closed x = true -> exists k, marking (loop_pc_of (c_threads y)) = Some k /\ (k = MChan o \/ k = MCast o)).
Proof.
  intros Hx Hp. pose proof (creachable_inv y R) as I.
  destruct (ci_obj y I o x Hx) as [D [M _] S U Gp Rg]. split.
  - destruct (uo_parked _ _ U Hp) as (rest & fin & E & Hlt). exists rest, fin. split; [| done].
    unfold up_pc_of in E. destruct (c_threads y !! CUp o) as [t|] eqn:Et; [| done].
    pose proof (ci_who y I _ _ Et) as Hw. destruct t; simplify_eq/=. done.
  - intros Hc. assert (Hns : ~ settled x) by (intros [_ H]; rewrite H in Hp; done).
    destruct (marking _) as [[]|]; try done; case_decide; subst; try done; eauto.
Qed.

(** [C27] When the session ends nobody is left hanging: once the read loop has
    returned, every stream whose OPEN was sent and that has not been given up
    is closed, so its [Read] never blocks and its [acquireWindow] never waits,
    and no writer is parked (within the 2^31 opens that keep ids distinct). *)
Theorem client_session_end_releases o x :
  c_threads y !! CLoop = None -> len (c_ids (c_mem y)) <= 2 ^ 31 ->
  c_heap (c_mem y) !! o = Some x ->
  c_threads y !! CUp o <> None \/
    (exists pc, c_threads y !! CSock o = Some (CtSock o pc) /\ (pc = SDown \/ exists b, pc = SOut b)) ->
  cs_closed x = true /\ parked (win x) = false /\
  (forall k, stream_Read k x <> RBlocked) /\
  (forall k w, acquireWindow k (cs_closed x) (win x) <> MustWait w).
Proof.
  intros Hl Hf Hx Hb. pose proof (creachable_inv y R) as I.
  destruct (ci_obj y I o x Hx) as [D [M _] S U Gp [_ Rg]].
  assert (El : loop_pc_of (c_threads y) = None) by (unfold loop_pc_of; by rewrite Hl).
  rewrite El in M, Rg. destruct (Rg Hf) as [_ Hnl]. destruct M as [Hsh Hpk].
  assert (Ha : announced (cs_life x) = true /\ dropped (cs_life x) = false).
  { unfold sock_pc_of in S. destruct Hb as [Hu | (pc & Hpc & Hd)].
    - assert (Hup : up_pc_of (c_threads y) o <> None).
      { unfold up_pc_of. destruct (c_threads y !! CUp o) as [t|] eqn:Et; [| done].
        pose proof (ci_who y I _ _ Et). by destruct t. }
      unfold sock_ok in S. repeat case_match; naive_solver.
    - rewrite Hpc in S. destruct Hd as [-> | [b ->]]; cbn in S; naive_solver. }
  assert (Hc : cs_closed x = true).
  { destruct (cs_closed x) eqn:E; [done |]. destruct Hnl. by destruct Ha. }
  rewrite Hc in *. split_and!; [done | auto | |].
  - intros k. unfold stream_Read, copy_pending. rewrite Hsh. by repeat case_match.
  - intros k w. unfold acquireWindow. by repeat case_match.
Qed.

(** The frames of a session are ordered: each is written under the nonce
    1 + (the number of frames delivered before it), so the delivered ones carry
    1, 2, 3, ... and a nonce is used again only after a write under it has
    failed; every payload fits a frame; within 2^31 opens no two streams share
    an id; and no channel is closed twice or sent on after its close. *)
Theorem client_frames_ordered :
  (forall w1 n sf ok w2, c_wire (c_mem y) = w1 ++ (n, sf, ok) :: w2 ->
     n = (1 + len (delivered w1)) mod 2 ^ 64) /\
  Forall (fun e => len (sf_payload e.1.2) <= maxStreamPayloadV2) (c_wire (c_mem y)) /\
  (len (c_ids (c_mem y)) <= 2 ^ 31 ->
   forall o o' x x', c_heap (c_mem y) !! o = Some x -> c_heap (c_mem y) !! o' = Some x' ->
     cs_id x = cs_id x' -> o = o') /\
  c_panicked (c_mem y) = false.
Proof.
  pose proof (creachable_inv y R) as I. pose proof (ci_global y I) as G.
  split_and!; [apply (gl_nonces _ G) | apply (gl_sizes _ G) | | apply (gl_panic _ G)].
  intros Hf o o' x x' Hx Hx' Hi. apply (id_unique (c_mem y) (cs_id x)); [done | done | |].
  - by destruct (oo_reg _ _ _ _ _ _ (ci_obj y I o x Hx)).
  - rewrite Hi. by destruct (oo_reg _ _ _ _ _ _ (ci_obj y I o' x' Hx')).
Qed.
End Props.

(** ** A handler that is gone has closed its local connection *)

(** No local connection is opened again. *)
Definition keeps_local (m m' : cmem) : Prop := forall n x', c_heap m' !! n = Some x' ->
  exists x, c_heap m !! n = Some x /\ (local x = false -> local x' = false).

Lemma keeps_local_eq m m' : c_heap m' = c_heap m -> keeps_local m m'.
Proof. intros E n x Hx. rewrite E in Hx. by exists x. Qed.

Lemma keeps_local_on o f m m' :
  (forall x, local x = false -> local (f x) = false) -> keeps_local m m' -> keeps_local m (on_stream o f m').
Proof.
  intros Hf K n x' Hx'. cbn in Hx'. apply lookup_alter_Some in Hx' as [(-> & x & Hx & ->) | [_ Hx]]; [| by apply K].
  destruct (K _ x Hx) as (x0 & Hx0 & Hl). exists x0. auto.
Qed.

Lemma c_write_same_heap ok sf m : c_heap (c_write ok sf m).2 = c_heap m.
Proof. unfold c_write. by repeat case_match. Qed.

Lemma mark_step_local k m : keeps_local m (mark_step k m).2.
Proof.
  destruct k; cbn; repeat case_match; cbn; try (by apply keeps_local_eq);
    (apply keeps_local_on; [done | by apply keeps_local_eq]).
Qed.

Lemma loop_keeps_local pc e m t' m' ts : readLoop_step pc e m = Some (t', m', ts) -> keeps_local m m' /\ ts = [].
Proof.
  unfold readLoop_step, cnext, cexit. intros H.
  repeat (hcase H; simplify_eq/=; try done); (split; [| done]); try (by apply keeps_local_eq);
    try (apply keeps_local_on; [by intros x; repeat case_match | by apply keeps_local_eq]);
    try (apply keeps_local_eq, c_write_same_heap);
    match goal with E : mark_step ?k ?m = (_, _) |- _ => pose proof (mark_step_local k m) as K; by rewrite E in K end.
Qed.

Lemma up_keeps_local n pc e m t' m' ts : up_step n pc e m = Some (t', m', ts) -> keeps_local m m' /\ ts = [].
Proof.
  unfold up_step, cnext, cexit. intros H.
  repeat (hcase H; simplify_eq/=; try done); (split; [| done]);
    repeat match goal with
    | E : c_write ?ok ?sf ?m = (_, ?m1) |- _ =>
        let Hw := fresh in pose proof (c_write_same_heap ok sf m) as Hw; rewrite E in Hw; cbn in Hw; clear E
    end;
    first [by apply keeps_local_eq | apply keeps_local_eq, c_write_same_heap | apply keeps_local_on; [done | by apply keeps_local_eq]].
Qed.

(** The handler itself makes the stream, and closes the connection as it leaves. *)
Lemma sock_keeps_local n pc e m t' m' ts : sock_step n pc e m = Some (t', m', ts) ->
  (forall k x', k <> n -> c_heap m' !! k = Some x' -> c_heap m !! k = Some x') /\
  (t' = None -> forall x', c_heap m' !! n = Some x' -> local x' = false) /\
  (ts = [] \/ ts = [CtUp n URead]).
Proof.
  unfold sock_step, cnext, cexit, alloc_id. intros H.
  repeat (hcase H; simplify_eq/=; try done);
    repeat match goal with
    | E : c_write ?ok ?sf ?m = (_, ?m1) |- _ =>
        let Hw := fresh in pose proof (c_write_same_heap ok sf m) as Hw; rewrite E in Hw; cbn in Hw; clear E
    end; split_and!; try done; auto; try (intros k y Hk; cbn; rewrite ?lookup_alter_ne, ?lookup_insert_ne by done; congruence).
  all: intros _ y Hy; cbn in Hy; apply lookup_alter_Some in Hy as [(_ & y0 & _ & ->) | [? _]]; done.
Qed.

(** Every stream that exists has its handler, or a closed local connection. *)
Definition gone_closed (y : csys) : Prop := forall n x,
  c_heap (c_mem y) !! n = Some x -> c_threads y !! CSock n = None -> local x = false.

Lemma spawn_sock n ts T : ts = [] \/ (exists k, ts = [CtUp k URead]) -> c_spawn ts T !! CSock n = T !! CSock n.
Proof. intros [-> | [k ->]]; [done |]. cbn. by rewrite lookup_insert_ne. Qed.

Lemma gone_closed_step a y y' : cinv y -> gone_closed y -> cstep a y = Some y' -> gone_closed y'.
Proof.
  intros I G Hs n x Hx Hn. destruct a as [w e | host port]; cbn in Hs.
  2: { injection Hs as <-. cbn in Hx, Hn. apply lookup_insert_None in Hn as [Hn _]. by apply (G n). }
  destruct (c_threads y !! w) as [t|] eqn:Ht; [| done]. cbn in Hs.
  destruct (cthread_step t e (c_mem y)) as [[[t' m'] ts]|] eqn:Es; [| done]. injection Hs as <-.
  pose proof (ci_who y I w t Ht) as <-. cbn [c_mem c_threads] in Hx, Hn.
  assert (Hkeep : keeps_local (c_mem y) m' /\ ts = [] -> cwho_of t <> CSock n -> local x = false).
  { intros [K ->] Hne. cbn in Hn. rewrite set_thread_ne in Hn by done.
    destruct (K n x Hx) as (x0 & Hx0 & Hl). by apply Hl, (G n). }
  destruct t as [pc | k pc | k pc]; cbn in Es.
  - by apply Hkeep; [eapply loop_keeps_local |].
  - destruct (sock_keeps_local _ _ _ _ _ _ _ Es) as (K1 & K2 & Hts). rewrite spawn_sock in Hn by (destruct Hts; eauto).
    destruct (decide (k = n)) as [-> | Hne].
    + destruct t' as [t'|]; [cbn in Hn; by rewrite lookup_insert_eq in Hn | by apply K2].
    + rewrite set_thread_ne in Hn by (cbn; congruence). by apply (G n x); [apply K1 |].
  - by apply Hkeep; [eapply up_keeps_local |].
Qed.

Lemma creachable_gone y : creachable y -> gone_closed y.
Proof.
  induction 1 as [| a y y' R IH Hs]; [intros n x Hx; cbn in Hx; by rewrite lookup_empty in Hx |].
  eapply gone_closed_step; [by apply creachable_inv | done | done].
Qed.

(** ** One slow reader stops the session *)

(** The read loop waits to send on a full channel that nobody will read. *)
Definition stalled (o : nat) (p : bytes) (y : csys) : Prop :=
  c_threads y !! CLoop = Some (CtLoop (RSend o p)) /\ c_threads y !! CSock o = None /\
  (o < next_sock (c_mem y))%nat /\
  exists x, c_heap (c_mem y) !! o = Some x /\ shut (incoming x) = false /\
    incomingCap <= len (items (incoming x)).

(** Goroutines of other connections, and uploads, leave the channel alone. *)
Definition same_channel (o : nat) (m m' : cmem) : Prop :=
  next_sock m' = next_sock m /\
  forall x, c_heap m !! o = Some x -> exists x', c_heap m' !! o = Some x' /\ incoming x' = incoming x.

Lemma same_channel_refl o m : same_channel o m m.
Proof. split; [done |]. intros x Hx. by exists x. Qed.

Lemma same_channel_write o ok sf m : same_channel o m (c_write ok sf m).2.
Proof.
  unfold c_write. repeat case_match; (split; [done |]; intros x Hx; by exists x).
Qed.

Lemma same_channel_on o n f m m' :
  o <> n \/ (forall x, incoming (f x) = incoming x) -> same_channel o m m' ->
  same_channel o m (on_stream n f m').
Proof.
  intros Hf [Hn Hs]. split; [done |]. intros x Hx. destruct (Hs x Hx) as (x' & Hx' & Hi). cbn.
  destruct (decide (n = o)) as [-> | Hne].
  - rewrite lookup_alter_eq, Hx'. exists (f x'). split; [done |]. destruct Hf as [? | ->]; done.
  - rewrite lookup_alter_ne by done. by exists x'.
Qed.

Lemma same_channel_streams o f m m' : same_channel o m m' -> same_channel o m (upd_streams f m').
Proof. by intros [? ?]. Qed.

#[local] Hint Resolve same_channel_refl same_channel_write same_channel_on same_channel_streams : mxtr.

Lemma up_same_channel o n pc e m t' m' ts :
  up_step n pc e m = Some (t', m', ts) -> same_channel o m m' /\ ts = [].
Proof.
  unfold up_step, cnext, cexit. intros H.
  repeat (hcase H; simplify_eq/=; try done); split; auto with mxtr;
    repeat match goal with
    | E : c_write ?ok ?sf ?m = (_, ?m') |- _ =>
        let Hw := fresh in pose proof (same_channel_write o ok sf m) as Hw; rewrite E in Hw; clear E
    end; auto with mxtr.
Qed.

Lemma sock_same_channel o n pc e m t' m' ts :
  o <> n -> sock_step n pc e m = Some (t', m', ts) ->
  same_channel o m m' /\ (ts = [] \/ ts = [CtUp n URead]).
Proof.
  intros Hne. unfold sock_step, cnext, cexit, alloc_id. intros H.
  repeat (hcase H; simplify_eq/=; try done); split; auto 6 with mxtr;
    repeat match goal with
    | E : c_write ?ok ?sf ?m = (_, ?m') |- _ =>
        let Hw := fresh in pose proof (same_channel_write o ok sf m) as Hw; rewrite E in Hw; clear E
    end; auto 6 with mxtr;
    (split; [done |]; intros y Hy; exists y; cbn; rewrite ?lookup_insert_ne by done; done).
Qed.

Lemma stalled_step o p a y y' : cinv y -> stalled o p y -> cstep a y = Some y' -> stalled o p y'.
Proof.
  intros I (Hl & Hs & Hn & x & Hx & Hsh & Hf). destruct a as [w e | host port].
  2: { intros [= <-]. split_and!; cbn; [by rewrite lookup_insert_ne | | lia | by exists x].
       rewrite lookup_insert_ne; [done |]. intros [= E]. lia. }
  cbn. destruct (c_threads y !! w) as [t|] eqn:Ht; [| done]. cbn.
  destruct (cthread_step t e (c_mem y)) as [[[t' m'] ts]|] eqn:Es; [| done]. cbn. intros [= <-].
  pose proof (ci_who y I w t Ht) as <-.
  assert (Hgo : cwho_of t <> CLoop -> cwho_of t <> CSock o -> same_channel o (c_mem y) m' ->
    (ts = [] \/ exists n, ts = [CtUp n URead]) ->
    stalled o p (CSys (c_spawn ts (c_set_thread (cwho_of t) t' (c_threads y))) m')).
  { intros H1 H2 [Hn' Hsame] Hts. destruct (Hsame x Hx) as (x' & Hx' & Hi). unfold stalled. cbn [c_threads c_mem].
    rewrite Hn'. split_and!; [| | done | exists x'; by rewrite Hi].
    - destruct Hts as [-> | [n ->]]; cbn; [| rewrite lookup_insert_ne by done]; by rewrite set_thread_ne.
    - destruct Hts as [-> | [n ->]]; cbn; [| rewrite lookup_insert_ne by done]; by rewrite set_thread_ne by done. }
  destruct t as [pc | n pc | n pc]; cbn in Ht, Es, Hgo |- *.
  - exfalso. assert (pc = RSend o p) as -> by congruence. destruct e; try done. cbn in Es.
    rewrite Hx, Hsh in Es. by rewrite (proj2 (Z.ltb_ge _ _)) in Es.
  - assert (Hne : o <> n) by (intros ->; congruence).
    destruct (sock_same_channel o n pc e _ _ _ _ Hne Es) as [Hc Hts].
    apply Hgo; [done | congruence | done |]. destruct Hts; eauto.
  - destruct (up_same_channel o n pc e _ _ _ _ Es) as [Hc ->]. apply Hgo; auto.
Qed.

Lemma stalled_run o p acts y y' : cinv y -> stalled o p y -> crun acts y = Some y' -> stalled o p y'.
Proof.
  revert y. induction acts as [|a acts IH]; intros y I Hs; cbn; [by intros [= <-] |].
  destruct (cstep a y) as [y1|] eqn:E; [| done]. cbn.
  apply IH; [by eapply cinv_step | by eapply stalled_step].
Qed.

(** One abandoned download can stop the whole session: there is a run
    (a local connection breaks while the server is still sending) after which
    the read loop waits for room in a channel of 32 chunks that no goroutine
    reads any more, and it never moves again, whatever else happens: no PING
    is answered, no other stream receives, no CLOSE is seen. *)
Theorem client_session_can_stall :
  exists y p, creachable y /\ c_conn (c_mem y) = true /\ c_closed (c_mem y) = false /\
    forall acts y', crun acts y = Some y' -> c_threads y' !! CLoop = Some (CtLoop (RSend 0 p)).
Proof.
  exists (CDemo.final CDemo.stall), (go! "x").
  assert (Hr : creachable (CDemo.final CDemo.stall)) by (apply CDemo.replayed_reachable; vm_compute; reflexivity).
  split_and!; [done | vm_compute; reflexivity | vm_compute; reflexivity |].
  assert (Hst : stalled 0 (go! "x") (CDemo.final CDemo.stall)).
  { split_and!; [vm_compute; reflexivity | vm_compute; reflexivity | vm_compute; lia |].
    exists (CDemo.stream_at CDemo.stall 0).
    split_and!; [vm_compute; reflexivity | vm_compute; reflexivity | vm_compute; discriminate]. }
  intros acts y' Hy'. eapply stalled_run in Hst; [| by apply creachable_inv | done]. by destruct Hst.
Qed.

(** A repeated OPEN_OK raises the window and wakes nobody: the writer stays
    in its [Wait] with room for its piece, on an open stream, and the read
    loop is done with the frame. *)
Theorem repeated_open_ok_strands :
  exists y x rest fin, creachable y /\ c_heap (c_mem y) !! 0%nat = Some x /\
    c_threads y !! CUp 0 = Some (CtUp 0 (UPark rest fin)) /\ parked (win x) = true /\
    len (piece rest) <= sendWindow (win x) /\ cs_closed x = false /\
    c_threads y !! CLoop = Some (CtLoop RRead) /\ cthread_step (CtUp 0 (UPark rest fin)) CTau (c_mem y) = None.
Proof.
  exists (CDemo.final CDemo.stranded), (CDemo.stream_at CDemo.stranded 0), (go! "678901"), false.
  split; [apply CDemo.replayed_reachable; vm_compute; reflexivity |].
  split_and!; vm_compute; reflexivity || discriminate.
Qed.

(** ** Witnesses *)

Lemma client_download_integrity_witness :
  creachable (CDemo.final CDemo.busy) /\
  exists in_hand,
    d_recv (down (CDemo.stream_at CDemo.busy 0)) =
      d_out (down (CDemo.stream_at CDemo.busy 0)) ++ in_hand ++
      unread (pending (CDemo.stream_at CDemo.busy 0)) ++
      concat (items (incoming (CDemo.stream_at CDemo.busy 0))) /\
    len (items (incoming (CDemo.stream_at CDemo.busy 0))) <= incomingCap /\
    (c_threads (CDemo.final CDemo.busy) !! CSock 0 = Some (CtSock 0 SDown) -> in_hand = []) /\
    (forall k, stream_Read k (CDemo.stream_at CDemo.busy 0) = REof ->
       cs_closed (CDemo.stream_at CDemo.busy 0) = true /\
       d_recv (down (CDemo.stream_at CDemo.busy 0)) = d_out (down (CDemo.stream_at CDemo.busy 0)) ++ in_hand).
Proof.
  assert (Hr : creachable (CDemo.final CDemo.busy)) by (apply CDemo.replayed_reachable; vm_compute; reflexivity).
  split; [done |]. apply (client_download_integrity (CDemo.final CDemo.busy) Hr). vm_compute. reflexivity.
Defined.

Lemma client_upload_integrity_witness :
  u_gap (up (CDemo.stream_at CDemo.busy 0)) = false /\
  u_in (up (CDemo.stream_at CDemo.busy 0)) =
    u_sent (up (CDemo.stream_at CDemo.busy 0)) ++ rest_of (up_pc_of (c_threads (CDemo.final CDemo.busy)) 0).
Proof.
  assert (Hr : creachable (CDemo.final CDemo.busy)) by (apply CDemo.replayed_reachable; vm_compute; reflexivity).
  destruct (client_upload_integrity (CDemo.final CDemo.busy) Hr 0 (CDemo.stream_at CDemo.busy 0))
    as [H1 H2]; [vm_compute; reflexivity |].
  assert (Hg : u_gap (up (CDemo.stream_at CDemo.busy 0)) = false).
  { apply H2; [vm_compute; reflexivity | vm_compute; reflexivity |].
    intros n sf Hin. assert (Hall : Forall (fun e => e.2 = true) (c_wire (c_mem (CDemo.final CDemo.busy)))).
    { apply (bool_decide_unpack _). vm_compute. reflexivity. }
    rewrite Forall_forall in Hall. discriminate (Hall _ Hin). }
  split; [done | by apply H1].
Defined.

Lemma client_respects_window_witness :
  w_granted (win (CDemo.stream_at CDemo.busy 0)) = 8 /\
  sendWindow (win (CDemo.stream_at CDemo.busy 0)) =
    w_granted (win (CDemo.stream_at CDemo.busy 0)) - w_taken (win (CDemo.stream_at CDemo.busy 0)) /\
  0 <= sendWindow (win (CDemo.stream_at CDemo.busy 0)) /\
  len (u_sent (up (CDemo.stream_at CDemo.busy 0))) + in_hand (up_pc_of (c_threads (CDemo.final CDemo.busy)) 0)
    <= w_granted (win (CDemo.stream_at CDemo.busy 0)).
Proof.
  assert (Hr : creachable (CDemo.final CDemo.busy)) by (apply CDemo.replayed_reachable; vm_compute; reflexivity).
  split; [vm_compute; reflexivity |].
  apply (client_respects_window (CDemo.final CDemo.busy) Hr 0); vm_compute; reflexivity.
Defined.

Lemma client_no_lost_wakeup_witness :
  parked (win (CDemo.stream_at CDemo.busy 0)) = true /\
  exists rest fin, c_threads (CDemo.final CDemo.busy) !! CUp 0 = Some (CtUp 0 (UPark rest fin)) /\
    ((w_oks (win (CDemo.stream_at CDemo.busy 0)) <= 1)%nat ->
     w_granted (win (CDemo.stream_at CDemo.busy 0)) < 2 ^ 63 ->
     sendWindow (win (CDemo.stream_at CDemo.busy 0)) < len (piece rest)).
Proof.
  assert (Hr : creachable (CDemo.final CDemo.busy)) by (apply CDemo.replayed_reachable; vm_compute; reflexivity).
  split; [vm_compute; reflexivity |].
  apply (client_no_lost_wakeup (CDemo.final CDemo.busy) Hr 0); vm_compute; reflexivity.
Defined.

Lemma client_session_end_releases_witness :
  c_threads (CDemo.final CDemo.ended) !! CLoop = None /\
  cs_closed (CDemo.stream_at CDemo.ended 0) = true /\ parked (win (CDemo.stream_at CDemo.ended 0)) = false /\
  (forall k, stream_Read k (CDemo.stream_at CDemo.ended 0) <> RBlocked) /\
  (forall k w, acquireWindow k (cs_closed (CDemo.stream_at CDemo.ended 0)) (win (CDemo.stream_at CDemo.ended 0)) <> MustWait w).
Proof.
  assert (Hr : creachable (CDemo.final CDemo.ended)) by (apply CDemo.replayed_reachable; vm_compute; reflexivity).
  split; [vm_compute; reflexivity |].
  apply (client_session_end_releases (CDemo.final CDemo.ended) Hr 0).
  - vm_compute. reflexivity.
  - vm_compute. discriminate.
  - vm_compute. reflexivity.
  - left. vm_compute. discriminate.
Defined.

Lemma client_frames_ordered_witness :
  (forall w1 n sf ok w2, c_wire (c_mem (CDemo.final CDemo.busy)) = w1 ++ (n, sf, ok) :: w2 ->
     n = (1 + len (delivered w1)) mod 2 ^ 64) /\
  c_panicked (c_mem (CDemo.final CDemo.busy)) = false.
Proof.
  assert (Hr : creachable (CDemo.final CDemo.busy)) by (apply CDemo.replayed_reachable; vm_compute; reflexivity).
  destruct (client_frames_ordered (CDemo.final CDemo.busy) Hr) as (H1 & _ & _ & H4).
  by split.
Defined.
