(* ===== verification/ClientTraffic.v ===== *)
(** * The traffic of a client session

    The account of the client in terms of the frames that went each way: what
    it may send is the credit it was given, what it has sent on a stream is in
    its DATA frames, a stream is opened once, and nothing is sent on it before
    its OPEN_OK. *)

From S2P Require Import Prelude Padding StreamFrame FrameLog Target Client ClientInv ClientLoop ClientSteps.

(** The frames a step takes from the connection, and all that was put on it. *)
Definition c_frames_in (a : caction) : frames :=
  match a with
  | CRun CLoop (CFrame pt) => match parse_stream_frame pt with Ok sf => [sf] | _ => [] end
  | _ => []
  end.
Definition spoken (m : cmem) : frames := snd <$> delivered (c_wire m).

(** Frames the server's sessions can send: an OPEN_OK carries a window. *)
Definition well_fed (got : frames) : Prop :=
  forall sf, sf ∈ got -> sf_type sf = v2TypeOpenOK -> 4 <= len (sf_payload sf).

(** ** What holds *)

(** Credit the read loop has taken from the connection and not booked yet. *)
Definition pend (lp : option readLoop_pc) (o : nat) (x : cstream) : Z :=
  match lp with
  | Some (RLoad sf) => credit_for (cs_id x) sf
  | Some (RWin o' n) | Some (RCredit o' n) => if decide (o' = o) then n else 0
  | _ => 0
  end.

(** The stream is open and under flow control. *)
Definition ready (got : frames) (x : cstream) : Prop :=
  says (cs_id x) v2TypeOpenOK got /\ flowControlled (win x) = true.

Definition opened_sock (sk : option sock_pc) : Prop :=
  match sk with Some SReply | Some SDown | Some (SOut _) => True | _ => False end.

Record window_due (lp : option readLoop_pc) (got : frames) (o : nat) (x : cstream) : Prop := {
  wd_window : sendWindow (win x) = w_granted (win x) - w_taken (win x) /\ 0 <= sendWindow (win x);
  wd_credit : w_granted (win x) + pend lp o x <= credits (cs_id x) got;
}.

Definition in_hand_ok (lp : option readLoop_pc) (got : frames) (m : cmem) : Prop :=
  match lp with
  | Some (RLoad sf) => sf ∈ got
  | Some (RWin o _) => exists x, c_heap m !! o = Some x /\ says (cs_id x) v2TypeOpenOK got
  | Some (ROk o) => exists x, c_heap m !! o = Some x /\ ready got x
  | Some (RCredit o _) => is_Some (c_heap m !! o)
  | _ => True
  end.

Definition known (m : cmem) (sid : Z) : Prop :=
  exists o x, c_heap m !! o = Some x /\ cs_id x = sid /\ announced (cs_life x) = true.

(** What the client has said. *)
Record said_ok (got : frames) (m : cmem) : Prop := {
  sa_fit : Forall sf_ok (spoken m);
  sa_told sid : says sid v2TypeData (spoken m) -> says sid v2TypeOpenOK got;
  sa_known sid : says sid v2TypeOpen (spoken m) \/ says sid v2TypeData (spoken m) -> known m sid;
  sa_once : few_ids m -> NoDup (opens_of (spoken m));
  sa_data o x : few_ids m -> c_heap m !! o = Some x -> data_of (cs_id x) (spoken m) = u_sent (up x);
}.

Record client_ok (got : frames) (y : csys) : Prop := {
  cc_hand : in_hand_ok (loop_pc_of (c_threads y)) got (c_mem y);
  cc_win o x : c_heap (c_mem y) !! o = Some x -> window_due (loop_pc_of (c_threads y)) got o x;
  cc_ready o x : c_heap (c_mem y) !! o = Some x ->
    openOK x = true \/ opened_sock (sock_pc_of (c_threads y) o) \/ up_pc_of (c_threads y) o <> None -> ready got x;
  cc_fresh o x target : c_heap (c_mem y) !! o = Some x -> sock_pc_of (c_threads y) o = Some (SOpen target) ->
    announced (cs_life x) = false;
  cc_said : said_ok got (c_mem y);
}.

Lemma client_ok_init : client_ok [] dialed_session.
Proof.
  split; cbn; try done. split; cbn; try done.
  - by intros sid ?%not_says_nil.
  - by intros sid [?%not_says_nil | ?%not_says_nil].
  - intros _. constructor.
Qed.

(** ** Steps that leave the accounts alone *)

Definition same_account (x x' : cstream) : Prop :=
  cs_id x' = cs_id x /\ sendWindow (win x') = sendWindow (win x) /\ w_granted (win x') = w_granted (win x) /\
  w_taken (win x') = w_taken (win x) /\ flowControlled (win x') = flowControlled (win x) /\
  (openOK x' = true -> openOK x = true) /\ u_sent (up x') = u_sent (up x) /\
  announced (cs_life x') = announced (cs_life x).

(** Frames that open nothing and carry no data. *)
Definition plain_frame (sf : stream_frame) : Prop :=
  sf_type sf <> v2TypeOpen /\ sf_type sf <> v2TypeData /\ sf_ok sf.

Record quiet (m m' : cmem) : Prop := {
  qu_heap o x' : c_heap m' !! o = Some x' -> exists x, c_heap m !! o = Some x /\ same_account x x';
  qu_kept o x : c_heap m !! o = Some x -> is_Some (c_heap m' !! o);
  qu_wire : spoken m' = spoken m \/ exists sf, plain_frame sf /\ spoken m' = spoken m ++ [sf];
  qu_ids : len (c_ids m) <= len (c_ids m');
}.

Lemma same_account_refl x : same_account x x.
Proof. by split_and!. Qed.

Lemma quiet_same m m' : c_heap m' = c_heap m -> spoken m' = spoken m -> len (c_ids m) <= len (c_ids m') -> quiet m m'.
Proof.
  intros Eh Ew Ei. split; [| by rewrite Eh | by left | done]. intros o x'. rewrite Eh. intros Hx. exists x'.
  split; [done | apply same_account_refl].
Qed.

Lemma quiet_on m o f : (forall x, c_heap m !! o = Some x -> same_account x (f x)) -> quiet m (on_stream o f m).
Proof.
  intros Hf. split; [| | by left | done].
  - intros o' x' [(-> & x & Hx & ->) | [Hne Hx]]%on_stream_lookup.
    + exists x. auto.
    + exists x'. split; [done | apply same_account_refl].
  - intros o' x Hx. destruct (c_heap (on_stream o f m) !! o') eqn:E; [done |]. apply on_stream_dom in E. congruence.
Qed.

Lemma quiet_trans m1 m2 m3 : spoken m2 = spoken m1 \/ spoken m3 = spoken m2 -> quiet m1 m2 -> quiet m2 m3 -> quiet m1 m3.
Proof.
  intros Hw [h1 k1 w1 i1] [h2 k2 w2 i2]. split; [| | | lia].
  - intros o x3 (x2 & Hx2 & A2)%h2. destruct (h1 o x2 Hx2) as (x1 & Hx1 & A1). exists x1. split; [done |].
    unfold same_account in *. naive_solver congruence.
  - intros o x (x2 & Hx2)%k1. by eapply k2.
  - destruct Hw as [E | E]; by rewrite E in *.
Qed.

(** ** Frame writes *)

Lemma c_write_spoken ok sf m r m' : c_write ok sf m = (r, m') ->
  spoken m' = (if r then spoken m ++ [sf] else spoken m) /\ c_heap m' = c_heap m /\ c_ids m' = c_ids m /\
  (r = true -> len (sf_payload sf) <= maxStreamPayloadV2).
Proof.
  unfold c_write. destruct (_ <? len _) eqn:E; bool_facts; [by intros [= <- <-] |].
  destruct (c_closed m); [by intros [= <- <-] |]. intros [= <- <-]. cbn [c_heap c_ids]. unfold spoken. cbn [c_wire].
  rewrite delivered_snoc. split_and!; try done. destruct (_ && _); [by rewrite fmap_app | done].
Qed.

Lemma sent_ok sf : 0 <= sf_id sf < 2 ^ 32 -> 0 <= sf_type sf < 256 -> len (sf_payload sf) <= maxStreamPayloadV2 -> sf_ok sf.
Proof. intros H1 H2 H3. split_and!; try lia. revert H3. by vm_compute (maxStreamPayloadV2); vm_compute (maxStreamPayload). Qed.

Lemma quiet_write ok sf m r m' : c_write ok sf m = (r, m') ->
  r = false \/ (sf_type sf <> v2TypeOpen /\ sf_type sf <> v2TypeData /\ 0 <= sf_id sf < 2 ^ 32 /\ 0 <= sf_type sf < 256) ->
  quiet m m'.
Proof.
  intros Hw Hp. destruct (c_write_spoken _ _ _ _ _ Hw) as (Es & Eh & Ei & Hl). split.
  - intros o x'. rewrite Eh. intros Hx. exists x'. split; [done | apply same_account_refl].
  - by rewrite Eh.
  - rewrite Es. destruct r; [right | by left]. destruct Hp as [? | (? & ? & ? & ?)]; [done |]. exists sf.
    split; [split_and!; [done | done | apply sent_ok; auto] | done].
  - by rewrite Ei.
Qed.

Lemma still_mark k m r m' : mark_step k m = (r, m') -> quiet m m'.
Proof.
  destruct k as [o|o|o]; cbn; intros Hr; repeat hcase Hr; injection Hr as <- <-;
    first [by apply quiet_same | by apply quiet_on].
Qed.

(** Stream ids fit their field. *)
Lemma ids_fit n sid : sid ∈ ids n -> 0 <= sid < 2 ^ 32.
Proof. unfold ids. intros (i & -> & _)%list_elem_of_fmap. apply Z.mod_pos_bound. lia. Qed.

Lemma cid_fits y o x : cinv y -> c_heap (c_mem y) !! o = Some x -> 0 <= cs_id x < 2 ^ 32.
Proof.
  intros I Hx. destruct (oo_reg _ _ _ _ _ _ (ci_obj y I o x Hx)) as [Hin _].
  apply (ids_fit (length (c_ids (c_mem y)))). rewrite <-(gl_ids _ (ci_global y I)).
  apply list_elem_of_fmap. by exists (cs_id x, o).
Qed.

(** ** Keeping the accounts *)

Lemma ready_more got new x : ready got x -> ready (got ++ new) x.
Proof. intros [? ?]. split; [by apply says_app; left | done]. Qed.

Lemma ready_same got x x' : same_account x x' -> ready got x -> ready got x'.
Proof. unfold ready. by intros (-> & _ & _ & _ & -> & _). Qed.

Lemma pend_same lp o x x' : cs_id x' = cs_id x -> pend lp o x' = pend lp o x.
Proof. unfold pend. by intros ->. Qed.

Lemma credits_more sid got new : credits sid got <= credits sid (got ++ new).
Proof. rewrite credits_app. pose proof (credits_nonneg sid new). lia. Qed.

Lemma known_quiet m m' sid : quiet m m' -> known m sid -> known m' sid.
Proof.
  intros Q (o & x & Hx & Hi & Ha). destruct (qu_kept _ _ Q o x Hx) as [x' Hx'].
  destruct (qu_heap _ _ Q o x' Hx') as (x1 & Hx1 & A). simplify_eq. exists o, x'. unfold same_account in A.
  split_and!; [done | by destruct A | naive_solver congruence].
Qed.

Lemma said_quiet got new m m' : quiet m m' -> said_ok got m -> said_ok (got ++ new) m'.
Proof.
  intros Q [F Tl Kn On Da].
  assert (Hs : forall sid ty, ty = v2TypeOpen \/ ty = v2TypeData -> says sid ty (spoken m') -> says sid ty (spoken m)).
  { intros sid ty Hty. destruct (qu_wire _ _ Q) as [-> | (sf & (H1 & H2 & _) & ->)]; [done |]. rewrite says_app, says_one.
    intros [? | [_ E]]; [done |]. destruct Hty as [-> | ->]; congruence. }
  assert (Hf : few_ids m' -> few_ids m) by (unfold few_ids; pose proof (qu_ids _ _ Q); lia). split.
  - destruct (qu_wire _ _ Q) as [-> | (sf & (_ & _ & ?) & ->)]; [done |]. apply Forall_app. by split; [| apply Forall_singleton].
  - intros sid Hd. apply says_app. left. apply Tl, Hs; auto.
  - intros sid Hd. apply (known_quiet m); [done |]. apply Kn. destruct Hd as [Hd | Hd]; [left | right]; apply Hs; auto.
  - intros Hn. destruct (qu_wire _ _ Q) as [-> | (sf & (H1 & _) & ->)]; [auto |].
    rewrite opens_app, opens_neutral, app_nil_r by done. auto.
  - intros o x' Hn Hx'. destruct (qu_heap _ _ Q o x' Hx') as (x & Hx & A). unfold same_account in A.
    destruct A as (-> & _ & _ & _ & _ & _ & -> & _). rewrite <-(Da o x (Hf Hn) Hx).
    destruct (qu_wire _ _ Q) as [-> | (sf & (_ & H2 & _) & ->)]; [done |]. by rewrite data_app, data_neutral, app_nil_r.
Qed.

(** Where the handlers may be after a step that opens nothing. *)
Record places (T T' : gmap cwho cthread) (m : cmem) : Prop := {
  pl_ready o x : c_heap m !! o = Some x -> opened_sock (sock_pc_of T' o) \/ up_pc_of T' o <> None ->
    openOK x = true \/ opened_sock (sock_pc_of T o) \/ up_pc_of T o <> None;
  pl_open o target : sock_pc_of T' o = Some (SOpen target) -> sock_pc_of T o = Some (SOpen target);
}.

Lemma client_quiet got new y T' m' : client_ok got y -> quiet (c_mem y) m' -> places (c_threads y) T' (c_mem y) ->
  in_hand_ok (loop_pc_of T') (got ++ new) m' ->
  (forall o x, c_heap (c_mem y) !! o = Some x ->
     pend (loop_pc_of T') o x <= pend (loop_pc_of (c_threads y)) o x + credits (cs_id x) new) ->
  client_ok (got ++ new) (CSys T' m').
Proof.
  intros [Ch Cw Cr Cf Cs] Q [Pr Po] Hh Hp. split; cbn [c_threads c_mem]; [done | | | | by eapply said_quiet].
  - intros o x' Hx'. destruct (qu_heap _ _ Q o x' Hx') as (x & Hx & A). destruct (Cw o x Hx) as [W C].
    specialize (Hp o x Hx). destruct A as (Ei & E1 & E2 & E3 & _). split; [by rewrite E1, E2, E3 |].
    rewrite (pend_same _ _ x x' Ei), Ei, E2, credits_app. lia.
  - intros o x' Hx' Ho. destruct (qu_heap _ _ Q o x' Hx') as (x & Hx & A). apply (ready_same _ x); [done |].
    apply ready_more, (Cr o x Hx). destruct A as (_ & _ & _ & _ & _ & Eo & _).
    destruct Ho as [Ho | Ho]; [left; auto | by apply (Pr o x)].
  - intros o x' target Hx' Ho. destruct (qu_heap _ _ Q o x' Hx') as (x & Hx & A).
    destruct A as (_ & _ & _ & _ & _ & _ & _ & ->). by apply (Cf o x target), Po.
Qed.

(** ** The read loop *)

Lemma places_loop T t m : places T (c_set_thread CLoop t T) m.
Proof.
  split; intros o; unfold sock_pc_of, up_pc_of; rewrite !set_thread_ne by done; [| done]. intros x _. tauto.
Qed.

(** Steps of the read loop that touch no account. *)
Lemma loop_quiet pc e m t' m' ts : readLoop_step pc e m = Some (t', m', ts) ->
  (forall o n, pc <> RWin o n) -> (forall o, pc <> ROk o) -> (forall o n, pc <> RCredit o n) -> quiet m m'.
Proof.
  intros Hr H1 H2 H3. destruct pc; try (by destruct (H1 o v)); try (by destruct (H2 o)); try (by destruct (H3 o n));
    clear H1 H2 H3; cbn in Hr; destruct e; try discriminate Hr; unfold cnext, cexit, cblocked in Hr;
    repeat (hcase Hr; try discriminate Hr); injection Hr as _ <- _.
  all: try match goal with Hm : mark_step _ _ = _ |- _ => by eapply still_mark end.
  all: try (by apply quiet_same).
  all: try (apply quiet_on; intros x Hx; repeat case_match; by split_and!).
  destruct (c_write _ _ _) as [r m1] eqn:Hw. eapply quiet_write; [exact Hw | right].
  cbn. unfold v2TypeOpen, v2TypeData, v2TypePong. lia.
Qed.

Definition pc_of (t : option cthread) : option readLoop_pc := match t with Some (CtLoop pc) => Some pc | _ => None end.

(** What the read loop has in hand after such a step. *)
Lemma loop_hand got pc e m t' m' ts : readLoop_step pc e m = Some (t', m', ts) -> global_ok m ->
  (forall o n, pc <> RWin o n) -> (forall o, pc <> ROk o) -> (forall o n, pc <> RCredit o n) ->
  in_hand_ok (Some pc) got m -> well_fed got ->
  in_hand_ok (pc_of t') (got ++ c_frames_in (CRun CLoop e)) m' /\
  forall o x, c_heap m !! o = Some x -> pend (pc_of t') o x <= pend (Some pc) o x + credits (cs_id x) (c_frames_in (CRun CLoop e)).
Proof.
  intros Hr G H1 H2 H3 Hh Hf.
  assert (Hnn : forall (x : cstream) l, 0 <= 0 + credits (cs_id x) l) by (intros x l; pose proof (credits_nonneg (cs_id x) l); lia).
  destruct pc; try (by destruct (H1 o v)); try (by destruct (H2 o)); try (by destruct (H3 o n)); clear H1 H2 H3;
    try (cbn in Hr; destruct e; try discriminate Hr; unfold cnext, cexit, cblocked in Hr;
      repeat (hcase Hr; try discriminate Hr); injection Hr as <- <- _; (split; [done | intros o' x' _; apply Hnn])).
  - cbn in Hr. destruct e; try discriminate Hr.
    2: { injection Hr as <- <- _. split; [done | intros o' x' _; apply Hnn]. }
    hcase Hr; [| discriminate Hr]. cbn [c_frames_in].
    destruct (parse_stream_frame pt) as [sf| |]; injection Hr as <- <- _; cbn [pc_of in_hand_ok].
    + split; [apply elem_of_app; right; by left |]. intros o x _. rewrite credits_one. cbn. lia.
    + split; [done | intros o' x' _; apply Hnn].
    + split; [done | intros o' x' _; apply Hnn].
  - destruct e; try discriminate Hr. injection Hr as <- <- _. cbn [c_frames_in pc_of]. rewrite app_nil_r.
    destruct sf as [sid ty p]. cbn [in_hand_ok] in Hh. cbn [readLoop_dispatch sf_id].
    assert (Hn0 : forall o x, 0 <= pend (Some (RLoad (SFrame sid ty p))) o x) by (intros; apply credit_for_nonneg).
    destruct (c_streams m !! sid) as [o|] eqn:Hs.
    2: { repeat case_match; (split; [done |]); intros o x _; specialize (Hn0 o x); rewrite credits_nil; cbn in *; lia. }
    destruct (gl_table _ G _ _ Hs) as (x & Hx & Hi).
    assert (Hc : forall o' x', c_heap m !! o' = Some x' -> ty = v2TypeOpenOK \/ ty = v2TypeWindowUpdate -> 4 <= len p ->
      (if decide (o = o') then be_get (take 4 p) else 0) <= pend (Some (RLoad (SFrame sid ty p))) o' x' + credits (cs_id x') []).
    { intros o' x' Hx' Hty Hl. specialize (Hn0 o' x'). rewrite credits_nil. case_decide as Ho; [subst o'; simplify_eq | lia].
      cbn. unfold credit_for, credit_in. cbn [sf_id sf_type sf_payload]. rewrite Z.eqb_refl, (proj2 (Z.leb_le 4 (len p))) by done.
      destruct Hty as [-> | ->]; cbn; lia. }
    repeat case_match; bool_facts; subst; cbn [in_hand_ok];
      try (split; [done |]; intros o' x' Hx'; specialize (Hn0 o' x'); rewrite credits_nil; cbn in *; lia).
    + split; [| intros; apply Hc; auto]. exists x. split; [done |]. by eexists.
    + exfalso. specialize (Hf _ Hh eq_refl). cbn in Hf. lia.
    + split; [by exists x | intros; apply Hc; auto].
Qed.

Definition same_talk (x x' : cstream) : Prop :=
  cs_id x' = cs_id x /\ u_sent (up x') = u_sent (up x) /\ announced (cs_life x') = announced (cs_life x).

Lemma said_on got m o f : (forall x, same_talk x (f x)) -> said_ok got m -> said_ok got (on_stream o f m).
Proof.
  intros Hf [F Tl Kn On Da]. split; [done | done | | done |].
  - intros sid (o' & x & Hx & Hi & Ha)%Kn. destruct (decide (o' = o)) as [-> | Hne].
    + exists o, (f x). cbn. rewrite lookup_alter_eq, Hx. destruct (Hf x) as (E1 & _ & E2). split_and!; [done | congruence..].
    + exists o', x. cbn. by rewrite lookup_alter_ne.
  - intros o' x' Hn [(-> & x & Hx & ->) | [_ Hx]]%on_stream_lookup; [| by apply (Da o')].
    destruct (Hf x) as (-> & -> & _). by apply (Da o).
Qed.

(** A change of one stream's account. *)
Lemma client_on got y T' lp' o f :
  client_ok got y -> (forall x, same_talk x (f x)) ->
  loop_pc_of T' = lp' -> places (c_threads y) T' (c_mem y) -> in_hand_ok lp' got (on_stream o f (c_mem y)) ->
  (forall x, c_heap (c_mem y) !! o = Some x -> window_due lp' got o (f x) /\ (ready got x -> ready got (f x)) /\
     (openOK (f x) = true -> openOK x = true \/ ready got x)) ->
  (forall o' x, o' <> o -> pend lp' o' x <= pend (loop_pc_of (c_threads y)) o' x) ->
  client_ok got (CSys T' (on_stream o f (c_mem y))).
Proof.
  intros [Ch Cw Cr Cf Cs] Hf El [Pr Po] Hh Ho Hp. split; cbn [c_threads c_mem]; rewrite ?El; [done | | | | by apply said_on].
  - intros o' x' [(-> & x & Hx & ->) | [Hne Hx]]%on_stream_lookup; [by apply Ho |].
    destruct (Cw o' x' Hx) as [W C]. specialize (Hp o' x' Hne). split; [done | lia].
  - intros o' x' [(-> & x & Hx & ->) | [Hne Hx]]%on_stream_lookup Hc.
    + destruct (Ho x Hx) as (_ & H1 & H2). destruct Hc as [Hc | Hc].
      * apply H1. destruct (H2 Hc) as [Hok | ?]; [apply (Cr o x Hx); by left | done].
      * by apply H1, (Cr o x Hx), (Pr o x).
    + apply (Cr o' x' Hx). destruct Hc as [? | Hc]; [by left | by apply (Pr o' x')].
  - intros o' x' target [(-> & x & Hx & ->) | [Hne Hx]]%on_stream_lookup Hc; [| by eapply Cf, Po].
    destruct (Hf x) as (_ & _ & ->). by eapply Cf, Po.
Qed.

(** No stream is more than this far behind what its credit allows. *)
Definition bounded (got : frames) (m : cmem) : Prop :=
  forall o x, c_heap m !! o = Some x -> credits (cs_id x) got <= 2 ^ 62 + w_taken (win x).

Lemma loop_account got y pc t' m' ts : cinv y -> client_ok got y -> bounded got (c_mem y) ->
  loop_pc_of (c_threads y) = Some pc -> readLoop_step pc CTau (c_mem y) = Some (t', m', ts) ->
  (exists o n, pc = RWin o n) \/ (exists o, pc = ROk o) \/ (exists o n, pc = RCredit o n) ->
  client_ok got (CSys (c_set_thread CLoop t' (c_threads y)) m').
Proof.
  intros I C B El Hr Hpc. pose proof (cc_hand _ _ C) as Hh. pose proof (ci_loop y I) as L. rewrite El in Hh, L.
  assert (Hw : forall o x, c_heap (c_mem y) !! o = Some x -> window_due (Some pc) got o x)
    by (intros o x Hx; rewrite <-El; by apply (cc_win _ _ C)).
  destruct Hpc as [(o & v & ->) | [(o & ->) | (o & n & ->)]]; injection Hr as <- <- _;
    (eapply client_on; [done | intros x; by split_and! | unfold loop_pc_of; rewrite set_thread_eq; reflexivity | apply places_loop | ..]).
  - destruct Hh as (x & Hx & Hs). exists (set_win (win_open v) x). cbn. rewrite lookup_alter_eq, Hx. by split.
  - intros x Hx. destruct Hh as (x1 & Hx1 & Hs). rewrite Hx in Hx1. injection Hx1 as <-. destruct (Hw o x Hx) as [[W1 W2] Wc]. cbn in Wc.
    rewrite decide_True in Wc by done. cbn in L.
    split_and!; [split; cbn; lia | by intros _; split | by left].
  - intros o' x Hne. rewrite El. cbn. by rewrite decide_False.
  - done.
  - intros x Hx. destruct Hh as (x1 & Hx1 & Hs). rewrite Hx in Hx1. injection Hx1 as <-. destruct (Hw o x Hx) as [[W1 W2] Wc].
    split_and!; [by split | done | by right].
  - intros o' x Hne. rewrite El. done.
  - done.
  - intros x Hx. destruct (Hw o x Hx) as [[W1 W2] Wc]. cbn in Wc. rewrite decide_True in Wc by done.
    specialize (B o x Hx). cbn in L.
    split_and!; [| by intros [] | by left]. split; cbn; [| lia]. rewrite i64_small by lia. lia.
  - intros o' x Hne. rewrite El. cbn. by rewrite decide_False.
Qed.

(** Any step of the read loop. *)
Lemma loop_client got y pc e t' m' ts : cinv y -> client_ok got y -> bounded got (c_mem y) ->
  well_fed got -> c_threads y !! CLoop = Some (CtLoop pc) -> readLoop_step pc e (c_mem y) = Some (t', m', ts) ->
  client_ok (got ++ c_frames_in (CRun CLoop e)) (CSys (c_spawn ts (c_set_thread CLoop t' (c_threads y))) m').
Proof.
  intros I C B Hf Ht Hr. assert (El : loop_pc_of (c_threads y) = Some pc) by (unfold loop_pc_of; by rewrite Ht).
  assert (Ets : ts = []).
  { destruct pc; cbn in Hr; destruct e; try discriminate Hr; unfold cnext, cexit, cblocked in Hr;
      repeat (hcase Hr; try discriminate Hr); by injection Hr. }
  subst ts. cbn [c_spawn foldr].
  assert (Hd : ((exists o n, pc = RWin o n) \/ (exists o, pc = ROk o) \/ (exists o n, pc = RCredit o n)) \/
    ((forall o n, pc <> RWin o n) /\ (forall o, pc <> ROk o) /\ (forall o n, pc <> RCredit o n))).
  { destruct pc; eauto 6; by right. }
  destruct Hd as [Hd | (H1 & H2 & H3)].
  - assert (e = CTau) as -> by (destruct Hd as [(?&?&->) | [(?&->) | (?&?&->)]]; destruct e; done).
    cbn [c_frames_in]. rewrite app_nil_r. by eapply loop_account.
  - pose proof (cc_hand _ _ C) as Hh. rewrite El in Hh.
    destruct (loop_hand got _ _ _ _ _ _ Hr (ci_global y I) H1 H2 H3 Hh Hf) as [Hh' Hp].
    assert (El' : loop_pc_of (c_set_thread CLoop t' (c_threads y)) = pc_of t').
    { unfold loop_pc_of. rewrite set_thread_eq. by destruct t' as [[]|]. }
    apply (client_quiet got _ y); [done | by eapply loop_quiet | apply places_loop | by rewrite El' |].
    intros o x Hx. rewrite El', El. by apply Hp.
Qed.

(** ** The handler *)

Definition sock_of (t : option cthread) : option sock_pc := match t with Some (CtSock _ pc) => Some pc | _ => None end.

(** The places after a step of handler [n]. *)
Lemma sock_moves T n t' ts : (forall t, t' = Some t -> exists pc, t = CtSock n pc) -> ts = [] \/ ts = [CtUp n URead] ->
  let T' := c_spawn ts (c_set_thread (CSock n) t' T) in
  loop_pc_of T' = loop_pc_of T /\
  (forall o, sock_pc_of T' o = if decide (o = n) then sock_of t' else sock_pc_of T o) /\
  (forall o, up_pc_of T' o = if decide (o = n /\ ts <> []) then Some URead else up_pc_of T o).
Proof.
  intros Ht Hts T'. assert (Hl : forall w, w <> CSock n -> w <> CUp n -> T' !! w = T !! w).
  { intros w H1 H2. unfold T'. destruct Hts as [-> | ->]; cbn; [| rewrite lookup_insert_ne by done]; by apply set_thread_ne. }
  assert (Hs : T' !! CSock n = t').
  { unfold T'. destruct Hts as [-> | ->]; cbn; [| rewrite lookup_insert_ne by done]; apply set_thread_eq. }
  split_and!.
  - unfold loop_pc_of. by rewrite Hl.
  - intros o. unfold sock_pc_of. case_decide as Ho; [subst o; rewrite Hs | by rewrite Hl by congruence].
    destruct t' as [t|]; [| done]. by destruct (Ht t eq_refl) as [pc ->].
  - intros o. unfold up_pc_of. destruct (decide (o = n)) as [-> | Ho].
    + destruct Hts as [-> | ->]; cbn.
      * rewrite decide_False by tauto. unfold T'. cbn. by rewrite set_thread_ne.
      * rewrite decide_True by done. unfold T'. cbn. by rewrite lookup_insert_eq.
    + rewrite decide_False by tauto. by rewrite Hl by congruence.
Qed.

Lemma sock_threads n pc e m t' m' ts : sock_step n pc e m = Some (t', m', ts) ->
  (forall t, t' = Some t -> exists pc, t = CtSock n pc) /\ (ts = [] \/ pc = SReply /\ ts = [CtUp n URead]).
Proof.
  intros Hr. destruct pc; cbn in Hr; unfold cnext, cexit, cblocked in Hr; destruct e; try discriminate Hr;
    repeat (hcase Hr; try discriminate Hr); injection Hr as <- _ <-;
    (split; [intros t [= <-]; by eexists | by auto]).
Qed.

(** A handler passes [open] on the token of an OPEN_OK only. *)
Lemma sock_opens n pc e m t' m' ts x : sock_step n pc e m = Some (t', m', ts) -> c_heap m !! n = Some x ->
  opened_sock (sock_of t') -> openOK x = true \/ opened_sock (Some pc).
Proof.
  intros Hr Hx Ho. destruct pc; try (by right); cbn in Hr; unfold cnext, cexit, cblocked in Hr; destruct e; try discriminate Hr;
    repeat (hcase Hr; try discriminate Hr); injection Hr as <- _ _; try done. simplify_eq. by left.
Qed.

Lemma sock_places T n pc e m t' m' ts : sock_step n pc e m = Some (t', m', ts) -> sock_pc_of T n = Some pc ->
  (forall target, sock_of t' = Some (SOpen target) -> pc = SOpen target) ->
  places T (c_spawn ts (c_set_thread (CSock n) t' T)) m.
Proof.
  intros Hr Hs Hop. destruct (sock_threads _ _ _ _ _ _ _ Hr) as [Ht Hts].
  destruct (sock_moves T n t' ts Ht) as (_ & Es & Eu); [naive_solver |]. split.
  - intros o x Hx. rewrite Es, Eu. destruct (decide (o = n)) as [-> | Hne].
    + rewrite Hs. intros [Ho | Hu].
      * destruct (sock_opens _ _ _ _ _ _ _ _ Hr Hx Ho) as [? | ?]; tauto.
      * case_decide as Hd; [| tauto]. destruct Hts as [-> | [-> _]]; [by destruct Hd | right; by left].
    + rewrite decide_False by tauto. tauto.
  - intros o target. rewrite Es. case_decide; [subst; intros E | done]. by rewrite Hs, (Hop _ E).
Qed.

Lemma read_account k x b x' : stream_Read k x = RBytes b x' -> same_account x x'.
Proof. unfold stream_Read, copy_pending. repeat case_match; intros [= <- <-]; by split_and!. Qed.

(** Steps of a handler that touch no account: all but its [Store] and the
    OPEN frame it writes. *)
Lemma sock_quiet n pc e m t' m' ts : sock_step n pc e m = Some (t', m', ts) ->
  (forall sid host port, pc <> SStore sid host port) ->
  ((exists target, pc = SOpen target) -> t' = Some (CtSock n SDelete)) -> quiet m m'.
Proof.
  intros Hr H1 H2. destruct pc; try (by destruct (H1 sid host port)); clear H1; cbn in Hr;
    unfold cnext, cexit, cblocked in Hr; destruct e; try discriminate Hr;
    repeat (hcase Hr; try discriminate Hr); injection Hr as <- <- _.
  all: try (apply quiet_on; intros x Hx; by split_and!).
  - apply quiet_same; [done.. |]. cbn. rewrite len_cons. lia.
  - discriminate (H2 (ex_intro _ _ eq_refl)).
  - match goal with Hw : c_write _ _ _ = _ |- _ => eapply quiet_write; [exact Hw | by left] end.
  - by apply quiet_same.
  - apply (quiet_trans _ (on_stream n mark_dropped m)); [by right | apply quiet_on; intros x0 Hx0; by split_and! | by apply quiet_same].
  - by apply quiet_same.
  - apply quiet_on. intros x0 Hx0. simplify_eq. by eapply read_account.
  - apply quiet_on. intros x0 Hx0. simplify_eq. by eapply read_account.
Qed.

(** Objects stay, with their id and under flow control. *)
Definition kept (m m' : cmem) : Prop :=
  forall o x, c_heap m !! o = Some x -> exists x', c_heap m' !! o = Some x' /\ cs_id x' = cs_id x /\
    (flowControlled (win x) = true -> flowControlled (win x') = true).

Lemma kept_on m o f : (forall x, c_heap m !! o = Some x -> cs_id (f x) = cs_id x /\
  (flowControlled (win x) = true -> flowControlled (win (f x)) = true)) -> kept m (on_stream o f m).
Proof.
  intros Hf o' x Hx. cbn. destruct (decide (o' = o)) as [-> | Hne].
  - rewrite lookup_alter_eq, Hx. exists (f x). destruct (Hf x Hx). by split_and!.
  - rewrite lookup_alter_ne by done. by exists x.
Qed.

Lemma kept_quiet m m' : quiet m m' -> kept m m'.
Proof.
  intros Q o x Hx. destruct (qu_kept _ _ Q o x Hx) as [x' Hx']. exists x'.
  destruct (qu_heap _ _ Q o x' Hx') as (x1 & Hx1 & A). simplify_eq. destruct A as (-> & _ & _ & _ & -> & _). by split_and!.
Qed.

Lemma hand_kept lp got m m' : kept m m' -> in_hand_ok lp got m -> in_hand_ok lp got m'.
Proof.
  intros K. destruct lp as [[]|]; try done; cbn [in_hand_ok].
  - intros (x & (x' & Hx' & Hi & _)%K & Hs). exists x'. by rewrite Hi.
  - intros (x & (x' & Hx' & Hi & Hf)%K & Hs & Hc). exists x'. unfold ready. rewrite Hi. auto.
  - intros [x (x' & Hx' & _)%K]. by exists x'.
Qed.

(** A stream is opened once; nothing is sent before. *)
Lemma said_open got y n x target :
  cinv y -> client_ok got y -> c_heap (c_mem y) !! n = Some x -> sock_pc_of (c_threads y) n = Some (SOpen target) ->
  forall m', few_ids m' -> c_ids m' = c_ids (c_mem y) -> ~ known (c_mem y) (cs_id x).
Proof.
  intros I C Hx Hpc m' Hf Ei (o & x1 & Hx1 & Hid & Ha).
  assert (o = n) as ->.
  { apply (id_unique (c_mem y) (cs_id x)); [apply I | by unfold few_ids in *; rewrite <-Ei | |].
    - rewrite <-Hid. by destruct (oo_reg _ _ _ _ _ _ (ci_obj y I o x1 Hx1)).
    - by destruct (oo_reg _ _ _ _ _ _ (ci_obj y I n x Hx)). }
  rewrite Hx in Hx1. injection Hx1 as <-. by rewrite (cc_fresh _ _ C n x target Hx Hpc) in Ha.
Qed.

Lemma known_on m m' n f sid : c_heap m' = alter f n (c_heap m) ->
  (forall x, cs_id (f x) = cs_id x /\ (announced (cs_life x) = true -> announced (cs_life (f x)) = true)) ->
  known m sid -> known m' sid.
Proof.
  intros Eh Hf (o & x & Hx & Hid & Ha). destruct (decide (o = n)) as [-> | Hne].
  - exists n, (f x). rewrite Eh, lookup_alter_eq, Hx. destruct (Hf x) as [-> ?]. auto.
  - exists o, x. by rewrite Eh, lookup_alter_ne.
Qed.

(** The OPEN frame has been written. *)
Lemma said_opened got y n x target m1 :
  cinv y -> client_ok got y -> c_heap (c_mem y) !! n = Some x -> sock_pc_of (c_threads y) n = Some (SOpen target) ->
  c_write true (SFrame (cs_id x) v2TypeOpen target) (c_mem y) = (true, m1) ->
  said_ok got (on_stream n mark_announced m1).
Proof.
  intros I C Hx Hpc Hw. destruct (c_write_spoken _ _ _ _ _ Hw) as (Es & Eh & Ei & Hl). specialize (Hl eq_refl). cbn in Hl.
  destruct (cc_said _ _ C) as [F Tl Kn On Da].
  assert (Ew : spoken (on_stream n mark_announced m1) = spoken (c_mem y) ++ [SFrame (cs_id x) v2TypeOpen target]) by exact Es.
  assert (Ehp : c_heap (on_stream n mark_announced m1) = alter mark_announced n (c_heap (c_mem y))) by (cbn; by rewrite Eh).
  split; rewrite ?Ew.
  - apply Forall_app. split; [done |]. apply Forall_singleton. apply sent_ok; [by eapply cid_fits | done | done].
  - intros sid [Hd | Hd]%says_app; [auto |]. by apply says_one in Hd as [_ ?].
  - intros sid Hd.
    assert (known (c_mem y) sid \/ cs_id x = sid) as [Hk | <-].
    { destruct Hd as [[Hd | [Hd _]%says_one]%says_app | [Hd | [_ Hd]%says_one]%says_app]; [left; auto | by right | left; auto | done]. }
    + apply (known_on _ _ n mark_announced sid Ehp); [|exact Hk]. intros x1. by split.
    + exists n, (mark_announced x). rewrite Ehp, lookup_alter_eq, Hx. by split_and!.
  - intros Hf. rewrite opens_app. apply NoDup_app. split_and!; [apply On; unfold few_ids in *; cbn in Hf; by rewrite Ei in Hf | | apply NoDup_singleton].
    intros sid Hin ->%list_elem_of_singleton. apply elem_of_opens in Hin. cbn in Hin.
    apply (said_open got y n x target I C Hx Hpc (on_stream n mark_announced m1) Hf Ei). apply Kn. by left.
  - intros o x' Hf. rewrite Ehp. intros Hx'. assert (Hf' : few_ids (c_mem y)) by (unfold few_ids in *; cbn in Hf; by rewrite Ei in Hf).
    rewrite data_app, data_neutral, app_nil_r by (cbn; unfold v2TypeOpen, v2TypeData; lia). destruct (decide (o = n)) as [-> | Hne].
    + rewrite lookup_alter_eq, Hx in Hx'. injection Hx' as <-. exact (Da n x Hf' Hx).
    + rewrite lookup_alter_ne in Hx' by done. by apply (Da o).
Qed.

Lemma client_opened got y n x target m1 T' :
  cinv y -> client_ok got y -> c_heap (c_mem y) !! n = Some x -> sock_pc_of (c_threads y) n = Some (SOpen target) ->
  c_write true (SFrame (cs_id x) v2TypeOpen target) (c_mem y) = (true, m1) ->
  loop_pc_of T' = loop_pc_of (c_threads y) -> places (c_threads y) T' (c_mem y) ->
  (forall tg, sock_pc_of T' n <> Some (SOpen tg)) ->
  client_ok got (CSys T' (on_stream n mark_announced m1)).
Proof.
  intros I C Hx Hpc Hw El [Pr Po] Hn. pose proof (said_opened got y n x target m1 I C Hx Hpc Hw) as S.
  destruct (c_write_spoken _ _ _ _ _ Hw) as (_ & Eh & _). destruct C as [Ch Cw Cr Cf Cs].
  assert (Hl : forall o x', c_heap (on_stream n mark_announced m1) !! o = Some x' -> exists x0, c_heap (c_mem y) !! o = Some x0 /\
    x' = if decide (o = n) then mark_announced x0 else x0).
  { intros o x' [(-> & x0 & Hx0 & ->) | [Hne Hx0]]%on_stream_lookup; rewrite Eh in Hx0;
      [exists x0; by rewrite decide_True | exists x'; by rewrite decide_False]. }
  split; cbn [c_threads c_mem]; rewrite ?El; [| | | | done].
  - eapply hand_kept; [| exact Ch]. intros o x0 Hx0. cbn. rewrite Eh. destruct (decide (o = n)) as [-> | Hne].
    + rewrite lookup_alter_eq, Hx0. by exists (mark_announced x0).
    + rewrite lookup_alter_ne by done. by exists x0.
  - intros o x' (x0 & Hx0 & ->)%Hl. specialize (Cw o x0 Hx0). case_decide; [| done]. destruct Cw as [W D]. by split.
  - intros o x' (x0 & Hx0 & ->)%Hl Ho. assert (R : ready got x0).
    { apply (Cr o x0 Hx0). destruct Ho as [Ho | Ho]; [left; by case_decide | by apply (Pr o x0)]. }
    by case_decide.
  - intros o x' tg (x0 & Hx0 & ->)%Hl Ho. case_decide as Hd; [subst; by destruct (Hn tg) | by eapply Cf, Po].
Qed.

(** [Store]: the object is new, and so is its id. *)
Lemma client_stored got y n sid T' m' :
  cinv y -> client_ok got y -> c_heap (c_mem y) !! n = None -> (sid, n) ∈ c_ids (c_mem y) ->
  c_heap m' = <[n := new_cstream sid]> (c_heap (c_mem y)) -> spoken m' = spoken (c_mem y) -> c_ids m' = c_ids (c_mem y) ->
  loop_pc_of T' = loop_pc_of (c_threads y) -> ~ opened_sock (sock_pc_of T' n) -> up_pc_of T' n = None ->
  (forall o, o <> n -> sock_pc_of T' o = sock_pc_of (c_threads y) o /\ up_pc_of T' o = up_pc_of (c_threads y) o) ->
  client_ok got (CSys T' m').
Proof.
  intros I C Hn Hid Eh Es Ei El Hs Hu Hso. destruct C as [Ch Cw Cr Cf Cs].
  assert (Hne : forall o x, c_heap (c_mem y) !! o = Some x -> o <> n) by (intros o x Hx ->; congruence).
  split; cbn [c_threads c_mem]; rewrite ?El.
  - eapply hand_kept; [| exact Ch]. intros o x Hx. exists x. rewrite Eh, lookup_insert_ne by (intros ->; congruence). done.
  - intros o x. rewrite Eh. intros [[<- <-] | [_ Hx]]%lookup_insert_Some; [| auto]. split; [cbn; lia |].
    cbn [new_cstream w_granted win cs_id]. destruct (loop_pc_of (c_threads y)) as [[]|]; cbn [pend cs_id]; try apply credits_nonneg; cbn in Ch.
    + by apply credits_in.
    + destruct Ch as (x & Hx & _). rewrite decide_False by eauto. apply credits_nonneg.
    + destruct Ch as (x & Hx). rewrite decide_False by eauto. apply credits_nonneg.
  - intros o x. rewrite Eh. intros [[<- <-] | [_ Hx]]%lookup_insert_Some Ho.
    + destruct Ho as [? | [? | Hu']]; [done | done | by rewrite Hu in Hu'].
    + destruct (Hso o (Hne o x Hx)) as [E1 E2]. rewrite E1, E2 in Ho. by apply (Cr o x Hx).
  - intros o x target. rewrite Eh. intros [[<- <-] | [_ Hx]]%lookup_insert_Some Ho; [done |].
    rewrite (proj1 (Hso o (Hne o x Hx))) in Ho. by eapply Cf.
  - destruct Cs as [F Tl Kn On Da].
    assert (Hk : forall s, known (c_mem y) s -> known m' s).
    { intros s (o & x & Hx & K). exists o, x. rewrite Eh, lookup_insert_ne by (intros ->; congruence). done. }
    split; rewrite ?Es; [done | done | auto | unfold few_ids; by rewrite Ei |].
    intros o x Hf. rewrite Eh. unfold few_ids in *. rewrite Ei in Hf.
    intros [[<- <-] | [_ Hx]]%lookup_insert_Some; [| by apply (Da o)]. apply data_silent. cbn [cs_id]. intros Hd.
    destruct (Kn sid) as (o & x & Hx & Hi & _); [by right |]. apply (Hne o x Hx).
    apply (id_unique (c_mem y) sid); [apply I | done | | done].
    rewrite <-Hi. by destruct (oo_reg _ _ _ _ _ _ (ci_obj y I o x Hx)).
Qed.

Lemma client_still got y T' m' : client_ok got y -> quiet (c_mem y) m' -> places (c_threads y) T' (c_mem y) ->
  loop_pc_of T' = loop_pc_of (c_threads y) -> client_ok got (CSys T' m').
Proof.
  intros C Q P El. rewrite <-(app_nil_r got). apply (client_quiet got [] y); [done | done | done | |]; rewrite El.
  - rewrite app_nil_r. eapply hand_kept; [by apply kept_quiet | apply (cc_hand _ _ C)].
  - intros o x _. rewrite credits_nil. lia.
Qed.

Lemma store_step n sid host port e m t' m' ts : sock_step n (SStore sid host port) e m = Some (t', m', ts) ->
  c_heap m' = <[n := new_cstream sid]> (c_heap m) /\ spoken m' = spoken m /\ c_ids m' = c_ids m /\
  ~ opened_sock (sock_of t') /\ ts = [].
Proof. cbn. intros Hr. destruct e; try (by hcase Hr). hcase Hr; injection Hr as <- <- <-; (split_and!; [done.. | cbn; tauto | done]). Qed.

Lemma opening_step n target e m t' m' ts : sock_step n (SOpen target) e m = Some (t', m', ts) ->
  t' = Some (CtSock n SDelete) \/
  exists x m1, c_heap m !! n = Some x /\ c_write true (SFrame (cs_id x) v2TypeOpen target) m = (true, m1) /\
    t' = Some (CtSock n SWait) /\ m' = on_stream n mark_announced m1.
Proof.
  cbn. intros Hr. destruct e; try (by hcase Hr). destruct (c_heap m !! n) as [x|]; [| done].
  destruct (c_write ok _ m) as [[] m1] eqn:Hw; injection Hr as <- <- _; [right | by left].
  exists x, m1. split_and!; try done. destruct ok; [done |]. revert Hw. unfold c_write. repeat case_match; done.
Qed.

(** Any step of a handler. *)
Lemma sock_client got y n pc e t' m' ts : cinv y -> client_ok got y ->
  c_threads y !! CSock n = Some (CtSock n pc) -> sock_step n pc e (c_mem y) = Some (t', m', ts) ->
  client_ok got (CSys (c_spawn ts (c_set_thread (CSock n) t' (c_threads y))) m').
Proof.
  intros I C Ht Hr. assert (Hpc : sock_pc_of (c_threads y) n = Some pc) by (unfold sock_pc_of; by rewrite Ht).
  destruct (sock_threads _ _ _ _ _ _ _ Hr) as [Ht' Hts].
  destruct (sock_moves (c_threads y) n t' ts Ht') as (El & Es & Eu); [naive_solver |].
  pose proof (sock_places (c_threads y) _ _ _ _ _ _ _ Hr Hpc) as Pl. set (T' := c_spawn ts _) in *.
  assert (Hd : (exists sid host port, pc = SStore sid host port) \/ (exists target, pc = SOpen target) \/
    (forall sid host port, pc <> SStore sid host port) /\ (forall target, pc <> SOpen target)).
  { destruct pc; eauto 6; by right; right. }
  destruct Hd as [(sid & host & port & ->) | [[target ->] | [Hns Hno]]].
  - destruct (ci_early y I n) as (E1 & E2 & _). rewrite Hpc in E1. destruct E1 as [Hn Hid].
    destruct (store_step _ _ _ _ _ _ _ _ _ Hr) as (Eh & Ew & Ei & Hnot & ->).
    eapply (client_stored got y n sid); try done.
    + by rewrite Es, decide_True.
    + rewrite Eu, decide_False by tauto. auto.
    + intros o Ho. rewrite Es, Eu, !decide_False by tauto. done.
  - assert (ts = []) as -> by naive_solver.
    destruct (opening_step _ _ _ _ _ _ _ Hr) as [E | (x & m1 & Hx & Hw & E & ->)].
    + apply (client_still got y); [done | | | done]; [eapply sock_quiet; [exact Hr | done | done] |]. apply Pl. by rewrite E.
    + eapply client_opened; try done; [apply Pl; by rewrite E |]. intros tg. by rewrite Es, decide_True, E.
  - apply (client_still got y); [done | eapply sock_quiet; [exact Hr | done |] | | done].
    + by intros [? ?%Hno].
    + apply Pl. intros target E. exfalso. clear Pl Es Eu El T'. destruct pc; try (by eapply Hns); try (by eapply Hno);
        cbn in Hr; unfold cnext, cexit, cblocked in Hr; destruct e; try discriminate Hr;
        repeat (hcase Hr; try discriminate Hr); injection Hr as <- _ _; discriminate E.
Qed.

(** ** The upload goroutine *)

Lemma up_threads n pc e m t' m' ts : up_step n pc e m = Some (t', m', ts) -> ts = [].
Proof.
  intros Hr. destruct pc; unfold up_step, cnext, cexit, cblocked in Hr;
    repeat (hcase Hr; try discriminate Hr); by injection Hr as _ _ <-.
Qed.

Lemma up_places T n pc t' m : up_pc_of T n = Some pc ->
  loop_pc_of (c_set_thread (CUp n) t' T) = loop_pc_of T /\ places T (c_set_thread (CUp n) t' T) m.
Proof.
  intros Hpc. split; [unfold loop_pc_of; by rewrite set_thread_ne |].
  split; intros o; unfold sock_pc_of, up_pc_of in *; rewrite !(set_thread_ne _ _ (CSock o)) by done; [| done].
  intros x _ [? | Hu]; [by right; left | right; right]. destruct (decide (o = n)) as [-> | Hne]; [by rewrite Hpc |].
  by rewrite set_thread_ne in Hu by congruence.
Qed.

(** Steps that touch no account. *)
Lemma up_quiet n pc e m t' m' ts : up_step n pc e m = Some (t', m', ts) ->
  (forall o x, c_heap m !! o = Some x -> 0 <= cs_id x < 2 ^ 32) ->
  (forall rest fin, pc = UAcquire rest fin -> t' <> Some (CtUp n (UWrite rest fin))) ->
  (forall rest fin, pc = UWrite rest fin -> exists ok x m1, c_heap m !! n = Some x /\
     c_write ok (SFrame (cs_id x) v2TypeData (piece rest)) m = (false, m1) /\ m' = on_stream n (set_up up_drop) m1) ->
  quiet m m'.
Proof.
  intros Hr Hid H1 H2. destruct pc; unfold up_step in Hr.
  - unfold cnext, cexit, cblocked in Hr. repeat (hcase Hr; try discriminate Hr); injection Hr as _ <- _;
      (apply quiet_on; intros x0 Hx0; by split_and!).
  - unfold cnext, cblocked in Hr. destruct (c_heap m !! n) as [x|] eqn:Hx; [| done]. destruct e; try discriminate Hr.
    destruct (acquireWindow _ _ _) as [w | | w] eqn:Ha; injection Hr as <- <- _.
    + by destruct (H1 rest fin eq_refl).
    + apply quiet_on. intros x0 Hx0. by split_and!.
    + unfold acquireWindow in Ha. apply quiet_on. intros x0 Hx0. simplify_eq.
      repeat case_match; try discriminate Ha; injection Ha as <-; by split_and!.
  - unfold cnext, cblocked in Hr. repeat (hcase Hr; try discriminate Hr); injection Hr as _ <- _. by apply quiet_same.
  - destruct (H2 rest fin eq_refl) as (ok & x & m1 & Hx & Hw & ->).
    apply (quiet_trans _ m1); [by right | eapply quiet_write; [exact Hw | by left] |].
    apply quiet_on. intros x0 Hx0. by split_and!.
  - unfold cexit, cblocked in Hr. destruct (c_heap m !! n) as [x|] eqn:Hx; [| done]. destruct e; try discriminate Hr.
    injection Hr as _ <- _. destruct (c_write _ _ _) as [r m1] eqn:Hw. eapply quiet_write; [exact Hw | right].
    specialize (Hid n x Hx). unfold v2TypeOpen, v2TypeData, v2TypeClose. cbn. lia.
Qed.

(** The window lets a piece through. *)
Lemma client_taken got y n rest fin x w :
  client_ok got y -> c_heap (c_mem y) !! n = Some x -> up_pc_of (c_threads y) n = Some (UAcquire rest fin) ->
  acquireWindow (len (piece rest)) (cs_closed x) (win x) = Acquired w ->
  client_ok got (CSys (c_set_thread (CUp n) (Some (CtUp n (UWrite rest fin))) (c_threads y)) (on_stream n (set_win (fun _ => w)) (c_mem y))).
Proof.
  intros C Hx Hpc Ha. destruct (up_places (c_threads y) n _ (Some (CtUp n (UWrite rest fin))) (c_mem y) Hpc) as [El Pl].
  assert (R : ready got x) by (apply (cc_ready _ _ C n x Hx); right; right; by rewrite Hpc).
  assert (Hw : w = win_take (len (piece rest)) (win x) /\ len (piece rest) <= sendWindow (win x)).
  { unfold acquireWindow in Ha. destruct R as [_ Hf]. rewrite Hf in Ha. cbn in Ha. repeat case_match; bool_facts; try discriminate Ha.
    injection Ha as <-. split; [done | lia]. }
  destruct Hw as [-> Hle]. destruct (cc_win _ _ C n x Hx) as [[W1 W2] Wc].
  eapply (client_on got y _ _ n); [done | intros x0; by split_and! | exact El | exact Pl | ..].
  - eapply hand_kept; [| apply (cc_hand _ _ C)]. apply kept_on. intros x0 Hx0. simplify_eq. by split.
  - intros x0 Hx0. simplify_eq. split_and!; [split; cbn; [lia | exact Wc] | intros [? ?]; by split | by left].
  - done.
Qed.

(** A piece has been written. *)
Definition sent_on (n : nat) (b : bytes) (m : cmem) : cmem := on_stream n (set_up (up_sent b)) m.

Lemma said_sent got y n x b m1 :
  cinv y -> client_ok got y -> c_heap (c_mem y) !! n = Some x -> ready got x -> announced (cs_life x) = true ->
  c_write true (SFrame (cs_id x) v2TypeData b) (c_mem y) = (true, m1) -> said_ok got (sent_on n b m1).
Proof.
  intros I C Hx R Han Hw. destruct (c_write_spoken _ _ _ _ _ Hw) as (Es & Eh & Ei & Hl). specialize (Hl eq_refl). cbn in Hl.
  destruct (cc_said _ _ C) as [F Tl Kn On Da].
  assert (Ew : spoken (sent_on n b m1) = spoken (c_mem y) ++ [SFrame (cs_id x) v2TypeData b]) by exact Es.
  assert (Ehp : c_heap (sent_on n b m1) = alter (set_up (up_sent b)) n (c_heap (c_mem y))) by (cbn; by rewrite Eh).
  assert (Hfew : few_ids (sent_on n b m1) -> few_ids (c_mem y)) by (unfold few_ids; cbn; by rewrite Ei).
  assert (Hk : forall s, known (c_mem y) s -> known (sent_on n b m1) s).
  { intros s. apply (known_on _ _ n (set_up (up_sent b)) s Ehp). intros x1. by split. }
  split; rewrite ?Ew.
  - apply Forall_app. split; [done |]. apply Forall_singleton. apply sent_ok; [by eapply cid_fits | done | done].
  - intros sid [Hd | [<- _]%says_one]%says_app; [auto |]. apply R.
  - intros sid Hd. apply Hk.
    destruct Hd as [[Hd | [_ Hd]%says_one]%says_app | [Hd | [Hd _]%says_one]%says_app]; [auto | done | auto |].
    cbn in Hd. by exists n, x.
  - intros Hf%Hfew. rewrite opens_app, opens_neutral, app_nil_r by (cbn; unfold v2TypeOpen, v2TypeData; lia). auto.
  - intros o x' Hf%Hfew. rewrite Ehp. intros Hx'. rewrite data_app, data_one. unfold for_stream. cbn [sf_id sf_type sf_payload].
    destruct (decide (o = n)) as [-> | Hne].
    + rewrite lookup_alter_eq, Hx in Hx'. injection Hx' as <-. cbn. rewrite Z.eqb_refl. cbn. by rewrite (Da n x Hf Hx).
    + rewrite lookup_alter_ne in Hx' by done. rewrite (proj2 (Z.eqb_neq (cs_id x) (cs_id x'))).
      * cbn. rewrite app_nil_r. by apply (Da o).
      * intros E. apply Hne. destruct (oo_reg _ _ _ _ _ _ (ci_obj y I o x' Hx')) as [H1 _].
        destruct (oo_reg _ _ _ _ _ _ (ci_obj y I n x Hx)) as [H2 _]. rewrite E in H2.
        by apply (id_unique (c_mem y) (cs_id x')); [apply I | ..].
Qed.

Lemma client_sent got y n x b m1 T' :
  cinv y -> client_ok got y -> c_heap (c_mem y) !! n = Some x -> up_pc_of (c_threads y) n <> None ->
  c_write true (SFrame (cs_id x) v2TypeData b) (c_mem y) = (true, m1) ->
  loop_pc_of T' = loop_pc_of (c_threads y) -> places (c_threads y) T' (c_mem y) ->
  client_ok got (CSys T' (sent_on n b m1)).
Proof.
  intros I C Hx Hup Hw El [Pr Po]. assert (R : ready got x) by (apply (cc_ready _ _ C n x Hx); auto).
  assert (Han : announced (cs_life x) = true).
  { pose proof (oo_sock _ _ _ _ _ _ (ci_obj y I n x Hx)) as S. unfold sock_ok in S.
    destruct (sock_pc_of (c_threads y) n) as [[]|]; try done; naive_solver. }
  pose proof (said_sent got y n x b m1 I C Hx R Han Hw) as S.
  destruct (c_write_spoken _ _ _ _ _ Hw) as (_ & Eh & _). destruct C as [Ch Cw Cr Cf Cs].
  assert (Hl : forall o x', c_heap (sent_on n b m1) !! o = Some x' -> exists x0, c_heap (c_mem y) !! o = Some x0 /\
    same_talk x0 (set_up (fun _ => up x0) x') /\ win x' = win x0 /\ openOK x' = openOK x0 /\ cs_life x' = cs_life x0).
  { intros o x' [(-> & x0 & Hx0 & ->) | [Hne Hx0]]%on_stream_lookup; rewrite Eh in Hx0; eexists; (split; [exact Hx0 | by split_and!]). }
  split; cbn [c_threads c_mem]; rewrite ?El; [| | | | done].
  - eapply hand_kept; [| exact Ch]. intros o x0 Hx0. cbn. rewrite Eh. destruct (decide (o = n)) as [-> | Hne].
    + rewrite lookup_alter_eq, Hx0. by exists (set_up (up_sent b) x0).
    + rewrite lookup_alter_ne by done. by exists x0.
  - intros o x' (x0 & Hx0 & (Hi & _) & Hwin & _)%Hl. destruct (Cw o x0 Hx0) as [W D]. cbn in Hi.
    split; rewrite Hwin; [done |]. by rewrite (pend_same _ _ x0 x' Hi), Hi.
  - intros o x' (x0 & Hx0 & (Hi & _) & Hwin & Hok & _)%Hl Ho. cbn in Hi. unfold ready. rewrite Hi, Hwin.
    apply (Cr o x0 Hx0). destruct Ho as [Ho | Ho]; [left; congruence | by apply (Pr o x0)].
  - intros o x' tg (x0 & Hx0 & _ & _ & _ & ->)%Hl Ho. by eapply Cf, Po.
Qed.

Lemma uwrite_step n rest fin e m t' m' ts : up_step n (UWrite rest fin) e m = Some (t', m', ts) ->
  exists x m1, c_heap m !! n = Some x /\
    ((exists ok, c_write ok (SFrame (cs_id x) v2TypeData (piece rest)) m = (false, m1) /\ m' = on_stream n (set_up up_drop) m1) \/
     (c_write true (SFrame (cs_id x) v2TypeData (piece rest)) m = (true, m1) /\ m' = sent_on n (piece rest) m1)).
Proof.
  unfold up_step. intros Hr. destruct (c_heap m !! n) as [x|]; [| done]. destruct e; try discriminate Hr.
  destruct (c_write ok _ m) as [[] m1] eqn:Hw; exists x, m1; (split; [done |]).
  - right. split; [| by repeat case_match; injection Hr as _ <- _].
    destruct ok; [done |]. revert Hw. unfold c_write. repeat case_match; done.
  - left. exists ok. split; [done |]. unfold cnext in Hr. repeat case_match; by injection Hr as _ <- _.
Qed.

(** Any step of the upload goroutine. *)
Lemma up_client got y n pc e t' m' ts : cinv y -> client_ok got y ->
  c_threads y !! CUp n = Some (CtUp n pc) -> up_step n pc e (c_mem y) = Some (t', m', ts) ->
  client_ok got (CSys (c_spawn ts (c_set_thread (CUp n) t' (c_threads y))) m').
Proof.
  intros I C Ht Hr. assert (Hpc : up_pc_of (c_threads y) n = Some pc) by (unfold up_pc_of; by rewrite Ht).
  rewrite (up_threads _ _ _ _ _ _ _ Hr). cbn [c_spawn foldr].
  destruct (up_places (c_threads y) n pc t' (c_mem y) Hpc) as [El Pl].
  assert (Hid : forall o x, c_heap (c_mem y) !! o = Some x -> 0 <= cs_id x < 2 ^ 32) by (intros o x; by apply cid_fits).
  assert (Hq : quiet (c_mem y) m' -> client_ok got (CSys (c_set_thread (CUp n) t' (c_threads y)) m'))
    by (intros Q; by apply (client_still got y)).
  assert (Hd : (exists rest fin, pc = UWrite rest fin) \/ (exists rest fin, pc = UAcquire rest fin) \/
    (forall rest fin, pc <> UWrite rest fin) /\ (forall rest fin, pc <> UAcquire rest fin)).
  { destruct pc; eauto 6; by right; right. }
  destruct Hd as [(rest & fin & ->) | [(rest & fin & ->) | [H1 H2]]].
  - destruct (uwrite_step _ _ _ _ _ _ _ _ Hr) as (x & m1 & Hx & [(ok & Hw & E) | [Hw ->]]).
    + apply Hq. eapply up_quiet; [exact Hr | done | done |]. intros rest1 fin1 [= <- <-]. by exists ok, x, m1.
    + eapply client_sent; try done. by rewrite Hpc.
  - pose proof Hr as Hr0. unfold up_step in Hr. destruct (c_heap (c_mem y) !! n) as [x|] eqn:Hx; [| done].
    destruct e; try discriminate Hr. destruct (acquireWindow _ _ _) as [w | | w] eqn:Ha.
    + injection Hr as <- <- _. by eapply client_taken.
    + apply Hq. eapply up_quiet; [exact Hr0 | done | | done]. intros rest1 fin1 _ ->. by destruct fin.
    + apply Hq. eapply up_quiet; [exact Hr0 | done | | done]. intros rest1 fin1 _ ->. done.
  - apply Hq. eapply up_quiet; [exact Hr | done | |]; intros rest fin E; [by destruct (H2 rest fin) | by destruct (H1 rest fin)].
Qed.

(** ** Every step *)

Lemma client_step got a y y' : cinv y -> client_ok got y -> well_fed got -> bounded got (c_mem y) ->
  cstep a y = Some y' -> client_ok (got ++ c_frames_in a) y'.
Proof.
  intros I C Hf B. destruct a as [w e | host port]; cbn.
  2: { intros [= <-]. rewrite app_nil_r.
    apply (client_still got y); [done | by apply quiet_same | | unfold loop_pc_of; by rewrite lookup_insert_ne].
    set (n := next_sock (c_mem y)). assert (Hn : sock_pc_of (c_threads y) n = None).
    { unfold sock_pc_of. destruct (ci_early y I n) as (_ & _ & E). destruct (E (Nat.le_refl _)) as [-> _]. done. }
    split; intros o; unfold sock_pc_of, up_pc_of; rewrite ?(lookup_insert_ne _ (CSock n) (CUp o)) by done.
    - intros x _. destruct (decide (o = n)) as [-> | Hne]; [rewrite lookup_insert_eq; cbn; tauto |].
      rewrite lookup_insert_ne by congruence. tauto.
    - intros target. destruct (decide (o = n)) as [-> | Hne]; [by rewrite lookup_insert_eq |].
      by rewrite lookup_insert_ne by congruence. }
  destruct (c_threads y !! w) as [t|] eqn:Ht; [| done]. cbn.
  destruct (cthread_step t e (c_mem y)) as [[[t' m'] ts]|] eqn:Hs; [| done]. cbn. intros [= <-].
  pose proof (ci_who y I w t Ht) as <-. destruct t as [pc | n pc | n pc]; cbn in Ht, Hs; cbn [cwho_of].
  - by eapply loop_client.
  - cbn [c_frames_in]. rewrite app_nil_r. by eapply sock_client.
  - cbn [c_frames_in]. rewrite app_nil_r. by eapply up_client.
Qed.

(** ** What a step puts on the connection *)

Definition c_frames_out (m m' : cmem) : list (Z * stream_frame) :=
  drop (length (delivered (c_wire m))) (delivered (c_wire m')).

(** The connection gets at most one write more; ids are never handed back. *)
Record wire_grows (m m' : cmem) : Prop := {
  wg_wire : c_wire m' = c_wire m \/ exists e, c_wire m' = c_wire m ++ [e];
  wg_ids : len (c_ids m) <= len (c_ids m');
}.

Lemma grows_same m m' : c_wire m' = c_wire m -> c_ids m' = c_ids m -> wire_grows m m'.
Proof. intros Ew Ei. split; [by left | by rewrite Ei]. Qed.

Lemma c_write_grows ok sf m r m' : c_write ok sf m = (r, m') -> wire_grows m m'.
Proof.
  unfold c_write. destruct (_ <? _); [intros [= _ <-]; by apply grows_same |].
  destruct (c_closed m); [intros [= _ <-]; by apply grows_same |].
  intros [= _ <-]. split; [right; by eexists | done].
Qed.

Lemma mark_grows k m r m' : mark_step k m = (r, m') -> wire_grows m m'.
Proof. destruct k as [o|o|o]; cbn; intros Hr; repeat hcase Hr; injection Hr as <- <-; by apply grows_same. Qed.

Lemma thread_grows t e m t' m' ts : cthread_step t e m = Some (t', m', ts) -> wire_grows m m'.
Proof.
  intros Hr. destruct t as [pc | n pc | n pc]; cbn [cthread_step] in Hr; destruct pc;
    unfold up_step in Hr; cbn in Hr; unfold cnext, cexit, cblocked in Hr; destruct e; repeat (hcase Hr; try discriminate Hr).
  all: try discriminate Hr; injection Hr as _ <- _; try (by apply grows_same).
  all: try match goal with Hm : mark_step _ _ = _ |- _ => by eapply mark_grows end.
  all: try match goal with Hw : c_write _ _ _ = (_, ?m1) |- wire_grows ?m _ =>
         destruct (c_write_grows _ _ _ _ _ Hw); by split end.
  all: try match goal with |- wire_grows _ (snd ?w) => destruct w as [r m1] eqn:Hw; by eapply c_write_grows end.
  split; [by left | cbn; rewrite len_cons; lia].
Qed.

Lemma step_grows a y y' : cstep a y = Some y' -> wire_grows (c_mem y) (c_mem y').
Proof.
  intros Hs. destruct a as [w e | host port]; cbn in Hs; [| injection Hs as <-; by apply grows_same].
  destruct (c_threads y !! w) as [t|]; [| done]. cbn in Hs.
  destruct (cthread_step t e (c_mem y)) as [[[t' m'] ts]|] eqn:Hr; [| done]. injection Hs as <-. by eapply thread_grows.
Qed.

Lemma client_says a y y' : cstep a y = Some y' ->
  delivered (c_wire (c_mem y')) = delivered (c_wire (c_mem y)) ++ c_frames_out (c_mem y) (c_mem y').
Proof.
  intros [Hw _]%step_grows. unfold c_frames_out. destruct Hw as [-> | [[[n sf] r] ->]]; [by rewrite drop_all, app_nil_r |].
  rewrite delivered_snoc. destruct r; [by rewrite drop_app_length | by rewrite drop_all, app_nil_r].
Qed.

(** The nonces on the connection count what was delivered before. *)
Lemma delivered_nonce m l n sf r : global_ok m -> delivered (c_wire m) = l ++ (n, sf) :: r -> n = (1 + len l) mod 2 ^ 64.
Proof.
  intros G. pose proof (gl_nonces _ G) as N. revert N. generalize (c_wire m). intros w N.
  revert r. induction w as [|[[n1 sf1] ok] w IH] using rev_ind; intros r; [intros E; by apply app_cons_not_nil in E |].
  assert (N' : forall w1 n sf ok w2, w = w1 ++ (n, sf, ok) :: w2 -> n = (1 + len (delivered w1)) mod 2 ^ 64).
  { intros w1 n2 sf2 ok2 w2 ->. apply (N w1 n2 sf2 ok2 (w2 ++ [(n1, sf1, ok)])). by rewrite <-app_assoc. }
  rewrite delivered_snoc. destruct ok; [| by apply (IH N')]. destruct r as [|p r _] using rev_ind.
  - intros [El [= -> ->]]%app_inj_tail. rewrite <-El. by apply (N w n sf true []).
  - rewrite app_comm_cons, app_assoc. intros [El _]%app_inj_tail. by eapply IH.
Qed.
