(* ===== verification/ClientFrame.v ===== *)
(** * The client's copy of the frame codec (cmd/mxtr-testclient-v2/main.go:
    [nextPadSize], [bumpProbability], [pickPadRung], [writeAEADFrame],
    [readAEADFrame])

    The client carries its own copy of the codec, without buffer pools. Here
    it is translated on its own and compared with the server's. *)

From S2P Require Import Prelude GoIO Crypto Padding Frame.

Definition client_padSizes : list Z :=
  [256; 384; 512; 768; 1024; 1536; 2048; 3072; 4096; 6144; 8192; 12288; 16384].

Definition client_nextPadSize (n : Z) : Z :=
  match find (fun s => n <=? s) client_padSizes with
  | Some s => s
  | None => List.last client_padSizes 0
  end.

Definition client_bumpProbability (minSize : Z) : Z :=
  if minSize <? 1024 then 30
  else if minSize <? 4096 then 18
  else 8.

(** The loop over [i, s]: the first rung equal to [base] that has a next one. *)
Definition client_pickPadRung (raw minSize : Z) : Z :=
  let base := client_nextPadSize minSize in
  if client_bumpProbability minSize <=? intN 100 raw then base
  else match find (fun p => p.1 =? base) (zip client_padSizes (tail client_padSizes)) with
       | Some (_, s') => s'
       | None => base
       end.

(** [rand.Read] into the padding; the client takes its success for granted. *)
Record cf_oracle := CfOracle { cf_roll : Z; cf_entropy : nat -> byte }.

Definition writeAEADFrame (a : aead) (o : cf_oracle) (seq : Z) (pt : bytes)
  : io writer frame_err unit := fun w =>
  if 16384 - 2 <? len pt then (Err (TooLarge (len pt)), w) else
  let innerSize := client_pickPadRung (cf_roll o) (len pt + 2) in
  let inner0 := zeros innerSize in
  let inner1 := copy_at 0 (be_put 2 (len pt)) inner0 in
  let inner2 := copy_at 2 pt inner1 in
  let inner := copy_at (2 + len pt) (rand_bytes (cf_entropy o) (len inner2 - (2 + len pt))) inner2 in
  let ct := seal a (frameNonce seq) inner in
  match write (be_put 2 (len ct)) w with
  | (Ok _, w1) =>
      match write ct w1 with
      | (Ok _, w2) => (Ok tt, w2)
      | (Err e, w2) => (Err (FrameIO e), w2)
      | (Panic, w2) => (Panic, w2)
      end
  | (Err e, w1) => (Err (FrameIO e), w1)
  | (Panic, w1) => (Panic, w1)
  end.

Definition readAEADFrame (a : aead) (seq : Z) : io reader frame_err bytes :=
  lenBuf ← map_err (fun e => FrameIO e.1) (readFull 2);
  let clen := be_get lenBuf in
  _ ← lift (fail_if ((clen =? 0) || (16384 + 16 <? clen)) (BadCipherLen clen));
  ct ← map_err (fun e => FrameIO e.1) (readFull clen);
  inner ← lift (match open a (frameNonce seq) ct with
                | None => Err (DecryptFailed seq)
                | Some inner => Ok inner
                end);
  _ ← lift (fail_if (len inner <? 2) MissingPrefix);
  hd ← lift (must (slice 0 2 inner));
  let real := be_get hd in
  _ ← lift (fail_if (len inner - 2 <? real) (BadRealLen real (len inner - 2)));
  lift (must (slice 2 (2 + real) inner)).

(** ** The two codecs agree *)

Lemma client_nextPadSize_eq n : client_nextPadSize n = nextPadSize n.
Proof. unfold client_nextPadSize, nextPadSize, client_padSizes, padSizes. cbn. by repeat (gcase; [done |]). Qed.

Lemma client_pickPadRung_eq raw n : client_pickPadRung raw n = pickPadRung raw n.
Proof.
  unfold client_pickPadRung, pickPadRung. rewrite client_nextPadSize_eq.
  change (client_bumpProbability n) with (bumpProbability n). destruct (_ <=? _); [done |].
  generalize (nextPadSize n) (nextPadSize_in n). intros b Hb.
  assert (Hall : Forall (fun b => match find (fun p => p.1 =? b) (zip client_padSizes (tail client_padSizes)) with
    | Some (_, s') => s' | None => b end = rung_above b padSizes) padSizes) by (repeat constructor).
  rewrite Forall_forall in Hall. by apply Hall.
Qed.

Section Codec.
Context (a : aead).

(** The frame as bytes, whatever the connection does with them. *)
Lemma writeAEADFrame_spec o seq pt w :
  writeAEADFrame a o seq pt w =
    if maxPlaintextSize <? len pt then (Err (TooLarge (len pt)), w)
    else
      let wire := frame_wire a seq (cf_entropy o) (pickPadRung (cf_roll o) (len pt + 2)) pt in
      match write (take 2 wire) w with
      | (Ok _, w1) =>
          match write (drop 2 wire) w1 with
          | (Ok _, w2) => (Ok tt, w2)
          | (Err e, w2) => (Err (FrameIO e), w2)
          | (Panic, w2) => (Panic, w2)
          end
      | (Err e, w1) => (Err (FrameIO e), w1)
      | (Panic, w1) => (Panic, w1)
      end.
Proof.
  unfold writeAEADFrame. change (16384 - 2) with maxPlaintextSize. destruct (_ <? len pt) eqn:E; bool_facts; [done |].
  rewrite client_pickPadRung_eq. set (size := pickPadRung _ _).
  assert (Hsize : len pt + 2 <= size).
  { apply pickPadRung_bounds. unfold maxPlaintextSize, maxPaddedSize in *. lia. }
  pose proof (len_nonneg pt). rewrite fill_buffer by (rewrite len_zeros; lia). by rewrite len_zeros by lia.
Qed.

(** [C30] Client and server speak the same frames: for the same padding draw
    and random bytes the client's [writeAEADFrame] and the server's
    [writeFrame] have the same outcome and put the same bytes on the
    connection, healthy or failing and whatever buffers the server's pools
    hold; and [readAEADFrame] accepts, refuses and consumes exactly what
    [readFrame] does. *)
Theorem client_codec_equivalent o seq pt w ps o' r :
  pools_ok ps -> roll o' = cf_roll o -> entropy o' = Some (cf_entropy o) ->
  (let '(rc, wc) := writeAEADFrame a o seq pt w in
   let '(rs, ws) := writeFrame a o' seq pt (WState ps w) in
   rc = rs /\ wc = ws_conn ws) /\
  readAEADFrame a seq r = readFrame a seq r.
Proof.
  intros Hp Hr He. split.
  - rewrite writeAEADFrame_spec. destruct (writeFrame_cases a o' seq pt (WState ps w) Hp) as (ps' & _ & ->).
    rewrite He, Hr. cbn [ws_conn]. by repeat case_match; simplify_eq/=.
  - unfold readAEADFrame, readFrame, mbind, io_bind. done.
Qed.
End Codec.

(** ** Witness *)

Module CodecWitness.
Definition draw : cf_oracle := CfOracle 7 (fun i => z2b (Z.of_nat i)).
End CodecWitness.

Lemma client_codec_equivalent_witness :
  (let '(rc, wc) := writeAEADFrame FrameWitness.key CodecWitness.draw 3 (go! "frame") (Writer [] None) in
   let '(rs, ws) := writeFrame FrameWitness.key
       (WfOracle 7 (Some (cf_entropy CodecWitness.draw)) None (Some 0%nat)) 3 (go! "frame")
       (WState FrameWitness.dirty_pools (Writer [] None)) in
   rc = rs /\ wc = ws_conn ws) /\
  readAEADFrame FrameWitness.key 3 (Reader [] EOF) = readFrame FrameWitness.key 3 (Reader [] EOF).
Proof.
  apply (client_codec_equivalent FrameWitness.key); [apply FrameWitness.dirty_pools_ok | reflexivity | reflexivity].
Defined.
