(* ===== verification/StreamWriter.v ===== *)
(** * [streamWriter.Write] among the other goroutines of the client
    (cmd/mxtr-testclient-v2/main.go: [session.writeStreamFrame],
    [streamWriter.Write])

    The writer runs in steps, from one critical section to the next; between
    any two of them the others may do what they do to the state it uses: credit
    the window, close the stream and broadcast, close the session, lose the
    connection, write frames of their own. A call that waits for credit is
    parked, and stays so until it is woken.

    The network write of a frame is one step with the test of [s.closed] before
    it, which the mutex covers: a session that is closed in between counts as
    closed after the frame. *)

From S2P Require Import Prelude GoIO Crypto Padding Frame StreamFrame Client ClientSteps ClientFrame.

(** What [writeStreamFrame] and [streamWriter.Write] share with the rest of the
    program: the counter, the session's and the stream's closed flags, the send
    window, the connection. [history]: the complete frames, [true] those of
    this writer. *)
Record cw_state := CwState {
  cw_seq : Z;
  cw_closed : bool;
  cw_stclosed : bool;
  cw_win : window;
  cw_conn : writer;
  cw_log : list (bool * cf_oracle * stream_frame);
}.

Inductive cw_err :=
  | CwTooLarge (n : Z)
  | CwSessionClosed
  | CwWrite (e : frame_err)
  | CwStreamClosed.

Definition cw_set_win (w : window) (s : cw_state) : cw_state :=
  CwState (cw_seq s) (cw_closed s) (cw_stclosed s) w (cw_conn s) (cw_log s).
Definition cw_set_conn (c : writer) (s : cw_state) : cw_state :=
  CwState (cw_seq s) (cw_closed s) (cw_stclosed s) (cw_win s) c (cw_log s).
Definition cw_wrote (e : bool * cf_oracle * stream_frame) (c : writer) (s : cw_state) : cw_state :=
  CwState ((cw_seq s + 1) mod 2 ^ 64) (cw_closed s) (cw_stclosed s) (cw_win s) c (cw_log s ++ [e]).

(** [own]: this writer's frame. The counter moves on success only. *)
Definition client_writeStreamFrame (a : aead) (own : bool) (o : cf_oracle) (sf : stream_frame)
  : io cw_state cw_err unit := fun s =>
  if maxStreamPayloadV2 <? len (sf_payload sf) then (Err (CwTooLarge (len (sf_payload sf))), s) else
  if cw_closed s then (Err CwSessionClosed, s) else
  match writeAEADFrame a o (cw_seq s) (encode_stream_frame sf) (cw_conn s) with
  | (Ok _, c) => (Ok tt, cw_wrote (own, o, sf) c s)
  | (Err e, c) => (Err (CwWrite e), cw_set_conn c s)
  | (Panic, c) => (Panic, cw_set_conn c s)
  end.

(** ** The writer *)

Inductive cw_pc :=
  | WAcquire (off : Z) (rest : bytes)   (* acquireWindow: the test of its loop *)
  | WPark (off : Z) (rest : bytes)      (* in winCond.Wait *)
  | WFrame (off : Z) (rest : bytes)     (* writeStreamFrame *)
  | WDone (off : Z) (err : option cw_err)
  | WPanic.

(** The test of the loop of [Write]: [rest] is [p[off:]]. *)
Definition cw_next (off : Z) (rest : bytes) : cw_pc :=
  match rest with [] => WDone off None | _ => WAcquire off rest end.

(** [None]: parked, or returned. [o]: the randomness of a frame. *)
Definition cw_step (a : aead) (sid : Z) (o : cf_oracle) (pc : cw_pc) (s : cw_state) : option (cw_pc * cw_state) :=
  match pc with
  | WAcquire off rest =>
      Some match acquireWindow (len (piece rest)) (cw_stclosed s) (cw_win s) with
           | Acquired w => (WFrame off rest, cw_set_win w s)
           | WindowClosed => (WDone off (Some CwStreamClosed), s)
           | MustWait w => (WPark off rest, cw_set_win w s)
           end
  | WPark off rest => if parked (cw_win s) then None else Some (WAcquire off rest, s)
  | WFrame off rest =>
      Some match client_writeStreamFrame a true o (SFrame sid v2TypeData (piece rest)) s with
           | (Ok _, s') => (cw_next (off + len (piece rest)) (drop (length (piece rest)) rest), s')
           | (Err e, s') => (WDone off (Some e), s')
           | (Panic, s') => (WPanic, s')
           end
  | WDone _ _ | WPanic => None
  end.

(** ** The others *)

Inductive cw_event :=
  | EvOpenOK (v : Z)                            (* readLoop: OPEN_OK with a window *)
  | EvCredit (n : Z)                            (* readLoop: WINDOW_UPDATE *)
  | EvMark                                      (* markClosed: the compare-and-swap *)
  | EvCast                                      (* markClosed: the broadcast *)
  | EvClose                                     (* session.close: the compare-and-swap *)
  | EvRoom (k : Z)                              (* the connection takes at most [k] more bytes *)
  | EvFrame (o : cf_oracle) (sf : stream_frame) (* another goroutine writes a frame *).

Definition cut_room (k : Z) (c : writer) : writer :=
  Writer (w_out c) (Some (match w_room c with Some r => Z.min r (Z.max 0 k) | None => Z.max 0 k end)).

Definition cw_other (a : aead) (e : cw_event) (s : cw_state) : cw_state :=
  match e with
  | EvOpenOK v => cw_set_win (win_open v (cw_win s)) s
  | EvCredit n => cw_set_win (win_credit n (cw_win s)) s
  | EvMark => CwState (cw_seq s) (cw_closed s) true (cw_win s) (cw_conn s) (cw_log s)
  | EvCast => cw_set_win (win_wake (cw_win s)) s
  | EvClose => CwState (cw_seq s) true (cw_stclosed s) (cw_win s) (cw_conn s) (cw_log s)
  | EvRoom k => cw_set_conn (cut_room k (cw_conn s)) s
  | EvFrame o sf => (client_writeStreamFrame a false o sf s).2
  end.

(** An interleaving; [None]: it has a step that is not enabled. *)
Inductive cw_action := Own (o : cf_oracle) | Other (e : cw_event).

Fixpoint cw_run (a : aead) (sid : Z) (acts : list cw_action) (c : cw_pc * cw_state) : option (cw_pc * cw_state) :=
  match acts with
  | [] => Some c
  | Own o :: acts' => c' ← cw_step a sid o c.1 c.2; cw_run a sid acts' c'
  | Other e :: acts' => cw_run a sid acts' (c.1, cw_other a e c.2)
  end.

(** A call of [Write(p)] and where an interleaving has brought it. *)
Definition streamWriter_Write (a : aead) (sid : Z) (p : bytes) (acts : list cw_action) (s : cw_state)
  : option (cw_pc * cw_state) := cw_run a sid acts (cw_next 0 p, s).

(** The writer alone for [k] steps. *)
Definition cw_alone (os : nat -> cf_oracle) (k : nat) : list cw_action := (fun i => Own (os i)) <$> seq 0 k.

(** ** The frames and the wire *)

Definition mux_oracle (o : cf_oracle) : wf_oracle * Z :=
  (WfOracle (cf_roll o) (Some (cf_entropy o)) None None, 0).

Definition cw_entry : Type := bool * cf_oracle * stream_frame.
Definition log_oracles (l : list cw_entry) : list (wf_oracle * Z) := (fun e => mux_oracle e.1.2) <$> l.
Definition log_frames (l : list cw_entry) : list stream_frame := snd <$> l.
(** This writer's. *)
Definition own_frames (l : list cw_entry) : list stream_frame := snd <$> filter (fun e => e.1.1 = true) l.

Definition data_frames (sid : Z) (ps : list bytes) : list stream_frame := SFrame sid v2TypeData <$> ps.

(** The pieces of a buffer, as the loop cuts them. *)
Fixpoint pieces_loop (fuel : nat) (rest : bytes) : list bytes :=
  match rest, fuel with
  | [], _ | _, O => []
  | _, S fuel' => piece rest :: pieces_loop fuel' (drop (length (piece rest)) rest)
  end.
Definition pieces (p : bytes) : list bytes := pieces_loop (length p) p.

Lemma piece_pos rest : rest <> [] -> (0 < length (piece rest))%nat.
Proof.
  intros Hr. unfold piece. rewrite length_take. destruct rest; [done |]. cbn [length].
  unfold maxStreamPayloadV2. lia.
Qed.

Lemma pieces_fuel f1 f2 rest : (length rest <= f1)%nat -> (length rest <= f2)%nat ->
  pieces_loop f1 rest = pieces_loop f2 rest.
Proof.
  revert f2 rest. induction f1 as [|f1 IH]; intros f2 [|b rest] H1 H2; try (by destruct f2); [cbn in H1; lia |].
  destruct f2 as [|f2]; [cbn in H2; lia |]. set (r := b :: rest) in *. pose proof (piece_pos r ltac:(done)).
  cbn [pieces_loop]. fold r. f_equal. apply IH; rewrite length_drop; lia.
Qed.

Lemma pieces_cons rest : rest <> [] -> pieces rest = piece rest :: pieces (drop (length (piece rest)) rest).
Proof.
  intros Hr. unfold pieces. destruct rest as [|b rest]; [done |]. set (r := b :: rest) in *.
  pose proof (piece_pos r Hr). change (pieces_loop (length r) r) with
    (piece r :: pieces_loop (length rest) (drop (length (piece r)) r)).
  f_equal. apply pieces_fuel; rewrite length_drop; cbn [length r] in *; lia.
Qed.

Lemma pieces_spec p : concat (pieces p) = p /\ Forall (fun c => c <> [] /\ len c <= maxStreamPayloadV2) (pieces p).
Proof.
  remember (length p) as n eqn:En. revert p En. induction (lt_wf n) as [n _ IH]. intros p ->.
  destruct p as [|b p]; [done |]. set (r := b :: p) in *. rewrite pieces_cons by done.
  pose proof (piece_pos r ltac:(done)). destruct (IH (length (drop (length (piece r)) r))) with (p := drop (length (piece r)) r) as [Hc Hf];
    [rewrite length_drop; cbn; lia | done |].
  split; [cbn [concat]; rewrite Hc; symmetry; apply piece_drop |]. constructor; [| done].
  split; [| apply len_piece]. intros E. rewrite E in *. cbn in *. lia.
Qed.

Lemma pieces_one p : 0 < len p <= maxStreamPayloadV2 -> pieces p = [p].
Proof.
  intros Hp. assert (Hq : piece p = p) by (unfold piece; apply take_ge; unfold len in Hp; lia).
  rewrite pieces_cons, Hq, drop_all; [done |]. intros ->. by destruct Hp.
Qed.

Section Writer.
Context (a : aead).
Abbreviation cw_run := (cw_run a).

Definition frame_bytes (o : cf_oracle) (seq : Z) (sf : stream_frame) : bytes :=
  let pt := encode_stream_frame sf in
  frame_wire a seq (cf_entropy o) (pickPadRung (cf_roll o) (len pt + 2)) pt.

(** The bytes of the frames of a log, from counter [s] on. *)
Definition log_wire (s : Z) (l : list cw_entry) : bytes := mux_wire a s (log_oracles l) (log_frames l).

Lemma log_wire_cons s b o sf l :
  log_wire s ((b, o, sf) :: l) = frame_bytes o s sf ++ log_wire ((s + 1) mod 2 ^ 64) l.
Proof. done. Qed.

Lemma log_wire_snoc s l own o sf : 0 <= s < 2 ^ 64 ->
  log_wire s (l ++ [(own, o, sf)]) = log_wire s l ++ frame_bytes o ((s + len l) mod 2 ^ 64) sf.
Proof.
  revert s. induction l as [|[[b o1] sf1] l IH]; intros s Hs.
  { rewrite len_nil, Z.add_0_r, Z.mod_small by done. apply app_nil_r. }
  rewrite <-app_comm_cons, !log_wire_cons, (IH ((s + 1) mod 2 ^ 64)), <-app_assoc by (by apply Z.mod_pos_bound).
  do 3 f_equal. rewrite Zplus_mod_idemp_l. f_equal. unfold len. cbn [length]. lia.
Qed.

Lemma write_cases p w :
  (exists w', write p w = (Ok tt, w') /\ w_out w' = w_out w ++ p /\ (0 < len p -> w_room w <> Some 0) /\
     (w_room w = None -> w_room w' = None)) \/
  (exists e w' q, write p w = (Err e, w') /\ w_out w' = w_out w ++ q /\ q `prefix_of` p /\
     w_room w' = Some 0 /\ (w_room w = Some 0 -> q = []) /\ w_room w <> None).
Proof.
  unfold write. destruct (w_room w) as [k|]; [| left; by eexists].
  destruct (len p <=? k) eqn:E; bool_facts; [left | right].
  - eexists. split_and!; [done | done | | done]. intros Hp [= ->]. lia.
  - do 3 eexists. split_and!; [done | done | | done | by intros [= ->] | done].
    exists (drop (Z.to_nat k) p). by rewrite take_drop.
Qed.

(** What becomes of a frame. *)
Inductive frame_fate (own : bool) (o : cf_oracle) (sf : stream_frame) (s : cw_state)
    : res cw_err unit * cw_state -> Prop :=
  | fate_sent c : cw_closed s = false -> w_room (cw_conn s) <> Some 0 ->
      len (sf_payload sf) <= maxStreamPayloadV2 ->
      w_out c = w_out (cw_conn s) ++ frame_bytes o (cw_seq s) sf -> (w_room (cw_conn s) = None -> w_room c = None) ->
      frame_fate own o sf s (Ok tt, cw_wrote (own, o, sf) c s)
  | fate_large : maxStreamPayloadV2 < len (sf_payload sf) ->
      frame_fate own o sf s (Err (CwTooLarge (len (sf_payload sf))), s)
  | fate_closed : cw_closed s = true -> frame_fate own o sf s (Err CwSessionClosed, s)
  | fate_broken e c junk : cw_closed s = false -> w_out c = w_out (cw_conn s) ++ junk ->
      junk `prefix_of` frame_bytes o (cw_seq s) sf -> w_room c = Some 0 ->
      (w_room (cw_conn s) = Some 0 -> junk = []) -> w_room (cw_conn s) <> None ->
      frame_fate own o sf s (Err (CwWrite e), cw_set_conn c s).

Lemma frame_fates own o sf s : frame_fate own o sf s (client_writeStreamFrame a own o sf s).
Proof.
  unfold client_writeStreamFrame. destruct (_ <? len (sf_payload sf)) eqn:El; bool_facts; [by apply fate_large |].
  destruct (cw_closed s) eqn:Ec; [by apply fate_closed |].
  rewrite writeAEADFrame_spec, len_encode.
  rewrite (proj2 (Z.ltb_ge _ _)) by (unfold v2FrameHeader, maxPlaintextSize, maxStreamPayloadV2 in *; lia). cbn zeta.
  assert (Ef : frame_bytes o (cw_seq s) sf =
    frame_wire a (cw_seq s) (cf_entropy o) (pickPadRung (cf_roll o) (v2FrameHeader + len (sf_payload sf) + 2)) (encode_stream_frame sf))
    by (unfold frame_bytes; cbv zeta; by rewrite len_encode).
  set (wire := frame_wire _ _ _ _ _) in *.
  assert (H2 : 0 < len (take 2 wire)) by (unfold wire, frame_wire; cbv zeta; zlen).
  destruct (write_cases (take 2 wire) (cw_conn s)) as [(w1 & -> & H1 & Hroom & Hh1) | (e & w1 & q & -> & H1 & Hq & Hr & Hn & Hh1)].
  2:{ apply (fate_broken _ _ _ _ _ _ q); [done | done | | done | done | done].
      rewrite Ef. etrans; [exact Hq |]. exists (drop 2 wire). by rewrite take_drop. }
  destruct (write_cases (drop 2 wire) w1) as [(w2 & -> & H3 & _ & Hh2) | (e & w2 & q & -> & H3 & [q' Hq] & Hr & _ & Hh2)].
  - apply fate_sent; [done | auto | lia | | auto]. by rewrite Ef, H3, H1, <-app_assoc, take_drop.
  - apply (fate_broken _ _ _ _ _ _ (take 2 wire ++ q)); [done | by rewrite H3, H1, app_assoc | | done | by intros E; destruct Hroom | by intros E; destruct Hh2; apply Hh1].
    rewrite Ef. exists q'. by rewrite <-app_assoc, <-Hq, take_drop.
Qed.

(** ** What a call has done so far *)

(** The reason an error gives is true. *)
Definition cause (e : cw_err) (s : cw_state) : Prop :=
  match e with
  | CwTooLarge _ => False
  | CwSessionClosed => cw_closed s = true
  | CwStreamClosed => cw_stclosed s = true
  | CwWrite _ => w_room (cw_conn s) = Some 0     (* the connection has failed *)
  end.

(** Where the call is, [n] bytes sent and [rest] not. *)
Definition place (pc : cw_pc) (n : Z) (rest : bytes) (s : cw_state) : Prop :=
  match pc with
  | WAcquire off r | WPark off r | WFrame off r => off = n /\ r = rest /\ rest <> []
  | WDone off None => off = n /\ rest = []
  | WDone off (Some e) => off = n /\ rest <> [] /\ cause e s
  | WPanic => False
  end.

(** A call of [Write(p)] from [s0], at [pc] in [s]. *)
Record write_report (sid : Z) (p : bytes) (s0 : cw_state) (pc : cw_pc) (s : cw_state) : Prop := {
  (* everybody's complete frames, in order, and at most a part of one more *)
  wr_wire : exists junk, w_out (cw_conn s) = w_out (cw_conn s0) ++ log_wire (cw_seq s0) (cw_log s) ++ junk /\
    (junk = [] \/ w_room (cw_conn s) = Some 0) /\
    exists o sf, junk `prefix_of` frame_bytes o (cw_seq s) sf;
  wr_seq : cw_seq s = (cw_seq s0 + len (cw_log s)) mod 2 ^ 64;
  (* this writer's frames are the first pieces of [p] *)
  wr_place : exists ps rest, own_frames (cw_log s) = data_frames sid ps /\ p = concat ps ++ rest /\
    pieces p = ps ++ pieces rest /\ place pc (len (concat ps)) rest s;
}.

(** The state a call finds: nobody else writes on the stream. *)
Record fresh_call (s : cw_state) : Prop := {
  fc_log : cw_log s = [];
  fc_seq : 0 <= cw_seq s < 2 ^ 64;
  fc_alone : parked (cw_win s) = false;
}.

Lemma own_frames_snoc l own o sf :
  own_frames (l ++ [(own, o, sf)]) = own_frames l ++ if own then [sf] else [].
Proof. unfold own_frames. rewrite filter_app, fmap_app. by destruct own. Qed.

Lemma place_next off rest s : place (cw_next off rest) off rest s.
Proof. by destruct rest. Qed.

(** ** One step *)

Section Step.
Context (sid : Z) (p : bytes) (s0 : cw_state) (F : fresh_call s0).
Abbreviation write_report := (write_report sid p s0).

(** The part of the report that is not about this writer. *)
Definition wire_ok (s : cw_state) : Prop :=
  (exists junk, w_out (cw_conn s) = w_out (cw_conn s0) ++ log_wire (cw_seq s0) (cw_log s) ++ junk /\
    (junk = [] \/ w_room (cw_conn s) = Some 0) /\ exists o sf, junk `prefix_of` frame_bytes o (cw_seq s) sf) /\
  cw_seq s = (cw_seq s0 + len (cw_log s)) mod 2 ^ 64.

Lemma wire_same s s' : wire_ok s -> w_out (cw_conn s') = w_out (cw_conn s) ->
  (w_room (cw_conn s) = Some 0 -> w_room (cw_conn s') = Some 0) ->
  cw_log s' = cw_log s -> cw_seq s' = cw_seq s -> wire_ok s'.
Proof.
  intros [(junk & E & Hj & Hp) Hs] Eo Er El Eq. unfold wire_ok. rewrite Eo, El, Eq. split; [| done].
  exists junk. split_and!; [done | | done]. destruct Hj; auto.
Qed.

Lemma wire_write own o sf s : wire_ok s -> wire_ok (client_writeStreamFrame a own o sf s).2.
Proof.
  intros W. destruct (frame_fates own o sf s) as [c Hc Hr Hl Ho _ | | | e c junk Hc Ho Hj Hr Hn _]; [| done | done |].
  - destruct W as [(junk & E & Hj & _) Hs]. unfold wire_ok. cbn [snd cw_wrote cw_seq cw_conn cw_log]. split.
    + exists []. destruct Hj as [-> | ?]; [| done]. rewrite Ho, E, log_wire_snoc, <-Hs, !app_nil_r, <-app_assoc by apply F.
      split_and!; [done | by left |]. exists o, sf. apply prefix_nil.
    + rewrite Hs, Zplus_mod_idemp_l. f_equal. zlen.
  - destruct W as [(j0 & E & Hj0 & Hp0) Hs]. unfold wire_ok. cbn [snd cw_set_conn cw_seq cw_conn cw_log]. split; [| done].
    destruct (decide (w_room (cw_conn s) = Some 0)) as [E0 | Hne].
    + exists j0. rewrite Ho, (Hn E0), app_nil_r. split_and!; [done | by right | done].
    + destruct Hj0 as [-> | ?]; [| done]. rewrite app_nil_r in E. exists junk. rewrite Ho, E, <-app_assoc.
      split_and!; [done | by right | by exists o, sf].
Qed.

Lemma wire_other e s : wire_ok s -> wire_ok (cw_other a e s).
Proof.
  intros W. destruct e; cbn [cw_other]; try (by apply wire_write); (apply (wire_same s); [done | done | | done | done]); try done.
  cbn. intros ->. f_equal. lia.
Qed.

(** The others do not touch this writer's frames, nor undo the cause of an
    error. *)
Lemma other_own e s : own_frames (cw_log (cw_other a e s)) = own_frames (cw_log s).
Proof.
  destruct e as [| | | | | | o sf]; try done. cbn [cw_other].
  destruct (frame_fates false o sf s); try done. cbn [snd cw_wrote cw_log]. by rewrite own_frames_snoc, app_nil_r.
Qed.

Lemma write_flags own o sf s : let s' := (client_writeStreamFrame a own o sf s).2 in
  cw_closed s' = cw_closed s /\ cw_stclosed s' = cw_stclosed s /\ cw_win s' = cw_win s.
Proof. cbn. by destruct (frame_fates own o sf s). Qed.

Lemma write_room own o sf s : w_room (cw_conn s) = Some 0 ->
  w_room (cw_conn (client_writeStreamFrame a own o sf s).2) = Some 0.
Proof. intros E. by destruct (frame_fates own o sf s). Qed.

Lemma cause_other e ev s : cause e s -> cause e (cw_other a ev s).
Proof.
  destruct e; cbn; [done | | |].
  - intros Hc. destruct ev; try done. cbn [cw_other]. by destruct (write_flags false o sf s) as (-> & _).
  - intros Hr. destruct ev; try done; cbn [cw_other]; [cbn; rewrite Hr; f_equal; lia | by apply write_room].
  - intros Hc. destruct ev; try done. cbn [cw_other]. by destruct (write_flags false o sf s) as (_ & -> & _).
Qed.

Lemma place_other pc n rest ev s : place pc n rest s -> place pc n rest (cw_other a ev s).
Proof. destruct pc as [| | |off [e|]|]; try done. cbn. intros (? & ? & ?). split_and!; [done.. |]. by apply cause_other. Qed.

Lemma report_other pc ev s : write_report pc s -> write_report pc (cw_other a ev s).
Proof.
  intros [W Q (ps & rest & E & Hp & Hps & Hpl)]. destruct (wire_other ev s (conj W Q)) as [W' Q'].
  split; [done | done |]. exists ps, rest. rewrite other_own. split_and!; try done. by apply place_other.
Qed.

Lemma report_win pc pc' w s : write_report pc s ->
  (forall n rest, place pc n rest s -> place pc' n rest (cw_set_win w s)) -> write_report pc' (cw_set_win w s).
Proof.
  intros [W Q (ps & rest & E & Hp & Hps & Hpl)] Hgo. split; [done | done |]. exists ps, rest. split_and!; try done. by apply Hgo.
Qed.

Lemma set_win_same s : cw_set_win (cw_win s) s = s.
Proof. by destruct s. Qed.

(** A frame of this writer. *)
Lemma report_frame o off rest s : write_report (WFrame off rest) s ->
  match cw_step a sid o (WFrame off rest) s with Some (pc', s') => write_report pc' s' | None => False end.
Proof.
  intros [W Q (ps & r & E & Hp & Hps & -> & -> & Hr)]. cbn [cw_step].
  pose proof (wire_write true o (SFrame sid v2TypeData (piece r)) s (conj W Q)) as Hw.
  assert (Hpos : place (WDone (len (concat ps)) None) (len (concat ps)) [] s) by done.
  destruct (frame_fates true o (SFrame sid v2TypeData (piece r)) s) as [c Hc Hroom Hl Ho _ | Hl | Hc | e c junk Hc Ho Hj Hroom Hn _];
    destruct Hw as [W' Q']; cbn [fst snd] in *.
  - split; [done | done |]. exists (ps ++ [piece r]), (drop (length (piece r)) r). cbn [cw_wrote cw_log].
    rewrite own_frames_snoc, E. split_and!.
    + unfold data_frames. by rewrite fmap_app.
    + rewrite concat_app, <-app_assoc. cbn. rewrite app_nil_r. rewrite <-piece_drop. done.
    + rewrite Hps, (pieces_cons r Hr), <-app_assoc. done.
    + rewrite concat_app, len_app. cbn [concat]. rewrite app_nil_r. apply place_next.
  - pose proof (len_piece r). cbn in Hl. lia.
  - split; [done | done |]. exists ps, r. split_and!; done.
  - split; [done | done |]. exists ps, r. split_and!; done.
Qed.

Lemma report_step o pc s pc' s' : write_report pc s -> cw_step a sid o pc s = Some (pc', s') -> write_report pc' s'.
Proof.
  intros R Hs. destruct pc as [off rest | off rest | off rest | off e |]; try discriminate Hs.
  - cbn in Hs. unfold acquireWindow in Hs. repeat case_match; simplify_eq.
    all: try (apply (report_win (WAcquire off rest)); [done | by intros n r (-> & -> & ?)]).
    rewrite <-(set_win_same s'). apply (report_win (WAcquire off rest)); [done |]. by intros n r (-> & -> & ?).
  - cbn in Hs. destruct (parked _); [done |]. injection Hs as <- <-. rewrite <-(set_win_same s).
    apply (report_win (WPark off rest)); [done |]. by intros n r (-> & -> & ?).
  - pose proof (report_frame o off rest s R) as Hf. by rewrite Hs in Hf.
Qed.

Lemma report_start : write_report (cw_next 0 p) s0.
Proof.
  split.
  - exists []. rewrite (fc_log _ F). change (log_wire (cw_seq s0) []) with (@nil byte).
    split_and!; [by rewrite app_nil_r | by left |]. exists (CfOracle 0 (fun _ => x00)), (SFrame 0 0 []). apply prefix_nil.
  - rewrite (fc_log _ F), len_nil, Z.add_0_r, Z.mod_small by apply F. done.
  - exists [], p. rewrite (fc_log _ F). split_and!; [done | done | done | apply place_next].
Qed.

Lemma run_invariant (P : cw_pc -> cw_state -> Prop) :
  (forall pc s o pc' s', P pc s -> cw_step a sid o pc s = Some (pc', s') -> P pc' s') ->
  (forall pc s ev, P pc s -> P pc (cw_other a ev s)) ->
  forall acts pc s pc' s', P pc s -> cw_run sid acts (pc, s) = Some (pc', s') -> P pc' s'.
Proof.
  intros Hown Hoth. induction acts as [|[o | ev] acts IH]; intros pc s pc' s' H0; cbn.
  - by intros [= <- <-].
  - destruct (cw_step a sid o pc s) as [[pc1 s1]|] eqn:Es; [| done]. cbn. apply IH. by eapply Hown.
  - apply IH. by apply Hoth.
Qed.

Lemma report_run acts pc s : cw_run sid acts (cw_next 0 p, s0) = Some (pc, s) -> write_report pc s.
Proof.
  apply (run_invariant write_report); [intros; by eapply report_step | intros; by apply report_other | apply report_start].
Qed.
End Step.

(** ** The window *)

Definition own_bytes (s : cw_state) : Z := len (concat (sf_payload <$> own_frames (cw_log s))).

(** Taken from the window and not yet sent. *)
Definition hand (pc : cw_pc) : Z := match pc with WFrame _ r => len (piece r) | _ => 0 end.

Definition credit_of (x : cw_action) : Z := match x with Other (EvCredit n) => n | _ => 0 end.
Fixpoint credited (acts : list cw_action) : Z :=
  match acts with [] => 0 | x :: acts' => credit_of x + credited acts' end.

(** Credit is a uint32, and the window is set once, before the call. *)
Definition one_window (x : cw_action) : Prop :=
  match x with Other (EvOpenOK _) => False | Other (EvCredit n) => 0 <= n < 2 ^ 32 | _ => True end.

Definition account (total : Z) (pc : cw_pc) (s : cw_state) : Prop :=
  flowControlled (cw_win s) = true /\ 0 <= sendWindow (cw_win s) /\
  own_bytes s + hand pc + sendWindow (cw_win s) <= total.

Lemma own_bytes_snoc own o sf c s :
  own_bytes (cw_wrote (own, o, sf) c s) = own_bytes s + if own then len (sf_payload sf) else 0.
Proof.
  unfold own_bytes. cbn [cw_wrote cw_log]. rewrite own_frames_snoc. destruct own.
  - rewrite fmap_app, concat_app, len_app. cbn. by rewrite app_nil_r.
  - by rewrite app_nil_r, Z.add_0_r.
Qed.

Lemma account_other t pc ev s : account t pc s -> one_window (Other ev) -> t + credit_of (Other ev) < 2 ^ 63 ->
  0 <= hand pc -> account (t + credit_of (Other ev)) pc (cw_other a ev s).
Proof.
  intros (Hf & Hw & Ht) Hc Hb Hh. assert (0 <= own_bytes s) by apply len_nonneg.
  destruct ev as [v | n | | | | k | o sf]; cbn [one_window credit_of cw_other] in *; rewrite ?Z.add_0_r; try done.
  - unfold account, own_bytes in *. cbn [cw_set_win cw_win cw_log win_credit flowControlled sendWindow].
    assert (Ei : i64 (sendWindow (cw_win s) + n) = sendWindow (cw_win s) + n)
      by (unfold i64; rewrite Z.mod_small by lia; lia).
    rewrite Ei. split_and!; [done | lia | lia].
  - unfold account. destruct (write_flags false o sf s) as (_ & _ & ->). split_and!; [done | done |].
    enough (own_bytes (client_writeStreamFrame a false o sf s).2 = own_bytes s) as -> by done.
    destruct (frame_fates false o sf s); cbn [snd]; [by rewrite own_bytes_snoc, Z.add_0_r | done..].
Qed.

Lemma hand_nonneg pc : 0 <= hand pc.
Proof. destruct pc; cbn; auto with mxtr; done. Qed.

Lemma hand_next off rest : hand (cw_next off rest) = 0.
Proof. by destruct rest. Qed.

Lemma account_step sid t o pc s pc' s' : account t pc s -> cw_step a sid o pc s = Some (pc', s') -> account t pc' s'.
Proof.
  intros (Hf & Hw & Ht) Hs. destruct pc as [off rest | off rest | off rest | off e |]; try discriminate Hs; cbn [cw_step hand] in *.
  - unfold acquireWindow in Hs. rewrite Hf in Hs. cbn [negb] in Hs.
    destruct (_ <? len (piece rest)) eqn:El; bool_facts; [destruct (cw_stclosed s) |]; injection Hs as <- <-; (split; [done |]);
      unfold own_bytes in *; cbn [cw_set_win cw_log cw_win win_park win_take sendWindow flowControlled hand]; lia.
  - destruct (parked _); [done |]. by injection Hs as <- <-.
  - assert (0 <= len (piece rest)) by apply len_nonneg. pose proof (write_flags true o (SFrame sid v2TypeData (piece rest)) s) as (_ & _ & Ew).
    destruct (frame_fates true o (SFrame sid v2TypeData (piece rest)) s); injection Hs as <- <-; cbn [snd] in Ew; unfold account; try rewrite Ew.
    + rewrite own_bytes_snoc, hand_next. split_and!; [done | done |]. cbn [sf_payload]. lia.
    + split_and!; [done | done |]. cbn. lia.
    + split_and!; [done | done |]. cbn. lia.
    + split_and!; [done | done |]. unfold own_bytes in *. cbn [cw_set_conn cw_log hand]. lia.
Qed.

Lemma credited_nonneg acts : Forall one_window acts -> 0 <= credited acts.
Proof.
  induction 1 as [|x acts Hx _ IH]; [done |]. cbn. enough (0 <= credit_of x) by lia.
  destruct x as [| []]; cbn in *; lia.
Qed.

Lemma account_run sid acts t pc s pc' s' : account t pc s -> Forall one_window acts -> t + credited acts < 2 ^ 63 ->
  cw_run sid acts (pc, s) = Some (pc', s') -> account (t + credited acts) pc' s'.
Proof.
  revert t pc s. induction acts as [|x acts IH]; intros t pc s A Hc Hb; cbn [StreamWriter.cw_run credited] in *.
  - intros [= <- <-]. by rewrite Z.add_0_r.
  - apply Forall_cons in Hc as [Hx Hc]. pose proof (credited_nonneg acts Hc). destruct x as [o | ev].
    + cbn [fst snd]. destruct (cw_step a sid o pc s) as [[pc1 s1]|] eqn:Es; [| done]. cbn [mbind option_bind].
      apply (IH t); [by eapply account_step | done | done].
    + cbn [fst snd]. rewrite Z.add_assoc in *. apply IH; [apply account_other; auto using hand_nonneg; lia | done | done].
Qed.

(** A writer waits for more than the window holds. *)
Definition park_ok (pc : cw_pc) (s : cw_state) : Prop :=
  parked (cw_win s) = true ->
  exists off r, pc = WPark off r /\ flowControlled (cw_win s) = true /\ sendWindow (cw_win s) < len (piece r).

Lemma park_step sid o pc s pc' s' : park_ok pc s -> cw_step a sid o pc s = Some (pc', s') -> park_ok pc' s'.
Proof.
  intros Pk Hs. destruct pc as [off rest | off rest | off rest | off e |]; try discriminate Hs; cbn [cw_step] in Hs.
  - assert (Hnp : parked (cw_win s) <> true) by (intros E; destruct (Pk E) as (? & ? & ? & _); done).
    unfold acquireWindow in Hs. repeat case_match; simplify_eq; try (intros E; by destruct (Hnp E)); bool_facts.
    intros _. exists off, rest. split_and!; done.
  - destruct (parked _) eqn:E; [done |]. injection Hs as <- <-. intros E'. congruence.
  - assert (Hnp : parked (cw_win s) <> true) by (intros E; destruct (Pk E) as (? & ? & ? & _); done).
    pose proof (write_flags true o (SFrame sid v2TypeData (piece rest)) s) as (_ & _ & Ew).
    destruct (client_writeStreamFrame _ _ _ _ _) as [[] s1]; injection Hs as <- <-; cbn [snd] in Ew; intros E; congruence.
Qed.

Lemma park_other pc ev s : park_ok pc s -> one_window (Other ev) -> park_ok pc (cw_other a ev s).
Proof.
  intros Pk Hc. destruct ev as [v | n | | | | k | o sf]; cbn [cw_other one_window] in *; try done.
  unfold park_ok. by destruct (write_flags false o sf s) as (_ & _ & ->).
Qed.

Lemma park_run sid acts pc s pc' s' : park_ok pc s -> Forall one_window acts ->
  cw_run sid acts (pc, s) = Some (pc', s') -> park_ok pc' s'.
Proof.
  revert pc s. induction acts as [|x acts IH]; intros pc s Pk Hc; cbn [StreamWriter.cw_run].
  - by intros [= <- <-].
  - apply Forall_cons in Hc as [Hx Hc]. destruct x as [o | ev]; cbn [fst snd].
    + destruct (cw_step a sid o pc s) as [[pc1 s1]|] eqn:Es; [| done]. cbn [mbind option_bind].
      apply IH; [by eapply park_step | done].
    + apply IH; [by apply park_other | done].
Qed.

(** ** Interleavings in two parts *)

Lemma run_app sid acts1 acts2 c : cw_run sid (acts1 ++ acts2) c = c' ← cw_run sid acts1 c; cw_run sid acts2 c'.
Proof.
  revert c. induction acts1 as [|[o | ev] acts1 IH]; intros c; [done | |]; cbn [app StreamWriter.cw_run]; [| apply IH].
  destruct (cw_step a sid o c.1 c.2); [apply IH | done].
Qed.

(** ** A closed session *)

(** Nothing goes out any more, from anybody. *)
Lemma closed_silent sid acts pc s pc' s' : cw_closed s = true -> cw_run sid acts (pc, s) = Some (pc', s') ->
  w_out (cw_conn s') = w_out (cw_conn s) /\ cw_log s' = cw_log s.
Proof.
  intros Hc Hr.
  assert (Hw : forall own o sf s1, cw_closed s1 = true -> (client_writeStreamFrame a own o sf s1).2 = s1).
  { intros own o sf s1 H1. destruct (frame_fates own o sf s1); congruence || done. }
  enough (cw_closed s' = true /\ w_out (cw_conn s') = w_out (cw_conn s) /\ cw_log s' = cw_log s) by tauto.
  revert Hr. apply (run_invariant sid (fun _ s1 => cw_closed s1 = true /\ w_out (cw_conn s1) = w_out (cw_conn s) /\ cw_log s1 = cw_log s)); [| | done].
  - intros pc1 s1 o pc2 s2 (H1 & H2 & H3) Hs. destruct pc1 as [off rest | off rest | off rest | off e |]; try discriminate Hs; cbn [cw_step] in Hs.
    + destruct (acquireWindow _ _ _); injection Hs as <- <-; done.
    + destruct (parked _); [done |]. by injection Hs as <- <-.
    + pose proof (Hw true o (SFrame sid v2TypeData (piece rest)) s1 H1) as E.
      destruct (client_writeStreamFrame _ _ _ _ _) as [[] s3]; injection Hs as <- <-; cbn [snd] in E; by subst.
  - intros _ s1 ev (H1 & H2 & H3). destruct ev; try done. cbn [cw_other]. by rewrite Hw.
Qed.

(** ** Progress *)

Lemma cw_alone_S os k : cw_alone os (S k) = Own (os O) :: cw_alone (fun i => os (S i)) k.
Proof. unfold cw_alone. cbn. f_equal. by rewrite <-seq_shift, <-list_fmap_compose. Qed.

Definition weight (pc : cw_pc) : nat :=
  match pc with
  | WFrame _ r => 3 * length r + 1
  | WAcquire _ r => 3 * length r + 2
  | WPark _ r => 3 * length r + 3
  | _ => 0
  end.

Definition returned (pc : cw_pc) : Prop := exists off e, pc = WDone off e.

(** Just parked, for good reason. *)
Definition stuck (pc : cw_pc) (s : cw_state) : Prop :=
  exists off r, pc = WPark off r /\ parked (cw_win s) = true /\
    flowControlled (cw_win s) = true /\ sendWindow (cw_win s) < len (piece r) /\ cw_stclosed s = false.

Lemma next_weight off off' rest : rest <> [] ->
  (weight (cw_next off (drop (length (piece rest)) rest)) < weight (WFrame off' rest))%nat.
Proof.
  intros Hr. pose proof (piece_pos rest Hr). destruct (drop (length (piece rest)) rest) eqn:E; cbn; [lia |].
  apply (f_equal length) in E. rewrite length_drop in E. cbn in E. lia.
Qed.

(** A frame is never empty. *)
Definition nonempty (pc : cw_pc) : Prop :=
  match pc with WAcquire _ r | WPark _ r | WFrame _ r => r <> [] | _ => True end.

Lemma nonempty_step sid o pc s pc' s' : nonempty pc -> cw_step a sid o pc s = Some (pc', s') -> nonempty pc'.
Proof.
  intros Hn Hs. destruct pc as [off rest | off rest | off rest | off e |]; try discriminate Hs; cbn [cw_step nonempty] in *.
  - destruct (acquireWindow _ _ _); injection Hs as <- <-; done.
  - destruct (parked _); [done |]. by injection Hs as <- <-.
  - destruct (client_writeStreamFrame _ _ _ _ _) as [[] s1]; injection Hs as <- <-; try done. by destruct (drop _ rest).
Qed.

(** One step of a writer that is not parked. *)
Definition can_step (pc : cw_pc) (s : cw_state) : Prop :=
  match pc with WPark _ _ => parked (cw_win s) = false | WDone _ _ | WPanic => False | _ => True end.

Lemma step_progress sid o pc s : can_step pc s -> nonempty pc ->
  exists pc' s', cw_step a sid o pc s = Some (pc', s') /\ nonempty pc' /\
    (stuck pc' s' \/ (weight pc' < weight pc)%nat /\ (returned pc' \/ can_step pc' s')).
Proof.
  intros Hc Hn. enough (exists pc' s', cw_step a sid o pc s = Some (pc', s') /\
    (stuck pc' s' \/ (weight pc' < weight pc)%nat /\ (returned pc' \/ can_step pc' s'))) as (pc' & s' & Hs & H).
  { exists pc', s'. split; [done |]. split; [by eapply nonempty_step | done]. }
  destruct pc as [off rest | off rest | off rest | off e |]; try done; cbn [cw_step can_step nonempty] in *.
  - destruct (acquireWindow _ _ _) as [w | | w] eqn:Ea; do 2 eexists; (split; [reflexivity |]).
    + right. split; [cbn; lia | by right].
    + right. split; [cbn; lia | left; by do 2 eexists].
    + left. unfold acquireWindow in Ea. repeat case_match; simplify_eq. bool_facts. exists off, rest. by split_and!.
  - rewrite Hc. do 2 eexists. split; [reflexivity |]. right. split; [cbn; lia | by right].
  - pose proof (next_weight (off + len (piece rest)) off rest Hn).
    destruct (frame_fates true o (SFrame sid v2TypeData (piece rest)) s); do 2 eexists; (split; [reflexivity |]); right;
      (split; [cbn [weight] in *; lia |]); try (left; by do 2 eexists).
    destruct (drop _ rest); [left; by do 2 eexists | by right].
Qed.

Lemma run_cons sid os k pc s pc1 s1 : cw_step a sid (os O) pc s = Some (pc1, s1) ->
  cw_run sid (cw_alone os (S k)) (pc, s) = cw_run sid (cw_alone (fun i => os (S i)) k) (pc1, s1).
Proof. intros Hs. rewrite cw_alone_S. cbn [StreamWriter.cw_run fst snd]. by rewrite Hs. Qed.

Lemma alone_progress sid os pc s : can_step pc s -> nonempty pc ->
  exists k pc' s', (k <= weight pc)%nat /\ cw_run sid (cw_alone os k) (pc, s) = Some (pc', s') /\
    (returned pc' \/ stuck pc' s').
Proof.
  remember (weight pc) as n eqn:En. revert os pc s En. induction (lt_wf n) as [n _ IH]. intros os pc s -> Hc Hn.
  assert (Hpos : (0 < weight pc)%nat) by (destruct pc; cbn in *; lia || done).
  destruct (step_progress sid (os O) pc s Hc Hn) as (pc1 & s1 & Hs & Hn1 & [Hk | [Hlt [Hr | Hc1]]]).
  - exists 1%nat, pc1, s1. rewrite (run_cons _ _ _ _ _ _ _ Hs). split_and!; [lia | done | by right].
  - exists 1%nat, pc1, s1. rewrite (run_cons _ _ _ _ _ _ _ Hs). split_and!; [lia | done | by left].
  - destruct (IH (weight pc1) Hlt (fun i => os (S i)) pc1 s1 eq_refl Hc1 Hn1) as (k & pc2 & s2 & Hk & Hr & Hcase).
    exists (S k), pc2, s2. rewrite (run_cons _ _ _ _ _ _ _ Hs). split_and!; [lia | done | done].
Qed.

(** What the writer alone does not change, and what suffices for it to end. *)
Definition room_left (pc : cw_pc) (s : cw_state) : Prop :=
  flowControlled (cw_win s) = true ->
  match pc with
  | WAcquire _ r | WPark _ r => len r <= sendWindow (cw_win s)
  | WFrame _ r => len r - len (piece r) <= sendWindow (cw_win s)
  | _ => True
  end.

Definition will_end (pc : cw_pc) (s : cw_state) : Prop := cw_stclosed s = true \/ room_left pc s.

Lemma room_left_step sid o pc s pc' s' : room_left pc s -> cw_step a sid o pc s = Some (pc', s') -> room_left pc' s'.
Proof.
  intros Hw Hs. unfold room_left in *.
  destruct pc as [off rest | off rest | off rest | off e |]; try discriminate Hs; cbn [cw_step] in Hs.
  - unfold acquireWindow in Hs. repeat case_match; simplify_eq; cbn; intros Hf; specialize (Hw Hf); bool_facts; try lia; try done.
    all: cbn in Hf; congruence || lia.
  - destruct (parked _); [done |]. by injection Hs as <- <-.
  - destruct (write_flags true o (SFrame sid v2TypeData (piece rest)) s) as (_ & _ & Ew).
    destruct (client_writeStreamFrame _ _ _ _ _) as [[] s1]; injection Hs as <- <-; cbn [snd] in Ew; try done.
    rewrite Ew. intros Hf. specialize (Hw Hf). pose proof (piece_drop rest) as Hd. apply (f_equal len) in Hd. rewrite len_app in Hd.
    destruct (drop (length (piece rest)) rest); [done |]. cbn [cw_next]. lia.
Qed.

Lemma flags_step sid o pc s pc' s' : cw_step a sid o pc s = Some (pc', s') ->
  cw_closed s' = cw_closed s /\ cw_stclosed s' = cw_stclosed s.
Proof.
  intros Hs. destruct pc as [off rest | off rest | off rest | off e |]; try discriminate Hs; cbn [cw_step] in Hs.
  - destruct (acquireWindow _ _ _); injection Hs as <- <-; done.
  - destruct (parked _); [done |]. by injection Hs as <- <-.
  - destruct (write_flags true o (SFrame sid v2TypeData (piece rest)) s) as (E1 & E2 & _).
    destruct (client_writeStreamFrame _ _ _ _ _) as [[] s1]; by injection Hs as <- <-.
Qed.

Lemma will_end_step sid o pc s pc' s' : will_end pc s -> cw_step a sid o pc s = Some (pc', s') -> will_end pc' s'.
Proof.
  intros [Hw | Hw] Hs; [left | right; by eapply room_left_step]. destruct (flags_step _ _ _ _ _ _ Hs) as [_ ->]. done.
Qed.

Lemma stuck_not_ending pc s : nonempty pc -> will_end pc s -> ~ stuck pc s.
Proof.
  intros Hn Hw (off & r & -> & Hp & Hf & Hlt & Hc). destruct Hw as [Hw | Hw]; [congruence |].
  specialize (Hw Hf). cbn in Hw. pose proof (piece_drop r) as Hd. apply (f_equal len) in Hd. rewrite len_app in Hd.
  pose proof (len_nonneg (drop (length (piece r)) r)). lia.
Qed.

Lemma alone_inv (P : cw_pc -> cw_state -> Prop) sid :
  (forall o pc s pc' s', P pc s -> cw_step a sid o pc s = Some (pc', s') -> P pc' s') ->
  forall k os pc s pc' s', P pc s -> cw_run sid (cw_alone os k) (pc, s) = Some (pc', s') -> P pc' s'.
Proof.
  intros Hstep. induction k as [|k IH]; intros os pc s pc' s' H0; [by intros [= <- <-] |].
  rewrite cw_alone_S. cbn [StreamWriter.cw_run fst snd]. destruct (cw_step a sid (os O) pc s) as [[pc1 s1]|] eqn:Es; [| done].
  cbn [mbind option_bind]. apply IH. by eapply Hstep.
Qed.

(** ** A call of its own *)

(** Alone, with room in its window, on a healthy connection. *)
Definition healthy (pc : cw_pc) (s : cw_state) : Prop :=
  cw_closed s = false /\ w_room (cw_conn s) = None /\ room_left pc s /\
  match pc with WDone _ (Some _) | WPanic => False | _ => True end.

Lemma healthy_step sid o pc s pc' s' : healthy pc s -> cw_step a sid o pc s = Some (pc', s') -> healthy pc' s'.
Proof.
  intros (H1 & H2 & H3 & H4) Hs. pose proof (room_left_step _ _ _ _ _ _ H3 Hs) as H3'.
  destruct (flags_step _ _ _ _ _ _ Hs) as [E1 _].
  enough (w_room (cw_conn s') = None /\ match pc' with WDone _ (Some _) | WPanic => False | _ => True end)
    by (split_and!; [congruence | tauto..]).
  destruct pc as [off rest | off rest | off rest | off e |]; try discriminate Hs; cbn [cw_step] in Hs.
  - unfold acquireWindow in Hs. unfold room_left in H3. pose proof (piece_drop rest) as Hd. apply (f_equal len) in Hd. rewrite len_app in Hd.
    pose proof (len_nonneg (drop (length (piece rest)) rest)).
    destruct (flowControlled (cw_win s)); cbn [negb] in Hs; [specialize (H3 eq_refl) | by injection Hs as <- <-].
    rewrite (proj2 (Z.ltb_ge _ _)) in Hs by lia. by injection Hs as <- <-.
  - destruct (parked _); [done |]. by injection Hs as <- <-.
  - destruct (frame_fates true o (SFrame sid v2TypeData (piece rest)) s) as [c Hc Hroom Hl Ho Hh | Hl | Hc | e c junk Hc Ho Hj Hroom Hn Hh].
    + injection Hs as <- <-. split; [by apply Hh |]. by destruct (drop _ rest).
    + pose proof (len_piece rest). cbn in Hl. lia.
    + congruence.
    + done.
Qed.

(** It returns without an error. *)
Lemma write_completes sid p os s0 : fresh_call s0 -> cw_closed s0 = false -> w_room (cw_conn s0) = None ->
  (flowControlled (cw_win s0) = true -> len p <= sendWindow (cw_win s0)) ->
  exists k s, (k <= 3 * length p + 3)%nat /\ streamWriter_Write a sid p (cw_alone os k) s0 = Some (WDone (len p) None, s) /\
    w_room (cw_conn s) = None.
Proof.
  intros F Hc Hr Hw. unfold streamWriter_Write.
  assert (H0 : healthy (cw_next 0 p) s0) by (split_and!; [done | done | | by destruct p]; intros Hf; destruct p; cbn; auto).
  destruct p as [|b p]; [by exists O, s0; split; [lia |] |]. set (q := b :: p) in *.
  destruct (alone_progress sid os (cw_next 0 q) s0) as (k & pc & s & Hk & Hrun & Hend); [done | done |].
  pose proof (alone_inv healthy sid (healthy_step sid) k os _ _ _ _ H0 Hrun) as (_ & Hroom & Hleft & Hpc).
  assert (Hne : nonempty pc) by exact (alone_inv (fun pc _ => nonempty pc) sid (nonempty_step sid)
    k os (cw_next 0 q) s0 pc s ltac:(done) Hrun).
  destruct Hend as [(off & e & ->) | Hst]; [| by destruct (stuck_not_ending pc s Hne (or_intror Hleft) Hst)].
  destruct e; [done |]. exists k, s. split; [unfold q in *; cbn [cw_next weight] in Hk; lia |]. split; [| done]. rewrite Hrun. do 3 f_equal.
  destruct (wr_place _ _ _ _ _ (report_run sid q s0 F _ _ _ Hrun)) as (ps & rest & _ & Hp & _ & -> & ->). by rewrite Hp, app_nil_r.
Qed.

(** ** What the server gets *)

(** The other goroutines' frames have fields of their wire widths. *)
Definition others_fit (x : cw_action) : Prop :=
  match x with Other (EvFrame _ sf) => 0 <= sf_id sf < 2 ^ 32 /\ 0 <= sf_type sf < 256 | _ => True end.

Lemma log_fits sid acts pc s pc' s' : 0 <= sid < 2 ^ 32 -> Forall others_fit acts -> Forall sf_ok (log_frames (cw_log s)) ->
  cw_run sid acts (pc, s) = Some (pc', s') -> Forall sf_ok (log_frames (cw_log s')).
Proof.
  intros Hsid. assert (Hw : forall own o sf s, 0 <= sf_id sf < 2 ^ 32 -> 0 <= sf_type sf < 256 ->
    Forall sf_ok (log_frames (cw_log s)) -> Forall sf_ok (log_frames (cw_log (client_writeStreamFrame a own o sf s).2))).
  { intros own o sf s1 H1 H2 Hl. destruct (frame_fates own o sf s1) as [c _ _ Hlen _ _ | | |]; try done.
    unfold log_frames. cbn [snd cw_wrote cw_log]. rewrite fmap_app. apply Forall_app. split; [done |].
    apply Forall_singleton. exact (conj H1 (conj H2 Hlen)). }
  revert pc s. induction acts as [|[o | ev] acts IH]; intros pc s Hc Hl; cbn [StreamWriter.cw_run fst snd]; [by intros [= <- <-] | |];
    apply Forall_cons in Hc as [Hx Hc].
  - destruct (cw_step a sid o pc s) as [[pc1 s1]|] eqn:Es; [| done]. cbn [mbind option_bind]. apply IH; [done |].
    destruct pc as [off rest | off rest | off rest | off e |]; try discriminate Es; cbn [cw_step] in Es.
    + destruct (acquireWindow _ _ _); by injection Es as <- <-.
    + destruct (parked _); [done |]. by injection Es as <- <-.
    + pose proof (Hw true o (SFrame sid v2TypeData (piece rest)) s Hsid ltac:(done) Hl) as Hl'.
      destruct (client_writeStreamFrame _ _ _ _ _) as [[] s2]; by injection Es as <- <-.
  - apply IH; [done |]. destruct ev; try done. cbn [cw_other]. by apply Hw; destruct Hx.
Qed.

Context {AL : AeadLaws a}.

Lemma log_reads l seq segs : Forall sf_ok (log_frames l) -> concat segs = log_wire seq l ->
  readStreamFrames (S (length l)) a seq (Reader segs EOF) = (log_frames l, Some (LoopRead (FrameIO EOF))).
Proof.
  intros Hf E. apply (readStreamFrames_wire a (log_oracles l)).
  - unfold log_oracles, log_frames. by rewrite !length_fmap.
  - apply Forall_fmap, Forall_forall. intros e _. by eexists.
  - done.
  - unfold log_frames. rewrite length_fmap. apply Nat.lt_succ_diag_r.
  - done.
  - done.
Qed.

(** A write that has returned without an error, on a connection that has not
    failed. *)
Lemma upload_reads sid p acts s0 off s segs :
  0 <= sid < 2 ^ 32 -> fresh_call s0 -> Forall others_fit acts ->
  streamWriter_Write a sid p acts s0 = Some (WDone off None, s) -> w_room (cw_conn s) = None ->
  w_out (cw_conn s0) ++ concat segs = w_out (cw_conn s) ->
  off = len p /\ own_frames (cw_log s) = data_frames sid (pieces p) /\
  readStreamFrames (S (length (cw_log s))) a (cw_seq s0) (Reader segs EOF) =
    (log_frames (cw_log s), Some (LoopRead (FrameIO EOF))).
Proof.
  intros Hsid F Hfit Hrun Hroom E.
  destruct (report_run sid p s0 F _ _ _ Hrun) as [(junk & Hw & Hj & _) _ (ps & rest & Ho & Hp & Hps & -> & ->)].
  split_and!.
  - by rewrite Hp, app_nil_r.
  - change (pieces []) with (@nil bytes) in Hps. by rewrite Ho, Hps, app_nil_r.
  - destruct Hj as [-> | Hj]; [| congruence]. rewrite app_nil_r in Hw. rewrite Hw in E. apply app_inv_head in E.
    apply log_reads; [| done]. eapply (log_fits sid acts); [done | done | | exact Hrun]. by rewrite (fc_log _ F).
Qed.

(** ** What [Write] promises *)

(** [C39] [streamWriter.Write] keeps the contract of [io.Writer] among the other
    goroutines of the client, whatever they do between its steps (credit, a
    CLOSE, the end of the session, a connection that fails, frames of their
    own), for a stream nobody else writes on:
    - at every point the connection has carried everybody's complete frames,
      in the order of the counter, and beyond them at most a part of one more,
      and that only if it has failed; this writer's frames are the first pieces
      of [p], in order; once it returns, the count it reports is what they
      carry, all of [p] exactly when the error is nil, and the error is a true
      one (the stream or the session is closed, the connection has failed);
    - what it has sent and what it has taken from the window never exceed the
      window it found and the credit since (under flow control, with the window
      set once and below 2^63);
    - once the session is closed nothing more goes out;
    - it waits only with less in the window than the next piece needs, until
      credit or the broadcast of a close wakes it (the window set once: see
      [repeated_open_ok_strands]);
    - a call that is not waiting needs no help: alone, it returns or comes to
      wait, within three steps per byte, and it returns if its stream is closed
      or the window has room for the rest. *)
Theorem streamWriter_contract sid p acts s0 pc s :
  fresh_call s0 -> streamWriter_Write a sid p acts s0 = Some (pc, s) ->
  write_report sid p s0 pc s /\
  (Forall one_window acts -> flowControlled (cw_win s0) = true -> 0 <= sendWindow (cw_win s0) ->
   sendWindow (cw_win s0) + credited acts < 2 ^ 63 ->
   0 <= sendWindow (cw_win s) /\
   own_bytes s + hand pc + sendWindow (cw_win s) <= sendWindow (cw_win s0) + credited acts) /\
  (forall acts1 acts2 pc1 s1, acts = acts1 ++ acts2 -> streamWriter_Write a sid p acts1 s0 = Some (pc1, s1) ->
     cw_closed s1 = true -> w_out (cw_conn s) = w_out (cw_conn s1)) /\
  (Forall one_window acts -> parked (cw_win s) = true ->
   exists off r, pc = WPark off r /\ flowControlled (cw_win s) = true /\ sendWindow (cw_win s) < len (piece r)) /\
  (can_step pc s -> forall os, exists k pc' s', (k <= 3 * length p + 3)%nat /\
     cw_run sid (cw_alone os k) (pc, s) = Some (pc', s') /\
     (returned pc' \/ stuck pc' s') /\ (will_end pc s -> returned pc')).
Proof.
  intros F Hrun. pose proof (report_run sid p s0 F _ _ _ Hrun) as R. unfold streamWriter_Write in *. split_and!.
  - done.
  - intros H1 H2 H3 H4. destruct (account_run sid acts (sendWindow (cw_win s0)) (cw_next 0 p) s0 pc s) as (_ & ? & ?); try done.
    split_and!; [done | done |]. unfold own_bytes. rewrite (fc_log _ F), hand_next.
    change (len (concat (sf_payload <$> own_frames []))) with 0. lia.
  - intros acts1 acts2 pc1 s1 -> H1 Hc. rewrite run_app, H1 in Hrun. by apply (closed_silent sid acts2 pc1 s1 pc s).
  - intros H1 H2. apply (park_run sid acts (cw_next 0 p) s0 pc s); [| done..]. intros E. by rewrite (fc_alone _ F) in E.
  - intros Hc os. destruct (wr_place _ _ _ _ _ R) as (ps & rest & _ & Hp & _ & Hpl).
    assert (Hn : nonempty pc) by (destruct pc as [| | |off [e|]|]; cbn in *; naive_solver).
    destruct (alone_progress sid os pc s Hc Hn) as (k & pc' & s' & Hk & Hr & Hend). exists k, pc', s'. split_and!; try done.
    + assert (Hl : (length rest <= length p)%nat) by (rewrite Hp, length_app; lia).
      destruct pc as [| | |off [e|]|]; cbn [place weight] in Hpl, Hk; try (destruct Hpl as (_ & -> & _)); lia.
    + intros Hw. destruct Hend as [? | Hst]; [done |].
      destruct (stuck_not_ending pc' s'); [| | done].
      * exact (alone_inv (fun pc _ => nonempty pc) sid (nonempty_step sid) k os pc s pc' s' Hn Hr).
      * exact (alone_inv will_end sid (will_end_step sid) k os pc s pc' s' Hw Hr).
Qed.
End Writer.

(** ** Witness *)

Module WriteWitness.
Definition os (k : nat) : cf_oracle := CfOracle (Z.of_nat k) (fun i => z2b (Z.of_nat (i + k))).
Definition own (k : nat) : cw_action := Own (os k).
(** Two pieces; the window holds the first. *)
Definition p : bytes := replicate (Z.to_nat 16400) "u"%byte.
Definition s0 : cw_state := CwState 5 false false (Window 16380 true false 16380 0 1) (Writer [] None) [].
(** The first piece goes out, then a PONG of the read loop, and the writer
    parks. *)
Definition parking : list cw_action :=
  [own 0; own 1; Other (EvFrame (os 2) (SFrame 0 v2TypePong (go! "ping"))); own 3].
(** Credit comes. *)
Definition acts : list cw_action := parking ++ [Other (EvCredit 100); own 4; own 5; own 6].
Definition after (acts : list cw_action) : cw_pc * cw_state :=
  default (WPanic, s0) (streamWriter_Write FrameWitness.key 1 p acts s0).
Lemma fresh : fresh_call s0.
Proof. split; [done | split; [discriminate | reflexivity] | done]. Qed.
Lemma one_window_parking : Forall one_window parking.
Proof. repeat constructor. Qed.
End WriteWitness.

Lemma streamWriter_contract_witness :
  (exists off r, (WriteWitness.after WriteWitness.parking).1 = WPark off r /\
     flowControlled (cw_win (WriteWitness.after WriteWitness.parking).2) = true /\
     sendWindow (cw_win (WriteWitness.after WriteWitness.parking).2) < len (piece r)) /\
  (WriteWitness.after WriteWitness.acts).1 = WDone 16400 None /\
  sf_type <$> log_frames (cw_log (WriteWitness.after WriteWitness.acts).2) = [v2TypeData; v2TypePong; v2TypeData] /\
  write_report FrameWitness.key 1 WriteWitness.p WriteWitness.s0 (WriteWitness.after WriteWitness.acts).1
    (WriteWitness.after WriteWitness.acts).2.
Proof.
  split.
  - destruct (streamWriter_contract FrameWitness.key 1 WriteWitness.p WriteWitness.parking WriteWitness.s0
      (WriteWitness.after WriteWitness.parking).1 (WriteWitness.after WriteWitness.parking).2) as (_ & _ & _ & H & _).
    + exact WriteWitness.fresh.
    + vm_compute. reflexivity.
    + apply H; [exact WriteWitness.one_window_parking | vm_compute; reflexivity].
  - split; [vm_compute; reflexivity |]. split; [vm_compute; reflexivity |].
    apply (streamWriter_contract FrameWitness.key 1 WriteWitness.p WriteWitness.acts WriteWitness.s0).
    + exact WriteWitness.fresh.
    + vm_compute. reflexivity.
Defined.
