(* ===== verification/ClientRefine.v ===== *)
(** * A client stream's download is a byte pipe

    The same contract as on the server ([Pipe]), discharged for the other end
    and the other direction: DATA payloads accepted by [deliver], bytes written
    to the local connection, and the close of [markClosed]. *)

From S2P Require Import Prelude Padding StreamFrame Target.
From S2P Require Import Client ClientInv ClientLoop ClientSteps ClientProps Pipe.

Definition abs_download (x : cstream) : pipe :=
  PipeState (d_recv (down x)) (d_out (down x)) 0 (negb (cs_closed x)).

Definition view_download_mem (o : nat) (m : cmem) : pipe :=
  default empty_pipe (abs_download <$> c_heap m !! o).

Definition view_download (o : nat) (y : csys) : option pipe := Some (view_download_mem o (c_mem y)).

Definition observe_mark (o : nat) (k : marker) (m : cmem) : option pipe_event :=
  match k, c_heap m !! o with
  | MCas o', Some x => if decide (o' = o) then if cs_closed x then None else Some EvClose else None
  | _, _ => None
  end.

Definition observe_cthread (o : nat) (t : cthread) (e : cenv) (m : cmem) : option pipe_event :=
  match t, e with
  | CtLoop (RSend o' p), CTau => if decide (o' = o) then Some (EvAccept p) else None
  | CtLoop (RMark _ k), CTau | CtLoop (RVisit _ _ k), CTau => observe_mark o k m
  | CtSock o' (SOut b), CLocalWrite r =>
      if decide (o' = o) then Some (EvDeliver (match r with None => b | Some k => take k b end)) else None
  | _, _ => None
  end.

Definition observe_download (o : nat) (a : caction) (y : csys) : option pipe_event :=
  match a with
  | CRun w e => match c_threads y !! w with Some t => observe_cthread o t e (c_mem y) | None => None end
  | CConnect _ _ => None
  end.

(** What an event does to a download. *)
Definition download_effect (ev : option pipe_event) (p p' : pipe) : Prop :=
  match ev with
  | None => p' = p
  | Some (EvAccept b) => p_open p = true /\ p' = PipeState (p_in p ++ b) (p_out p) (p_credit p) true
  | Some (EvDeliver b) => p' = PipeState (p_in p) (p_out p ++ b) (p_credit p) (p_open p)
  | Some (EvGrant n) => False
  | Some EvClose => p_open p = true /\ p' = PipeState (p_in p) (p_out p) (p_credit p) false
  end.

Definition dshows (o : nat) (ev : option pipe_event) (m m' : cmem) : Prop :=
  download_effect ev (view_download_mem o m) (view_download_mem o m').

Lemma dshows_same o m m' : c_heap m' = c_heap m -> dshows o None m m'.
Proof. intros E. unfold dshows, view_download_mem. by rewrite E. Qed.

Lemma dshows_alter o o' f m m' ev x :
  c_heap m' = alter f o' (c_heap m) -> c_heap m !! o' = Some x ->
  (o' <> o -> ev = None) -> (o' = o -> download_effect ev (abs_download x) (abs_download (f x))) ->
  dshows o ev m m'.
Proof.
  intros E Hx Hne Hf. unfold dshows, view_download_mem. rewrite E. destruct (decide (o' = o)) as [-> | H].
  - rewrite lookup_alter_eq, Hx. cbn. auto.
  - rewrite lookup_alter_ne by done. by rewrite (Hne H).
Qed.

Lemma dshows_quiet o o' f m m' :
  c_heap m' = alter f o' (c_heap m) -> (forall x, abs_download (f x) = abs_download x) -> dshows o None m m'.
Proof.
  intros E Hf. unfold dshows, view_download_mem. rewrite E. destruct (decide (o' = o)) as [-> | H].
  - rewrite lookup_alter_eq. destruct (c_heap m !! o); [cbn; by rewrite Hf | done].
  - by rewrite lookup_alter_ne.
Qed.

Lemma c_write_heap ok sf m r m' : c_write ok sf m = (r, m') -> c_heap m' = c_heap m.
Proof. unfold c_write. intros H. repeat case_match; by simplify_eq. Qed.

Lemma mark_dshows o k m r m' : mark_step k m = (r, m') -> dshows o (observe_mark o k m) m m'.
Proof.
  unfold mark_step, observe_mark. destruct k as [o' | o' | o']; intros Hr.
  - destruct (c_heap m !! o') as [x|] eqn:Hx.
    2: { simplify_eq. destruct (c_heap m' !! o) as [x|] eqn:Ho; [| by apply dshows_same].
         rewrite decide_False by (intros ->; congruence). by apply dshows_same. }
    destruct (cs_closed x) eqn:Ec; simplify_eq.
    { destruct (c_heap m' !! o) as [x'|] eqn:Ho; [| by apply dshows_same].
      case_decide; [| by apply dshows_same]. assert (x' = x) as -> by congruence. rewrite Ec. by apply dshows_same. }
    eapply dshows_alter; [reflexivity | exact Hx | |].
    + intros Hne. destruct (c_heap m !! o); [by rewrite decide_False | done].
    + intros ->. rewrite Hx, decide_True, Ec by done. split; [cbn; by rewrite Ec | done].
  - repeat hcase Hr; simplify_eq; (by apply dshows_same) || by eapply dshows_quiet.
  - simplify_eq. by eapply dshows_quiet.
Qed.

Ltac quiet_dstep :=
  first [ by apply dshows_same
        | by eapply dshows_quiet
        | match goal with
          | E : c_write _ _ _ = (_, ?m1) |- dshows _ None _ _ =>
              let Eh := fresh in pose proof (c_write_heap _ _ _ _ _ E) as Eh;
              first [ by apply dshows_same | eapply dshows_quiet; [cbn; rewrite Eh; reflexivity | done] ]
          end ].

Lemma loop_dshows o pc e y t' m' ts :
  cinv y -> loop_pc_of (c_threads y) = Some pc ->
  readLoop_step pc e (c_mem y) = Some (t', m', ts) ->
  dshows o (observe_cthread o (CtLoop pc) e (c_mem y)) (c_mem y) m'.
Proof.
  intros I Hpc. set (m := c_mem y) in *. unfold readLoop_step, cnext, cexit.
  destruct pc, e; try done; cbn [observe_cthread]; intros Hr.
  all: try (destruct (mark_step k m) as [r m1] eqn:E; apply (mark_dshows o) in E;
            destruct r; by simplify_eq).
  all: try (repeat hcase Hr; try done; simplify_eq; quiet_dstep).
  - simplify_eq. eapply dshows_quiet; [reflexivity |]. intros x. cbn beta. by destruct (openErr x).
  - destruct (c_heap m !! o0) as [x|] eqn:Hx; [| done].
    destruct (oo_mark _ _ _ _ _ _ (ci_obj y I o0 x Hx)) as [Msh Mcl]. rewrite Hpc in Msh, Mcl.
    specialize (Mcl p eq_refl). destruct Msh as [Msh _]. rewrite Mcl in Msh. rewrite Msh in Hr.
    destruct (_ <? _); [| done]. simplify_eq.
    eapply dshows_alter; [reflexivity | exact Hx | intros Hne; by rewrite decide_False |].
    intros ->. rewrite decide_True by done. unfold abs_download. cbn. by rewrite Mcl.
  - simplify_eq. destruct (c_write _ _ _) as [r m1] eqn:E. cbn [snd]. quiet_dstep.
Qed.

Lemma stream_Read_down k x b x' : stream_Read k x = RBytes b x' -> abs_download x' = abs_download x.
Proof. unfold stream_Read, copy_pending. intros H. repeat case_match; simplify_eq; done. Qed.

Lemma sock_dshows o n pc e m t' m' ts :
  (match pc with SStart _ _ | SStore _ _ _ => c_heap m !! n = None | _ => True end) ->
  sock_step n pc e m = Some (t', m', ts) ->
  dshows o (observe_cthread o (CtSock n pc) e m) m m'.
Proof.
  intros Hearly Hs.
  assert (Hlive : forall x, c_heap m !! n = Some x ->
    dshows o (observe_cthread o (CtSock n pc) e m) m m').
  { intros x Hx. revert Hs. unfold sock_step, cnext, cexit. destruct pc; try congruence.
    all: rewrite Hx; destruct e as [| | | | | | | | | |[j|]]; try done; cbn [observe_cthread]; intros Hr.
    all: try (repeat hcase Hr; try done; simplify_eq; quiet_dstep).
    - destruct (0 <? n0); [| done]. destruct (stream_Read n0 x) as [| | b x'] eqn:Er; [done | |].
      + simplify_eq. quiet_dstep.
      + apply stream_Read_down in Er.
        assert (m' = on_stream n (fun _ => x') m) as -> by (by destruct (0 <? len b); simplify_eq).
        eapply dshows_alter; [reflexivity | exact Hx | done |]. intros _. exact Er.
    - simplify_eq. eapply dshows_alter; [reflexivity | exact Hx | intros Hne; by rewrite decide_False |].
      intros ->. by rewrite decide_True.
    - simplify_eq. eapply dshows_alter; [reflexivity | exact Hx | intros Hne; by rewrite decide_False |].
      intros ->. by rewrite decide_True. }
  destruct (c_heap m !! n) as [x|] eqn:Hx; [by eapply Hlive |].
  revert Hs. unfold sock_step, alloc_id, cnext, cexit. destruct pc; try (rewrite Hx; done).
  - destruct e; try (rewrite Hx; done). intros Hr. cbn [observe_cthread]. simplify_eq. quiet_dstep.
  - destruct e; try (rewrite Hx; done). intros Hr. cbn [observe_cthread].
    assert (Hm : c_heap m' = <[n := new_cstream sid]> (c_heap m)) by (by repeat hcase Hr; simplify_eq).
    unfold dshows, view_download_mem. rewrite Hm. cbn. destruct (decide (n = o)) as [<- | Hne].
    + by rewrite lookup_insert_eq, Hx.
    + by rewrite lookup_insert_ne.
Qed.

Lemma up_dshows o n pc e m t' m' ts :
  up_step n pc e m = Some (t', m', ts) -> dshows o None m m'.
Proof.
  unfold up_step, cnext, cexit. destruct (c_heap m !! n) as [x|] eqn:Hx; [| done].
  intros Hr. destruct pc, e; try done; repeat hcase Hr; try done; simplify_eq; try quiet_dstep.
  destruct (c_write _ _ _) as [r m1] eqn:E. cbn [snd]. quiet_dstep.
Qed.

Lemma cstep_dshows o a y y' : cinv y -> cstep a y = Some y' ->
  dshows o (observe_download o a y) (c_mem y) (c_mem y').
Proof.
  intros I Hs. destruct a as [w e | host port]; [| injection Hs as <-; by apply dshows_same].
  cbn in Hs |- *. destruct (c_threads y !! w) as [t|] eqn:Ht; [| done]. cbn in Hs.
  destruct (cthread_step t e (c_mem y)) as [[[t' m'] ts]|] eqn:Es; [| done]. injection Hs as <-.
  pose proof (ci_who y I w t Ht) as <-. cbn [c_mem]. destruct t as [pc | n pc | n pc]; cbn in Ht, Es.
  - eapply loop_dshows; [done | | done]. unfold loop_pc_of. by rewrite Ht.
  - eapply sock_dshows; [| done]. destruct (ci_early y I n) as (E & _).
    unfold sock_pc_of in E. rewrite Ht in E. destruct pc; [done | by destruct E | done..].
  - by eapply up_dshows.
Qed.

Lemma view_download_prefix o y : cinv y ->
  p_out (view_download_mem o (c_mem y)) `prefix_of` p_in (view_download_mem o (c_mem y)).
Proof.
  intros I. unfold view_download_mem. destruct (c_heap (c_mem y) !! o) as [x|] eqn:Hx; [| done]. cbn.
  destruct (ci_obj y I o x Hx) as [[F _ _ _] M S U Gp Rg]. destruct (handler_hand _ _ _ S) as (h & Hh & _).
  rewrite F, Hh. rewrite <-app_assoc. by apply prefix_app_r.
Qed.

#[export] Instance download_refinement o :
  PipeRefinement cstep cinv (view_download o) (observe_download o).
Proof.
  split; [intros; by eapply cinv_step |].
  intros a y y' p I Hs [= <-]. exists (view_download_mem o (c_mem y')). split; [done |].
  pose proof (cstep_dshows o a y y' I Hs) as Hsh. unfold dshows in Hsh.
  pose proof (view_download_prefix o y' (cinv_step a y y' I Hs)) as Hp.
  destruct (observe_download o a y) as [ev|]; [| done].
  destruct (view_download_mem o (c_mem y)) as [i out c op]. destruct ev; cbn in Hsh.
  - destruct Hsh as [-> ->]. constructor.
  - rewrite Hsh in *. by constructor.
  - done.
  - destruct Hsh as [-> ->]. constructor.
Qed.

Lemma run_of_crun acts y : run_of cstep acts y = crun acts y.
Proof.
  revert y. induction acts as [|a acts IH]; intros y; [done |]. cbn.
  destruct (cstep a y); [apply IH | done].
Qed.

(** [C25] The download of every client stream refines the byte pipe: whatever
    the goroutines do, the payloads it accepts from the session, the bytes it
    writes to the local connection and its close are, in the order in which
    they happen, a run of the pipe from the empty pipe that leads to the
    stream's state; so what the local application has received is a prefix of
    what the server sent on the stream. *)
Theorem download_refines_pipe acts y o x :
  crun acts dialed_session = Some y -> c_heap (c_mem y) !! o = Some x ->
  let evs := observed cstep (observe_download o) acts dialed_session in
  pipe_run empty_pipe evs (abs_download x) /\
  d_recv (down x) = accepted evs /\ d_out (down x) = delivered_bytes evs /\
  delivered_bytes evs `prefix_of` accepted evs.
Proof.
  intros Hr Hx evs. rewrite <-run_of_crun in Hr.
  destruct (refines_run cstep cinv (view_download o) (observe_download o) acts dialed_session y empty_pipe)
    as (p' & Hv & Hrun); [apply cinv_init | done | done |].
  unfold view_download, view_download_mem in Hv. rewrite Hx in Hv. cbn in Hv. simplify_eq.
  fold evs in Hrun. pose proof (pipe_run_state _ _ _ Hrun) as [H1 H2]. cbn in H1, H2.
  split_and!; [done | done | done |]. rewrite <-H1, <-H2. by apply (pipe_run_prefix _ _ _ Hrun).
Qed.

Lemma download_refines_pipe_witness :
  let acts := CDemo.busy ++ [CRun (CSock 0) (CLocalWrite None)] in
  let evs := observed cstep (observe_download 0) acts dialed_session in
  evs = [EvAccept (go! "hello "); EvAccept (go! "world"); EvDeliver (go! "hell")] /\
  pipe_run empty_pipe evs (abs_download (CDemo.stream_at acts 0)).
Proof.
  split; [vm_compute; reflexivity |].
  apply (download_refines_pipe (CDemo.busy ++ [CRun (CSock 0) (CLocalWrite None)])
           (CDemo.final (CDemo.busy ++ [CRun (CSock 0) (CLocalWrite None)])) 0).
  - vm_compute. reflexivity.
  - vm_compute. reflexivity.
Defined.
