(* ===== verification/ClientArrive.v ===== *)
(** * What arrives on a client stream

    The DATA frames read for a stream id go to its stream, in order, as long as
    the stream is in the table; what it has accepted is a prefix of them. *)

From S2P Require Import Prelude Padding StreamFrame FrameLog Target Client ClientInv ClientLoop ClientSteps ClientProps.
From S2P Require Import Pipe ClientTraffic ClientRefine.

(** ** What a step does to objects and table *)

(** [new]: the id under which the step stores a new object for [n]. *)
Record shape (new : option (nat * Z)) (m m' : cmem) : Prop := {
  sp_heap o x' : c_heap m' !! o = Some x' ->
    (exists x, c_heap m !! o = Some x /\ cs_id x' = cs_id x) \/
    exists sid, new = Some (o, sid) /\ x' = new_cstream sid /\ c_heap m !! o = None;
  sp_kept o : is_Some (c_heap m !! o) -> is_Some (c_heap m' !! o);
  sp_table sid o : c_streams m' !! sid = Some o -> c_streams m !! sid = Some o \/ new = Some (o, sid);
}.

Lemma shape_on o f m : (forall x, c_heap m !! o = Some x -> cs_id (f x) = cs_id x) -> shape None m (on_stream o f m).
Proof.
  intros Hf. split; [| | by left].
  - intros o' x' [(-> & x & Hx & ->) | [_ Hx]]%on_stream_lookup; left; eauto.
  - intros o' [x Hx]. destruct (c_heap (on_stream o f m) !! o') eqn:E; [done |]. apply on_stream_dom in E. congruence.
Qed.

Lemma shape_same m m' : c_heap m' = c_heap m -> c_streams m' = c_streams m -> shape None m m'.
Proof. intros E1 E2. split; intros *; rewrite ?E1, ?E2; eauto. Qed.

Lemma shape_trans m1 m2 m3 : shape None m1 m2 -> shape None m2 m3 -> shape None m1 m3.
Proof.
  intros [h1 k1 t1] [h2 k2 t2]. split; [| auto |].
  - intros o x3 [(x2 & Hx2 & E2) | (? & ? & _)]%h2; [| done].
    destruct (h1 o x2 Hx2) as [(x1 & Hx1 & E1) | (? & ? & _)]; [| done]. left. exists x1. split; congruence.
  - intros sid o [H | ?]%t2; [auto | done].
Qed.

Lemma shape_delete sid m : shape None m (upd_streams (delete sid) m).
Proof. split; cbn; [eauto | done |]. intros k o [_ Hk]%lookup_delete_Some. by left. Qed.

Lemma c_write_tables ok sf m r m' : c_write ok sf m = (r, m') -> c_heap m' = c_heap m /\ c_streams m' = c_streams m.
Proof. unfold c_write. intros Hw. repeat case_match; by simplify_eq. Qed.

Lemma mark_shape k m r m' : mark_step k m = (r, m') -> shape None m m'.
Proof.
  destruct k as [o|o|o]; cbn; intros Hr; repeat hcase Hr; injection Hr as <- <-;
    first [by apply shape_same | by apply shape_on].
Qed.

Definition storing (t : cthread) : option (nat * Z) :=
  match t with CtSock n (SStore sid _ _) => Some (n, sid) | _ => None end.

Lemma write_shape ok sf m r m1 m' : c_write ok sf m = (r, m1) -> shape None m1 m' -> shape None m m'.
Proof. intros [Eh Es]%c_write_tables. apply shape_trans. by apply shape_same. Qed.

Lemma thread_shape t e m t' m' ts : cthread_step t e m = Some (t', m', ts) ->
  (forall n sid host port, t = CtSock n (SStore sid host port) -> c_heap m !! n = None) -> shape (storing t) m m'.
Proof.
  intros Hr Hn. destruct t as [pc | n pc | n pc]; cbn [cthread_step storing] in *.
  - destruct pc; cbn in Hr; destruct e; try discriminate Hr; unfold cnext, cexit, cblocked in Hr;
      repeat (hcase Hr; try discriminate Hr); injection Hr as _ <- _.
    all: try match goal with Hm : mark_step _ _ = _ |- _ => by eapply mark_shape end.
    all: try (by apply shape_same); try (by apply shape_on); try apply shape_delete.
    + apply shape_on. intros x _. by case_match.
    + match goal with |- shape _ _ (snd ?w) => destruct w as [r m1] eqn:Hw end. by eapply write_shape; [exact Hw | apply shape_same].
  - destruct pc.
    2: { cbn in Hr. destruct e; try (by hcase Hr). specialize (Hn n sid host port eq_refl).
      assert (E : m' = upd_streams <[sid := n]> (upd_heap <[n := new_cstream sid]> m)) by (by hcase Hr; injection Hr as _ <- _).
      rewrite E. split; cbn.
      - intros o x' [[<- <-] | [_ Hx]]%lookup_insert_Some; [right; by exists sid | left; eauto].
      - intros o Ho. apply lookup_insert_is_Some. destruct (decide (n = o)); auto.
      - intros k o [[<- <-] | [_ Hk]]%lookup_insert_Some; [by right | by left]. }
    all: cbn in Hr; unfold cnext, cexit, cblocked in Hr; destruct e; repeat (hcase Hr; try discriminate Hr);
      try discriminate Hr; injection Hr as _ <- _.
    all: try match goal with Hw : c_write _ _ _ = _ |- _ => by eapply write_shape; [exact Hw | first [by apply shape_on | by apply shape_same]] end.
    all: try (by apply shape_same); try (by apply shape_on).
    + eapply shape_trans; [by apply (shape_on n mark_dropped) | apply shape_delete].
    + apply shape_on. intros x0 Hx0. simplify_eq. by destruct (read_account _ _ _ _ E1).
    + apply shape_on. intros x0 Hx0. simplify_eq. by destruct (read_account _ _ _ _ E1).
  - destruct pc; unfold up_step, cnext, cexit, cblocked in Hr; destruct e; repeat (hcase Hr; try discriminate Hr);
      try discriminate Hr; injection Hr as _ <- _.
    all: try match goal with Hw : c_write _ _ _ = _ |- _ => by eapply write_shape; [exact Hw | first [by apply shape_on | by apply shape_same]] end.
    all: try (by apply shape_same); try (by apply shape_on).
    match goal with |- shape _ _ (snd ?w) => destruct w as [r m1] eqn:Hw end. by eapply write_shape; [exact Hw | apply shape_same].
Qed.

(** ** The invariant *)

(** What the read loop has in hand for the stream. *)
Definition on_hand (lp : option readLoop_pc) (o : nat) (x : cstream) : bytes :=
  match lp with
  | Some (RLoad sf) => if for_stream (cs_id x) v2TypeData sf then sf_payload sf else []
  | Some (RDeliver o' p) | Some (RSend o' p) => if decide (o' = o) then p else []
  | _ => []
  end.

Definition handing (lp : option readLoop_pc) (o : nat) : Prop :=
  exists p, lp = Some (RDeliver o p) \/ lp = Some (RSend o p).

(** More DATA frames can reach the stream. *)
Definition listening (lp : option readLoop_pc) (m : cmem) (o : nat) (x : cstream) : Prop :=
  c_streams m !! cs_id x = Some o \/ handing lp o.

Record heard (got : frames) (y : csys) : Prop := {
  he_data o x : few_ids (c_mem y) -> c_heap (c_mem y) !! o = Some x ->
    exists rest, data_of (cs_id x) got = d_recv (down x) ++ rest /\
      (cs_closed x = false -> listening (loop_pc_of (c_threads y)) (c_mem y) o x ->
       rest = on_hand (loop_pc_of (c_threads y)) o x);
  he_hand o : handing (loop_pc_of (c_threads y)) o -> is_Some (c_heap (c_mem y) !! o);
  he_load sf : loop_pc_of (c_threads y) = Some (RLoad sf) -> sf ∈ got;
}.

Lemma heard_init : heard [] dialed_session.
Proof. split; cbn; try done. by intros o (p & [? | ?]). Qed.

Lemma on_hand_same lp o x x' : cs_id x' = cs_id x -> on_hand lp o x' = on_hand lp o x.
Proof. unfold on_hand. by intros ->. Qed.

(** The read loop is about to send to the stream. *)
Definition sending (o : nat) (p : bytes) (a : caction) (y : csys) : Prop :=
  loop_pc_of (c_threads y) = Some (RSend o p) /\ a = CRun CLoop CTau.

(** Nothing else adds to what a stream has accepted. *)
Lemma step_recv a y y' o x x' : cinv y -> cstep a y = Some y' ->
  c_heap (c_mem y) !! o = Some x -> c_heap (c_mem y') !! o = Some x' ->
  (d_recv (down x') = d_recv (down x) /\ (cs_closed x' = false -> cs_closed x = false) /\ forall p, ~ sending o p a y) \/
  exists p, sending o p a y /\ d_recv (down x') = d_recv (down x) ++ p /\ cs_closed x = false.
Proof.
  intros I Hs Hx Hx'. pose proof (cstep_dshows o a y y' I Hs) as D. unfold dshows, view_download_mem in D.
  rewrite Hx, Hx' in D. cbn in D. unfold abs_download in D.
  assert (Hno : (forall b, observe_download o a y <> Some (EvAccept b)) -> forall p, ~ sending o p a y).
  { intros Hn p [Hl ->]. apply (Hn p). cbn. unfold loop_pc_of in Hl. destruct (c_threads y !! CLoop) as [[]|]; try done.
    injection Hl as ->. cbn. by rewrite decide_True. }
  destruct (observe_download o a y) as [[b | b | k |]|] eqn:Ev; cbn in D.
  - destruct D as [Hc D]. injection D as Er _ _. right. apply negb_true_iff in Hc.
    unfold observe_download in Ev. destruct a as [w e|]; [| done]. destruct (c_threads y !! w) as [t|] eqn:Ht; [| done].
    pose proof (ci_who y I w t Ht) as Hw. exists b. unfold observe_cthread in Ev.
    destruct t as [pc | n pc | n pc]; destruct pc, e; try discriminate Ev; unfold observe_mark in Ev; repeat hcase Ev; try discriminate Ev.
    injection Ev as ->. cbn in Hw. subst w. subst. unfold sending, loop_pc_of. by rewrite Ht.
  - injection D as Er _ Eo. left. split; [done |]. split; [| by apply Hno]. destruct (cs_closed x), (cs_closed x'); done.
  - done.
  - destruct D as [_ D]. injection D as Er _ Eo. left. split; [done |]. split; [| by apply Hno]. by destruct (cs_closed x').
  - injection D as Er _ Eo. left. split; [done |]. split; [| by apply Hno]. destruct (cs_closed x), (cs_closed x'); done.
Qed.

(** The shape of any step. *)
Lemma cstep_shape a y y' : cinv y -> cstep a y = Some y' ->
  exists new, shape new (c_mem y) (c_mem y') /\
    (forall n sid, new = Some (n, sid) -> c_heap (c_mem y) !! n = None /\ (sid, n) ∈ c_ids (c_mem y) /\ c_ids (c_mem y') = c_ids (c_mem y) /\
       forall e, a <> CRun CLoop e).
Proof.
  intros I Hs. destruct a as [w e | host port]; cbn in Hs.
  2: { injection Hs as <-. exists None. split; [by apply shape_same | done]. }
  destruct (c_threads y !! w) as [t|] eqn:Ht; [| done]. cbn in Hs.
  destruct (cthread_step t e (c_mem y)) as [[[t' m'] ts]|] eqn:Hr; [| done]. injection Hs as <-. cbn [c_mem c_threads].
  pose proof (ci_who y I w t Ht) as Hw.
  assert (He : forall n sid host port, t = CtSock n (SStore sid host port) ->
    c_heap (c_mem y) !! n = None /\ (sid, n) ∈ c_ids (c_mem y)).
  { intros n sid host port ->. destruct (ci_early y I n) as (E & _). unfold sock_pc_of in E. cbn in Hw. subst w. by rewrite Ht in E. }
  exists (storing t). split; [eapply thread_shape; [exact Hr | intros; by eapply He] |].
  intros n sid Hn. destruct t as [pc | k [] | k pc]; try discriminate Hn. cbn in Hn, Hw. injection Hn as -> ->. subst w.
  destruct (He _ _ _ _ eq_refl) as [Hh Hi]. cbn [cthread_step] in Hr.
  destruct (store_step _ _ _ _ _ _ _ _ _ Hr) as (_ & _ & Ei & _ & ->). by split_and!.
Qed.

(** The read loop passes on what it reads. *)
Lemma loop_hears y pc e t' m' ts o x : cinv y -> loop_pc_of (c_threads y) = Some pc ->
  readLoop_step pc e (c_mem y) = Some (t', m', ts) -> c_heap (c_mem y) !! o = Some x ->
  (forall sid o', c_streams m' !! sid = Some o' -> c_streams (c_mem y) !! sid = Some o') ->
  cs_closed x = false -> (forall p, pc <> RSend o p) -> listening (pc_of t') m' o x ->
  listening (Some pc) (c_mem y) o x /\
  on_hand (pc_of t') o x = on_hand (Some pc) o x ++ data_of (cs_id x) (c_frames_in (CRun CLoop e)).
Proof.
  intros I El Hr Hx Htab Hc Hns Hl. pose proof (ci_global y I) as G.
  assert (Htl : forall sid o', c_streams (c_mem y) !! sid = Some o' -> o' = o -> cs_id x = sid).
  { intros sid o' Ht ->. destruct (gl_table _ G _ _ Ht) as (x1 & Hx1 & <-). by simplify_eq. }
  assert (Hrest : (forall p, pc_of t' <> Some (RDeliver o p)) -> (forall p, pc_of t' <> Some (RSend o p)) -> listening (Some pc) (c_mem y) o x).
  { intros H1 H2. destruct Hl as [Hl | (p & [E | E])]; [left; auto | by destruct (H1 p) | by destruct (H2 p)]. }
  destruct pc; cbn in Hr; destruct e; try discriminate Hr; unfold cnext, cexit, cblocked in Hr;
    try (by (repeat (hcase Hr; try discriminate Hr); injection Hr as <- _ _; (split; [by apply Hrest | done]))).
  - hcase Hr; [| discriminate Hr]. cbn [c_frames_in].
    destruct (parse_stream_frame pt) as [sf| |]; injection Hr as <- _ _; cbn [pc_of] in *; (split; [by apply Hrest |]); try done.
    cbn [on_hand app]. by rewrite data_one.
  - injection Hr as <- Em _. cbn [c_frames_in pc_of] in *. rewrite data_nil, app_nil_r. destruct sf as [sid ty p]. subst m'.
    assert (Hcase : (exists o1, c_streams (c_mem y) !! sid = Some o1 /\ ty = v2TypeData /\
        readLoop_dispatch (SFrame sid ty p) (c_streams (c_mem y) !! sid) = RDeliver o1 p) \/
      ((ty = v2TypeData -> c_streams (c_mem y) !! sid = None) /\
        let pc' := readLoop_dispatch (SFrame sid ty p) (c_streams (c_mem y) !! sid) in
        (forall p, Some pc' <> Some (RDeliver o p)) /\ (forall p, Some pc' <> Some (RSend o p)) /\ on_hand (Some pc') o x = [])).
    { cbn [readLoop_dispatch]. repeat case_match; bool_facts; subst; try (right; by split_and!). left. eauto. }
    cbn [sf_id] in *. destruct Hcase as [(o1 & Ht & -> & Ed) | (Hn & H1 & H2 & H3)].
    + rewrite Ed in *. cbn [on_hand]. unfold for_stream. cbn. rewrite andb_true_r. destruct (decide (o1 = o)) as [-> | Hne].
      * rewrite (Htl _ _ Ht eq_refl), Z.eqb_refl. split; [| done]. left. by rewrite (Htl _ _ Ht eq_refl).
      * destruct Hl as [Hl | (p1 & [E | E])]; [| congruence..]. split; [by left |]. case_match; [| done]. bool_facts. congruence.
    + specialize (Hrest H1 H2). split; [done |]. rewrite H3. cbn. case_match; [| done]. unfold for_stream in *. bool_facts. cbn in *. subst.
      destruct Hrest as [Hl' | (p1 & [E | E])]; [| done..]. rewrite Hn in Hl'; done.
  - destruct (c_heap (c_mem y) !! o0) as [x0|] eqn:Hx0; [| done]. cbn [c_frames_in]. rewrite data_nil, app_nil_r.
    destruct (cs_closed x0) eqn:Hc0; injection Hr as <- <- _; cbn [pc_of on_hand] in *.
    + assert (o0 <> o) as Hne by congruence. rewrite decide_False by done. split; [by apply Hrest | done].
    + split; [| done]. destruct Hl as [Hl | (p1 & [E | E])]; [by left | done |]. injection E as -> ->. right. exists p1. by left.
  - destruct (c_heap (c_mem y) !! o0) as [x0|] eqn:Hx0; [| done]. cbn [c_frames_in]. rewrite data_nil, app_nil_r.
    assert (o0 <> o) as Hne by (intros ->; by apply (Hns p)).
    repeat (hcase Hr; try discriminate Hr); injection Hr as <- _ _; cbn [pc_of on_hand]; rewrite decide_False by done; (split; [by apply Hrest | done]).
Qed.

Lemma loop_next pc e m t' m' ts : readLoop_step pc e m = Some (t', m', ts) ->
  ts = [] /\ (forall sf, pc_of t' = Some (RLoad sf) -> sf ∈ c_frames_in (CRun CLoop e)) /\
  (forall o, handing (pc_of t') o -> handing (Some pc) o \/ exists sid, c_streams m !! sid = Some o) /\
  (forall o p, pc = RSend o p -> pc_of t' = Some RRead).
Proof.
  intros Hr. assert (Hq : forall pc', (forall p o, pc' <> Some (RDeliver o p)) -> (forall p o, pc' <> Some (RSend o p)) ->
    forall o, handing pc' o -> handing (Some pc) o \/ exists sid, c_streams m !! sid = Some o).
  { intros pc' H1 H2 o (p & [E | E]); [by destruct (H1 p o) | by destruct (H2 p o)]. }
  destruct pc; cbn in Hr; destruct e; try discriminate Hr; unfold cnext, cexit, cblocked in Hr.
  all: try (by (repeat (hcase Hr; try discriminate Hr); injection Hr as <- _ <-; (split_and!; [done | done | by apply Hq | done]))).
  - hcase Hr; [| discriminate Hr]. cbn [c_frames_in].
    destruct (parse_stream_frame pt) as [sf| |]; injection Hr as <- _ <-; cbn [pc_of]; split_and!; try done; try (by apply Hq).
    intros sf' [= <-]. by left.
  - injection Hr as <- _ <-. destruct sf as [sid ty p]. cbn [pc_of sf_id]. split_and!; [done | | | done].
    + cbn [readLoop_dispatch]. intros sf. repeat case_match; done.
    + cbn [readLoop_dispatch]. intros o (q & [E | E]); repeat case_match; try discriminate E. injection E as <- _. right. eauto.
  - repeat (hcase Hr; try discriminate Hr); injection Hr as <- _ <-; (split_and!; [done | done | | done]); [by apply Hq |].
    intros o1 (q & [E' | E']); [done |]. injection E' as <- <-. left. exists p. by left.
Qed.

(** A stream just stored has been sent nothing. *)
Lemma heard_new got y n sid : cinv y -> heard got y -> few_ids (c_mem y) ->
  (forall sid, says sid v2TypeData got -> known (c_mem y) sid) ->
  c_heap (c_mem y) !! n = None -> (sid, n) ∈ c_ids (c_mem y) ->
  data_of sid got = [] /\ on_hand (loop_pc_of (c_threads y)) n (new_cstream sid) = [].
Proof.
  intros I [_ Hh Hld] Hf Hk Hn Hid.
  assert (Hno : ~ says sid v2TypeData got).
  { intros Hs. destruct (Hk sid Hs) as (o & x & Hx & Hi & _). assert (o = n) as ->; [| congruence].
    apply (id_unique (c_mem y) sid); [apply I | done | | done]. rewrite <-Hi. by destruct (oo_reg _ _ _ _ _ _ (ci_obj y I o x Hx)). }
  split; [by apply data_silent |]. unfold on_hand. destruct (loop_pc_of (c_threads y)) as [[]|] eqn:El; try done.
  - case_match; [| done]. unfold for_stream in *. bool_facts. destruct Hno. exists sf. cbn in *. auto.
  - case_decide; [| done]. subst o. destruct (Hh n) as [x Hx]; [exists p; by left | congruence].
  - case_decide; [| done]. subst o. destruct (Hh n) as [x Hx]; [exists p; by right | congruence].
Qed.

Lemma loop_step_of y e y' : cinv y -> cstep (CRun CLoop e) y = Some y' ->
  exists pc t', loop_pc_of (c_threads y) = Some pc /\ readLoop_step pc e (c_mem y) = Some (t', c_mem y', []) /\
    loop_pc_of (c_threads y') = pc_of t'.
Proof.
  intros I Hs. cbn in Hs. destruct (c_threads y !! CLoop) as [t|] eqn:Ht; [| done]. cbn in Hs.
  destruct (cthread_step t e (c_mem y)) as [[[t' m'] ts]|] eqn:Hr; [| done]. injection Hs as <-.
  pose proof (ci_who y I _ t Ht) as Hw. destruct t as [pc| |]; try discriminate Hw. cbn [cthread_step] in Hr.
  destruct (loop_next _ _ _ _ _ _ Hr) as (-> & _). exists pc, t'. cbn [c_spawn foldr c_threads c_mem]. split_and!; [| done |].
  - unfold loop_pc_of. by rewrite Ht.
  - unfold loop_pc_of. rewrite set_thread_eq. by destruct t' as [[]|].
Qed.

(** A step of the read loop, for a stream that was there. *)
Lemma heard_loop got y e y' o x x' : cinv y -> heard got y -> few_ids (c_mem y) ->
  cstep (CRun CLoop e) y = Some y' -> (forall sid o, c_streams (c_mem y') !! sid = Some o -> c_streams (c_mem y) !! sid = Some o) ->
  c_heap (c_mem y) !! o = Some x -> c_heap (c_mem y') !! o = Some x' -> cs_id x' = cs_id x ->
  exists rest, data_of (cs_id x') (got ++ c_frames_in (CRun CLoop e)) = d_recv (down x') ++ rest /\
    (cs_closed x' = false -> listening (loop_pc_of (c_threads y')) (c_mem y') o x' ->
     rest = on_hand (loop_pc_of (c_threads y')) o x').
Proof.
  intros I [Hd Hh Hld] Hf Hs Htab Hx Hx' Hi. destruct (Hd o x Hf Hx) as (rest & Er & Hrest).
  pose proof (step_recv _ _ _ _ _ _ I Hs Hx Hx') as Hrec.
  destruct (loop_step_of _ _ _ I Hs) as (pc & t' & El & Hr & El'). rewrite El in Hrest.
  destruct (loop_next _ _ _ _ _ _ Hr) as (_ & _ & _ & Hsend).
  rewrite El', Hi, (on_hand_same _ _ x x' Hi), data_app, Er. destruct Hrec as [(-> & Hc & Hns) | (p & [Hl Ea] & -> & Hc)].
  - exists (rest ++ data_of (cs_id x) (c_frames_in (CRun CLoop e))). rewrite app_assoc. split; [done |]. intros Hc' Hlis. specialize (Hc Hc').
    destruct (loop_hears y pc e t' _ [] o x I El Hr Hx Htab Hc) as [Hlis0 ->]; [| | by rewrite (Hrest Hc Hlis0)].
    + intros p ->. apply (Hns p). split; [done |]. cbn in Hr. by destruct e.
    + unfold listening in *. by rewrite <-Hi.
  - injection Ea as ->. rewrite El in Hl. injection Hl as ->. exists []. cbn [c_frames_in]. rewrite data_nil, !app_nil_r.
    rewrite (Hrest Hc) by (right; exists p; by right). cbn [on_hand]. rewrite decide_True by done. split; [done |].
    intros _ _. by rewrite (Hsend o p eq_refl).
Qed.

(** Any other step. *)
Lemma heard_other got a y y' o x x' : cinv y -> heard got y -> few_ids (c_mem y) -> cstep a y = Some y' ->
  (forall e, a <> CRun CLoop e) -> (forall sid, c_streams (c_mem y') !! sid = Some o -> c_streams (c_mem y) !! sid = Some o) ->
  loop_pc_of (c_threads y') = loop_pc_of (c_threads y) ->
  c_heap (c_mem y) !! o = Some x -> c_heap (c_mem y') !! o = Some x' -> cs_id x' = cs_id x ->
  exists rest, data_of (cs_id x') got = d_recv (down x') ++ rest /\
    (cs_closed x' = false -> listening (loop_pc_of (c_threads y')) (c_mem y') o x' ->
     rest = on_hand (loop_pc_of (c_threads y')) o x').
Proof.
  intros I [Hd Hh Hld] Hf Hs Hne Htab El Hx Hx' Hi. destruct (Hd o x Hf Hx) as (rest & Er & Hrest). exists rest.
  rewrite El, Hi, (on_hand_same _ _ x x' Hi), Er.
  destruct (step_recv _ _ _ _ _ _ I Hs Hx Hx') as [(-> & Hc & _) | (p & [_ ->] & _)]; [| by destruct (Hne CTau)].
  split; [done |]. intros Hc' Hl. apply Hrest; [auto |]. destruct Hl as [Hl | Hl]; [left | by right]. rewrite <-Hi. auto.
Qed.

Lemma loop_stays a y y' : cinv y -> cstep a y = Some y' -> (forall e, a <> CRun CLoop e) ->
  loop_pc_of (c_threads y') = loop_pc_of (c_threads y) /\ c_frames_in a = [].
Proof.
  intros I Hs Hne. destruct a as [w e | host port]; cbn in Hs.
  2: { injection Hs as <-. split; [| done]. unfold loop_pc_of. cbn. by rewrite lookup_insert_ne. }
  destruct (c_threads y !! w) as [t|] eqn:Ht; [| done]. cbn in Hs.
  destruct (cthread_step t e (c_mem y)) as [[[t' m'] ts]|] eqn:Hr; [| done]. injection Hs as <-. cbn [c_threads].
  pose proof (ci_who y I _ t Ht) as Hw. destruct t as [pc | n pc | n pc]; cbn in Hw, Hr; subst w; [by destruct (Hne e) | |].
  - split; [| done]. destruct (sock_threads _ _ _ _ _ _ _ Hr) as [Ht' Hts].
    by destruct (sock_moves (c_threads y) n t' ts Ht') as (-> & _ & _); [naive_solver |].
  - split; [| done]. rewrite (up_threads _ _ _ _ _ _ _ Hr). cbn. unfold loop_pc_of. by rewrite set_thread_ne.
Qed.

Lemma heard_step got a y y' : cinv y -> few_ids (c_mem y) ->
  (forall sid, says sid v2TypeData got -> known (c_mem y) sid) ->
  cstep a y = Some y' -> heard got y -> heard (got ++ c_frames_in a) y'.
Proof.
  intros I Hf Hk Hs K.
  destruct (cstep_shape a y y' I Hs) as (new & Sp & Hnew).
  assert (Hlast : (exists e, a = CRun CLoop e) \/ forall e, a <> CRun CLoop e).
  { destruct a as [[] e|]; first [left; by eexists | by right]. }
  destruct Hlast as [[e ->] | Hne].
  - assert (new = None) as ->.
    { destruct new as [[n sid]|]; [| done]. destruct (Hnew _ _ eq_refl) as (_ & _ & _ & Hne). by destruct (Hne e). }
    destruct (loop_step_of _ _ _ I Hs) as (pc & t' & El & Hr & El'). destruct (loop_next _ _ _ _ _ _ Hr) as (_ & Hload & Hhand & _).
    split.
    + intros o x' _ Hx'. destruct (sp_heap _ _ _ Sp o x' Hx') as [(x & Hx & Hi) | (sid & ? & _)]; [| done].
      eapply heard_loop; try done. intros sid o1 H1. by destruct (sp_table _ _ _ Sp sid o1 H1).
    + intros o. rewrite El'. intros [Ho | [sid Ho]]%Hhand; apply (sp_kept _ _ _ Sp).
      * apply (he_hand _ _ K). by rewrite El.
      * destruct (gl_table _ (ci_global y I) _ _ Ho) as (x & ? & _). by exists x.
    + intros sf. rewrite El'. intros Hsf%Hload. apply elem_of_app. by right.
  - destruct (loop_stays a y y' I Hs Hne) as [El ->]. rewrite app_nil_r. split.
    + intros o x' _ Hx'. destruct (sp_heap _ _ _ Sp o x' Hx') as [(x & Hx & Hi) | (sid & En & -> & Hn)].
      * eapply heard_other; try done. intros sid H1. destruct (sp_table _ _ _ Sp sid o H1) as [? | E]; [done |].
        destruct (Hnew _ _ E) as [E0 _]. congruence.
      * destruct (Hnew _ _ En) as (_ & Hid & _). exists [].
        destruct (heard_new got y o sid I K Hf Hk Hn Hid) as [Hd Hh]. cbn [cs_id new_cstream down d_recv]. by rewrite El, Hh, Hd.
    + intros o. rewrite El. intros Ho. apply (sp_kept _ _ _ Sp). by apply (he_hand _ _ K).
    + intros sf. rewrite El. apply (he_load _ _ K).
Qed.
