(* ===== verification/ClientTake.v ===== *)
(** * The client takes what it is sent

    The read loop of the client alone gets through the handling of any frame,
    as long as the channels it delivers to have room, and the handler of a
    stream alone brings what its channel holds to the local connection. *)

From S2P Require Import Prelude Padding StreamFrame FrameLog Target Client ClientInv ClientLoop ClientSteps ClientProps.
From S2P Require Import ClientTraffic ClientRefine ClientArrive.

Section Take.
Context (sid : Z) (n : nat) (q : Z) (ids0 : list (Z * nat)) (R : Z -> Z).
Hypothesis HR : forall k, 0 <= R k.

Definition mark_of (k : marker) : nat := match k with MCas o | MChan o | MCast o => o end.

(** The loop is in the handling of a frame, and not about to close stream
    [sid], object [n]. *)
Definition c_harmless (pc : readLoop_pc) : Prop :=
  match pc with
  | RRead | RWin _ _ | ROk _ | RErr _ _ | RDeliver _ _ | RSend _ _ | RCredit _ _ | RPong _ => True
  | RLoad sf => ~ (sf_type sf = v2TypeClose /\ sf_id sf = sid)
  | RMark k mk => k <> sid /\ mark_of mk <> n
  | RDelete k => k <> sid
  | _ => False
  end.

Definition c_rank (pc : readLoop_pc) : nat :=
  match pc with
  | RLoad _ => 6
  | RMark _ (MCas _) => 4
  | RMark _ (MChan _) => 3
  | RMark _ (MCast _) | RWin _ _ | RDeliver _ _ => 2
  | ROk _ | RErr _ _ | RSend _ _ | RCredit _ _ | RDelete _ | RPong _ => 1
  | _ => 0
  end.

(** The loop carries a payload for object [o] of stream [k]. *)
Definition carries (pc : readLoop_pc) (k : Z) (o : nat) : Z :=
  if match pc with
     | RLoad sf => for_stream k v2TypeData sf
     | RDeliver o' _ | RSend o' _ => bool_decide (o' = o)
     | _ => false
     end then 1 else 0.

(** Stream [sid] is open and in the table, its handler serves it; the channels
    of the other streams have room for [R] payloads each. *)
Record hearing (lpc : readLoop_pc) (hpc : sock_pc) (x : cstream) (y : csys) : Prop := {
  hr_reach : creachable y;
  hr_loop : c_threads y !! CLoop = Some (CtLoop lpc);
  hr_sock : c_threads y !! CSock n = Some (CtSock n hpc);
  hr_conn : c_conn (c_mem y) = true;
  hr_table : c_streams (c_mem y) !! sid = Some n;
  hr_obj : c_heap (c_mem y) !! n = Some x;
  hr_open : cs_closed x = false;
  hr_mine : c_harmless lpc;
  hr_hand : match lpc with RDeliver o _ | RSend o _ => exists k, c_streams (c_mem y) !! k = Some o | _ => True end;
  hr_empty : lpc <> RRead -> items (incoming x) = [];
  hr_room k o xo : c_streams (c_mem y) !! k = Some o -> o <> n -> c_heap (c_mem y) !! o = Some xo ->
    len (items (incoming xo)) + carries lpc k o + R k <= incomingCap;
  hr_seq : c_seqRead (c_mem y) = q;
  hr_ids : c_ids (c_mem y) = ids0;
}.

Definition quiet_act (w : cwho) (a : caction) : Prop := exists e, a = CRun w e /\ forall pt, e <> CFrame pt.

(** A step of the loop, by what it does to memory. *)
Lemma heard_by lpc hpc x y e lpc' m' x' :
  hearing lpc hpc x y -> (forall pt, e <> CFrame pt) ->
  readLoop_step lpc e (c_mem y) = Some (Some (CtLoop lpc'), m', []) ->
  c_conn m' = true -> c_streams m' !! sid = Some n -> c_heap m' !! n = Some x' -> cs_closed x' = false ->
  c_harmless lpc' ->
  match lpc' with RDeliver o _ | RSend o _ => exists k, c_streams m' !! k = Some o | _ => True end ->
  (lpc' <> RRead -> items (incoming x') = []) ->
  (forall k o xo', c_streams m' !! k = Some o -> o <> n -> c_heap m' !! o = Some xo' ->
     exists xo, c_streams (c_mem y) !! k = Some o /\ c_heap (c_mem y) !! o = Some xo /\
       len (items (incoming xo')) + carries lpc' k o <= len (items (incoming xo)) + carries lpc k o) ->
  c_seqRead m' = q -> c_ids m' = ids0 -> (c_rank lpc' < c_rank lpc)%nat ->
  exists a y' lpc' x', quiet_act CLoop a /\ cstep a y = Some y' /\ hearing lpc' hpc x' y' /\ (c_rank lpc' < c_rank lpc)%nat.
Proof.
  intros K He Hr Hc Ht Hx Ho Hh Hhand Hemp Hroom Hq Hids Hk.
  assert (Hstep : cstep (CRun CLoop e) y = Some (CSys (<[CLoop := CtLoop lpc']> (c_threads y)) m')).
  { cbn [cstep]. rewrite (hr_loop _ _ _ _ K). cbn [mbind option_bind cthread_step]. by rewrite Hr. }
  do 4 eexists. split; [by exists e |]. split; [exact Hstep |]. split; [| exact Hk]. split; cbn [c_threads c_mem]; try done.
  - eapply creach_step; [apply (hr_reach _ _ _ _ K) | exact Hstep].
  - by rewrite lookup_insert_eq.
  - rewrite lookup_insert_ne by done. apply (hr_sock _ _ _ _ K).
  - intros k o xo' H1 H2 H3. destruct (Hroom k o xo' H1 H2 H3) as (xo & H4 & H5 & H6).
    pose proof (hr_room _ _ _ _ K k o xo H4 H2 H5). lia.
Qed.

(** Only [f] on one object, whose channel it leaves alone. *)
Lemma room_on lpc lpc' o f m :
  (forall k j, carries lpc' k j <= carries lpc k j) -> (forall x, incoming (f x) = incoming x \/ exists b, incoming (f x) = Channel (items (incoming x)) b) ->
  forall k j xj', c_streams (on_stream o f m) !! k = Some j -> j <> n -> c_heap (on_stream o f m) !! j = Some xj' ->
  exists xj, c_streams m !! k = Some j /\ c_heap m !! j = Some xj /\
    len (items (incoming xj')) + carries lpc' k j <= len (items (incoming xj)) + carries lpc k j.
Proof.
  intros Hc Hf k j xj' Hk _ [(E & xj & Hxj & ->) | [_ Hxj]]%on_stream_lookup; pose proof (Hc k j).
  - exists xj. split_and!; [done | done |]. destruct (Hf xj) as [-> | [b ->]]; cbn; lia.
  - exists xj'. split_and!; [done | done | lia].
Qed.

Lemma carries_none lpc' lpc : (forall k j, carries lpc' k j = 0) -> forall k j, carries lpc' k j <= carries lpc k j.
Proof. intros H k j. rewrite H. unfold carries. by case_match. Qed.

Lemma table_unique y k k' o : creachable y -> c_streams (c_mem y) !! k = Some o -> c_streams (c_mem y) !! k' = Some o -> k = k'.
Proof.
  intros Rc H1 H2. pose proof (ci_global y (creachable_inv y Rc)) as G.
  destruct (gl_table _ G k o H1) as (x1 & Hx1 & <-). destruct (gl_table _ G k' o H2) as (x2 & Hx2 & <-). congruence.
Qed.

Lemma table_unique_all y : creachable y ->
  forall k k' o, c_streams (c_mem y) !! k = Some o -> c_streams (c_mem y) !! k' = Some o -> k = k'.
Proof. intros Rc k k' o. by apply table_unique. Qed.

(** What the switch of the loop decides. *)
Lemma dispatch_room m sf lpc :
  readLoop_dispatch sf (c_streams m !! sf_id sf) = lpc ->
  (forall k k' o, c_streams m !! k = Some o -> c_streams m !! k' = Some o -> k = k') ->
  c_streams m !! sid = Some n -> ~ (sf_type sf = v2TypeClose /\ sf_id sf = sid) ->
  c_harmless lpc /\
  match lpc with RDeliver o _ | RSend o _ => exists k, c_streams m !! k = Some o | _ => True end /\
  (forall k o, c_streams m !! k = Some o -> carries lpc k o <= carries (RLoad sf) k o) /\ (c_rank lpc < 6)%nat.
Proof.
  destruct sf as [k ty p]. cbn [sf_id sf_type]. intros E Hu Ht Hno. unfold readLoop_dispatch in E.
  assert (Hidle : forall lpc', c_harmless lpc' -> (forall k j, carries lpc' k j = 0) -> (c_rank lpc' < 6)%nat ->
    match lpc' with RDeliver o _ | RSend o _ => exists k, c_streams m !! k = Some o | _ => True end ->
    c_harmless lpc' /\
    match lpc' with RDeliver o _ | RSend o _ => exists k, c_streams m !! k = Some o | _ => True end /\
    (forall k0 o, c_streams m !! k0 = Some o -> carries lpc' k0 o <= carries (RLoad (SFrame k ty p)) k0 o) /\ (c_rank lpc' < 6)%nat).
  { intros lpc' H1 H2 H3 H4. split_and!; try done. intros. by apply carries_none. }
  destruct (ty =? v2TypeOpenOK); [| destruct (ty =? v2TypeOpenErr); [| destruct (ty =? v2TypeData) eqn:Ed; [|
    destruct (ty =? v2TypeWindowUpdate); [| destruct (ty =? v2TypeClose) eqn:Ec; [| destruct (ty =? v2TypePing)]]]]].
  3: { destruct (c_streams m !! k) as [o|] eqn:Eo; subst lpc; [| by apply Hidle; cbn; auto with lia].
    split_and!; [done | by exists k | | cbn; lia]. intros k0 o0 Hk0. unfold carries, for_stream. cbn [sf_id sf_type].
    case_bool_decide as Eb; [subst o0; rewrite (Hu k0 k o Hk0 Eo), Z.eqb_refl, Ed; done | by case_match]. }
  4: { destruct (c_streams m !! k) as [o|] eqn:Eo; subst lpc; [| by apply Hidle; cbn; auto with lia].
    apply Hidle; [| done | cbn; lia | done]. cbn.
    assert (Hk : k <> sid) by (intros ->; apply Hno; split; [by apply Z.eqb_eq | done]).
    split; [done |]. intros ->. by apply Hk, (Hu _ _ n). }
  all: repeat case_match; subst lpc; apply Hidle; cbn; (done || lia).
Qed.

Lemma hear_step lpc hpc x y : hearing lpc hpc x y -> lpc <> RRead ->
  exists a y' lpc' x', quiet_act CLoop a /\ cstep a y = Some y' /\ hearing lpc' hpc x' y' /\ (c_rank lpc' < c_rank lpc)%nat.
Proof.
  intros K Hpc. pose proof K as [Rc _ _ Hc Ht Hx Ho Hh Hhand Hemp _ Hq Hids]. specialize (Hemp Hpc).
  assert (Hgo := fun e lpc' m' x' He => heard_by lpc hpc x y e lpc' m' x' K He).
  assert (Hf : forall o f, (forall z, incoming (f z) = incoming z) -> (forall z, cs_closed (f z) = cs_closed z) ->
    exists x', c_heap (on_stream o f (c_mem y)) !! n = Some x' /\ cs_closed x' = false /\ items (incoming x') = []).
  { intros o f H1 H2. destruct (decide (o = n)) as [-> | Hne].
    - exists (f x). rewrite H1, H2. split_and!; [| done | done]. cbn. by rewrite lookup_alter_eq, Hx.
    - exists x. split_and!; [| done | done]. cbn. by rewrite lookup_alter_ne. }
  assert (Hsame : forall lpc', (forall k o, carries lpc' k o <= carries lpc k o) ->
    forall k o xo', c_streams (c_mem y) !! k = Some o -> o <> n -> c_heap (c_mem y) !! o = Some xo' ->
    exists xo, c_streams (c_mem y) !! k = Some o /\ c_heap (c_mem y) !! o = Some xo /\
      len (items (incoming xo')) + carries lpc' k o <= len (items (incoming xo)) + carries lpc k o).
  { intros lpc' Hle k o xo' H1 H2 H3. exists xo'. specialize (Hle k o). split_and!; [done | done | lia]. }
  destruct lpc as [|sf|o v|o|o msg|o p|o p|o v|k mk|k|p| | | |]; cbn in Hh; try done; cbn in Hhand.
  - (* RLoad *)
    destruct (dispatch_room (c_mem y) sf _ eq_refl (table_unique_all y Rc) Ht Hh) as (H1 & H2 & H3 & H4).
    eapply (Hgo CTau _ _ x); [done | reflexivity | done.. | | done | done | exact H4].
    intros k o xo' Hk Hne Hxo. exists xo'. specialize (H3 k o Hk). split_and!; [done | done | lia].
  - (* RWin *)
    destruct (Hf o (set_win (win_open v))) as (x' & Hx' & Ho' & He'); [done | done |].
    eapply (Hgo CTau (ROk o) _ x'); [done | reflexivity | done.. | | done | done | cbn; lia].
    apply room_on; [by apply carries_none | by left].
  - (* ROk *)
    destruct (Hf o (set_openOK true)) as (x' & Hx' & Ho' & He'); [done | done |].
    eapply (Hgo CTau RRead _ x'); [done | reflexivity | done.. | | done | done | cbn; lia].
    apply room_on; [by apply carries_none | by left].
  - (* RErr *)
    set (f := fun z => match openErr z with None => set_openErr (Some msg) z | Some _ => z end).
    assert (Hi : forall z, incoming (f z) = incoming z) by (intros z; unfold f; by case_match).
    destruct (Hf o f) as (x' & Hx' & Ho' & He'); [done | intros z; unfold f; by case_match |].
    eapply (Hgo CTau RRead _ x'); [done | reflexivity | done.. | | done | done | cbn; lia].
    apply (room_on _ _ o f); [by apply carries_none | by left].
  - (* RDeliver *)
    destruct Hhand as [k Hk]. destruct (gl_table _ (ci_global y (creachable_inv y Rc)) k o Hk) as (xo & Hxo & _).
    destruct (cs_closed xo) eqn:E.
    + eapply (Hgo CTau RRead _ x); [done | cbn; by rewrite Hxo, E | done.. | | done | done | cbn; lia].
      apply Hsame. by apply carries_none.
    + eapply (Hgo CTau (RSend o p) _ x); [done | cbn; by rewrite Hxo, E | done.. | by exists k | done | | done | done | cbn; lia].
      by apply Hsame.
  - (* RSend *)
    destruct Hhand as [k Hk]. destruct (gl_table _ (ci_global y (creachable_inv y Rc)) k o Hk) as (xo & Hxo & _).
    assert (Hroom : len (items (incoming xo)) < incomingCap).
    { destruct (decide (o = n)) as [-> | Hne]; [simplify_eq; by rewrite Hemp |].
      pose proof (hr_room _ _ _ _ K k o xo Hk Hne Hxo) as Hr. unfold carries in Hr. rewrite bool_decide_true in Hr by done.
      pose proof (HR k). lia. }
    destruct (shut (incoming xo)) eqn:E.
    + eapply (Hgo CTau RRead _ x); [done | cbn; by rewrite Hxo, E | done.. | | done | done | cbn; lia].
      apply Hsame. by apply carries_none.
    + set (x' := if decide (o = n) then chan_push p x else x).
      eapply (Hgo CTau RRead _ x'); [done | cbn; by rewrite Hxo, E, (proj2 (Z.ltb_lt _ _) Hroom) | done | done | | by subst x'; case_decide | done | done | done | | done | done | cbn; lia].
      * subst x'. cbn. case_decide; [subst o; by rewrite lookup_alter_eq, Hx | by rewrite lookup_alter_ne].
      * intros k0 j xj' Hk0 Hne [(E' & xj & Hxj & ->) | [Hno Hxj]]%on_stream_lookup.
        -- subst j. exists xj. split_and!; [done | done |]. unfold carries. rewrite bool_decide_true by done.
           cbn [chan_push incoming items]. rewrite len_app. change (len [p]) with 1. cbn. lia.
        -- exists xj'. unfold carries. rewrite bool_decide_false by done. split_and!; [done | done | lia].
  - (* RCredit *)
    destruct (Hf o (set_win (win_credit v))) as (x' & Hx' & Ho' & He'); [done | done |].
    eapply (Hgo CTau RRead _ x'); [done | reflexivity | done.. | | done | done | cbn; lia].
    apply room_on; [by apply carries_none | by left].
  - (* RMark *)
    destruct Hh as [Hk Hm]. assert (Hn : forall f, c_heap (on_stream (mark_of mk) f (c_mem y)) !! n = Some x) by (intros f; cbn; by rewrite lookup_alter_ne).
    assert (Hquiet : forall lpc', (forall k0 j, carries lpc' k0 j = 0) -> forall k0 j, carries lpc' k0 j <= carries (RMark k mk) k0 j) by (intros; by apply carries_none).
    destruct mk as [o|o|o]; cbn in Hm, Hn.
    + destruct (c_heap (c_mem y) !! o) as [xo|] eqn:Eo; [destruct (cs_closed xo) eqn:E |].
      * eapply (Hgo CTau (RDelete k) _ x); [done | cbn; by rewrite Eo, E | done.. | | done | done | cbn; lia]. by apply Hsame, Hquiet.
      * eapply (Hgo CTau (RMark k (MChan o)) _ x); [done | cbn; by rewrite Eo, E | done | done | apply Hn | done.. | | done | done | cbn; lia].
        apply room_on; [by apply Hquiet | by left].
      * eapply (Hgo CTau (RDelete k) _ x); [done | cbn; by rewrite Eo | done.. | | done | done | cbn; lia]. by apply Hsame, Hquiet.
    + destruct (c_heap (c_mem y) !! o) as [xo|] eqn:Eo; [destruct (shut (incoming xo)) eqn:E |].
      * eapply (Hgo CTau (RDelete k) _ x); [done | cbn; by rewrite Eo, E | done.. | | done | done | cbn; lia]. by apply Hsame, Hquiet.
      * eapply (Hgo CTau (RMark k (MCast o)) _ x); [done | cbn; by rewrite Eo, E | done | done | apply Hn | done.. | | done | done | cbn; lia].
        apply room_on; [by apply Hquiet | right; by eexists].
      * eapply (Hgo CTau (RDelete k) _ x); [done | cbn; by rewrite Eo | done.. | | done | done | cbn; lia]. by apply Hsame, Hquiet.
    + eapply (Hgo CTau (RDelete k) _ x); [done | reflexivity | done | done | apply Hn | done.. | | done | done | cbn; lia].
      apply room_on; [by apply Hquiet | by left].
  - (* RDelete *)
    eapply (Hgo CTau RRead _ x); [done | reflexivity | done | | done.. | | done | done | cbn; lia].
    + cbn. by rewrite lookup_delete_ne.
    + cbn [upd_streams c_streams c_heap]. intros k0 o xo' [_ Hk0]%lookup_delete_Some.
      by apply (Hsame RRead (carries_none RRead _ (fun _ _ => eq_refl))).
  - (* RPong *)
    destruct (c_write true (SFrame 0 v2TypePong p) (c_mem y)) as [r m1] eqn:Ew.
    assert (E : c_conn m1 = c_conn (c_mem y) /\ c_streams m1 = c_streams (c_mem y) /\ c_heap m1 = c_heap (c_mem y) /\
      c_seqRead m1 = c_seqRead (c_mem y) /\ c_ids m1 = c_ids (c_mem y)) by (unfold c_write in Ew; repeat case_match; by simplify_eq).
    destruct E as (E1 & E2 & E3 & E4 & E5).
    eapply (Hgo (CWritten true) RRead m1 x); [done | cbn; by rewrite Ew | congruence.. | done | done | done | | congruence | congruence | cbn; lia].
    rewrite E2, E3. by apply Hsame, carries_none.
Qed.

(** The loop reaches its next read by itself. *)
Lemma hear_settles lpc hpc x y : hearing lpc hpc x y ->
  exists acts y' x', Forall (quiet_act CLoop) acts /\ crun acts y = Some y' /\ hearing RRead hpc x' y'.
Proof.
  remember (c_rank lpc) as r eqn:Er. revert lpc x y Er. induction (lt_wf r) as [r _ IH]. intros lpc x y -> K.
  assert (lpc = RRead \/ lpc <> RRead) as [-> | Hne] by (destruct lpc; (by left) || by right).
  - exists [], y, x. by split_and!.
  - destruct (hear_step lpc hpc x y K Hne) as (a & y1 & lpc1 & x1 & Ha & Hs & K1 & Hk).
    destruct (IH _ Hk lpc1 x1 y1 eq_refl K1) as (acts & y2 & x2 & Hacts & Hr & K2).
    exists (a :: acts), y2, x2. split_and!; [by constructor | cbn [crun]; by rewrite Hs | done].
Qed.

(** ** The handler *)

Definition serving (hpc : sock_pc) : bool := match hpc with SDown | SOut _ => true | _ => false end.

Definition hand_work (hpc : sock_pc) (x : cstream) : nat :=
  4 * length (items (incoming x)) + (match pendingChunk (pending x) with Some _ => 2 | None => 0 end) +
  (match hpc with SOut _ => 1 | _ => 0 end).

(** Reading with a buffer that takes all of the chunk. *)
Lemma read_all c pos ch x : 0 <= pos -> exists b x', copy_pending (len c + 1) c pos ch x = RBytes b x' /\
  cs_closed x' = cs_closed x /\ incoming x' = ch /\ pendingChunk (pending x') = None.
Proof.
  intros Hp. unfold copy_pending. do 2 eexists. split; [reflexivity |]. cbn. split_and!; [done | done |].
  rewrite (proj2 (Z.leb_le _ _)); [done |]. rewrite len_take, len_drop. pose proof (len_nonneg c). lia.
Qed.

Lemma served_by hpc x y e hpc' x' :
  hearing RRead hpc x y -> (forall pt, e <> CFrame pt) ->
  sock_step n hpc e (c_mem y) = Some (Some (CtSock n hpc'), on_stream n (fun _ => x') (c_mem y), []) ->
  cs_closed x' = false ->
  exists a y', quiet_act (CSock n) a /\ cstep a y = Some y' /\ hearing RRead hpc' x' y'.
Proof.
  intros K He Hr Ho. pose proof K as [Rc Hl Hs Hc Ht Hx _ _ _ _ Hroom Hq Hids].
  assert (Hstep : cstep (CRun (CSock n) e) y = Some (CSys (<[CSock n := CtSock n hpc']> (c_threads y)) (on_stream n (fun _ => x') (c_mem y)))).
  { cbn [cstep]. rewrite Hs. cbn [mbind option_bind cthread_step]. by rewrite Hr. }
  do 2 eexists. split; [by exists e |]. split; [exact Hstep |]. split; cbn [c_threads c_mem]; try done.
  - by eapply creach_step.
  - by rewrite lookup_insert_ne.
  - by rewrite lookup_insert_eq.
  - cbn. by rewrite lookup_alter_eq, Hx.
  - intros k o xo Hk Hne [(-> & _) | [_ Hxo]]%on_stream_lookup; [done |]. by apply (Hroom k o xo).
Qed.

Lemma serve_step hpc x y : hearing RRead hpc x y -> serving hpc = true -> hand_work hpc x <> 0%nat ->
  exists a y' hpc' x', quiet_act (CSock n) a /\ cstep a y = Some y' /\ hearing RRead hpc' x' y' /\
    serving hpc' = true /\ (hand_work hpc' x' < hand_work hpc x)%nat.
Proof.
  intros K Hs Hw. pose proof K as [Rc _ _ _ _ Hx Ho _ _ _ _ _ _].
  pose proof (do_pos _ (oo_data _ _ _ _ _ _ (ci_obj y (creachable_inv y Rc) n x Hx))) as Hpos.
  assert (Hread : forall c pos ch, hpc = SDown -> 0 <= pos -> stream_Read (len c + 1) x = copy_pending (len c + 1) c pos ch x ->
    (4 * length (items ch) + 1 < hand_work SDown x)%nat ->
    exists a y' hpc' x', quiet_act (CSock n) a /\ cstep a y = Some y' /\ hearing RRead hpc' x' y' /\
      serving hpc' = true /\ (hand_work hpc' x' < hand_work hpc x)%nat).
  { intros c pos ch -> Hp Hr Hlt. destruct (read_all c pos ch x Hp) as (b & x' & Hb & Hc' & Hi & Hpe). rewrite Hb in Hr.
    pose proof (len_nonneg c). pose proof (served_by SDown x y (CBuf (len c + 1)) (if 0 <? len b then SOut b else SDown) x' K) as Hby.
    destruct Hby as (a & y' & Ha & Hst & K'); [done | | congruence |].
    - unfold sock_step. rewrite Hx, (proj2 (Z.ltb_lt 0 (len c + 1))), Hr by lia. by destruct (0 <? len b).
    - exists a, y', (if 0 <? len b then SOut b else SDown), x'. split_and!; try done; [by destruct (0 <? len b) |].
      unfold hand_work at 1. rewrite Hi, Hpe. destruct (0 <? len b); lia. }
  destruct hpc; try discriminate Hs.
  - destruct (pendingChunk (pending x)) as [c|] eqn:Ep.
    + apply (Hread c (pendingPos (pending x)) (incoming x)); [done | done | by unfold stream_Read; rewrite Ep |].
      unfold hand_work. rewrite Ep. lia.
    + destruct (items (incoming x)) as [|c rest] eqn:Ei; [by unfold hand_work in Hw; rewrite Ep, Ei in Hw |].
      apply (Hread c 0 (Channel rest (shut (incoming x)))); [done | done | by unfold stream_Read; rewrite Ep, Ei |].
      unfold hand_work. rewrite Ep, Ei. cbn. lia.
  - destruct (served_by (SOut b) x y (CLocalWrite None) SDown (local_write b x) K) as (a & y' & Ha & Hst & K'); [done | | done |].
    + unfold sock_step. rewrite Hx. unfold cnext. do 3 f_equal. unfold on_stream, upd_heap. f_equal.
      apply map_eq. intros j. destruct (decide (j = n)) as [-> | Hne]; [by rewrite !lookup_alter_eq, Hx | by rewrite !lookup_alter_ne].
    + exists a, y', SDown, (local_write b x). split_and!; try done. unfold hand_work. cbn. lia.
Qed.

(** The handler alone empties the channel. *)
Lemma hand_drains hpc x y : hearing RRead hpc x y -> serving hpc = true ->
  exists acts y' x', Forall (quiet_act (CSock n)) acts /\ crun acts y = Some y' /\ hearing RRead SDown x' y' /\
    items (incoming x') = [] /\ unread (pending x') = [].
Proof.
  remember (hand_work hpc x) as r eqn:Er. revert hpc x y Er. induction (lt_wf r) as [r _ IH]. intros hpc x y -> K Hs.
  destruct (decide (hand_work hpc x = 0%nat)) as [E | Hne].
  - exists [], y, x. unfold hand_work in E. destruct hpc; try discriminate Hs; [| lia].
    destruct (pendingChunk (pending x)) eqn:Ep; [lia |]. unfold unread. rewrite Ep.
    split_and!; try done. destruct (items (incoming x)); [done | cbn in E; lia].
  - destruct (serve_step hpc x y K Hs Hne) as (a & y1 & h1 & x1 & Ha & Hst & K1 & Hs1 & Hk).
    destruct (IH _ Hk h1 x1 y1 eq_refl K1 Hs1) as (acts & y2 & x2 & Hacts & Hr & K2 & H1 & H2).
    exists (a :: acts), y2, x2. split_and!; try done; [by constructor | cbn [crun]; by rewrite Hst].
Qed.
End Take.

(** ** Reading a frame *)

(** A frame that is read, and one payload less to come for its stream. *)
Lemma take_c_frame sid n q ids0 (R R' : Z -> Z) sf hpc x y y' :
  hearing sid n q ids0 R RRead hpc x y -> items (incoming x) = [] -> sf_ok sf ->
  ~ (sf_type sf = v2TypeClose /\ sf_id sf = sid) ->
  (forall k, R' k + (if for_stream k v2TypeData sf then 1 else 0) <= R k) ->
  cstep (CRun CLoop (CFrame (encode_stream_frame sf))) y = Some y' ->
  hearing sid n ((q + 1) mod 2 ^ 64) ids0 R' (RLoad sf) hpc x y'.
Proof.
  intros K Hi Hsf Hno HR Hs. pose proof K as [Rc Hl Hk Hc Ht Hx Ho _ _ _ Hroom Hq Hids].
  assert (Rc' : creachable y') by by eapply creach_step.
  cbn [cstep] in Hs. rewrite Hl in Hs. cbn [mbind option_bind cthread_step] in Hs. unfold readLoop_step in Hs.
  pose proof (parse_encode sf [] Hsf) as E. rewrite app_nil_r in E. rewrite E, Hc in Hs. destruct (_ && _); [| done].
  unfold cnext in Hs. cbn [mbind option_bind c_spawn foldr c_set_thread] in Hs. injection Hs as <-.
  split; cbn [c_threads c_mem count_read c_seqRead c_ids c_streams c_heap c_conn]; try done.
  - by rewrite lookup_insert_eq.
  - by rewrite lookup_insert_ne.
  - intros k o xo H1 H2 H3. pose proof (Hroom k o xo H1 H2 H3) as Hr. specialize (HR k).
    unfold carries in *. lia.
  - by rewrite Hq.
Qed.
