(* ===== verification/Tunnel.v ===== *)
(** * Client and server together

    The server of cmd/mxtr-server with the processes of
    cmd/mxtr-testclient-v2 that are connected to it. Between a client and its
    session there is a connection each way: the frames that were written and not
    read yet, each under the nonce it was sealed with. A frame is read when its
    nonce is the reader's counter, as the AEAD demands; it arrives as
    [encode_stream_frame] laid it out.

    What each side assumes of the other, the other side keeps: the sessions are
    polite, credit and data agree, and no nonce is out of step. *)

From S2P Require Import Prelude GoStrings Padding StreamFrame FrameLog Target Allowlist PskConfig.
From S2P Require Import Session SessionInv SessionSafe SessionSys SessionProps SessionLeak SessionTrace SessionArrive SessionTraffic SessionFetch.
From S2P Require Import Client ClientInv ClientLoop ClientSteps ClientProps ClientTraffic ClientArrive.

(** ** The model *)

Abbreviation sealed := (list (Z * stream_frame)).

(** [p_seen], [p_got] (history): the frames the session and the client have
    read. *)
Record peer := Peer {
  p_client : csys;
  p_up : sealed;
  p_down : sealed;
  p_seen : frames;
  p_got : frames;
}.

(** [w_fetched] (history): what the reader of each stream object has read from
    its upstream connection. *)
Record world := World { w_server : sys; w_fetched : nat -> bytes; w_peers : gmap Z peer }.

Definition fetch (a : action) (F : nat -> bytes) : nat -> bytes := fun o => F o ++ pulled o a.

Definition new_peer : peer := Peer dialed_session [] [] [] [].

Definition send_down (l : sealed) (p : peer) : peer :=
  Peer (p_client p) (p_up p) (p_down p ++ l) (p_seen p) (p_got p).
Definition send_up (y : csys) (l : sealed) (p : peer) : peer :=
  Peer y (p_up p ++ l) (p_down p) (p_seen p) (p_got p).
Definition taken_up (sf : stream_frame) (rest : sealed) (p : peer) : peer :=
  Peer (p_client p) rest (p_down p) (p_seen p ++ [sf]) (p_got p).
Definition taken_down (sf : stream_frame) (rest : sealed) (y : csys) (p : peer) : peer :=
  Peer y (p_up p) rest (p_seen p) (p_got p ++ [sf]).

(** The next frame, if it opens under nonce [seq]. *)
Definition next_frame (seq : Z) (l : sealed) : option (stream_frame * sealed) :=
  match l with (n, sf) :: rest => if n =? seq then Some (sf, rest) else None | [] => None end.

Inductive waction :=
  | AServer (a : action)              (* a step of the server, reading frames apart *)
  | AClient (id : Z) (a : caction)    (* a step of a client, reading frames apart *)
  | AUp (id : Z)                      (* the session's read loop reads a frame *)
  | ADown (id : Z).                   (* the client's read loop reads a frame *)

Definition reads (a : action) : bool := match a with Run _ (InFrame _) => true | _ => false end.
Definition c_reads (a : caction) : bool := match a with CRun _ (CFrame _) => true | _ => false end.

Section Tunnel.
Context `{UnicodeTables} (allowedDomains : list allowEntry) (hb : hb_params).
Abbreviation step := (step allowedDomains hb).

(** The frames a step of the server has written reach the connections; a
    connection accepted has a client at its other end. *)
Definition served (a : action) (y y' : sys) (ps : gmap Z peer) : gmap Z peer :=
  let ps1 := map_imap (fun id p => Some (send_down (sealed_out id a (memory y) (memory y')) p)) ps in
  match a with Accept => <[connCounter (memory y') := new_peer]> ps1 | _ => ps1 end.

Definition wstep (a : waction) (v : world) : option world :=
  match a with
  | AServer a =>
      if reads a then None else
      y' ← step a (w_server v);
      Some (World y' (fetch a (w_fetched v)) (served a (w_server v) y' (w_peers v)))
  | AClient id a =>
      if c_reads a then None else
      p ← w_peers v !! id;
      y' ← cstep a (p_client p);
      Some (World (w_server v) (w_fetched v) (<[id := send_up y' (c_frames_out (c_mem (p_client p)) (c_mem y')) p]> (w_peers v)))
  | AUp id =>
      p ← w_peers v !! id;
      s ← v2Sessions (memory (w_server v)) !! id;
      '(sf, rest) ← next_frame (seqRead s) (p_up p);
      y' ← step (Run (WLoop id) (InFrame (encode_stream_frame sf))) (w_server v);
      Some (World y' (w_fetched v) (<[id := taken_up sf rest p]> (w_peers v)))
  | ADown id =>
      p ← w_peers v !! id;
      '(sf, rest) ← next_frame (c_seqRead (c_mem (p_client p))) (p_down p);
      y' ← cstep (CRun CLoop (CFrame (encode_stream_frame sf))) (p_client p);
      Some (World (w_server v) (w_fetched v) (<[id := taken_down sf rest y' p]> (w_peers v)))
  end.

Definition start : world := World init (fun _ => []) ∅.

Inductive wreach : world -> Prop :=
  | wreach_start : wreach start
  | wreach_step a v v' : wreach v -> wstep a v = Some v' -> wreach v'.

Fixpoint wrun (acts : list waction) (v : world) : option world :=
  match acts with
  | [] => Some v
  | a :: acts' => v' ← wstep a v; wrun acts' v'
  end.

Lemma wrun_reach acts v v' : wreach v -> wrun acts v = Some v' -> wreach v'.
Proof.
  revert v. induction acts as [|a acts IH]; intros v R; cbn; [by intros [= <-] |].
  destruct (wstep a v) as [v1|] eqn:E; [| done]. cbn. apply IH. by eapply wreach_step.
Qed.

(** ** The session's read counter *)

Definition read_count (id : Z) (m : mem) : option Z := seqRead <$> v2Sessions m !! id.

Lemma count_write id ok sf m r m' i : write_frame id ok sf m = (r, m') -> read_count i m' = read_count i m.
Proof.
  unfold write_frame, read_count. repeat case_match; intros [= _ <-]; try done. cbn.
  destruct (decide (i = id)) as [-> | Hne]; [rewrite lookup_alter_eq | by rewrite lookup_alter_ne].
  by destruct (v2Sessions m !! id).
Qed.

Lemma count_upd k f m m' i : v2Sessions m' = alter f k (v2Sessions m) -> (forall s, seqRead (f s) = seqRead s) ->
  read_count i m' = read_count i m.
Proof.
  intros E Hf. unfold read_count. rewrite E. destruct (decide (i = k)) as [-> | Hne]; [| by rewrite lookup_alter_ne].
  rewrite lookup_alter_eq. destruct (v2Sessions m !! k); cbn; [by rewrite Hf | done].
Qed.

Lemma count_close w all id c m r m' i : close_step w all id c m = (r, m') -> read_count i m' = read_count i m.
Proof.
  destruct c as [sid|o|o|o|o]; cbn; intros Hr; repeat hcase Hr; injection Hr as <- <-; try done; by eapply count_upd.
Qed.

Lemma step_count t e m t' m' ts i :
  thread_step allowedDomains hb t e m = Some (t', m', ts) ->
  read_count i m' = read_count i m \/ exists pt, e = InFrame pt.
Proof.
  intros Hr. destruct (closer_of t) as [c|] eqn:Ec.
  { destruct (step_closes _ _ _ _ _ _ _ _ _ Hr Ec) as (all & id & r & Hcs & _ & _).
    left. by eapply count_close. }
  destruct t as [id pc|n id sid pc|o id sid pc|o id sid pc|n id p|id]; cbn in Hr;
    step_cases Hr; injection Hr as <- <- <-; subst; try discriminate Ec; try (by right; eexists); left.
  all: try reflexivity; try (by eapply count_upd; [reflexivity |]).
  all: repeat match goal with |- context [write_frame ?id ?ok ?sf ?m] => destruct (write_frame id ok sf m) as [r m1] eqn:Hw end.
  all: try match goal with Hw : write_frame _ _ _ ?m = (_, ?m1) |- read_count ?i _ = read_count ?i ?m =>
    rewrite <-(count_write _ _ _ _ _ _ i Hw) end; try reflexivity; by eapply count_upd; [reflexivity |].
Qed.

Lemma read_counts id pt m t' m' ts i : loop_step id LRead (InFrame pt) m = Some (t', m', ts) ->
  read_count i m' = if decide (i = id) then (fun n => (n + 1) mod 2 ^ 64) <$> read_count i m else read_count i m.
Proof.
  assert (Hread : forall m1, v2Sessions m1 = alter (ss_read (now m)) id (v2Sessions m) ->
    read_count i m1 = if decide (i = id) then (fun n => (n + 1) mod 2 ^ 64) <$> read_count i m else read_count i m).
  { intros m1 E. unfold read_count. rewrite E. case_decide as Hi; [subst i | by rewrite lookup_alter_ne].
    rewrite lookup_alter_eq. by destruct (v2Sessions m !! id). }
  intros Hr. step_cases Hr; injection Hr as _ <- _.
  all: first [by apply Hread | rewrite <-(Hread (upd_session id (ss_read (now m)) m) eq_refl)].
  all: by eapply count_upd; [reflexivity |].
Qed.

(** ** What holds of a client and its session *)

Record peer_ok (y : sys) (F : nat -> bytes) (id : Z) (p : peer) : Prop := {
  po_client : creachable (p_client p);
  po_up : exists l, delivered (c_wire (c_mem (p_client p))) = l ++ p_up p /\ snd <$> l = p_seen p;
  po_sess : is_Some (v2Sessions (memory y) !! id);
  po_count n : read_count id (memory y) = Some n -> n = (1 + len (p_seen p)) mod 2 ^ 64;
  po_traffic : traffic_ok id (p_seen p) (p_got p ++ (snd <$> p_down p)) y;
  po_talk : client_ok (p_got p) (p_client p);
  po_fetch : fetch_ok id (p_got p ++ (snd <$> p_down p)) F y;
  po_heard : heard (p_got p) (p_client p);
}.

Lemma peer_spoken y F id p : peer_ok y F id p -> spoken (c_mem (p_client p)) = p_seen p ++ (snd <$> p_up p).
Proof. intros K. destruct (po_up _ _ _ _ K) as (l & E & <-). unfold spoken. by rewrite E, fmap_app. Qed.

(** What a stream has received is what its client has sent, up to a point. *)
Lemma peer_prefix y F id p n xc o x : peer_ok y F id p -> few_ids (c_mem (p_client p)) ->
  c_heap (c_mem (p_client p)) !! n = Some xc -> heap (memory y) !! o = Some x -> key_of x = (id, cs_id xc) ->
  received (st_hist x) `prefix_of` u_sent (up xc).
Proof.
  intros K Hf Hxc Hx Hk. rewrite <-(sa_data _ _ (cc_said _ _ (po_talk _ _ _ _ K)) n xc Hf Hxc), (peer_spoken _ _ _ _ K), data_app.
  destruct (ar_data _ _ _ (tr_arrived _ _ _ _ (po_traffic _ _ _ _ K)) o x _ Hx Hk) as (rest & -> & _).
  rewrite <-app_assoc. by eexists.
Qed.

Lemma written_received x : stream_ok x -> written (st_hist x) `prefix_of` received (st_hist x).
Proof.
  intros S. destruct (so_fifo _ S) as (lost & -> & _). etransitivity; [apply (so_written _ S) |]. by eexists.
Qed.

Lemma prefix_len (l k : bytes) : l `prefix_of` k -> len l <= len k.
Proof. intros [r ->]. rewrite len_app. pose proof (len_nonneg r). lia. Qed.

(** One stream has the id: it alone gives the client credit. *)
Lemma given_one y id sid o x : server_inv y -> heap (memory y) !! o = Some x -> key_of x = (id, sid) ->
  given_all id sid (memory y) <= v2InitialWindow + granted (st_hist x).
Proof.
  intros I Hx Hk. assert (Hw : 0 <= v2InitialWindow) by done.
  destruct (mo_stream _ (sk_mem _ (si_sys _ I)) o x Hx) as (S & _ & _). pose proof (so_granted _ S) as Hg.
  assert (Hu : forall o1 x1, heap (memory y) !! o1 = Some x1 -> key_of x1 = (id, sid) -> o1 = o).
  { intros o1 x1 H1 K1. apply (li_unique _ (si_leak _ I) o1 o x1 x H1 Hx). congruence. }
  apply map_sum_once; [lia | |].
  - intros o1 x1 H1. unfold given. case_decide as K1; [| lia].
    assert (o1 = o) as -> by by eapply Hu. simplify_eq. case_match; lia.
  - intros o1 o2 x1 x2 H1 H2. unfold given. repeat case_decide; try done. intros _ _.
    by rewrite (Hu o1 x1), (Hu o2 x2).
Qed.

(** What a stream has been given covers what its client may send. *)
Lemma peer_given y F id p n xc : server_inv y -> peer_ok y F id p -> few_ids (c_mem (p_client p)) ->
  c_heap (c_mem (p_client p)) !! n = Some xc ->
  given_all id (cs_id xc) (memory y) <= v2InitialWindow + len (u_sent (up xc)).
Proof.
  intros I K Hf Hxc. unfold given_all. pose proof (len_nonneg (u_sent (up xc))) as Hl.
  assert (Hw : 0 <= v2InitialWindow) by done. apply map_sum_once; [lia | |].
  - intros o x Hx. unfold given. case_decide as Hk; [| lia].
    destruct (mo_stream _ (sk_mem _ (si_sys _ I)) o x Hx) as (S & _ & _).
    pose proof (so_granted _ S) as Hg. pose proof (prefix_len _ _ (written_received x S)).
    pose proof (prefix_len _ _ (peer_prefix y F id p n xc o x K Hf Hxc Hx Hk)). case_match; lia.
  - intros o1 o2 x1 x2 H1 H2. unfold given. repeat case_decide; try done. intros _ _.
    apply (li_unique _ (si_leak _ I) o1 o2 x1 x2 H1 H2). congruence.
Qed.

(** Credit never runs ahead of what was sent by more than the window. *)
Lemma peer_credit y F id p n xc : server_inv y -> peer_ok y F id p -> few_ids (c_mem (p_client p)) ->
  c_heap (c_mem (p_client p)) !! n = Some xc ->
  credits (cs_id xc) (p_got p) <= v2InitialWindow + len (u_sent (up xc)).
Proof.
  intros I K Hf Hxc. pose proof (peer_given y F id p n xc I K Hf Hxc) as Hg.
  rewrite (tr_credit _ _ _ _ (po_traffic _ _ _ _ K)), credits_app in Hg.
  pose proof (credits_nonneg (cs_id xc) (snd <$> p_down p)). lia.
Qed.

Lemma peer_bounded y F id p : server_inv y -> peer_ok y F id p -> few_ids (c_mem (p_client p)) ->
  bounded (p_got p) (c_mem (p_client p)).
Proof.
  intros I K Hf n xc Hxc. pose proof (peer_credit y F id p n xc I K Hf Hxc) as Hc.
  pose proof (uo_credit _ _ (oo_up _ _ _ _ _ _ (ci_obj _ (creachable_inv _ (po_client _ _ _ _ K)) n xc Hxc))) as Hu.
  assert (0 <= in_hand (up_pc_of (c_threads (p_client p)) n)) by (unfold in_hand; repeat case_match; solve [done | apply len_nonneg]).
  assert (v2InitialWindow <= 2 ^ 62) by done. lia.
Qed.

Lemma peer_fed y F id p : peer_ok y F id p -> well_fed (p_got p).
Proof.
  intros K sf Hin Hty. destruct (tr_told _ _ _ _ (po_traffic _ _ _ _ K) sf) as [-> _]; [| done |].
  - apply elem_of_app. by left.
  - by rewrite len_be_put.
Qed.

(** The next frame of a client is polite. *)
Lemma peer_polite y F id p n sf rest : peer_ok y F id p -> few_ids (c_mem (p_client p)) ->
  p_up p = (n, sf) :: rest -> sf_ok sf /\ polite_frame id sf (memory y).
Proof.
  intros K Hf Hup. pose proof (peer_spoken _ _ _ _ K) as Es. rewrite Hup in Es. cbn in Es.
  pose proof (cc_said _ _ (po_talk _ _ _ _ K)) as S.
  assert (Hin : sf ∈ spoken (c_mem (p_client p))) by (rewrite Es; apply elem_of_app; right; by left).
  split; [by apply (proj1 (Forall_forall _ _) (sa_fit _ _ S)) |]. split.
  - intros Hty s Hs Hop. pose proof (sa_once _ _ S Hf) as Hnd. rewrite Es, opens_app in Hnd.
    apply NoDup_app in Hnd as (_ & Hd & _). apply (Hd (sf_id sf)).
    + apply elem_of_opens. apply (tr_opened _ _ _ _ (po_traffic _ _ _ _ K) (sf_id sf) (ss_opened s)); [| done].
      unfold opened. by rewrite Hs.
    + apply elem_of_opens. exists sf. split; [by left | done].
  - intros Hty. destruct (sa_told _ _ S (sf_id sf)) as (ok & Hok & <- & Hokt); [by exists sf |].
    apply (tr_told _ _ _ _ (po_traffic _ _ _ _ K) ok); [| done]. apply elem_of_app. by left.
Qed.

(** ** Every step *)

Lemma polite_server y : polite_reachable allowedDomains hb y -> server_inv y.
Proof. induction 1; [apply server_init | by eapply server_step]. Qed.

Lemma reads_loop t pt m r : thread_step allowedDomains hb t (InFrame pt) m = Some r -> exists id, t = TLoop id LRead.
Proof.
  destruct t as [id pc|n id sid pc|o id sid pc|o id sid pc|n id p|id]; cbn; intros Hr; step_cases Hr; by eexists.
Qed.

Lemma count_step a y y' i : server_inv y -> step a y = Some y' -> i <= connCounter (memory y) ->
  read_count i (memory y') =
    match a with
    | Run (WLoop id) (InFrame _) =>
        if decide (i = id) then (fun n => (n + 1) mod 2 ^ 64) <$> read_count i (memory y) else read_count i (memory y)
    | _ => read_count i (memory y)
    end.
Proof.
  intros I Hs Hi. destruct a as [w e| | |d]; cbn in Hs.
  - destruct (threads y !! w) as [t|] eqn:Ht; [| done]. cbn in Hs.
    destruct (thread_step _ _ t e (memory y)) as [[[t' m'] ts]|] eqn:Hr; [| done]. injection Hs as <-. cbn [memory].
    pose proof (os_who _ _ _ (si_sys _ I) Ht) as Hw.
    assert (He : (exists pt, e = InFrame pt) \/ (forall pt, e <> InFrame pt)) by (destruct e; eauto; by right).
    destruct He as [[pt ->] | Hne].
    + destruct (reads_loop _ _ _ _ Hr) as [id ->]. cbn in Hw. subst w. by eapply read_counts.
    + destruct (step_count _ _ _ _ _ _ i Hr) as [-> | [pt ->]]; [| by destruct (Hne pt)].
      destruct w, e; try done. by destruct (Hne pt).
  - case_decide; [| done]. injection Hs as <-. unfold read_count. cbn. by rewrite lookup_insert_ne by lia.
  - injection Hs as <-. unfold read_count. cbn. rewrite lookup_fmap. destruct (v2Sessions (memory y) !! i) as [s|]; [| done].
    cbn. unfold reap_session. by case_match.
  - hcase Hs; [| done]. by injection Hs as <-.
Qed.

Lemma session_stays a y y' i : sys_ok y -> step a y = Some y' ->
  is_Some (v2Sessions (memory y) !! i) -> is_Some (v2Sessions (memory y') !! i).
Proof.
  intros I Hs [s Hi]. destruct a as [w e| | |d]; cbn in Hs.
  - destruct (threads y !! w) as [t|] eqn:Ht; [| done]. cbn in Hs.
    destruct (thread_step _ _ t e (memory y)) as [[[t' m'] ts]|] eqn:Hr; [| done]. injection Hs as <-.
    destruct (os_good _ _ _ _ _ _ _ _ _ I Ht Hr) as [_ G]. destruct (gu_sess _ _ _ G _ _ Hi) as (s' & ? & _). by exists s'.
  - case_decide; [| done]. injection Hs as <-. cbn. apply lookup_insert_is_Some. destruct (decide (connCounter (memory y) + 1 = i)); eauto.
  - injection Hs as <-. cbn. rewrite lookup_fmap, Hi. by eexists.
  - hcase Hs; [| done]. injection Hs as <-. by exists s.
Qed.

(** Sessions come from handshakes. *)
Lemma session_origin a y y' i : sys_ok y -> step a y = Some y' -> is_Some (v2Sessions (memory y') !! i) ->
  is_Some (v2Sessions (memory y) !! i) \/ (a = Accept /\ i = connCounter (memory y')).
Proof.
  intros Y Hs Hi. assert (Hc : forall m, is_Some (v2Sessions m !! i) <-> is_Some (read_count i m)).
  { intros m. unfold read_count. by rewrite fmap_is_Some. }
  destruct a as [w e| | |d]; cbn in Hs.
  - destruct (threads y !! w) as [t|] eqn:Ht; [| done]. cbn in Hs.
    destruct (thread_step _ _ t e (memory y)) as [[[t' m'] ts]|] eqn:Hr; [| done]. injection Hs as <-. cbn [memory] in Hi.
    left. apply Hc. apply Hc in Hi. destruct (step_count _ _ _ _ _ _ i Hr) as [E | [pt ->]]; [by rewrite <-E |].
    destruct (reads_loop _ _ _ _ Hr) as [id ->]. rewrite (read_counts _ _ _ _ _ _ i Hr) in Hi.
    case_decide; [by apply fmap_is_Some in Hi | done].
  - case_decide; [| done]. injection Hs as <-. cbn in *. apply lookup_insert_is_Some in Hi as [<- | [_ ?]]; [by right | by left].
  - injection Hs as <-. cbn in Hi. rewrite lookup_fmap in Hi. left. by apply fmap_is_Some in Hi.
  - hcase Hs; [| done]. injection Hs as <-. by left.
Qed.

Lemma session_number y id : sys_ok y -> is_Some (v2Sessions (memory y) !! id) -> id <= connCounter (memory y).
Proof. intros I [s Hs]. by destruct (mo_session _ (sk_mem _ I) id s Hs) as (_ & [_ ?] & _). Qed.

Lemma peer_fetched y F F' id p : (forall o, F' o = F o) -> peer_ok y F id p -> peer_ok y F' id p.
Proof.
  intros E [Kc Ku Ke Kn Kt Kk [Ft Fd Fn] Kh]. split; try done. split; [done | |].
  - intros o x sid. rewrite E. apply Fd.
  - intros o. rewrite E. apply Fn.
Qed.

(** Data comes for streams the client knows. *)
Lemma peer_known y F id p sid : server_inv y -> peer_ok y F id p -> says sid v2TypeData (p_got p) ->
  known (c_mem (p_client p)) sid.
Proof.
  intros I K Hs. destruct (fe_told _ _ _ _ (po_fetch _ _ _ _ K) sid) as (o & x & Hx & Hk & _); [apply says_app; by left |].
  destruct (li_key _ (si_leak _ I) o x Hx) as [(T & HT & Hin) _]. unfold key_of in Hk. injection Hk as E1 E2. rewrite E1, E2 in *.
  apply (sa_known _ _ (cc_said _ _ (po_talk _ _ _ _ K))). left. rewrite (peer_spoken _ _ _ _ K). apply says_app. left.
  by apply (tr_opened _ _ _ _ (po_traffic _ _ _ _ K) sid T).
Qed.

(** A step of the server that reads nothing from this client. *)
Lemma peer_server a y y' F id p : server_inv y -> polite a y -> step a y = Some y' -> peer_ok y F id p ->
  frames_in id a = [] -> (forall pt, a <> Run (WLoop id) (InFrame pt)) ->
  peer_ok y' (fetch a F) id (send_down (sealed_out id a (memory y) (memory y')) p).
Proof.
  intros I P Hs K Hin Ha. destruct K as [Kc Ku Ke Kn Kt Kk Kf Kh]. pose proof (session_number y id (si_sys _ I) Ke) as Ki. split; cbn; try done.
  - eapply session_stays; [apply (si_sys _ I) | exact Hs | done].
  - intros n. rewrite (count_step a y y' id I Hs Ki). destruct a as [[id'|?|?|?|?|?] [|pt| | | | | | | |]| | |]; try apply Kn.
    case_decide; [subst; by destruct (Ha pt) | apply Kn].
  - pose proof (traffic_step _ _ id _ _ a y y' I P Hs Ki Kt) as T. rewrite Hin, app_nil_r in T.
    rewrite fmap_app, app_assoc. exact T.
  - pose proof (fetch_step _ _ id _ _ a y y' I Hs Kf) as T. rewrite fmap_app, app_assoc. exact T.
Qed.

Lemma sealed_reading id w pt m m' : sealed_out id (Run w (InFrame pt)) m m' = [].
Proof. done. Qed.

(** The session reads a frame of its client. *)
Lemma peer_read y y' F id p n sf rest : server_inv y -> peer_ok y F id p -> few_ids (c_mem (p_client p)) ->
  p_up p = (n, sf) :: rest -> step (Run (WLoop id) (InFrame (encode_stream_frame sf))) y = Some y' ->
  polite (Run (WLoop id) (InFrame (encode_stream_frame sf))) y /\ peer_ok y' F id (taken_up sf rest p).
Proof.
  intros I K Hf Hup Hs. destruct (peer_polite y F id p n sf rest K Hf Hup) as [Hsf Hpol].
  assert (Hparse : parse_stream_frame (encode_stream_frame sf) = Ok sf).
  { pose proof (parse_encode sf [] Hsf) as E. by rewrite app_nil_r in E. }
  assert (P : polite (Run (WLoop id) (InFrame (encode_stream_frame sf))) y) by (intros sf' E; congruence).
  split; [done |]. destruct K as [Kc Ku Ke Kn Kt Kk Kf Kh]. pose proof (session_number y id (si_sys _ I) Ke) as Ki.
  pose proof (traffic_step _ _ id _ _ _ y y' I P Hs Ki Kt) as T. cbn [frames_in] in T. rewrite decide_True, Hparse in T by done.
  unfold frames_out in T. rewrite sealed_reading, app_nil_r in T. split; cbn [p_client p_up p_down p_seen p_got taken_up]; try done.
  - destruct Ku as (l & E & <-). exists (l ++ [(n, sf)]). rewrite E, Hup, <-app_assoc. split; [done |]. by rewrite fmap_app.
  - eapply session_stays; [apply (si_sys _ I) | exact Hs | done].
  - intros k. rewrite (count_step _ _ _ id I Hs Ki), decide_True by done.
    destruct (read_count id (memory y)) as [k0|] eqn:E0; [| done]. cbn. intros [= <-]. rewrite (Kn k0 eq_refl), len_app.
    rewrite Zplus_mod_idemp_l. f_equal. unfold len. cbn. lia.
  - pose proof (fetch_step _ _ id _ _ _ y y' I Hs Kf) as Tf. unfold frames_out in Tf. rewrite sealed_reading, app_nil_r in Tf.
    destruct Tf as [Ft Fd Fn]. split; [done | |].
    + intros o x sid Hx Hk. destruct (Fd o x sid Hx Hk) as (r & E & Hd). rewrite app_nil_r in E. by exists r.
    + intros o Ho. specialize (Fn o Ho). by rewrite app_nil_r in Fn.
Qed.

(** The client moves. *)
Lemma peer_client y F id p a y' : peer_ok y F id p -> server_inv y -> few_ids (c_mem (p_client p)) -> c_reads a = false ->
  cstep a (p_client p) = Some y' -> peer_ok y F id (send_up y' (c_frames_out (c_mem (p_client p)) (c_mem y')) p).
Proof.
  intros K I Hf Hr Hs. pose proof (peer_bounded y F id p I K Hf) as B. pose proof (peer_fed y F id p K) as W.
  pose proof (fun sid => peer_known y F id p sid I K) as Hk. assert (Ea : c_frames_in a = []) by (destruct a as [[] []|]; done).
  destruct K as [Kc Ku Ke Kn Kt Kk Kf Kh]. split; cbn; try done.
  - by eapply creach_step.
  - destruct Ku as (l & E & <-). exists l. split; [| done]. by rewrite (client_says _ _ _ Hs), E, app_assoc.
  - pose proof (client_step (p_got p) a _ _ (creachable_inv _ Kc) Kk W B Hs) as C. by rewrite Ea, app_nil_r in C.
  - pose proof (heard_step (p_got p) a _ _ (creachable_inv _ Kc) Hf Hk Hs Kh) as C. by rewrite Ea, app_nil_r in C.
Qed.

(** The client reads a frame of its session. *)
Lemma peer_reads y F id p n sf rest y' : peer_ok y F id p -> server_inv y -> few_ids (c_mem (p_client p)) ->
  p_down p = (n, sf) :: rest -> cstep (CRun CLoop (CFrame (encode_stream_frame sf))) (p_client p) = Some y' ->
  peer_ok y F id (taken_down sf rest y' p).
Proof.
  intros K I Hf Hd Hs. pose proof (peer_bounded y F id p I K Hf) as B. pose proof (peer_fed y F id p K) as W.
  pose proof (fun sid => peer_known y F id p sid I K) as Hk.
  destruct K as [Kc Ku Ke Kn Kt Kk Kf Kh]. rewrite Hd in Kt. cbn in Kt.
  assert (Hsf : sf_ok sf).
  { apply (proj1 (Forall_forall _ _) (tr_fit _ _ _ _ Kt)). apply elem_of_app. right. by left. }
  pose proof (parse_encode sf [] Hsf) as E. rewrite app_nil_r in E.
  pose proof (client_step (p_got p) _ _ _ (creachable_inv _ Kc) Kk W B Hs) as C. cbn [c_frames_in] in C. rewrite E in C.
  pose proof (heard_step (p_got p) _ _ _ (creachable_inv _ Kc) Hf Hk Hs Kh) as Ch. cbn [c_frames_in] in Ch. rewrite E in Ch.
  split; cbn [p_client p_up p_down p_seen p_got taken_down]; try done.
  - by eapply creach_step.
  - destruct Ku as (l & El & <-). exists l. split; [| done]. rewrite <-El. rewrite (client_says _ _ _ Hs).
    assert (Hw : c_wire (c_mem y') = c_wire (c_mem (p_client p))).
    { cbn in Hs. destruct (c_threads (p_client p) !! CLoop) as [t|]; [| done]. cbn in Hs.
      destruct (cthread_step t _ _) as [[[t' m'] ts]|] eqn:Hr; [| done]. injection Hs as <-. cbn [c_mem].
      destruct t as [pc|m pc|m pc]; destruct pc; cbn in Hr; try unfold up_step in Hr; unfold cnext, cexit, cblocked in Hr;
        repeat (hcase Hr; try discriminate Hr); try discriminate Hr; by injection Hr as _ <- _. }
    unfold c_frames_out. by rewrite Hw, drop_all, app_nil_r.
  - by rewrite <-app_assoc.
  - rewrite Hd in Kf. cbn in Kf. by rewrite <-app_assoc.
Qed.

(** ** The whole world *)

(** No client has opened more streams than there are ids. *)
Definition few (v : world) : Prop := forall id p, w_peers v !! id = Some p -> few_ids (c_mem (p_client p)).

Record world_ok (v : world) : Prop := {
  wk_polite : polite_reachable allowedDomains hb (w_server v);
  wk_peers id p : w_peers v !! id = Some p -> peer_ok (w_server v) (w_fetched v) id p;
  wk_fetched o : heap (memory (w_server v)) !! o = None -> w_fetched v o = [];
}.

(** Every client has a session, every session a client. *)
Record world_basic (v : world) : Prop := {
  wb_server : reachable allowedDomains hb (w_server v);
  wb_sess id p : w_peers v !! id = Some p -> is_Some (v2Sessions (memory (w_server v)) !! id);
  wb_peer id : is_Some (v2Sessions (memory (w_server v)) !! id) -> is_Some (w_peers v !! id);
}.

Lemma reach_sys y : reachable allowedDomains hb y -> sys_ok y.
Proof. intros R. apply (ri_sys _ _ (reachable_invariant _ _ _ R)). Qed.

(** The four ways the world moves. *)
Inductive wmove (v : world) : world -> Prop :=
  | move_server a y' : reads a = false -> step a (w_server v) = Some y' ->
      wmove v (World y' (fetch a (w_fetched v)) (served a (w_server v) y' (w_peers v)))
  | move_client id a p y' : c_reads a = false -> w_peers v !! id = Some p -> cstep a (p_client p) = Some y' ->
      wmove v (World (w_server v) (w_fetched v) (<[id := send_up y' (c_frames_out (c_mem (p_client p)) (c_mem y')) p]> (w_peers v)))
  | move_up id p s sf rest y' : w_peers v !! id = Some p -> v2Sessions (memory (w_server v)) !! id = Some s ->
      p_up p = (seqRead s, sf) :: rest ->
      step (Run (WLoop id) (InFrame (encode_stream_frame sf))) (w_server v) = Some y' ->
      wmove v (World y' (w_fetched v) (<[id := taken_up sf rest p]> (w_peers v)))
  | move_down id p sf rest y' : w_peers v !! id = Some p ->
      p_down p = (c_seqRead (c_mem (p_client p)), sf) :: rest ->
      cstep (CRun CLoop (CFrame (encode_stream_frame sf))) (p_client p) = Some y' ->
      wmove v (World (w_server v) (w_fetched v) (<[id := taken_down sf rest y' p]> (w_peers v))).

Lemma next_frame_head seq l sf rest : next_frame seq l = Some (sf, rest) -> l = (seq, sf) :: rest.
Proof. unfold next_frame. repeat case_match; try done. bool_facts. intros [= <- <-]. by subst. Qed.

Lemma wstep_moves a v v' : wstep a v = Some v' -> wmove v v'.
Proof.
  destruct a as [a | id a | id | id]; cbn [wstep]; intros Hs.
  - destruct (reads a) eqn:Hr; [done |]. destruct (step a (w_server v)) as [y'|] eqn:E; [| done].
    injection Hs as <-. by constructor.
  - destruct (c_reads a) eqn:Hr; [done |]. destruct (w_peers v !! id) as [p|] eqn:Hp; [| done]. cbn [mbind option_bind] in Hs.
    destruct (cstep a (p_client p)) as [y'|] eqn:E; [| done]. injection Hs as <-. by apply (move_client v id a).
  - destruct (w_peers v !! id) as [p|] eqn:Hp; [| done]. cbn [mbind option_bind] in Hs.
    destruct (v2Sessions _ !! id) as [s|] eqn:Hss; [| done]. cbn [mbind option_bind] in Hs.
    destruct (next_frame _ _) as [[sf rest]|] eqn:Hn; [| done]. cbn [mbind option_bind] in Hs.
    destruct (step _ (w_server v)) as [y'|] eqn:E; [| done]. injection Hs as <-.
    eapply move_up; [done | done | by apply next_frame_head | done].
  - destruct (w_peers v !! id) as [p|] eqn:Hp; [| done]. cbn [mbind option_bind] in Hs.
    destruct (next_frame _ _) as [[sf rest]|] eqn:Hn; [| done]. cbn [mbind option_bind] in Hs.
    destruct (cstep _ (p_client p)) as [y'|] eqn:E; [| done]. injection Hs as <-.
    eapply move_down; [done | by apply next_frame_head | done].
Qed.

(** The clients after a step of the server. *)
Lemma served_lookup a y y' ps id p : served a y y' ps !! id = Some p ->
  (a = Accept /\ id = connCounter (memory y') /\ p = new_peer) \/
  exists p0, ps !! id = Some p0 /\ p = send_down (sealed_out id a (memory y) (memory y')) p0.
Proof.
  set (ps1 := map_imap (fun id p => Some (send_down (sealed_out id a (memory y) (memory y')) p)) ps).
  assert (Hps : ps1 !! id = Some p -> exists p0, ps !! id = Some p0 /\ p = send_down (sealed_out id a (memory y) (memory y')) p0).
  { unfold ps1. rewrite map_lookup_imap. destruct (ps !! id) as [p0|]; [| done]. intros [= <-]. by exists p0. }
  assert (Hnew : a = Accept \/ served a y y' ps = ps1) by (destruct a; first [by left | by right]).
  destruct Hnew as [-> | ->]; [| by right; apply Hps].
  unfold served. fold ps1. intros [[<- <-] | [_ Hp]]%lookup_insert_Some; [by left | right; by apply Hps].
Qed.

Lemma served_old a y y' ps id p : sys_ok y -> step a y = Some y' -> is_Some (v2Sessions (memory y) !! id) ->
  ps !! id = Some p -> served a y y' ps !! id = Some (send_down (sealed_out id a (memory y) (memory y')) p).
Proof.
  intros Y Hs Hss Hp. pose proof (session_number _ id Y Hss) as Hid.
  assert (Hps : map_imap (fun id p => Some (send_down (sealed_out id a (memory y) (memory y')) p)) ps !! id =
    Some (send_down (sealed_out id a (memory y) (memory y')) p)) by (by rewrite map_lookup_imap, Hp).
  destruct a as [w e| | |d]; try exact Hps. cbn [served]. rewrite lookup_insert_ne; [exact Hps |].
  cbn in Hs. case_decide; [| done]. injection Hs as <-. cbn. lia.
Qed.

Lemma accepted_session y y' : step Accept y = Some y' -> is_Some (v2Sessions (memory y') !! connCounter (memory y')).
Proof. cbn. case_decide; [| done]. intros [= <-]. cbn. rewrite lookup_insert_eq. by eexists. Qed.

Lemma basic_start : world_basic start.
Proof. split; [constructor | |]; intros id; cbn; rewrite lookup_empty; [done | by intros []]. Qed.

Lemma basic_step v v' : wmove v v' -> world_basic v -> world_basic v'.
Proof.
  intros Hm [R Wb Wp]. pose proof (reach_sys _ R) as Y.
  assert (Hin : forall i q id, is_Some (w_peers v !! id) -> is_Some (<[i := q]> (w_peers v) !! id)).
  { intros i q id ?. apply lookup_insert_is_Some. destruct (decide (i = id)); auto. }
  destruct Hm as [a y' Hr Hs | i a q y' Hr Hq Hs | i q s sf rest y' Hq Hss Hup Hs | i q sf rest y' Hq Hd Hs];
    split; cbn [w_server w_peers]; try done; try (by eapply reach_step); try (by intros id Hid; apply Hin, Wp).
  - intros id p [(-> & -> & _) | (p0 & Hp & _)]%served_lookup; [by eapply accepted_session |].
    eapply session_stays; [done | done | by eapply Wb].
  - intros id Hid. destruct (session_origin _ _ _ _ Y Hs Hid) as [Ho | [-> ->]].
    + destruct (Wp id Ho) as [p Hp]. rewrite (served_old _ _ _ _ _ _ Y Hs Ho Hp). by eexists.
    + unfold served. rewrite lookup_insert_eq. by eexists.
  - intros j p [[<- _] | [_ Hp]]%lookup_insert_Some; by eapply Wb.
  - intros j p [[<- _] | [_ Hp]]%lookup_insert_Some; (eapply session_stays; [done | done | by eapply Wb]).
  - intros id Hid. apply Hin, Wp. by destruct (session_origin _ _ _ _ Y Hs Hid) as [? | [? _]].
  - intros j p [[<- _] | [_ Hp]]%lookup_insert_Some; by eapply Wb.
Qed.

Lemma few_step v v' : wmove v v' -> world_basic v -> few v' -> few v.
Proof.
  intros Hm [R Wb _] F id p Hp. pose proof (reach_sys _ R) as Y.
  assert (Hins : forall i q q', w_peers v' = <[i := q']> (w_peers v) -> w_peers v !! i = Some q ->
    len (c_ids (c_mem (p_client q))) <= len (c_ids (c_mem (p_client q'))) -> few_ids (c_mem (p_client p))).
  { intros i q q' E Hq Hl. unfold few_ids. destruct (decide (id = i)) as [-> | Hne].
    - assert (p = q) as -> by congruence. specialize (F i q'). rewrite E, lookup_insert_eq in F. specialize (F eq_refl).
      unfold few_ids in F. lia.
    - apply (F id p). by rewrite E, lookup_insert_ne. }
  destruct Hm as [a y' Hr Hs | i a q y' Hr Hq Hs | i q s sf rest y' Hq Hss Hup Hs | i q sf rest y' Hq Hd Hs].
  - specialize (F id _ (served_old _ _ _ _ _ _ Y Hs (Wb id p Hp) Hp)). exact F.
  - eapply Hins; [reflexivity | exact Hq |]. apply (wg_ids _ _ (step_grows _ _ _ Hs)).
  - by eapply Hins; [reflexivity | exact Hq |].
  - eapply Hins; [reflexivity | exact Hq |]. apply (wg_ids _ _ (step_grows _ _ _ Hs)).
Qed.

Lemma sealed_read_only a id m m' : (forall e w, a = Run w e -> exists pt, e = InFrame pt) -> sealed_out id a m m' = [].
Proof. destruct a as [w e| | |d]; try done. intros Ha. by destruct (Ha e w eq_refl) as [pt ->]. Qed.

Lemma send_down_nil p : send_down [] p = p.
Proof. destruct p. unfold send_down. cbn. by rewrite app_nil_r. Qed.

(** A client that has just connected. *)
Lemma peer_new y y' F : server_inv y -> step Accept y = Some y' -> (forall o, heap (memory y) !! o = None -> F o = []) ->
  peer_ok y' F (connCounter (memory y')) new_peer.
Proof.
  intros I Hs HF. pose proof (accepted_session _ _ Hs) as Hss. pose proof Hs as Hs'. cbn in Hs'.
  case_decide; [| done]. injection Hs' as E.
  assert (Hid : connCounter (memory y) < connCounter (memory y')) by (rewrite <-E; cbn; lia).
  split; cbn [p_client p_up p_down p_seen p_got new_peer]; try done.
  - constructor.
  - by exists [].
  - rewrite <-E. unfold read_count. cbn. rewrite lookup_insert_eq. by intros n [= <-].
  - by eapply (traffic_new _ _ Accept y).
  - apply client_ok_init.
  - by eapply (fetch_new _ _ Accept y).
  - apply heard_init.
Qed.

Lemma world_step v v' : wmove v v' -> few v -> world_ok v -> world_ok v'.
Proof.
  intros Hm Fw [P K N]. pose proof (polite_server _ P) as I.
  destruct Hm as [a y' Hr Hs | i a q y' Hr Hq Hs | i q s sf rest y' Hq Hss Hup Hs | i q sf rest y' Hq Hd Hs].
  - assert (Hpol : polite a (w_server v)) by (destruct a as [[] []| | |]; done).
    assert (Hin : forall id, frames_in id a = []) by (intros id; destruct a as [[] []| | |]; done).
    split; cbn [w_server w_peers w_fetched]; [by eapply polite_step | | by eapply fetch_none_step].
    intros id p [(-> & -> & ->) | (p0 & Hp & ->)]%served_lookup.
    + apply (peer_fetched _ (w_fetched v)); [intros o; apply app_nil_r | by eapply peer_new].
    + apply peer_server; [done | done | done | by apply K | by apply Hin |]. by intros pt ->.
  - split; cbn [w_server w_peers w_fetched]; [done | | done].
    intros id p [[<- <-] | [_ Hp]]%lookup_insert_Some; [| by apply K]. eapply peer_client; eauto.
  - destruct (peer_read _ y' _ _ _ _ _ _ I (K i q Hq) (Fw i q Hq) Hup Hs) as [Hpol Hok].
    split; cbn [w_server w_peers w_fetched]; [by eapply polite_step | |].
    + intros id p [[<- <-] | [Hne Hp]]%lookup_insert_Some; [done |].
      rewrite <-(send_down_nil p), <-(sealed_reading id (WLoop i) (encode_stream_frame sf) (memory (w_server v)) (memory y')).
      apply (peer_fetched _ (fetch (Run (WLoop i) (InFrame (encode_stream_frame sf))) (w_fetched v)));
        [intros o; symmetry; apply app_nil_r |].
      apply peer_server; [done | done | done | by apply K | | congruence]. cbn. by rewrite decide_False.
    + intros o Ho. pose proof (fetch_none_step _ _ _ _ _ _ I Hs N o Ho) as E. by rewrite app_nil_r in E.
  - split; cbn [w_server w_peers w_fetched]; [done | | done].
    intros id p [[<- <-] | [_ Hp]]%lookup_insert_Some; [| by apply K]. eapply peer_reads; eauto.
Qed.

Lemma wreach_ok v : wreach v -> world_basic v /\ (few v -> world_ok v).
Proof.
  induction 1 as [| a v v' R [B IH] Hs%wstep_moves].
  - split; [apply basic_start |]. intros _. split; [constructor | | done]. intros id p. cbn. by rewrite lookup_empty.
  - split; [by eapply basic_step |]. intros F. pose proof (few_step _ _ Hs B F) as F0. by eapply world_step; auto.
Qed.

Lemma wreach_world v : wreach v -> few v -> world_ok v.
Proof. intros R. by apply wreach_ok. Qed.

Lemma pend_nonneg y n xc : cinv y -> 0 <= pend (loop_pc_of (c_threads y)) n xc.
Proof.
  intros I. pose proof (ci_loop y I) as L. unfold pend.
  destruct (loop_pc_of (c_threads y)) as [[]|]; try done; [apply credit_for_nonneg | ..]; cbn in L; case_decide; lia.
Qed.

(** A read loop that waits on an open connection takes any frame that fits. *)
Lemma read_enabled id s sf m : v2Sessions m !! id = Some s -> ss_conn s = true -> sf_ok sf ->
  is_Some (loop_step id LRead (InFrame (encode_stream_frame sf)) m).
Proof.
  intros Hs Hc Hsf. unfold loop_step. rewrite Hs, Hc. pose proof (parse_encode sf [] Hsf) as E. rewrite app_nil_r in E.
  rewrite (proj2 (Z.leb_le _ _)).
  - cbn [andb]. rewrite E. destruct sf as [sid ty p]. unfold dispatch, next. repeat case_match; by eexists.
  - rewrite len_encode. destruct Hsf as (_ & _ & Hl). unfold maxStreamPayload in Hl. lia.
Qed.
End Tunnel.
