(* ===== verification/TunnelProps.v ===== *)
(** * What client and server do together

    End to end: bytes both ways, flow control, teardown, and no nonce out of
    step, for every interleaving of any number of clients, sessions and
    streams. *)

From S2P Require Import Prelude GoStrings Padding StreamFrame FrameLog Target Allowlist PskConfig.
From S2P Require Import Session SessionInv SessionSafe SessionSys SessionProps SessionLeak SessionTrace SessionArrive SessionTraffic SessionFetch.
From S2P Require Import Client ClientInv ClientLoop ClientSteps ClientProps ClientTraffic ClientArrive Tunnel.

Section Props.
Context `{UnicodeTables} (allowedDomains : list allowEntry) (hb : hb_params).
Abbreviation wreach := (wreach allowedDomains hb).
Abbreviation wstep := (wstep allowedDomains hb).

(** ** What the tunnel does *)

(** What the session's read loop still has to take, for a stream it listens
    to: all that was sent and not queued is on the connection. *)
Lemma peer_transit y F id p n xc o x : peer_ok y F id p -> few_ids (c_mem (p_client p)) ->
  c_heap (c_mem (p_client p)) !! n = Some xc -> heap (memory y) !! o = Some x -> key_of x = (id, cs_id xc) ->
  threads y !! WLoop id = Some (TLoop id LRead) -> entry id (cs_id xc) o (memory y) ->
  u_sent (up xc) = received (st_hist x) ++ data_of (cs_id xc) (snd <$> p_up p).
Proof.
  intros K Hf Hxc Hx Hk Hl He. rewrite <-(sa_data _ _ (cc_said _ _ (po_talk _ _ _ _ K)) n xc Hf Hxc), (peer_spoken _ _ _ _ K), data_app.
  destruct (ar_data _ _ _ (tr_arrived _ _ _ _ (po_traffic _ _ _ _ K)) o x _ Hx Hk) as (rest & -> & Hr).
  by rewrite (Hr LRead Hl He), app_nil_r.
Qed.

(** [C1] Upload end to end: what the server has written to a stream's upstream
    connection is the beginning of what the client has sent on the stream, and
    of what the local application has written as long as no piece was dropped.
    Nothing is lost on the way: for a stream that is open and in the table of a
    session that waits for a frame, what the client has sent is what the pump
    has taken, then the queue, then what is on the connection. For every
    interleaving of any number of clients, sessions and streams. *)
Theorem tunnel_upload v id p n xc o x :
  wreach v -> few v -> w_peers v !! id = Some p -> c_heap (c_mem (p_client p)) !! n = Some xc ->
  heap (memory (w_server v)) !! o = Some x -> key_of x = (id, cs_id xc) ->
  written (st_hist x) `prefix_of` u_sent (up xc) /\
  (u_gap (up xc) = false -> written (st_hist x) `prefix_of` u_in (up xc)) /\
  (threads (w_server v) !! WLoop id = Some (TLoop id LRead) -> entry id (cs_id xc) o (memory (w_server v)) ->
   st_closed x = false ->
   u_sent (up xc) = taken (st_hist x) ++ concat (queue (st_mu x)) ++ data_of (cs_id xc) (snd <$> p_up p)).
Proof.
  intros R F Hp Hxc Hx Hk. destruct (wreach_world _ _ v R F) as [P K _]. specialize (K id p Hp). pose proof (polite_server _ _ _ P) as I.
  destruct (mo_stream _ (sk_mem _ (si_sys _ I)) o x Hx) as (S & _ & _).
  assert (Hpre : written (st_hist x) `prefix_of` u_sent (up xc)).
  { etransitivity; [by apply written_received | exact (peer_prefix _ _ id p n xc o x K (F id p Hp) Hxc Hx Hk)]. }
  split_and!; [done | |].
  - intros Hg. etransitivity; [exact Hpre |].
    rewrite (uo_bytes _ _ (oo_up _ _ _ _ _ _ (ci_obj _ (creachable_inv _ (po_client _ _ _ _ K)) n xc Hxc)) Hg). by eexists.
  - intros Hl He Hc. rewrite (peer_transit _ _ id p n xc o x K (F id p Hp) Hxc Hx Hk Hl He).
    destruct (so_fifo _ S) as (lost & -> & Hlost). destruct (so_open _ S Hc) as (_ & Hrc & _).
    by rewrite (Hlost Hrc), app_nil_r, <-app_assoc.
Qed.

(** What was read upstream, stage by stage; [h]: what the handler has taken and
    not written out. *)
Lemma download_account v id p n xc o x :
  wreach v -> few v -> w_peers v !! id = Some p -> c_heap (c_mem (p_client p)) !! n = Some xc ->
  heap (memory (w_server v)) !! o = Some x -> key_of x = (id, cs_id xc) ->
  d_out (down xc) `prefix_of` w_fetched v o /\
  (loop_pc_of (c_threads (p_client p)) = Some RRead -> c_streams (c_mem (p_client p)) !! cs_id xc = Some n ->
   cs_closed xc = false -> threads (w_server v) !! WReader o = Some (TReader o id (cs_id xc) DRead) ->
   exists h, w_fetched v o =
     d_out (down xc) ++ h ++ unread (pending xc) ++ concat (items (incoming xc)) ++
     data_of (cs_id xc) (snd <$> p_down p) /\
     match sock_pc_of (c_threads (p_client p)) n with
     | Some pc => h = sock_hand pc
     | None => local xc = false
     end).
Proof.
  intros R F Hp Hxc Hx Hk. destruct (wreach_world _ _ v R F) as [P K _]. specialize (K id p Hp).
  destruct (fe_data _ _ _ _ (po_fetch _ _ _ _ K) o x _ Hx Hk) as (r1 & -> & _ & Hr1).
  destruct (he_data _ _ (po_heard _ _ _ _ K) n xc (F id p Hp) Hxc) as (r2 & E & Hr2). rewrite data_app, E.
  destruct (ci_obj _ (creachable_inv _ (po_client _ _ _ _ K)) n xc Hxc) as [[Ff _ _ _] _ S _ _ _].
  destruct (handler_hand _ _ _ S) as (h & Hh & Hsd). rewrite Ff, Hh, <-!app_assoc. split; [by eexists |].
  intros El Ht Hc Hrd. exists h. rewrite (Hr1 DRead Hrd), (Hr2 Hc) by (rewrite El; by left).
  rewrite El. cbn [on_hand app]. rewrite app_nil_r. split; [done |].
  destruct (sock_pc_of _ n) as [pc|] eqn:Es; [by apply Hsd |].
  apply (creachable_gone _ (po_client _ _ _ _ K) n xc Hxc). unfold sock_pc_of in Es.
  destruct (c_threads (p_client p) !! CSock n) as [t|] eqn:Et; [| done].
  pose proof (ci_who _ (creachable_inv _ (po_client _ _ _ _ K)) _ _ Et) as Ew. by destruct t.
Qed.

(** [C2] Download end to end: what the client has written to the local
    connection is the beginning of what the server has read from the stream's
    upstream connection. Nothing is lost on the way: for a stream in the
    client's table, open, with the client's read loop waiting for a frame and
    the session's reader about to read, as long as the stream has its handler,
    what was read upstream is exactly what the local connection has, then what
    the handler is writing to it ([SOut b]; otherwise nothing), what is left of
    the chunk it is reading, the channel, and what is on the connection. A
    stream without a handler has closed its local connection (the application
    went away, and a write to it was cut short): only then may bytes that
    [Read] has returned be missing. *)
Theorem tunnel_download v id p n xc o x :
  wreach v -> few v -> w_peers v !! id = Some p -> c_heap (c_mem (p_client p)) !! n = Some xc ->
  heap (memory (w_server v)) !! o = Some x -> key_of x = (id, cs_id xc) ->
  d_out (down xc) `prefix_of` w_fetched v o /\
  (loop_pc_of (c_threads (p_client p)) = Some RRead -> c_streams (c_mem (p_client p)) !! cs_id xc = Some n ->
   cs_closed xc = false -> threads (w_server v) !! WReader o = Some (TReader o id (cs_id xc) DRead) ->
   match sock_pc_of (c_threads (p_client p)) n with
   | Some pc =>
       w_fetched v o =
         d_out (down xc) ++ sock_hand pc ++ unread (pending xc) ++ concat (items (incoming xc)) ++
         data_of (cs_id xc) (snd <$> p_down p)
   | None => local xc = false
   end).
Proof.
  intros R F Hp Hxc Hx Hk. destruct (download_account v id p n xc o x R F Hp Hxc Hx Hk) as [Hpre Hall]. split; [done |].
  intros H1 H2 H3 H4. destruct (Hall H1 H2 H3 H4) as (h & E & Hh). destruct (sock_pc_of _ n); [by rewrite E, Hh | done].
Qed.

(** ** Flow control *)

(** The client's account: credit received covers what was sent. *)
Lemma peer_account v id p n xc : wreach v -> few v -> w_peers v !! id = Some p ->
  c_heap (c_mem (p_client p)) !! n = Some xc ->
  0 <= sendWindow (win xc) <= v2InitialWindow /\ len (u_sent (up xc)) <= credits (cs_id xc) (p_got p).
Proof.
  intros R F Hp Hxc. destruct (wreach_world _ _ v R F) as [P K _]. specialize (K id p Hp). pose proof (polite_server _ _ _ P) as I.
  pose proof (creachable_inv _ (po_client _ _ _ _ K)) as C.
  pose proof (uo_credit _ _ (oo_up _ _ _ _ _ _ (ci_obj _ C n xc Hxc))) as Hu. pose proof (pend_nonneg _ n xc C) as Hpe.
  destruct (cc_win _ _ (po_talk _ _ _ _ K) n xc Hxc) as [[W1 W2] Wc].
  pose proof (peer_credit _ _ id p n xc I K (F id p Hp) Hxc) as Hc.
  assert (0 <= in_hand (up_pc_of (c_threads (p_client p)) n)) by (unfold in_hand; repeat case_match; solve [done | apply len_nonneg]).
  lia.
Qed.

(** Every stream has a client's stream at the other end. *)
Lemma stream_client v o x : wreach v -> few v -> heap (memory (w_server v)) !! o = Some x ->
  exists p n xc, w_peers v !! st_sess x = Some p /\ c_heap (c_mem (p_client p)) !! n = Some xc /\ cs_id xc = st_id x.
Proof.
  intros R F Hx. destruct (wreach_ok _ _ v R) as [[Rs Wb Wp] W]. destruct (W F) as [P K _]. pose proof (polite_server _ _ _ P) as I.
  destruct (mo_stream _ (sk_mem _ (si_sys _ I)) o x Hx) as (_ & _ & Hs). destruct (Wp _ Hs) as [p Hp]. specialize (K _ p Hp).
  destruct (li_key _ (si_leak _ I) o x Hx) as [(T & HT & Hin) _].
  destruct (sa_known _ _ (cc_said _ _ (po_talk _ _ _ _ K)) (st_id x)) as (n & xc & Hxc & Hi & _); [| by exists p, n, xc].
  left. rewrite (peer_spoken _ _ _ _ K). apply says_app. left. by apply (tr_opened _ _ _ _ (po_traffic _ _ _ _ K) _ T).
Qed.

(** What is queued for a stream and in the read loop's hands fits the window. *)
Lemma stream_room v o x : wreach v -> few v -> heap (memory (w_server v)) !! o = Some x ->
  qbytes (st_mu x) <= v2InitialWindow /\
  forall pc, threads (w_server v) !! WLoop (st_sess x) = Some (TLoop (st_sess x) pc) ->
    receptive (st_sess x) (st_id x) o pc (memory (w_server v)) ->
    qbytes (st_mu x) + len (hold o (st_id x) pc) <= v2InitialWindow.
Proof.
  intros R F Hx. destruct (stream_client v o x R F Hx) as (p & n & xc & Hp & Hxc & Hi).
  destruct (peer_account v _ p n xc R F Hp Hxc) as [_ Ha].
  destruct (wreach_world _ _ v R F) as [P K _]. specialize (K _ p Hp). pose proof (polite_server _ _ _ P) as I.
  destruct (mo_stream _ (sk_mem _ (si_sys _ I)) o x Hx) as (S & _ & _).
  assert (Hk : key_of x = (st_sess x, cs_id xc)) by (unfold key_of; congruence).
  destruct (ar_data _ _ _ (tr_arrived _ _ _ _ (po_traffic _ _ _ _ K)) o x _ Hx Hk) as (rest & Hd & Hr).
  assert (Hrest : len (received (st_hist x)) + len rest <= len (u_sent (up xc))).
  { rewrite <-(sa_data _ _ (cc_said _ _ (po_talk _ _ _ _ K)) n xc (F _ p Hp) Hxc), (peer_spoken _ _ _ _ K), data_app, Hd, !len_app.
    pose proof (len_nonneg (data_of (cs_id xc) (snd <$> p_up p))). lia. }
  pose proof (given_one _ _ (cs_id xc) o x I Hx Hk) as Hg.
  rewrite (tr_credit _ _ _ _ (po_traffic _ _ _ _ K)), credits_app in Hg.
  pose proof (credits_nonneg (cs_id xc) (snd <$> p_down p)). pose proof (so_granted _ S). pose proof (prefix_len _ _ (so_written _ S)).
  destruct (so_fifo _ S) as (lost & E & _). rewrite E, !len_app in Hrest. fold (total (queue (st_mu x))) in Hrest.
  rewrite (so_bytes _ S). pose proof (len_nonneg lost). pose proof (len_nonneg rest). split; [lia |].
  intros pc Hpc Hrec. rewrite Hi in Hr. rewrite <-(Hr pc Hpc Hrec). lia.
Qed.

(** [C3] Flow control end to end: no stream's queue ever holds more than the
    initial window, 4 MiB, and a client's send window is never negative and
    never exceeds it. *)
Theorem tunnel_window v :
  wreach v -> few v ->
  (forall o x, heap (memory (w_server v)) !! o = Some x -> 0 <= qbytes (st_mu x) <= v2InitialWindow) /\
  (forall id p n xc, w_peers v !! id = Some p -> c_heap (c_mem (p_client p)) !! n = Some xc ->
     0 <= sendWindow (win xc) <= v2InitialWindow).
Proof.
  intros R F. split; [| intros id p n xc Hp Hxc; by eapply peer_account].
  intros o x Hx. destruct (stream_room v o x R F Hx) as [Hq _]. split; [| done].
  destruct (wreach_world _ _ v R F) as [P _ _].
  destruct (mo_stream _ (sk_mem _ (si_sys _ (polite_server _ _ _ P))) o x Hx) as (S & _ & _).
  rewrite (so_bytes _ S). apply total_nonneg.
Qed.

(** Streams whose queue has not been given back. *)
Definition holds (x : v2Stream) : Z := if reclaimed (st_hist x) then 0 else 1.
Definition holding_in (id : Z) (m : mem) : Z := map_sum (fun _ x => if decide (st_sess x = id) then holds x else 0) (heap m).
Definition holding_all (m : mem) : Z := map_sum (fun _ x => holds x) (heap m).

(** [n] bytes more for one stream, within what the streams may hold. *)
Lemma room_for (f g : nat -> v2Stream -> Z) (m : gmap nat v2Stream) o x n :
  m !! o = Some x -> f o x + n <= v2InitialWindow * g o x ->
  (forall o' x', m !! o' = Some x' -> f o' x' <= v2InitialWindow * g o' x') ->
  map_sum f m + n <= v2InitialWindow * map_sum g m.
Proof.
  intros Hx Ho Hall. rewrite <-map_sum_scale.
  pose proof (map_sum_delete f m o x Hx). pose proof (map_sum_delete (fun k x => v2InitialWindow * g k x) m o x Hx). cbn beta in *.
  assert (map_sum f (delete o m) <= map_sum (fun k x => v2InitialWindow * g k x) (delete o m)); [| lia].
  apply map_sum_le. intros o' x' [_ Hx']%lookup_delete_Some. by apply Hall.
Qed.

Lemma queue_room v o x : wreach v -> few v -> heap (memory (w_server v)) !! o = Some x ->
  qbytes (st_mu x) <= v2InitialWindow * holds x.
Proof.
  intros R F Hx. destruct (stream_room v o x R F Hx) as [Hq _]. destruct (wreach_world _ _ v R F) as [P _ _].
  destruct (mo_stream _ (sk_mem _ (si_sys _ (polite_server _ _ _ P))) o x Hx) as (S & _ & _).
  unfold holds. destruct (reclaimed (st_hist x)) eqn:E; [| lia].
  rewrite (so_bytes _ S). destruct (so_reclaimed _ S E) as [-> _]. done.
Qed.

(** What the read loop has in hand belongs to an object of its session. *)
Lemma in_hand_object v id o sid p pc : wreach v -> few v ->
  threads (w_server v) !! WLoop id = Some (TLoop id pc) -> pc = LSess o sid p \/ pc = LGlob o sid p ->
  exists x, heap (memory (w_server v)) !! o = Some x /\ st_sess x = id /\ qbytes (st_mu x) + len p <= v2InitialWindow.
Proof.
  intros R F Ht Hpc. destruct (wreach_world _ _ v R F) as [P _ _]. pose proof (polite_server _ _ _ P) as I.
  destruct (ai_hands _ (si_arrive _ I) id pc o sid p Ht Hpc) as (x & Hx & Hk). unfold key_of in Hk. injection Hk as E1 E2.
  exists x. split_and!; [done | done |]. destruct (stream_room v o x R F Hx) as [_ Hr]. rewrite E1, E2 in Hr.
  assert (Hrec : receptive id sid o pc (memory (w_server v))) by (destruct Hpc as [-> | ->]; by right).
  specialize (Hr pc Ht Hrec). destruct Hpc as [-> | ->]; cbn in Hr; by rewrite Z.eqb_refl in Hr.
Qed.

(** [C4] Flow-controlled clients never trip the byte budgets: as long as at most
    32 streams of a session hold their queues, the session's check lets every
    DATA frame for one of them pass, and as long as at most 64 streams do over
    all sessions, so does the global check. *)
Theorem tunnel_never_sheds v id o sid p :
  wreach v -> few v ->
  (forall x, heap (memory (w_server v)) !! o = Some x -> reclaimed (st_hist x) = false) ->
  (threads (w_server v) !! WLoop id = Some (TLoop id (LSess o sid p)) ->
   holding_in id (memory (w_server v)) <= 32 ->
   forall s, v2Sessions (memory (w_server v)) !! id = Some s -> buffered s + len p <= v2SessionBufferCap) /\
  (threads (w_server v) !! WLoop id = Some (TLoop id (LGlob o sid p)) ->
   holding_all (memory (w_server v)) <= 64 ->
   v2GlobalBuffered (memory (w_server v)) + len p <= v2GlobalBufferCap).
Proof.
  intros R F Hlive. destruct (wreach_world _ _ v R F) as [P _ _]. pose proof (polite_server _ _ _ P) as I.
  set (m := memory (w_server v)) in *. pose proof (sk_mem _ (si_sys _ I)) as M. fold m in M.
  assert (HW : 0 < v2InitialWindow) by done. split; intros Ht Hn.
  - intros s Hs. destruct (in_hand_object v id o sid p _ R F Ht (or_introl eq_refl)) as (x & Hx & Hid & Hq). fold m in Hx.
    destruct (mo_session _ M id s Hs) as (_ & _ & [_ Hb] & _).
    destruct (sk_threads _ (si_sys _ I) _ _ Ht) as [_ (s1 & Hs1 & [Hc _] & _)]. fold m in Hs1. rewrite Hs in Hs1. injection Hs1 as <-.
    rewrite (Hb Hc). unfold queued_in.
    assert (Hr : map_sum (session_bytes id) (heap m) + len p <= v2InitialWindow * holding_in id m).
    { eapply room_for; [exact Hx | |].
      - unfold session_bytes. rewrite decide_True by done. unfold holds. rewrite (Hlive x Hx), decide_True by done. lia.
      - intros o' x' Hx'. unfold session_bytes. case_decide; [by eapply queue_room | lia]. }
    assert (v2SessionBufferCap = v2InitialWindow * 32) by done. nia.
  - destruct (in_hand_object v id o sid p _ R F Ht (or_intror eq_refl)) as (x & Hx & Hid & Hq). fold m in Hx.
    rewrite (mo_global _ M). unfold queued_all.
    assert (Hr : map_sum stream_bytes (heap m) + len p <= v2InitialWindow * holding_all m).
    { eapply room_for; [exact Hx | |].
      - unfold stream_bytes, holds. rewrite (Hlive x Hx). lia.
      - intros o' x' Hx'. unfold stream_bytes. by eapply queue_room. }
    assert (v2GlobalBufferCap = v2InitialWindow * 64) by done. nia.
Qed.

(** [C5] Every session of the client is polite: once a session's goroutines
    are gone, its table is empty, its upstream connections are closed and its
    queues are empty, whatever the other sessions do. *)
Theorem tunnel_teardown v id s :
  wreach v -> few v -> v2Sessions (memory (w_server v)) !! id = Some s -> SessionLeak.settled id (w_server v) ->
  streams s = ∅ /\
  forall o x, heap (memory (w_server v)) !! o = Some x -> st_sess x = id ->
    conn_open x = false /\ queue (st_mu x) = [] /\ waiting (st_mu x) = false.
Proof.
  intros R F. destruct (wreach_world _ _ v R F) as [P _ _]. by apply (teardown_leaves_nothing allowedDomains hb).
Qed.

(** The frame at the head of the connection is the one the session waits for. *)
Lemma head_nonce v id p n sf rest s :
  wreach v -> w_peers v !! id = Some p -> peer_ok (w_server v) (w_fetched v) id p -> p_up p = (n, sf) :: rest ->
  v2Sessions (memory (w_server v)) !! id = Some s -> n = seqRead s.
Proof.
  intros R Hp K Hup Hs. destruct (po_up _ _ _ _ K) as (l & El & Es). rewrite Hup in El.
  rewrite (delivered_nonce _ _ _ _ _ (ci_global _ (creachable_inv _ (po_client _ _ _ _ K))) El).
  symmetry. replace (len l) with (len (p_seen p)) by (rewrite <-Es; unfold len; by rewrite length_fmap).
  apply (po_count _ _ _ _ K). unfold read_count. by rewrite Hs.
Qed.

Lemma up_enabled v id p n sf rest s :
  wreach v -> few v -> w_peers v !! id = Some p -> p_up p = (n, sf) :: rest ->
  v2Sessions (memory (w_server v)) !! id = Some s -> ss_conn s = true ->
  threads (w_server v) !! WLoop id = Some (TLoop id LRead) ->
  sf_ok sf /\ exists y', Session.step allowedDomains hb (Run (WLoop id) (InFrame (encode_stream_frame sf))) (w_server v) = Some y' /\
    wstep (AUp id) v = Some (World y' (w_fetched v) (<[id := taken_up sf rest p]> (w_peers v))).
Proof.
  intros R F Hp Hup Hs Hc Ht. destruct (wreach_world _ _ v R F) as [_ K _]. specialize (K id p Hp).
  destruct (peer_polite _ _ id p n sf rest K (F id p Hp) Hup) as [Hsf _]. split; [done |].
  assert (Hstep : is_Some (Session.step allowedDomains hb (Run (WLoop id) (InFrame (encode_stream_frame sf))) (w_server v))).
  { cbn [Session.step]. rewrite Ht. cbn [mbind option_bind thread_step].
    destruct (read_enabled id s sf _ Hs Hc Hsf) as [[[t' m'] ts] Er]. rewrite Er. by eexists. }
  destruct Hstep as [y' Hy']. exists y'. split; [done |].
  cbn [wstep]. rewrite Hp. cbn [mbind option_bind]. rewrite Hs. cbn [mbind option_bind]. rewrite Hup. cbn [next_frame].
  rewrite (head_nonce v id p n sf rest s R Hp K Hup Hs), Z.eqb_refl. cbn [mbind option_bind]. by rewrite Hy'.
Qed.

(** [C6] No frame of a client arrives out of step: the frame at the head of the
    connection was sealed under the counter of the session, so a session that
    waits for a frame on an open connection reads it. *)
Theorem tunnel_in_step v id p n sf rest s :
  wreach v -> few v -> w_peers v !! id = Some p -> p_up p = (n, sf) :: rest ->
  v2Sessions (memory (w_server v)) !! id = Some s ->
  n = seqRead s /\
  (ss_conn s = true -> threads (w_server v) !! WLoop id = Some (TLoop id LRead) -> is_Some (wstep (AUp id) v)).
Proof.
  intros R F Hp Hup Hs. destruct (wreach_world _ _ v R F) as [_ K _]. split; [by eapply head_nonce; [| | by apply K | |] |].
  intros Hc Ht. destruct (up_enabled v id p n sf rest s R F Hp Hup Hs Hc Ht) as (_ & y' & _ & ->). by eexists.
Qed.
End Props.

(** ** A run *)

Module TunnelDemo.
Import SessionProps.Demo.
Definition srv (w : who) (e : env) : waction := AServer (Run w e).
Definition cli (w : cwho) (e : cenv) : waction := AClient 1 (CRun w e).

(** A client connects and opens a stream to 192.0.2.7:443. *)
Definition opened_tunnel : list waction :=
  [AServer Accept; AClient 1 (CConnect (go! "192.0.2.7") 443)] ++
  replicate 2 (cli (CSock 0) CTau) ++ [cli (CSock 0) (CWritten true); AUp 1] ++
  [srv (WOpen 0) Tau; srv (WOpen 0) (Dialed true)] ++ replicate 2 (srv (WOpen 0) Tau) ++
  [srv (WOpen 0) (Written true); srv (WOpen 0) Tau; ADown 1] ++
  replicate 3 (cli CLoop CTau) ++ [cli (CSock 0) COpenOK; cli (CSock 0) CTau].

(** The client sends [b]. *)
Definition sends (b : bytes) : list waction :=
  [cli (CUp 0) (CLocalRead b false); cli (CUp 0) CTau; cli (CUp 0) (CWritten true)].

(** 6 bytes reach the upstream connection, 5 are on their way. *)
Definition uploading : list waction :=
  opened_tunnel ++ sends (go! "hello ") ++ [AUp 1] ++ replicate 4 (srv (WLoop 1) Tau) ++
  [srv (WPump 0) Tau; srv (WPump 0) (UpWrite None)] ++ sends (go! "world").

(** They are in the hands of the session's read loop. *)
Definition checking : list waction := uploading ++ [AUp 1; srv (WLoop 1) Tau].

(** The upstream connection answers: 3 bytes reach the local connection, 2 are
    on their way. *)
Definition downloading : list waction :=
  uploading ++ [srv (WReader 0) Tau; srv (WReader 0) (UpRead (go! "abc") false); srv (WReader 0) (Written true);
    ADown 1] ++ replicate 3 (cli CLoop CTau) ++ [cli (CSock 0) (CBuf 16384); cli (CSock 0) (CLocalWrite None)] ++
  [srv (WReader 0) Tau; srv (WReader 0) (UpRead (go! "de") false); srv (WReader 0) (Written true); srv (WReader 0) Tau].

(** The other 2 arrive, and the handler is about to write them. *)
Definition writing_out : list waction :=
  downloading ++ [ADown 1] ++ replicate 3 (cli CLoop CTau) ++ [cli (CSock 0) (CBuf 16384)].

(** The connection breaks; the session's goroutines return. *)
Definition broken : list waction :=
  uploading ++ [srv (WLoop 1) InErr] ++ replicate 2 (srv (WLoop 1) Tau) ++ [srv (WLoop 1) (Key 1)] ++
  replicate 7 (srv (WLoop 1) Tau).

Definition after (acts : list waction) : world := default start (wrun [] hb acts start).
Definition goes (acts : list waction) : bool := match wrun [] hb acts start with Some _ => true | None => false end.

Lemma after_reach acts : goes acts = true -> wreach [] hb (after acts).
Proof.
  unfold goes, after. destruct (wrun [] hb acts start) as [v|] eqn:E; [| done].
  intros _. apply (wrun_reach [] hb acts start); [constructor | done].
Qed.

Definition fewb (v : world) : bool :=
  forallb (fun ip => len (c_ids (c_mem (p_client ip.2))) <=? 2 ^ 31) (map_to_list (w_peers v)).
Lemma fewb_ok v : fewb v = true -> few v.
Proof.
  unfold fewb. rewrite forallb_forall. intros Hb id p Hp. specialize (Hb (id, p)).
  apply Z.leb_le, Hb. by apply list_elem_of_In, elem_of_map_to_list.
Qed.

Definition peer_at (acts : list waction) : peer := default new_peer (w_peers (after acts) !! 1).
Definition near (acts : list waction) : cstream := default (new_cstream 0) (c_heap (c_mem (p_client (peer_at acts))) !! 0%nat).
Definition far (acts : list waction) : v2Stream := default (new_stream 0 0 0) (heap (memory (w_server (after acts))) !! 0%nat).
Definition sess (acts : list waction) : v2Session := default (new_session 0) (v2Sessions (memory (w_server (after acts))) !! 1).
End TunnelDemo.

Section Witness.
Import SessionProps.Demo TunnelDemo.

Lemma tunnel_upload_witness :
  wreach [] hb (after uploading) /\ written (st_hist (far uploading)) = go! "hello " /\
  u_in (up (near uploading)) = go! "hello world" /\
  u_sent (up (near uploading)) =
    taken (st_hist (far uploading)) ++ concat (queue (st_mu (far uploading))) ++
    data_of 1 (snd <$> p_up (peer_at uploading)).
Proof.
  assert (R : wreach [] hb (after uploading)) by by apply after_reach; vm_compute.
  assert (F : few (after uploading)) by by apply fewb_ok; vm_compute.
  assert (Hp : w_peers (after uploading) !! 1 = Some (peer_at uploading)) by by vm_compute.
  assert (Hxc : c_heap (c_mem (p_client (peer_at uploading))) !! 0%nat = Some (near uploading)) by by vm_compute.
  assert (Hx : heap (memory (w_server (after uploading))) !! 0%nat = Some (far uploading)) by by vm_compute.
  assert (Hk : key_of (far uploading) = (1, cs_id (near uploading))) by by vm_compute.
  destruct (tunnel_upload [] hb (after uploading) 1 (peer_at uploading) 0 (near uploading) 0 (far uploading) R F Hp Hxc Hx Hk)
    as (_ & _ & H). split; [exact R |]. split; [by vm_compute |]. split; [by vm_compute |].
  apply H; by vm_compute.
Defined.

(** A handler that is writing: of 5 bytes read upstream 2 are in its hand. *)
Lemma tunnel_download_witness :
  wreach [] hb (after writing_out) /\ d_out (down (near writing_out)) = go! "abc" /\
  sock_pc_of (c_threads (p_client (peer_at writing_out))) 0 = Some (SOut (go! "de")) /\
  w_fetched (after writing_out) 0%nat =
    go! "abc" ++ go! "de" ++ unread (pending (near writing_out)) ++
    concat (items (incoming (near writing_out))) ++ data_of 1 (snd <$> p_down (peer_at writing_out)).
Proof.
  assert (R : wreach [] hb (after writing_out)) by by apply after_reach; vm_compute.
  assert (F : few (after writing_out)) by by apply fewb_ok; vm_compute.
  assert (Hp : w_peers (after writing_out) !! 1 = Some (peer_at writing_out)) by by vm_compute.
  assert (Hxc : c_heap (c_mem (p_client (peer_at writing_out))) !! 0%nat = Some (near writing_out)) by by vm_compute.
  assert (Hx : heap (memory (w_server (after writing_out))) !! 0%nat = Some (far writing_out)) by by vm_compute.
  assert (Hk : key_of (far writing_out) = (1, cs_id (near writing_out))) by by vm_compute.
  destruct (tunnel_download [] hb (after writing_out) 1 (peer_at writing_out) 0 (near writing_out) 0 (far writing_out) R F Hp Hxc Hx Hk)
    as (_ & H). split; [exact R |]. split; [by vm_compute |]. split; [by vm_compute |].
  specialize (H ltac:(by vm_compute) ltac:(by vm_compute) ltac:(by vm_compute) ltac:(by vm_compute)).
  assert (Es : sock_pc_of (c_threads (p_client (peer_at writing_out))) 0 = Some (SOut (go! "de"))) by by vm_compute.
  assert (Eo : d_out (down (near writing_out)) = go! "abc") by by vm_compute.
  assert (Ei : cs_id (near writing_out) = 1) by by vm_compute.
  rewrite Es, Eo, Ei in H. exact H.
Defined.

Lemma tunnel_window_witness :
  wreach [] hb (after checking) /\ few (after checking) /\
  (forall o x, heap (memory (w_server (after checking))) !! o = Some x -> 0 <= qbytes (st_mu x) <= v2InitialWindow).
Proof.
  assert (R : wreach [] hb (after checking)) by by apply after_reach; vm_compute.
  assert (F : few (after checking)) by by apply fewb_ok; vm_compute.
  split; [exact R |]. split; [exact F |]. apply (tunnel_window [] hb (after checking) R F).
Defined.

Lemma tunnel_never_sheds_witness :
  wreach [] hb (after checking) /\ len (go! "world") = 5 /\ buffered (sess checking) + 5 <= v2SessionBufferCap.
Proof.
  assert (R : wreach [] hb (after checking)) by by apply after_reach; vm_compute.
  assert (F : few (after checking)) by by apply fewb_ok; vm_compute.
  assert (Hl : forall x, heap (memory (w_server (after checking))) !! 0%nat = Some x -> reclaimed (st_hist x) = false).
  { vm_compute. by intros x [= <-]. }
  destruct (tunnel_never_sheds [] hb (after checking) 1 0 1 (go! "world") R F Hl) as [H _].
  split; [exact R |]. split; [by vm_compute |]. apply H; by vm_compute.
Defined.

Lemma tunnel_teardown_witness :
  wreach [] hb (after broken) /\ streams (sess broken) = ∅ /\ st_sess (far broken) = 1 /\ conn_open (far broken) = false.
Proof.
  assert (R : wreach [] hb (after broken)) by by apply after_reach; vm_compute.
  assert (F : few (after broken)) by by apply fewb_ok; vm_compute.
  assert (Hs : v2Sessions (memory (w_server (after broken))) !! 1 = Some (sess broken)) by by vm_compute.
  assert (Q : SessionLeak.settled 1 (w_server (after broken))) by by apply settledb_ok; vm_compute.
  destruct (tunnel_teardown [] hb (after broken) 1 (sess broken) R F Hs Q) as [H1 H2].
  split; [exact R |]. split; [exact H1 |]. split; [by vm_compute |].
  apply (H2 0%nat (far broken)); by vm_compute.
Defined.

Lemma tunnel_in_step_witness :
  wreach [] hb (after uploading) /\ seqRead (sess uploading) = 3 /\ is_Some (wstep [] hb (AUp 1) (after uploading)).
Proof.
  assert (R : wreach [] hb (after uploading)) by by apply after_reach; vm_compute.
  assert (F : few (after uploading)) by by apply fewb_ok; vm_compute.
  assert (Hp : w_peers (after uploading) !! 1 = Some (peer_at uploading)) by by vm_compute.
  assert (Hup : p_up (peer_at uploading) = [(3, SFrame 1 v2TypeData (go! "world"))]) by by vm_compute.
  assert (Hs : v2Sessions (memory (w_server (after uploading))) !! 1 = Some (sess uploading)) by by vm_compute.
  destruct (tunnel_in_step [] hb (after uploading) 1 (peer_at uploading) 3 _ [] (sess uploading) R F Hp Hup Hs) as [E H].
  split; [exact R |]. split; [by rewrite <-E |]. apply H; by vm_compute.
Defined.
End Witness.
