(* ===== verification/TunnelLive.v ===== *)
(** * The tunnel delivers

    What a client has sent on an open stream can always reach the upstream
    connection, whatever else the session and the other ones are doing. *)

From S2P Require Import Prelude GoStrings Padding StreamFrame FrameLog Target Allowlist PskConfig.
From S2P Require Import Session SessionInv SessionSafe SessionSys SessionPump SessionProps SessionLeak SessionLive SessionTake SessionTrace SessionArrive SessionTraffic SessionFetch.
From S2P Require Import Client ClientInv ClientLoop ClientSteps ClientProps ClientTraffic ClientArrive ClientTake Tunnel TunnelProps.

Section Live.
Context `{UnicodeTables} (allowedDomains : list allowEntry) (hb : hb_params).
Abbreviation wreach := (wreach allowedDomains hb).
Abbreviation wstep := (wstep allowedDomains hb).
Abbreviation wrun := (wrun allowedDomains hb).
Abbreviation run := (run allowedDomains hb).

Lemma wrun_app acts1 acts2 v v1 : wrun acts1 v = Some v1 -> wrun (acts1 ++ acts2) v = wrun acts2 v1.
Proof.
  revert v. induction acts1 as [|a acts1 IH]; intros v; cbn; [by intros [= ->] |].
  destruct (wstep a v) as [v2|]; [| done]. cbn. apply IH.
Qed.

(** ** Steps of the server alone *)

(** A step of a goroutine that reads no frame. *)
Definition silent (a : action) : Prop := exists w e, a = Run w e /\ forall pt, e <> InFrame pt.

(** What the clients have, and what they have sent. *)
Definition sent_of (p : peer) : csys * sealed := (p_client p, p_up p).
Definition still (v v' : world) : Prop := forall i, sent_of <$> w_peers v' !! i = sent_of <$> w_peers v !! i.

Lemma still_trans v v1 v2 : still v v1 -> still v1 v2 -> still v v2.
Proof. intros H1 H2 i. by rewrite H2, H1. Qed.

Lemma still_peer v v' i p : still v v' -> w_peers v !! i = Some p ->
  exists p', w_peers v' !! i = Some p' /\ p_client p' = p_client p /\ p_up p' = p_up p.
Proof.
  intros Hs Hp. specialize (Hs i). rewrite Hp in Hs. cbn in Hs. apply fmap_Some in Hs as (p' & Hp' & E).
  exists p'. unfold sent_of in E. by simplify_eq.
Qed.

Lemma silent_step a v y' : silent a -> Session.step allowedDomains hb a (w_server v) = Some y' ->
  exists v', wstep (AServer a) v = Some v' /\ w_server v' = y' /\ still v v'.
Proof.
  intros (w & e & -> & He) Hs. cbn [Tunnel.wstep]. replace (reads (Run w e)) with false.
  2: { destruct e; try done. by destruct (He pt). }
  rewrite Hs. cbn [mbind option_bind]. eexists. split; [done |]. split; [done |].
  intros i. cbn [w_peers served]. rewrite map_lookup_imap. by destruct (w_peers v !! i).
Qed.

Lemma silent_run acts : forall v y', Forall silent acts -> run acts (w_server v) = Some y' ->
  exists v', wrun (AServer <$> acts) v = Some v' /\ w_server v' = y' /\ still v v'.
Proof.
  induction acts as [|a acts IH]; intros v y' Hs; [intros [= <-]; by exists v |]. cbn [Session.run].
  apply Forall_cons in Hs as [Ha Hs]. destruct (Session.step _ _ a (w_server v)) as [y1|] eqn:E; [| done]. intros Hr. cbn [mbind option_bind] in Hr.
  destruct (silent_step a v y1 Ha E) as (v1 & Hv1 & <- & S1). destruct (IH v1 y' Hs Hr) as (v2 & Hv2 & <- & S2).
  exists v2. split; [change (wrun (AServer <$> a :: acts) v) with (v' ← wstep (AServer a) v; wrun (AServer <$> acts) v'); by rewrite Hv1 |]. split; [done |]. by eapply still_trans.
Qed.

(** A pump reads no frames. *)
Lemma alone_silent o acts : forall y y', sys_ok y -> alone (WPump o) acts -> run acts y = Some y' -> Forall silent acts.
Proof.
  induction acts as [|a acts IH]; intros y y' Y Ha; [by constructor |].
  apply Forall_cons in Ha as [[e ->] Ha]. cbn [Session.run]. destruct (Session.step _ _ _ y) as [y1|] eqn:E; [| done]. cbn. intros Hr.
  constructor; [| eapply (IH y1 y'); [by eapply step_ok | done | done]].
  exists (WPump o), e. split; [done |]. intros pt ->. cbn in E. destruct (threads y !! WPump o) as [t|] eqn:Ht; [| done]. cbn in E.
  destruct (thread_step _ _ t (InFrame pt) (memory y)) as [r|] eqn:Hst; [| done].
  destruct (reads_loop _ _ _ _ _ _ Hst) as [id ->]. by destruct (sk_threads _ Y _ _ Ht).
Qed.

Lemma loop_silent id acts : Forall (loop_act id) acts -> Forall silent acts.
Proof. intros Ha. eapply Forall_impl; [exact Ha |]. intros a (e & -> & He). by exists (WLoop id), e. Qed.

(** ** Draining a connection *)

Lemma stays_few v v' : still v v' -> few v -> few v'.
Proof.
  intros Hs F i p' Hp'. specialize (Hs i). rewrite Hp' in Hs. cbn in Hs. symmetry in Hs. apply fmap_Some in Hs as (p & Hp & E).
  unfold sent_of in E. injection E as -> _. by apply (F i).
Qed.

Definition transit (l : sealed) : Z := foldr (fun nf n => len (sf_payload nf.2) + n) 0 l.
Definition closes_on (sid : Z) (nf : Z * stream_frame) : Prop := sf_type nf.2 = v2TypeClose /\ sf_id nf.2 = sid.

Lemma transit_nonneg l : 0 <= transit l.
Proof. induction l as [|[n sf] l IH]; [done |]. change (transit ((n, sf) :: l)) with (len (sf_payload sf) + transit l).
  pose proof (len_nonneg (sf_payload sf)). lia. Qed.

(** The session takes everything the client has sent so far. *)
Lemma up_drains id sid o ppc l : forall v p x,
  wreach v -> few v -> w_peers v !! id = Some p -> p_up p = l -> Forall (fun nf => ~ closes_on sid nf) l ->
  taking id sid o ppc (v2SessionBufferCap - transit l) (v2GlobalBufferCap - transit l) LRead x (w_server v) ->
  exists acts v' p' x', wrun acts v = Some v' /\ few v' /\ w_peers v' !! id = Some p' /\ p_client p' = p_client p /\ p_up p' = [] /\
    taking id sid o ppc v2SessionBufferCap v2GlobalBufferCap LRead x' (w_server v').
Proof.
  induction l as [|[n sf] l IH]; intros v p x R F Hp Hup Hno K.
  { exists [], v, p, x. cbn in K. rewrite !Z.sub_0_r in K. by split_and!. }
  apply Forall_cons in Hno as [Hsf0 Hno]. pose proof K as [Y Hl _ _ _ _ (s & Hs & Hc & _) _ _].
  destruct (up_enabled allowedDomains hb v id p n sf l s R F Hp Hup Hs Hc Hl) as (Hsf & y1 & Hstep & Hup1).
  set (v1 := World y1 _ _) in Hup1. pose proof (transit_nonneg l) as Htr.
  destruct (take_frame allowedDomains hb id sid o ppc (v2SessionBufferCap - transit l) (v2GlobalBufferCap - transit l) sf x (w_server v) y1)
    as [lpc K1]; [| done | done | done |].
  { change (transit ((n, sf) :: l)) with (len (sf_payload sf) + transit l) in K.
    by replace (v2SessionBufferCap - transit l - len (sf_payload sf)) with (v2SessionBufferCap - (len (sf_payload sf) + transit l)) by lia;
      replace (v2GlobalBufferCap - transit l - len (sf_payload sf)) with (v2GlobalBufferCap - (len (sf_payload sf) + transit l)) by lia. }
  destruct (settles allowedDomains hb id sid o ppc (v2SessionBufferCap - transit l) (v2GlobalBufferCap - transit l)
    ltac:(lia) ltac:(lia) lpc x y1 K1) as (acts & y2 & x2 & Hacts & Hrun & K2).
  destruct (silent_run acts v1 y2 (loop_silent _ _ Hacts) Hrun) as (v2 & Hv2 & <- & S2).
  assert (Hp1 : w_peers v1 !! id = Some (taken_up sf l p)) by (cbn; by rewrite lookup_insert_eq).
  destruct (still_peer _ _ _ _ S2 Hp1) as (p2 & Hp2 & E1 & E2). cbn in E1, E2.
  assert (R1 : wreach v1) by by eapply wreach_step.
  assert (F1 : few v1).
  { intros i q. cbn. destruct (decide (id = i)) as [<- | Hne]; [rewrite lookup_insert_eq; intros [= <-]; exact (F id p Hp) |].
    rewrite lookup_insert_ne by done. by apply F. }
  assert (R2 : wreach v2) by by eapply (wrun_reach allowedDomains hb (AServer <$> acts) v1).
  destruct (IH v2 p2 x2 R2 (stays_few _ _ S2 F1) Hp2 E2 Hno K2) as (acts3 & v3 & p3 & x3 & Hr3 & F3 & Hp3 & E3 & E4 & K3).
  exists (AUp id :: (AServer <$> acts) ++ acts3), v3, p3, x3. split_and!; try done; [| congruence].
  change (wrun (AUp id :: (AServer <$> acts) ++ acts3) v) with (v' ← wstep (AUp id) v; wrun ((AServer <$> acts) ++ acts3) v').
  rewrite Hup1. cbn [mbind option_bind]. by rewrite (wrun_app _ _ _ _ Hv2).
Qed.

(** [C7] Uploads get through. From any state of the tunnel, however its
    goroutines have been interleaved so far: if a stream is open at both ends,
    its session is up and waits for a frame, no CLOSE of the client is on its
    way, and what is queued and on its way fits the buffer caps, then the
    session and the pump of the stream alone, with an upstream that accepts
    bytes, can bring everything the client has sent on the stream to the
    upstream connection, and credit the client with all of it. No step of the
    client, and none of another stream, is needed. *)
Theorem tunnel_upload_flushes v id p n xc o x s ppc :
  wreach v -> few v -> w_peers v !! id = Some p -> c_heap (c_mem (p_client p)) !! n = Some xc ->
  heap (memory (w_server v)) !! o = Some x -> conn_open x = true -> st_closed x = false ->
  v2Sessions (memory (w_server v)) !! id = Some s -> ss_conn s = true -> streams s !! cs_id xc = Some o ->
  threads (w_server v) !! WLoop id = Some (TLoop id LRead) ->
  threads (w_server v) !! WPump o = Some (TPump o id (cs_id xc) ppc) -> pumping ppc = true ->
  Forall (fun nf => ~ closes_on (cs_id xc) nf) (p_up p) ->
  buffered s + transit (p_up p) <= v2SessionBufferCap ->
  v2GlobalBuffered (memory (w_server v)) + transit (p_up p) <= v2GlobalBufferCap ->
  exists acts v' p' x', wrun acts v = Some v' /\
    w_peers v' !! id = Some p' /\ p_client p' = p_client p /\ p_up p' = [] /\
    heap (memory (w_server v')) !! o = Some x' /\ queue (st_mu x') = [] /\
    written (st_hist x') = u_sent (up xc) /\ granted (st_hist x') = len (u_sent (up xc)).
Proof.
  intros R F Hp Hxc Hx Ho Hl Hs Hc Ht Hloop Hpump Hpc Hno Hb Hg.
  destruct (wreach_world _ _ v R F) as [P _ _]. pose proof (si_sys _ (polite_server _ _ _ P)) as Y.
  destruct (up_drains id (cs_id xc) o ppc (p_up p) v p x R F Hp eq_refl Hno) as (acts & v1 & p1 & x1 & Hr1 & F1 & Hp1 & E1 & E2 & K1).
  { split; try done; [by exists s; split_and!; cbn; (done || lia) | cbn; lia]. }
  assert (R1 : wreach v1) by by eapply (wrun_reach allowedDomains hb acts v).
  destruct (wreach_world _ _ v1 R1 F1) as [_ W1 _]. specialize (W1 id p1 Hp1).
  pose proof K1 as [Y1 Hloop1 Hpump1 Hx1 Ho1 Hl1 (s1 & Hs1 & Hc1 & Ht1 & _) _ _].
  assert (Hent : entry id (cs_id xc) o (memory (w_server v1))) by (unfold entry, table; by rewrite Hs1).
  assert (Hk : key_of x1 = (id, cs_id xc)).
  { destruct (sk_threads _ Y1 _ _ Hpump1) as [_ (x' & Hx' & Ek1 & Ek2 & _)]. unfold key_of. congruence. }
  assert (Hxc1 : c_heap (c_mem (p_client p1)) !! n = Some xc) by by rewrite E1.
  pose proof (peer_transit _ _ id p1 n xc o x1 W1 (F1 id p1 Hp1) Hxc1 Hx1 Hk Hloop1 Hent) as Hsent.
  rewrite E2 in Hsent. cbn in Hsent. rewrite app_nil_r in Hsent.
  destruct (pump_runs_dry allowedDomains hb (w_server v1) o id (cs_id xc) ppc x1 Y1) as (acts2 & y2 & cr & x2 & Ha & Hr2 & _ & Hx2 & Hq & Hw & Hgr);
    [split; try done; by exists s1 | done |].
  destruct (silent_run acts2 v1 y2 (alone_silent o acts2 _ _ Y1 Ha Hr2) Hr2) as (v2 & Hv2 & <- & S2).
  destruct (still_peer _ _ _ _ S2 Hp1) as (p2 & Hp2 & E3 & E4).
  exists (acts ++ (AServer <$> acts2)), v2, p2, x2. rewrite (wrun_app _ _ _ _ Hr1), Hw, Hgr, Hsent. split_and!; try done; congruence.
Qed.

(** ** Steps of one client alone *)

(** Nothing but peer [id] changes, and what the session has written to it. *)
Definition same_but (id : Z) (v v' : world) : Prop :=
  w_server v' = w_server v /\ w_fetched v' = w_fetched v /\ forall i, i <> id -> w_peers v' !! i = w_peers v !! i.

Lemma same_but_trans id v v1 v2 : same_but id v v1 -> same_but id v1 v2 -> same_but id v v2.
Proof. intros (H1 & H2 & H3) (H4 & H5 & H6). split_and!; [congruence | congruence |]. intros i Hi. by rewrite H6, H3. Qed.

Lemma client_run id w acts : forall v p y', Forall (quiet_act w) acts -> w_peers v !! id = Some p ->
  crun acts (p_client p) = Some y' ->
  exists v' p', wrun (AClient id <$> acts) v = Some v' /\ same_but id v v' /\
    w_peers v' !! id = Some p' /\ p_client p' = y' /\ p_down p' = p_down p.
Proof.
  induction acts as [|a acts IH]; intros v p y' Hq Hp Hr; [injection Hr as <-; exists v, p; by split_and! |].
  apply Forall_cons in Hq as [(e & -> & He) Hq]. cbn [crun] in Hr.
  destruct (cstep (CRun w e) (p_client p)) as [y1|] eqn:E; [| done]. cbn [mbind option_bind] in Hr.
  set (p1 := send_up y1 (c_frames_out (c_mem (p_client p)) (c_mem y1)) p).
  set (v1 := World (w_server v) (w_fetched v) (<[id := p1]> (w_peers v))).
  assert (Hs : wstep (AClient id (CRun w e)) v = Some v1).
  { cbn [Tunnel.wstep]. replace (c_reads (CRun w e)) with false by (destruct e; try done; by destruct (He pt)).
    rewrite Hp. cbn [mbind option_bind]. by rewrite E. }
  destruct (IH v1 p1 y' Hq) as (v2 & p2 & Hr2 & S2 & Hp2 & E2 & E3); [by cbn; rewrite lookup_insert_eq | done |].
  exists v2, p2. split.
  { change (wrun (AClient id <$> CRun w e :: acts) v) with (v' ← wstep (AClient id (CRun w e)) v; wrun (AClient id <$> acts) v').
    by rewrite Hs. }
  split_and!; [| done | done | done]. eapply same_but_trans; [| exact S2]. split_and!; [done | done |].
  intros i Hi. cbn. by rewrite lookup_insert_ne.
Qed.

(** ** Draining the other way *)

(** No frame is missing from here on. *)
Fixpoint in_order (q : Z) (l : sealed) : Prop :=
  match l with [] => True | (k, _) :: l' => k = q /\ in_order ((q + 1) mod 2 ^ 64) l' end.

(** The payloads on their way to stream [k]. *)
Definition to_come (l : sealed) (k : Z) : Z :=
  foldr (fun nf c => (if for_stream k v2TypeData nf.2 then 1 else 0) + c) 0 l.

Lemma to_come_cons q sf l k : to_come ((q, sf) :: l) k = (if for_stream k v2TypeData sf then 1 else 0) + to_come l k.
Proof. done. Qed.

Lemma to_come_nonneg l k : 0 <= to_come l k.
Proof. induction l as [|[q sf] l IH]; [done |]. rewrite to_come_cons. case_match; lia. Qed.

(** A client that waits on an open connection takes the frame at its head. *)
Lemma down_enabled v id p sf rest :
  wreach v -> few v -> w_peers v !! id = Some p -> p_down p = (c_seqRead (c_mem (p_client p)), sf) :: rest ->
  c_conn (c_mem (p_client p)) = true -> c_threads (p_client p) !! CLoop = Some (CtLoop RRead) ->
  sf_ok sf /\ exists y', cstep (CRun CLoop (CFrame (encode_stream_frame sf))) (p_client p) = Some y' /\
    wstep (ADown id) v = Some (World (w_server v) (w_fetched v) (<[id := taken_down sf rest y' p]> (w_peers v))).
Proof.
  intros R F Hp Hd Hc Hl. destruct (wreach_world _ _ v R F) as [_ K _]. specialize (K id p Hp).
  assert (Hsf : sf_ok sf).
  { pose proof (tr_fit _ _ _ _ (po_traffic _ _ _ _ K)) as Hf. rewrite Hd in Hf. apply Forall_app in Hf as [_ Hf].
    by apply Forall_cons in Hf as [? _]. }
  split; [done |].
  assert (Hs : is_Some (cstep (CRun CLoop (CFrame (encode_stream_frame sf))) (p_client p))).
  { cbn [cstep]. rewrite Hl. cbn [mbind option_bind cthread_step]. unfold readLoop_step. rewrite Hc.
    pose proof (parse_encode sf [] Hsf) as E. rewrite app_nil_r in E. rewrite E, (proj2 (Z.leb_le _ _)); [by eexists |].
    rewrite len_encode. destruct Hsf as (_ & _ & Hlen). unfold maxStreamPayload in Hlen. lia. }
  destruct Hs as [y' Hy']. exists y'. split; [done |]. cbn [Tunnel.wstep]. rewrite Hp. cbn [mbind option_bind].
  rewrite Hd. cbn [next_frame]. rewrite Z.eqb_refl. cbn [mbind option_bind]. by rewrite Hy'.
Qed.

Lemma few_same id v v' p' ids0 : same_but id v v' -> few v -> w_peers v' !! id = Some p' ->
  c_ids (c_mem (p_client p')) = ids0 -> len ids0 <= 2 ^ 31 -> few v'.
Proof.
  intros (_ & _ & Hs) F Hp' Hi Hl i q Hq. destruct (decide (i = id)) as [-> | Hne].
  - assert (q = p') as -> by congruence. unfold few_ids. by rewrite Hi.
  - rewrite Hs in Hq by done. by apply (F i).
Qed.

(** The client takes everything it has been sent so far. *)
Lemma down_drains id sid n ids0 l : len ids0 <= 2 ^ 31 -> forall v p q hpc x,
  wreach v -> few v -> w_peers v !! id = Some p -> p_down p = l -> in_order q l ->
  Forall (fun nf => ~ closes_on sid nf) l ->
  hearing sid n q ids0 (to_come l) RRead hpc x (p_client p) -> serving hpc = true ->
  exists acts v' p' q' x', wrun acts v = Some v' /\ same_but id v v' /\ few v' /\ w_peers v' !! id = Some p' /\ p_down p' = [] /\
    hearing sid n q' ids0 (to_come []) RRead SDown x' (p_client p') /\ items (incoming x') = [] /\ unread (pending x') = [].
Proof.
  intros Hids. induction l as [|[k sf] l IH]; intros v p q hpc x R F Hp Hd Ho Hno K Hs;
    destruct (hand_drains sid n q ids0 _ hpc x (p_client p) K Hs) as (acts0 & y0 & x0 & Ha0 & Hr0 & K0 & Hi0 & Hu0);
    destruct (client_run id (CSock n) acts0 v p y0 Ha0 Hp Hr0) as (v0 & p0 & Hv0 & S0 & Hp0 & Ec0 & Ed0); subst y0;
    (assert (R0 : wreach v0) by by eapply (wrun_reach allowedDomains hb _ v));
    (assert (F0 : few v0) by by eapply few_same; [exact S0 | exact F | exact Hp0 | apply (hr_ids _ _ _ _ _ _ _ _ _ K0) |]);
    rewrite Hd in Ed0.
  { do 2 eexists. exists p0, q, x0. by split_and!. }
  apply Forall_cons in Hno as [Hno0 Hno]. destruct Ho as [-> Ho].
  rewrite <-(hr_seq _ _ _ _ _ _ _ _ _ K0) in Ed0.
  destruct (down_enabled v0 id p0 sf l R0 F0 Hp0 Ed0 (hr_conn _ _ _ _ _ _ _ _ _ K0) (hr_loop _ _ _ _ _ _ _ _ _ K0)) as (Hsf & y1 & Hy1 & Hstep).
  set (v1 := World _ _ _) in Hstep.
  pose proof (take_c_frame sid n q ids0 _ (to_come l) sf SDown x0 (p_client p0) y1 K0 Hi0 Hsf Hno0
    ltac:(intros j; rewrite to_come_cons; lia) Hy1) as K1.
  destruct (hear_settles sid n _ ids0 (to_come l) (to_come_nonneg l) _ _ x0 y1 K1) as (acts2 & y2 & x2 & Ha2 & Hr2 & K2).
  assert (Hp1 : w_peers v1 !! id = Some (taken_down sf l y1 p0)) by (cbn; by rewrite lookup_insert_eq).
  destruct (client_run id CLoop acts2 v1 _ y2 Ha2 Hp1 Hr2) as (v2 & p2 & Hv2 & S2 & Hp2 & Ec2 & Ed2); subst y2. cbn in Ed2.
  assert (R1 : wreach v1) by by eapply wreach_step.
  assert (R2 : wreach v2) by by eapply (wrun_reach allowedDomains hb _ v1).
  assert (S1 : same_but id v0 v1) by (split_and!; [done | done |]; intros i Hi; cbn; by rewrite lookup_insert_ne).
  assert (F2 : few v2).
  { eapply (few_same id v0); [by eapply same_but_trans | done | exact Hp2 | apply (hr_ids _ _ _ _ _ _ _ _ _ K2) | done]. }
  destruct (IH v2 p2 _ SDown x2 R2 F2 Hp2 Ed2 Ho Hno K2 eq_refl) as (acts3 & v3 & p3 & q3 & x3 & Hr3 & S3 & F3 & Hp3 & Ed3 & K3 & Hi3 & Hu3).
  exists ((AClient id <$> acts0) ++ ADown id :: (AClient id <$> acts2) ++ acts3), v3, p3, q3, x3.
  split_and!; try done; [| by do 3 (eapply same_but_trans; [eassumption |])].
  rewrite (wrun_app _ _ _ _ Hv0).
  change (wrun (ADown id :: (AClient id <$> acts2) ++ acts3) v0) with (v' ← wstep (ADown id) v0; wrun ((AClient id <$> acts2) ++ acts3) v').
  rewrite Hstep. cbn [mbind option_bind]. by rewrite (wrun_app _ _ _ _ Hv2).
Qed.

(** [C8] Downloads get through, as long as no other stream of the client is in
    the way. From any state of the tunnel: if a stream is open and in the
    client's table, the client's connection is up, its read loop waits for a
    frame, its handler serves the stream, the session's reader is about to
    read, no CLOSE of the stream is on its way and no frame has been lost, and
    the channel of every other stream has room for the payloads on their way
    to it, then the client's read loop and that handler alone, with a local
    connection that accepts bytes, can bring everything that was read from the
    upstream connection to the local one. Without the room the read loop may
    wait for ever: it delivers to every stream itself. *)
Theorem tunnel_download_flushes v id p n xc o x hpc :
  wreach v -> few v -> w_peers v !! id = Some p -> c_heap (c_mem (p_client p)) !! n = Some xc ->
  heap (memory (w_server v)) !! o = Some x -> key_of x = (id, cs_id xc) ->
  threads (w_server v) !! WReader o = Some (TReader o id (cs_id xc) DRead) ->
  c_conn (c_mem (p_client p)) = true -> c_threads (p_client p) !! CLoop = Some (CtLoop RRead) ->
  c_streams (c_mem (p_client p)) !! cs_id xc = Some n -> cs_closed xc = false ->
  c_threads (p_client p) !! CSock n = Some (CtSock n hpc) -> serving hpc = true ->
  in_order (c_seqRead (c_mem (p_client p))) (p_down p) -> Forall (fun nf => ~ closes_on (cs_id xc) nf) (p_down p) ->
  (forall k m xm, c_streams (c_mem (p_client p)) !! k = Some m -> m <> n -> c_heap (c_mem (p_client p)) !! m = Some xm ->
     len (items (incoming xm)) + to_come (p_down p) k <= incomingCap) ->
  exists acts v' p' xc', wrun acts v = Some v' /\ w_server v' = w_server v /\
    w_peers v' !! id = Some p' /\ p_down p' = [] /\ c_heap (c_mem (p_client p')) !! n = Some xc' /\
    d_out (down xc') = w_fetched v o.
Proof.
  intros R F Hp Hxc Hx Hk Hrd Hc Hl Ht Ho Hh Hs Hord Hno Hroom.
  destruct (wreach_world _ _ v R F) as [_ K _]. pose proof (po_client _ _ _ _ (K id p Hp)) as Rc.
  destruct (down_drains id (cs_id xc) n (c_ids (c_mem (p_client p))) (p_down p) (F id p Hp) v p
    (c_seqRead (c_mem (p_client p))) hpc xc R F Hp eq_refl Hord Hno) as (acts & v' & p' & q' & x' & Hr & S & F' & Hp' & Ed & K' & Hi & Hu).
  { split; try done. intros k m xm H1 H2 H3. pose proof (Hroom k m xm H1 H2 H3). cbn. lia. }
  { done. }
  destruct S as (Esrv & Efet & _). exists acts, v', p', x'. split_and!; try done; [apply (hr_obj _ _ _ _ _ _ _ _ _ K') |].
  assert (R' : wreach v') by by eapply (wrun_reach allowedDomains hb acts v).
  assert (Hid : cs_id x' = cs_id xc).
  { destruct (gl_table _ (ci_global _ (creachable_inv _ (hr_reach _ _ _ _ _ _ _ _ _ K'))) _ _ (hr_table _ _ _ _ _ _ _ _ _ K')) as (x2 & Hx2 & E).
    pose proof (hr_obj _ _ _ _ _ _ _ _ _ K'). congruence. }
  destruct (download_account allowedDomains hb v' id p' n x' o x R' F' Hp' (hr_obj _ _ _ _ _ _ _ _ _ K')) as [_ Hall];
    [by rewrite Esrv | by rewrite Hid |].
  destruct Hall as (h & E & Hhand).
  - unfold loop_pc_of. by rewrite (hr_loop _ _ _ _ _ _ _ _ _ K').
  - rewrite Hid. apply (hr_table _ _ _ _ _ _ _ _ _ K').
  - apply (hr_open _ _ _ _ _ _ _ _ _ K').
  - by rewrite Esrv, Hid.
  - assert (h = []) as -> by (unfold sock_pc_of in Hhand; by rewrite (hr_sock _ _ _ _ _ _ _ _ _ K') in Hhand).
    rewrite <-Efet, E, Hu, Hi, Ed.
    cbn. by rewrite app_nil_r.
Qed.
End Live.

Section Witness.
Import SessionProps.Demo TunnelDemo.

(** 5 bytes are on their way. *)
Lemma tunnel_upload_flushes_witness :
  exists acts' v' p' x', wrun [] hb acts' (after uploading) = Some v' /\
    w_peers v' !! 1 = Some p' /\ p_client p' = p_client (peer_at uploading) /\ p_up p' = [] /\
    heap (memory (w_server v')) !! 0%nat = Some x' /\ queue (st_mu x') = [] /\
    written (st_hist x') = go! "hello world" /\ granted (st_hist x') = 11.
Proof.
  apply (tunnel_upload_flushes [] hb (after uploading) 1 (peer_at uploading) 0%nat (near uploading) 0%nat (far uploading) (sess uploading) (PCredit 6)).
  - apply after_reach. vm_compute. reflexivity.
  - apply fewb_ok. vm_compute. reflexivity.
  - vm_compute. reflexivity.
  - vm_compute. reflexivity.
  - vm_compute. reflexivity.
  - vm_compute. reflexivity.
  - vm_compute. reflexivity.
  - vm_compute. reflexivity.
  - vm_compute. reflexivity.
  - vm_compute. reflexivity.
  - vm_compute. reflexivity.
  - vm_compute. reflexivity.
  - reflexivity.
  - apply Forall_forall. intros [n sf] Hin [Hty _].
    assert (Ha : forallb (fun nf => negb (sf_type nf.2 =? v2TypeClose)) (p_up (peer_at uploading)) = true) by (vm_compute; reflexivity).
    rewrite forallb_forall in Ha. specialize (Ha (n, sf)). rewrite <-list_elem_of_In in Ha. specialize (Ha Hin).
    cbn in Ha, Hty. rewrite Hty in Ha. discriminate Ha.
  - vm_compute. discriminate.
  - vm_compute. discriminate.
Defined.

(** 2 bytes are on their way, 3 have arrived. *)
Lemma tunnel_download_flushes_witness :
  exists acts' v' p' xc', wrun [] hb acts' (after downloading) = Some v' /\ w_server v' = w_server (after downloading) /\
    w_peers v' !! 1 = Some p' /\ p_down p' = [] /\ c_heap (c_mem (p_client p')) !! 0%nat = Some xc' /\
    d_out (down xc') = go! "abcde".
Proof.
  apply (tunnel_download_flushes [] hb (after downloading) 1 (peer_at downloading) 0%nat (near downloading) 0%nat (far downloading) SDown).
  - apply after_reach. vm_compute. reflexivity.
  - apply fewb_ok. vm_compute. reflexivity.
  - vm_compute. reflexivity.
  - vm_compute. reflexivity.
  - vm_compute. reflexivity.
  - vm_compute. reflexivity.
  - vm_compute. reflexivity.
  - vm_compute. reflexivity.
  - vm_compute. reflexivity.
  - vm_compute. reflexivity.
  - vm_compute. reflexivity.
  - vm_compute. reflexivity.
  - reflexivity.
  - vm_compute. split; [reflexivity | exact I].
  - apply Forall_forall. intros [k sf] Hin [Hty _].
    assert (Ha : forallb (fun nf => negb (sf_type nf.2 =? v2TypeClose)) (p_down (peer_at downloading)) = true) by (vm_compute; reflexivity).
    rewrite forallb_forall in Ha. specialize (Ha (k, sf)). rewrite <-list_elem_of_In in Ha. specialize (Ha Hin).
    cbn in Ha, Hty. rewrite Hty in Ha. discriminate Ha.
  - intros k m xm Hk Hne _. exfalso.
    assert (Hs : c_streams (c_mem (p_client (peer_at downloading))) = {[ 1 := 0%nat ]}) by (vm_compute; reflexivity).
    rewrite Hs in Hk. apply lookup_singleton_Some in Hk as [_ <-]. by apply Hne.
Defined.
End Witness.
