(* ===== verification/Socks5.v ===== *)
(** * The SOCKS5 front end ([handleSocks5] of cmd/mxtr-testclient-v2/main.go,
    up to the call of [sess.open])

    The greeting and the request, read from the local connection, and the
    replies written to it; what the target becomes on the server. *)

From S2P Require Import Prelude GoIO GoStrings GoNet Target.

(** The local connection. *)
Record sconn := SConn { sc_in : reader; sc_out : writer }.

Inductive socks_err :=
  | SocksIO (e : ioerr)
  | SocksVersion (v : Z)
  | SocksCommand         (* not version 5, or not CONNECT *)
  | SocksAddrType (t : Z)
  | SocksOpen.           (* sess.open failed *)

Definition socks_read (n : Z) : io sconn socks_err bytes := fun c =>
  match readFull n (sc_in c) with
  | (Ok b, r) => (Ok b, SConn r (sc_out c))
  | (Err e, r) => (Err (SocksIO e.1), SConn r (sc_out c))
  | (Panic, r) => (Panic, SConn r (sc_out c))
  end.

(** [c.Write(p)], its result ignored. *)
Definition socks_reply (p : bytes) : io sconn socks_err unit := fun c =>
  (Ok tt, SConn (sc_in c) (write p (sc_out c)).2).

Definition socks_fail {A} (e : socks_err) (reply : bytes) : io sconn socks_err A := fun c =>
  (Err e, SConn (sc_in c) (write reply (sc_out c)).2).

(** The ten-byte replies. *)
Definition socks_status (code : byte) : bytes := [x05; code; x00; x01] ++ zeros 6.

(** The switch on the address type. *)
Definition socks_address (atyp : byte) : io sconn socks_err bytes :=
  if b2z atyp =? 1 then
    ip ← socks_read 4;
    mret (IP_String ip)
  else if b2z atyp =? 3 then
    lb ← socks_read 1;
    l ← lift (must (at_ 0 lb));
    socks_read (b2z l)
  else if b2z atyp =? 4 then
    ip ← socks_read 16;
    mret (IP_String ip)
  else socks_fail (SocksAddrType (b2z atyp)) (socks_status x08).

(** Up to the call of [sess.open]. *)
Definition socks5_request : io sconn socks_err (bytes * Z) :=
  hd ← socks_read 2;
  v ← lift (must (at_ 0 hd));
  _ ← lift (fail_if (negb (b2z v =? 5)) (SocksVersion (b2z v)));
  nm ← lift (must (at_ 1 hd));
  _ ← socks_read (b2z nm);
  _ ← socks_reply [x05; x00];
  rq ← socks_read 4;
  v ← lift (must (at_ 0 rq));
  cmd ← lift (must (at_ 1 rq));
  if negb (b2z v =? 5) || negb (b2z cmd =? 1) then socks_fail SocksCommand (socks_status x07) else
  atyp ← lift (must (at_ 3 rq));
  host ← socks_address atyp;
  pb ← socks_read 2;
  mret (host, be_get pb).

(** Up to the bridge; [opens]: the outcome of [sess.open]. *)
Definition handleSocks5 (opens : bytes -> Z -> bool) : io sconn socks_err (bytes * Z) :=
  t ← socks5_request;
  if opens t.1 t.2 then _ ← socks_reply (socks_status x00); mret t
  else socks_fail SocksOpen (socks_status x01).

(** ** The accepted requests *)

Inductive socks_addr : bytes -> bytes -> Prop :=
  | addr_ipv4 ip : len ip = 4 -> socks_addr ([x01] ++ ip) (IP_String ip)
  | addr_domain l dom : b2z l = len dom -> socks_addr ([x03; l] ++ dom) dom
  | addr_ipv6 ip : len ip = 16 -> socks_addr ([x04] ++ ip) (IP_String ip).

Inductive socks_request : bytes -> bytes -> Z -> Prop :=
  | request_connect nm methods rsv addr host port :
      b2z nm = len methods -> socks_addr addr host -> len port = 2 ->
      socks_request ([x05; nm] ++ methods ++ [x05; x01; rsv] ++ addr ++ port) host (be_get port).

(** ** The refused ones

    With the reason and everything that is written back. *)

Definition socks_known (atyp : byte) : Prop := atyp = x01 \/ atyp = x03 \/ atyp = x04.

Inductive socks_refused : bytes -> socks_err -> list bytes -> Prop :=
  | refused_greeting d e : len d < 2 -> socks_refused d (SocksIO e) []
  | refused_version v nm d : v <> x05 -> socks_refused ([v; nm] ++ d) (SocksVersion (b2z v)) []
  | refused_methods nm ms e : len ms < b2z nm -> socks_refused ([x05; nm] ++ ms) (SocksIO e) []
  | refused_request nm ms rq e : b2z nm = len ms -> len rq < 4 ->
      socks_refused ([x05; nm] ++ ms ++ rq) (SocksIO e) [[x05; x00]]
  | refused_command nm ms v cmd rsv atyp d : b2z nm = len ms -> v <> x05 \/ cmd <> x01 ->
      socks_refused ([x05; nm] ++ ms ++ [v; cmd; rsv; atyp] ++ d) SocksCommand
        [[x05; x00]; [x05; x07; x00; x01; x00; x00; x00; x00; x00; x00]]
  | refused_type nm ms rsv atyp d : b2z nm = len ms -> ~ socks_known atyp ->
      socks_refused ([x05; nm] ++ ms ++ [x05; x01; rsv; atyp] ++ d) (SocksAddrType (b2z atyp))
        [[x05; x00]; [x05; x08; x00; x01; x00; x00; x00; x00; x00; x00]]
  | refused_address nm ms rsv atyp d e : b2z nm = len ms -> socks_known atyp ->
      (forall addr host port rest, socks_addr (atyp :: addr) host -> len port = 2 -> d <> addr ++ port ++ rest) ->
      socks_refused ([x05; nm] ++ ms ++ [x05; x01; rsv; atyp] ++ d) (SocksIO e) [[x05; x00]].

(** Several writes, one after the other. *)
Definition sent (ps : list bytes) (w : writer) : writer := foldl (fun w p => (write p w).2) w ps.

(** ** Reading *)

Lemma socks_read_spec n c : 0 <= n ->
  exists r, rd_end r = rd_end (sc_in c) /\ rd_data r = drop (Z.to_nat n) (rd_data (sc_in c)) /\
  socks_read n c =
    (if n <=? len (rd_data (sc_in c)) then Ok (take (Z.to_nat n) (rd_data (sc_in c)))
     else Err (SocksIO (readFull_err (rd_end (sc_in c)) (rd_data (sc_in c)))), SConn r (sc_out c)).
Proof.
  intros Hn. destruct (readFull_spec n (sc_in c) Hn) as (r & He & Hd & Hr).
  exists r. split_and!; [done | done |]. unfold socks_read. rewrite Hr. by destruct (_ <=? _).
Qed.

Lemma socks_read_ok n c a b : rd_data (sc_in c) = a ++ b -> len a = n ->
  exists r, socks_read n c = (Ok a, SConn r (sc_out c)) /\ rd_data r = b.
Proof.
  intros Hd Ha. destruct (readFull_ok n (sc_in c) a b Hd Ha) as (r & Hr & Hb & _).
  exists r. unfold socks_read. by rewrite Hr.
Qed.

(** A read takes a prefix or fails. *)
Lemma socks_read_cases n c : 0 <= n ->
  (exists a r, rd_data (sc_in c) = a ++ rd_data r /\ len a = n /\
     socks_read n c = (Ok a, SConn r (sc_out c))) \/
  (len (rd_data (sc_in c)) < n /\ exists e r, socks_read n c = (Err (SocksIO e), SConn r (sc_out c))).
Proof.
  intros Hn. destruct (socks_read_spec n c Hn) as (r & _ & Hd & E). destruct (n <=? _) eqn:El; bool_facts.
  - left. exists (take (Z.to_nat n) (rd_data (sc_in c))), r. split_and!; [by rewrite Hd, take_drop | zlen | done].
  - right. split; [lia |]. by do 2 eexists.
Qed.

Lemma len_two (l : bytes) : len l = 2 -> exists a b, l = [a; b].
Proof. destruct l as [|a [|b [|]]]; unfold len; cbn; intros; try lia. eauto. Qed.
Lemma len_four (l : bytes) : len l = 4 -> exists a b c d, l = [a; b; c; d].
Proof. destruct l as [|a [|b [|c [|d [|]]]]]; unfold len; cbn; intros; try lia. eauto. Qed.
Lemma len_one (l : bytes) : len l = 1 -> exists a, l = [a].
Proof. destruct l as [|a [|]]; unfold len; cbn; intros; try lia. eauto. Qed.

Lemma bind_step {S E A B} (m : io S E A) (f : A -> io S E B) s a s1 :
  m s = (Ok a, s1) -> (m ≫= f) s = f a s1.
Proof. unfold mbind, io_bind. by intros ->. Qed.

Lemma socks_addr_complete atyp addr host c rest :
  socks_addr (atyp :: addr) host -> rd_data (sc_in c) = addr ++ rest ->
  exists r, socks_address atyp c = (Ok host, SConn r (sc_out c)) /\ rd_data r = rest.
Proof.
  intros Hs Hd. unfold socks_address. inversion Hs as [ip Hl | l dom Hl | ip Hl]; subst.
  - destruct (socks_read_ok 4 c addr rest Hd Hl) as (r & Hr & Hrest). exists r.
    cbn [b2z]. change (b2z x01 =? 1) with true. cbv iota. by rewrite (bind_step _ _ _ _ _ Hr).
  - destruct (socks_read_ok 1 c [l] (host ++ rest)) as (r & Hr & Hrest); [by rewrite Hd | done |].
    destruct (socks_read_ok (b2z l) (SConn r (sc_out c)) host rest) as (r2 & Hr2 & Hrest2); [done | done |].
    exists r2. change (b2z x03 =? 1) with false. change (b2z x03 =? 3) with true. cbv iota.
    rewrite (bind_step _ _ _ _ _ Hr). done.
  - destruct (socks_read_ok 16 c addr rest Hd Hl) as (r & Hr & Hrest). exists r.
    change (b2z x04 =? 1) with false. change (b2z x04 =? 3) with false. change (b2z x04 =? 4) with true.
    cbv iota. by rewrite (bind_step _ _ _ _ _ Hr).
Qed.

Lemma socks5_request_complete c req host port rest :
  socks_request req host port -> rd_data (sc_in c) = req ++ rest ->
  exists c', socks5_request c = (Ok (host, port), c') /\ rd_data (sc_in c') = rest /\
    sc_out c' = sent [[x05; x00]] (sc_out c).
Proof.
  intros Hr Hd. destruct Hr as [nm ms rsv addr host pb Hnm Haddr Hpb]. unfold socks5_request.
  assert (exists at1 addr', addr = at1 :: addr') as (at1 & addr' & ->) by (by inversion Haddr; eauto).
  destruct (socks_read_ok 2 c [x05; nm] (ms ++ [x05; x01; rsv; at1] ++ addr' ++ pb ++ rest)) as (r1 & E1 & D1);
    [by rewrite Hd, <-!app_assoc | done |].
  rewrite (bind_step _ _ _ _ _ E1). cbn [must lift mbind io_bind].
  destruct (socks_read_ok (b2z nm) (SConn r1 (sc_out c)) ms ([x05; x01; rsv; at1] ++ addr' ++ pb ++ rest))
    as (r2 & E2 & D2); [done | done |].
  rewrite (bind_step _ _ _ x05 (SConn r1 (sc_out c))) by done.
  rewrite (bind_step _ _ _ tt (SConn r1 (sc_out c))) by done.
  rewrite (bind_step _ _ _ nm (SConn r1 (sc_out c))) by done.
  rewrite (bind_step _ _ _ _ _ E2).
  set (w := (write [x05; x00] (sc_out c)).2).
  rewrite (bind_step _ _ _ tt (SConn r2 w)) by done.
  destruct (socks_read_ok 4 (SConn r2 w) [x05; x01; rsv; at1] (addr' ++ pb ++ rest)) as (r3 & E3 & D3); [done | done |].
  rewrite (bind_step _ _ _ _ _ E3). cbn [sc_out].
  rewrite (bind_step _ _ _ x05 (SConn r3 w)) by done.
  rewrite (bind_step _ _ _ x01 (SConn r3 w)) by done.
  change (negb (b2z x05 =? 5) || negb (b2z x01 =? 1)) with false. cbv iota.
  rewrite (bind_step _ _ _ at1 (SConn r3 w)) by done.
  destruct (socks_addr_complete at1 addr' host (SConn r3 w) (pb ++ rest) Haddr D3) as (r4 & E4 & D4).
  rewrite (bind_step _ _ _ _ _ E4).
  destruct (socks_read_ok 2 (SConn r4 w) pb rest D4 Hpb) as (r5 & E5 & D5).
  rewrite (bind_step _ _ _ _ _ E5). by exists (SConn r5 w).
Qed.

(** ** Refusals *)

Lemma bind_fails {S E A B} (m : io S E A) (f : A -> io S E B) s e s1 :
  m s = (Err e, s1) -> (m ≫= f) s = (Err e, s1).
Proof. unfold mbind, io_bind. by intros ->. Qed.

(** The address and the port, or a reason. *)
Lemma socks_address_refuses atyp c :
  (forall addr host port rest, socks_addr (atyp :: addr) host -> len port = 2 ->
     rd_data (sc_in c) <> addr ++ port ++ rest) ->
  exists e c', (host ← socks_address atyp; pb ← socks_read 2; mret (host, be_get pb)) c = (Err e, c') /\
    ((~ socks_known atyp /\ e = SocksAddrType (b2z atyp) /\
      sc_out c' = sent [[x05; x08; x00; x01; x00; x00; x00; x00; x00; x00]] (sc_out c)) \/
     (socks_known atyp /\ (exists e', e = SocksIO e') /\ sc_out c' = sc_out c)).
Proof.
  intros Hno. assert (Hport : forall addr host c1, socks_addr (atyp :: addr) host -> socks_known atyp ->
    rd_data (sc_in c) = addr ++ rd_data (sc_in c1) -> socks_address atyp c = (Ok host, c1) -> sc_out c1 = sc_out c ->
    exists e c', (host ← socks_address atyp; pb ← socks_read 2; mret (host, be_get pb)) c = (Err e, c') /\
      ((~ socks_known atyp /\ e = SocksAddrType (b2z atyp) /\
        sc_out c' = sent [[x05; x08; x00; x01; x00; x00; x00; x00; x00; x00]] (sc_out c)) \/
       (socks_known atyp /\ (exists e', e = SocksIO e') /\ sc_out c' = sc_out c))).
  { intros addr host c1 Ha Hk Hd Hr Ho. rewrite (bind_step _ _ _ _ _ Hr).
    destruct (socks_read_cases 2 c1) as [(pb & r & Hd2 & Hl & _) | (_ & e & r & Hr2)]; [done | |].
    - exfalso. apply (Hno addr host pb (rd_data r) Ha Hl). by rewrite Hd, Hd2.
    - rewrite (bind_fails _ _ _ _ _ Hr2). do 2 eexists. split; [done |]. right. split; [done |]. split; [by eexists | done]. }
  unfold socks_address in *. destruct (b2z atyp =? 1) eqn:E1; [| destruct (b2z atyp =? 3) eqn:E3; [| destruct (b2z atyp =? 4) eqn:E4]]; bool_facts.
  - assert (atyp = x01) as -> by (by rewrite (b2z_is _ _ E1)). assert (Hk : socks_known x01) by by left.
    destruct (socks_read_cases 4 c) as [(ip & r & Hd & Hl & Hr) | (_ & e & r & Hr)]; [done | |].
    + apply (Hport ip (IP_String ip) (SConn r (sc_out c))); [by constructor | done | exact Hd | | done].
      by rewrite (bind_step _ _ _ _ _ Hr).
    + rewrite (bind_fails _ _ c (SocksIO e) _ (bind_fails _ _ _ _ _ Hr)). do 2 eexists. split; [done |]. right. eauto.
  - assert (atyp = x03) as -> by (by rewrite (b2z_is _ _ E3)). assert (Hk : socks_known x03) by by (right; left).
    destruct (socks_read_cases 1 c) as [(lb & r & Hd & Hl & Hr) | (_ & e & r & Hr)]; [done | |].
    + destruct (len_one lb Hl) as [l ->].
      destruct (socks_read_cases (b2z l) (SConn r (sc_out c))) as [(dom & r2 & Hd2 & Hl2 & Hr2) | (_ & e & r2 & Hr2)];
        [apply b2z_range | |].
      * apply (Hport ([l] ++ dom) dom (SConn r2 (sc_out c))); [by apply (addr_domain l dom) | done | | | done].
        -- cbn in Hd2. by rewrite Hd, Hd2.
        -- rewrite (bind_step _ _ _ _ _ Hr). exact Hr2.
      * rewrite (bind_fails _ _ c (SocksIO e) (SConn r2 (sc_out c))); [do 2 eexists; split; [done |]; right; eauto |].
        rewrite (bind_step _ _ _ _ _ Hr). exact Hr2.
    + rewrite (bind_fails _ _ c (SocksIO e) _ (bind_fails _ _ _ _ _ Hr)). do 2 eexists. split; [done |]. right. eauto.
  - assert (atyp = x04) as -> by (by rewrite (b2z_is _ _ E4)). assert (Hk : socks_known x04) by by (right; right).
    destruct (socks_read_cases 16 c) as [(ip & r & Hd & Hl & Hr) | (_ & e & r & Hr)]; [done | |].
    + apply (Hport ip (IP_String ip) (SConn r (sc_out c))); [by constructor | done | exact Hd | | done].
      by rewrite (bind_step _ _ _ _ _ Hr).
    + rewrite (bind_fails _ _ c (SocksIO e) _ (bind_fails _ _ _ _ _ Hr)). do 2 eexists. split; [done |]. right. eauto.
  - do 2 eexists. split; [by apply bind_fails |]. left.
    split_and!; [by intros [-> | [-> | ->]] | done | reflexivity].
Qed.

(** Everything that is not a request is refused. *)
Lemma socks5_request_refuses c :
  (forall req host port rest, socks_request req host port -> rd_data (sc_in c) <> req ++ rest) ->
  exists e replies c', socks5_request c = (Err e, c') /\ socks_refused (rd_data (sc_in c)) e replies /\
    sc_out c' = sent replies (sc_out c).
Proof.
  intros Hno. unfold socks5_request.
  destruct (socks_read_cases 2 c) as [(hd & r1 & Hd & Hl & Hr) | (Hs & e & r & Hr)]; [done | |].
  2:{ rewrite (bind_fails _ _ _ _ _ Hr). do 3 eexists. split; [done |]. split; [by constructor | done]. }
  destruct (len_two hd Hl) as (v & nm & ->). rewrite (bind_step _ _ _ _ _ Hr).
  rewrite (bind_step _ _ _ v (SConn r1 (sc_out c))) by done.
  destruct (decide (v = x05)) as [-> | Hv].
  2:{ erewrite bind_fails. 2:{ unfold lift, fail_if. rewrite (proj2 (Z.eqb_neq _ _)); [reflexivity |].
        intros E. apply Hv. by rewrite (b2z_is _ _ E). }
      do 3 eexists. split; [done |]. rewrite Hd. split; [by constructor | done]. }
  rewrite (bind_step _ _ _ tt (SConn r1 (sc_out c))) by done.
  rewrite (bind_step _ _ _ nm (SConn r1 (sc_out c))) by done.
  destruct (socks_read_cases (b2z nm) (SConn r1 (sc_out c))) as [(ms & r2 & Hd2 & Hlm & Hr2) | (Hs & e & r & Hr2)]; [apply b2z_range | |].
  2:{ rewrite (bind_fails _ _ _ _ _ Hr2). do 3 eexists. split; [done |]. rewrite Hd. split; [by constructor | done]. }
  cbn [sc_in] in Hd2. rewrite Hd2 in Hd. rewrite (bind_step _ _ _ _ _ Hr2). cbn [sc_out].
  rewrite (bind_step _ _ _ tt (SConn r2 (sent [[x05; x00]] (sc_out c)))) by done. set (w := sent [[x05; x00]] (sc_out c)).
  destruct (socks_read_cases 4 (SConn r2 w)) as [(rq & r3 & Hd3 & Hlr & Hr3) | (Hs & e & r & Hr3)]; [done | |].
  2:{ rewrite (bind_fails _ _ _ _ _ Hr3). do 3 eexists. split; [done |]. cbn [sc_in] in Hs.
      rewrite Hd. split; [by constructor | done]. }
  destruct (len_four rq Hlr) as (v & cmd & rsv & atyp & ->). cbn [sc_in] in Hd3. rewrite Hd3 in Hd.
  rewrite (bind_step _ _ _ _ _ Hr3). cbn [sc_out].
  rewrite (bind_step _ _ _ v (SConn r3 w)), (bind_step _ _ _ cmd (SConn r3 w)) by done.
  destruct (_ || _) eqn:Eg.
  { do 3 eexists. split; [done |]. rewrite Hd. split; [apply refused_command; [done |] | reflexivity].
    apply orb_true_iff in Eg as [Eg | Eg]; [left | right]; by intros ->. }
  apply orb_false_iff in Eg as [Ev Ec]. apply negb_false_iff, Z.eqb_eq in Ev, Ec.
  assert (v = x05) as -> by (by rewrite (b2z_is _ _ Ev)). assert (cmd = x01) as -> by (by rewrite (b2z_is _ _ Ec)).
  rewrite (bind_step _ _ _ atyp (SConn r3 w)) by done.
  assert (Hno3 : forall addr host port rest, socks_addr (atyp :: addr) host -> len port = 2 -> rd_data r3 <> addr ++ port ++ rest).
  { intros addr host port rest Ha Hp E. rewrite E in Hd. apply (Hno ([x05; nm] ++ ms ++ [x05; x01; rsv] ++ (atyp :: addr) ++ port) host (be_get port) rest).
    - by constructor.
    - rewrite Hd. cbn. repeat rewrite <-app_assoc. cbn. by repeat rewrite <-app_assoc. }
  destruct (socks_address_refuses atyp (SConn r3 w)) as (e & c' & Hr4 & Hcase); [exact Hno3 |].
  cbn [sc_out] in Hcase. rewrite Hd.
  destruct Hcase as [(Hk & -> & Ho) | (Hk & [e' ->] & Ho)]; do 3 eexists; (split; [exact Hr4 |]).
  - split; [by apply refused_type | by rewrite Ho].
  - split; [by apply refused_address | by rewrite Ho].
Qed.

(** [C36] The SOCKS5 front end accepts exactly RFC 1928's no-authentication
    CONNECT, and answers as it says: if the bytes of the connection start with
    a version-5 greeting (any method list) and a CONNECT to an IPv4, domain or
    IPv6 address, it opens that (host, port), has consumed those bytes and no
    more, and has answered the greeting and then success, or general failure
    if the stream could not be opened; every other connection is refused, with
    the reason and exactly the replies of [socks_refused]: none before the
    method list is complete, "command not supported" or "address type not
    supported" where they apply, none for a truncated request. However the
    bytes are cut. *)
Theorem socks5_request_exact opens c :
  (forall req host port rest, socks_request req host port -> rd_data (sc_in c) = req ++ rest ->
     exists c', rd_data (sc_in c') = rest /\
       handleSocks5 opens c = (if opens host port then Ok (host, port) else Err SocksOpen, c') /\
       sc_out c' = sent [[x05; x00]; [x05; if opens host port then x00 else x01; x00; x01; x00; x00; x00; x00; x00; x00]]
                     (sc_out c)) /\
  ((forall req host port rest, socks_request req host port -> rd_data (sc_in c) <> req ++ rest) ->
   exists e replies c', handleSocks5 opens c = (Err e, c') /\ socks_refused (rd_data (sc_in c)) e replies /\
     sc_out c' = sent replies (sc_out c)).
Proof.
  split.
  - intros req host port rest Hq Hd. destruct (socks5_request_complete c req host port rest Hq Hd) as (c1 & Hr & Hd1 & Ho).
    unfold handleSocks5. rewrite (bind_step _ _ _ _ _ Hr). cbn [fst snd].
    destruct (opens host port); eexists (SConn (sc_in c1) _); (split; [exact Hd1 |]); (split; [reflexivity |]);
      cbn [sc_out]; by rewrite Ho.
  - intros Hno. destruct (socks5_request_refuses c Hno) as (e & reps & c1 & Hr & Hx).
    exists e, reps, c1. split; [| done]. unfold handleSocks5. by apply bind_fails.
Qed.

(** ** What the server makes of the target *)

Lemma join_Forall (P : byte -> Prop) c ws : P c -> Forall (Forall P) ws -> Forall P (join c ws).
Proof.
  intros Hc. induction ws as [|w ws IH]; intros H; [constructor |]. inversion H; subst.
  destruct ws; [done |]. cbn. apply Forall_app. split; [done |]. constructor; auto.
Qed.

Lemma join_len c (k : nat) ws : Forall (fun w => (length w <= k)%nat) ws ->
  (length (join c ws) <= length ws * S k)%nat.
Proof.
  induction ws as [|w ws IH]; intros H; [cbn; lia |]. inversion H; subst.
  destruct ws as [|w' ws']; [cbn; lia |]. specialize (IH ltac:(done)).
  change (join c (w :: w' :: ws')) with (w ++ c :: join c (w' :: ws')). rewrite length_app. cbn [length] in *. lia.
Qed.

Definition hexish (c : byte) : Prop := c <> ":"%byte /\ c <> "["%byte /\ c <> "]"%byte.

#[export] Instance hexish_dec c : Decision (hexish c).
Proof. unfold hexish. apply _. Defined.

Lemma hex_digit_hexish d : 0 <= d < 16 -> hexish (hex_digit d).
Proof.
  intros Hd. assert (Hall : Forall (fun d => hexish (hex_digit d)) (seqZ 0 16))
    by (apply (bool_decide_unpack _); vm_compute; reflexivity).
  rewrite Forall_forall in Hall. apply Hall, elem_of_seqZ. lia.
Qed.

Lemma hex_digits_rev_hexish fuel n : 0 <= n -> Forall hexish (hex_digits_rev fuel n).
Proof.
  revert n. induction fuel as [|fuel IH]; intros n Hn; cbn; [constructor |].
  destruct (n <? 16) eqn:E; bool_facts.
  - constructor; [by apply hex_digit_hexish | constructor].
  - constructor; [apply hex_digit_hexish; zdivlia | apply IH; zdivlia].
Qed.

Lemma hex_digits_rev_len fuel n : (length (hex_digits_rev fuel n) <= fuel)%nat.
Proof.
  revert n. induction fuel as [|fuel IH]; intros n; cbn; [lia |]. destruct (n <? 16); cbn; [lia |].
  specialize (IH (n / 16)). lia.
Qed.

Lemma v6_groups_spec ip : len ip = 16 ->
  Forall (fun g => 0 <= g) (v6_groups ip) /\ length (v6_groups ip) = 8%nat.
Proof.
  unfold len. intros Hl. do 16 (destruct ip as [|? ip]; [cbn in Hl; lia |]).
  destruct ip; [| cbn in Hl; lia]. cbn [v6_groups length]. split; [| done].
  repeat (constructor; [apply be_get_nonneg |]). constructor.
Qed.

Lemma hex16_words gs : Forall (fun g => 0 <= g) gs ->
  Forall (Forall hexish) (hex16 <$> gs) /\ Forall (fun w => (length w <= 4)%nat) (hex16 <$> gs).
Proof.
  intros Hg. split; apply Forall_fmap.
  - eapply Forall_impl; [exact Hg |]. intros g H. unfold hex16.
    apply Forall_rev, hex_digits_rev_hexish, H.
  - apply Forall_forall. intros g _. unfold compose, hex16. rewrite length_rev. apply hex_digits_rev_len.
Qed.

(** The text of a proper IPv6 address: no brackets, at least one colon. *)
Lemma v6_string_spec ip : len ip = 16 ->
  ":"%byte ∈ v6_string ip /\ ("["%byte ∉ v6_string ip) /\ ("]"%byte ∉ v6_string ip) /\
  len (v6_string ip) <= 82.
Proof.
  intros Hl. destruct (v6_groups_spec ip Hl) as [Hg Hn]. unfold v6_string.
  assert (Hw : forall gs, Forall (fun g => 0 <= g) gs ->
    Forall (fun c => c <> "["%byte /\ c <> "]"%byte) (join ":" (hex16 <$> gs)) /\
    (length (join ":" (hex16 <$> gs)) <= length gs * 5)%nat).
  { intros gs H. destruct (hex16_words gs H) as [H1 H2]. split.
    - apply join_Forall; [done |]. eapply Forall_impl; [exact H1 |]. intros w Hw.
      eapply Forall_impl; [exact Hw |]. by intros c (_ & ? & ?).
    - eapply Nat.le_trans; [by apply (join_len _ 4) |]. rewrite length_fmap. lia. }
  assert (Hnot : forall l, Forall (fun c => c <> "["%byte /\ c <> "]"%byte) l -> ("["%byte ∉ l) /\ ("]"%byte ∉ l)).
  { intros l H. rewrite Forall_forall in H. split; intros Hin; destruct (H _ Hin); done. }
  destruct (best_run _ _ _ _) as [zs ze]. case_bool_decide.
  - destruct (Hw _ Hg) as [H1 H2]. destruct (Hnot _ H1). split_and!; [| done | done | unfold len; lia].
    destruct (v6_groups ip) as [|g1 [|g2 gs]]; [done | done |].
    change (join ":" (hex16 <$> g1 :: g2 :: gs)) with (hex16 g1 ++ ":"%byte :: join ":" (hex16 <$> g2 :: gs)).
    apply elem_of_app. right. left.
  - destruct (Hw (take zs (v6_groups ip))) as [H1 H2]; [by apply Forall_take |].
    destruct (Hw (drop ze (v6_groups ip))) as [H3 H4]; [by apply Forall_drop |].
    destruct (Hnot (join ":" (hex16 <$> take zs (v6_groups ip)) ++ go! "::" ++ join ":" (hex16 <$> drop ze (v6_groups ip)))).
    { rewrite !Forall_app. split_and!; [done | by repeat constructor | done]. }
    split_and!; [| done | done |].
    + apply elem_of_app. right. apply elem_of_app. left. left.
    + unfold len. rewrite !length_app. change (length (go! "::")) with 2%nat.
      rewrite length_take in H2. rewrite length_drop in H4. lia.
Qed.

Lemma digit_plain (l : bytes) : Forall (fun c => is_digit c = true) l -> Forall hexish l.
Proof.
  intros H. eapply Forall_impl; [exact H |]. intros c Hc. unfold hexish.
  split_and!; intros ->; vm_compute in Hc; done.
Qed.

Lemma hexish_not (l : bytes) : Forall hexish l -> (":"%byte ∉ l) /\ ("["%byte ∉ l) /\ ("]"%byte ∉ l).
Proof.
  intros H. rewrite Forall_forall in H. split_and!; intros Hin; destruct (H _ Hin) as (? & ? & ?); done.
Qed.

Lemma split_host_port host p :
  Forall hexish p ->
  SplitHostPort (host ++ go! ":" ++ p) =
    if bool_decide (head (host ++ go! ":" ++ p) = Some "["%byte)
    then SplitHostPort (host ++ go! ":" ++ p)
    else if bool_decide (":"%byte ∈ host \/ "["%byte ∈ host \/ "]"%byte ∈ host) then None
    else Some (host, p).
Proof.
  intros Hp. destruct (hexish_not p Hp) as (Hc & Ho & Hcl). case_bool_decide as Hh; [done |].
  unfold SplitHostPort. change (host ++ go! ":" ++ p) with (host ++ ":"%byte :: p) in *.
  rewrite last_index_byte_app by done. cbn [mbind option_bind]. rewrite bool_decide_false by done.
  rewrite take_app_length. case_bool_decide as H1.
  { cbn. by rewrite bool_decide_true by (by left). }
  cbn [mbind option_bind drop]. case_bool_decide as H2.
  { rewrite bool_decide_true; [done |]. set_solver. }
  case_bool_decide as H3.
  { rewrite bool_decide_true; [done |]. set_solver. }
  rewrite bool_decide_false by set_solver. f_equal. f_equal.
  replace (S (length host)) with (length host + 1)%nat by lia. by rewrite drop_app_add.
Qed.

Lemma To4_len ip p : To4 ip = Some p -> length p = 4%nat.
Proof.
  unfold To4. repeat case_bool_decide; intros; simplify_eq; [done |].
  rewrite length_drop. lia.
Qed.

Lemma v4_string_spec p : length p = 4%nat -> Forall hexish (v4_string p) /\ len (v4_string p) <= 84.
Proof.
  intros Hl. unfold v4_string. split.
  - apply join_Forall; [done |]. apply Forall_fmap, Forall_fmap, Forall_forall. intros b _. cbn.
    apply digit_plain. apply itoa_spec. pose proof (b2z_range b). lia.
  - assert (H : (length (join "." (itoa <$> (b2z <$> p))) <= length (itoa <$> (b2z <$> p)) * 21)%nat).
    { apply join_len, Forall_fmap, Forall_fmap, Forall_forall. intros b _. cbn. apply itoa_len, b2z_range. }
    rewrite !length_fmap, Hl in H. unfold len. lia.
Qed.

Lemma IP_String_len ip : len ip = 4 \/ len ip = 16 -> len (IP_String ip) <= 84.
Proof.
  intros Hl. unfold IP_String. destruct (To4 ip) as [p|] eqn:E.
  - by apply v4_string_spec, (To4_len ip).
  - destruct Hl as [Hl | Hl].
    + unfold To4 in E. rewrite bool_decide_true in E by (unfold len in Hl; lia). done.
    + pose proof (v6_string_spec ip Hl). lia.
Qed.

Lemma itoa_port port : 0 <= port < 65536 -> Forall hexish (itoa port).
Proof. intros. apply digit_plain, itoa_spec. lia. Qed.

(** What a SOCKS5 target becomes on the server: the client sends every
    target as a domain name, and the server dials host:port. For an IPv4
    address or a name without [:], [[] and []] that is an address
    [net.SplitHostPort] takes apart again; for a genuine IPv6 address the
    brackets are missing and [net.SplitHostPort], which [net.Dial] uses,
    refuses it, so IPv6 targets can never be reached. *)
Theorem socks_target_on_server req host port :
  socks_request req host port ->
  exists p, client_target host port = Some p /\ parseTarget p = Ok (host ++ go! ":" ++ itoa port) /\
    ((exists ip, host = IP_String ip /\ is_Some (To4 ip)) \/ (host <> [] /\ Forall hexish host) ->
       SplitHostPort (host ++ go! ":" ++ itoa port) = Some (host, itoa port)) /\
    ((exists ip, host = IP_String ip /\ len ip = 16 /\ To4 ip = None) ->
       SplitHostPort (host ++ go! ":" ++ itoa port) = None).
Proof.
  intros H. destruct H as [nm ms rsv addr host pb Hnm Haddr Hpb]. set (port := be_get pb).
  assert (Hport : 0 <= port < 65536).
  { pose proof (be_get_bound pb) as Hb. rewrite Hpb in Hb. exact Hb. }
  assert (Hlen : len host <= 255).
  { inversion Haddr as [ip Hl | l dom Hl | ip Hl]; subst.
    - pose proof (IP_String_len ip). lia.
    - pose proof (b2z_range l). lia.
    - pose proof (IP_String_len ip). lia. }
  pose proof (client_target_roundtrip host port Hlen Hport) as Ht.
  destruct Ht as (p & Hp1 & Hp2). exists p. split_and!; [done | done | |].
  - intros Hplain. assert (Hh : Forall hexish host).
    { destruct Hplain as [(ip & -> & [q Hq]) | [_ Hh]]; [| done]. unfold IP_String. rewrite Hq.
      by apply v4_string_spec, (To4_len ip). }
    destruct (hexish_not host Hh) as (H1 & H2 & H3).
    rewrite split_host_port by by apply itoa_port. rewrite bool_decide_false.
    + rewrite bool_decide_false; [done |]. naive_solver.
    + destruct host as [|c host]; [done |]. cbn. intros [= ->]. apply H2. left.
  - intros (ip & -> & Hl & Hv4). unfold IP_String. rewrite Hv4.
    destruct (v6_string_spec ip Hl) as (H1 & H2 & H3 & _).
    rewrite split_host_port by by apply itoa_port. rewrite bool_decide_false.
    + by rewrite bool_decide_true by (by left).
    + destruct (v6_string ip) as [|c s]; [by apply elem_of_nil in H1 |]. cbn. intros [= ->]. apply H2. left.
Qed.

(** ** Witnesses *)

Module SocksWitness.
Definition ipv6 : bytes := [x20; x01; x0d; xb8] ++ replicate 11 x00 ++ [x01].
Definition req : bytes := [x05; x01] ++ [x00] ++ [x05; x01; x00] ++ ([x04] ++ ipv6) ++ [x01; xbb].
Definition c : sconn := SConn (Reader [take 5 req; drop 5 req ++ go! "data"] EOF) (Writer [] None).
(** A BIND request. *)
Definition bind : sconn := SConn (Reader [[x05; x01; x00] ++ [x05; x02; x00; x01] ++ replicate 6 x00] EOF) (Writer [] None).
Lemma is_request : socks_request req (go! "2001:db8::1") 443.
Proof. apply (request_connect x01 [x00] x00 ([x04] ++ ipv6) _ [x01; xbb]); [done | by apply addr_ipv6 | done]. Qed.
End SocksWitness.

Lemma socks5_request_exact_witness :
  (exists c', rd_data (sc_in c') = go! "data" /\
     handleSocks5 (fun _ _ => true) SocksWitness.c = (Ok (go! "2001:db8::1", 443), c') /\
     w_out (sc_out c') = [x05; x00] ++ [x05; x00; x00; x01] ++ replicate 6 x00) /\
  (exists e replies c', handleSocks5 (fun _ _ => true) SocksWitness.bind = (Err e, c') /\
     socks_refused (rd_data (sc_in SocksWitness.bind)) e replies /\ sc_out c' = sent replies (Writer [] None)).
Proof.
  split.
  - destruct (socks5_request_exact (fun _ _ => true) SocksWitness.c) as [H _].
    destruct (H SocksWitness.req (go! "2001:db8::1") 443 (go! "data") SocksWitness.is_request) as (c' & H1 & H2 & H3);
      [vm_compute; reflexivity |]. exists c'. split; [exact H1 |]. split; [exact H2 |]. rewrite H3. reflexivity.
  - destruct (socks5_request_exact (fun _ _ => true) SocksWitness.bind) as [_ H]. apply H.
    intros req host port rest Hq E. destruct Hq as [nm ms rsv addr host pb Hnm _ _]. vm_compute in E.
    injection E as <- E. change (b2z x01) with 1 in Hnm. unfold len in Hnm.
    destruct ms as [|m [|m' ms]]; cbn in Hnm; [lia | | lia]. vm_compute in E. discriminate E.
Defined.

Lemma socks_target_on_server_witness :
  exists p, client_target (go! "2001:db8::1") 443 = Some p /\
    parseTarget p = Ok (go! "2001:db8::1:443") /\ SplitHostPort (go! "2001:db8::1:443") = None.
Proof.
  destruct (socks_target_on_server SocksWitness.req (go! "2001:db8::1") 443 SocksWitness.is_request)
    as (p & H1 & H2 & _ & H4).
  exists p. split; [exact H1 |]. split; [exact H2 |]. apply H4.
  exists SocksWitness.ipv6. split_and!; vm_compute; reflexivity.
Defined.
