(* ===== verification/ClientModes.v ===== *)
(** * The modes of the client ([main] from [dialSession] on and
    [runHTTPOnce] of cmd/mxtr-testclient-v2/main.go)

    The outcomes of the session and of the open, what a certificate check and
    the rest of the inner TLS handshake say, the writes through it, and what
    the other goroutines do during the plain write are arguments; what is asked
    of them, in which order, is the model. *)

From S2P Require Import Prelude GoStrings GoNet GoIO Crypto Padding Frame Target Hostnames Allowlist ShareString ClientConfig Camouflage StreamFrame Client ClientFrame StreamWriter Socks5.

(** ** [fmt.Sscanf(s, "%d", &n)] *)

(** The white space of package fmt beyond ASCII, in UTF-8. *)
Definition wide_spaces : list bytes :=
  [[xc2; x85]; [xc2; xa0]; [xe1; x9a; x80]] ++ ((fun i => [xe2; x80; z2b (128 + Z.of_nat i)]) <$> seq 0 11) ++
  [[xe2; x80; xa8]; [xe2; x80; xa9]; [xe2; x80; xaf]; [xe2; x81; x9f]; [xe3; x80; x80]].

Definition wide_space (s : bytes) : option bytes := List.find (fun w => has_prefix w s) wide_spaces.

(** A newline is an error. *)
Fixpoint SkipSpace (fuel : nat) (s : bytes) : option bytes :=
  match fuel, s with
  | S fuel, c :: s' =>
      if bool_decide (c = x0a) then None
      else if ascii_space c then SkipSpace fuel s'
      else match wide_space s with
           | Some w => SkipSpace fuel (drop (length w) s)
           | None => Some s
           end
  | _, _ => Some s
  end.

Definition span_digits (s : bytes) : bytes := take (length s - length (drop_while is_digit s)) s.

(** [None]: an error, and the variable keeps its value. *)
Definition Sscanf_d (s : bytes) : option Z :=
  s ← SkipSpace (S (length s)) s;
  let '(neg, s) := match s with
                   | c :: s' => if bool_decide (c = "-"%byte) then (true, s')
                                else if bool_decide (c = "+"%byte) then (false, s') else (false, s)
                   | [] => (false, s)
                   end in
  let tok := span_digits s in
  if bool_decide (tok = []) then None else
  n ← parse_digits 0 tok;
  if neg then if n <=? 2 ^ 63 then Some (- n) else None
  else if n <? 2 ^ 63 then Some n else None.

(** ** [runHTTPOnce] *)

(** The request of [fmt.Sprintf]. *)
Definition http_request (host : bytes) : bytes :=
  go! "GET / HTTP/1.1" ++ crlf ++ go! "Host: " ++ host ++ crlf ++ go! "Connection: close" ++ crlf ++
  go! "User-Agent: mxtr-testclient-v2" ++ crlf ++ crlf.

(** The fields the code sets. *)
Record inner_config := InnerConfig { ServerName : bytes; InsecureSkipVerify : bool }.

Inductive http_event :=
  | HOpen (payload : bytes)      (* the OPEN frame's payload *)
  | HInnerTls (cfg : inner_config)
  | HSend (inner : bool) (req : bytes)
  | HCopy.                       (* io.Copy to standard output *)

Inductive http_err := ETarget | EOpenStream | EInnerTls | EWrite.

(** [HWaits]: the write has not returned yet. *)
Inductive http_exit := HReturned (err : option http_err) | HWaits.

(** What the outside answers: the stream's id, the fate of [sess.open], the
    names the certificate of the target is good for, the rest of the inner
    handshake, and a write through it. *)
Record http_env := HttpEnv {
  he_sid : Z; he_open : bool; he_cert : bytes -> bool; he_tls : bool; he_tls_write : bool;
}.

(** [tc.Handshake]: crypto/tls checks the certificate for the configured name
    unless it is told not to. *)
Definition tls_handshake (cfg : inner_config) (e : http_env) : bool :=
  he_tls e && (InsecureSkipVerify cfg || he_cert e (ServerName cfg)).

Section Http.
Context (a : aead).

(** [w.Write(req)]: what crypto/tls writes on the stream is its own; a plain
    write runs among the others' steps. [None] as the outcome: it has not
    returned. *)
Definition http_send (useTLS : bool) (req : bytes) (e : http_env) (acts : list cw_action) (s : cw_state)
    : option (option bool * cw_state) :=
  if useTLS then Some (Some (he_tls_write e), s)
  else '(pc, s') ← streamWriter_Write a (he_sid e) req acts s;
       Some (match pc with
             | WDone _ None => Some true
             | WDone _ (Some _) => Some false
             | _ => None
             end, s').

(** The payload of [sess.open] keeps the low 16 bits of the port. [None]: not
    an interleaving of the program. *)
Definition runHTTPOnce (target : bytes) (useTLS : bool) (e : http_env) (acts : list cw_action) (s : cw_state)
    : option (list http_event * http_exit * cw_state) :=
  match SplitHostPort target with
  | None => Some ([], HReturned (Some ETarget), s)
  | Some (host, portStr) =>
      let port := default 0 (Sscanf_d portStr) in
      match client_target host (port mod 65536) with
      | None => Some ([], HReturned (Some EOpenStream), s)
      | Some p =>
          if negb (he_open e) then Some ([HOpen p], HReturned (Some EOpenStream), s) else
          let cfg := InnerConfig host false in
          if useTLS && negb (tls_handshake cfg e) then Some ([HOpen p; HInnerTls cfg], HReturned (Some EInnerTls), s) else
          let sent := [HOpen p] ++ (if useTLS then [HInnerTls cfg] else []) ++ [HSend useTLS (http_request host)] in
          '(ok, s') ← http_send useTLS (http_request host) e acts s;
          Some match ok with
               | Some true => (sent ++ [HCopy], HReturned None, s')
               | Some false => (sent, HReturned (Some EWrite), s')
               | None => (sent, HWaits, s')
               end
      end
  end.

(** ** [main] *)

Inductive client_exit :=
  | XConfig          (* log.Fatal on the flags *)
  | XSession         (* dialSession failed *)
  | XMethod          (* unknown method *)
  | XHttp (exit : http_exit)
  | XSocks.          (* serving SOCKS5 *)

Definition client_main `{UnicodeTables} (o : cl_options) (env_psk : bytes) (read : bytes -> option bytes)
    (method target : bytes) (session_ok : bool) (e : http_env) (acts : list cw_action) (s : cw_state)
    : option (list http_event * client_exit) :=
  match client_config o env_psk read with
  | None => Some ([], XConfig)
  | Some (host, port, psk, sni) =>
      match dial_plan host port sni with
      | None => Some ([], XSession)
      | Some _ =>
          if negb session_ok then Some ([], XSession)
          else if bool_decide (method = go! "socks5") then Some ([], XSocks)
          else if bool_decide (method = go! "http") then
            '(evs, exit, _) ← runHTTPOnce target false e acts s; Some (evs, XHttp exit)
          else if bool_decide (method = go! "https") then
            '(evs, exit, _) ← runHTTPOnce target true e acts s; Some (evs, XHttp exit)
          else Some ([], XMethod)
      end
  end.
End Http.

(** ** Scanning a port *)

Lemma drop_while_all p (s : bytes) : Forall (fun c => p c = true) s -> drop_while p s = [].
Proof. induction 1 as [|c s Hc Hs IH]; [done |]. cbn. by rewrite Hc. Qed.

Lemma digit_no_space c : is_digit c = true -> ascii_space c = false /\ c <> x0a /\ c <> "-"%byte /\ c <> "+"%byte /\ b2z c < 128.
Proof. unfold is_digit, ch. destruct c; intros H; try discriminate H; by vm_compute. Qed.

Lemma wide_high w : w ∈ wide_spaces -> exists c r, w = c :: r /\ 128 <= b2z c.
Proof.
  intros Hw. assert (Ha : forallb (fun w => match w with c :: _ => 128 <=? b2z c | [] => false end) wide_spaces = true) by by vm_compute.
  rewrite forallb_forall in Ha. specialize (Ha w). rewrite <-list_elem_of_In in Ha. specialize (Ha Hw).
  destruct w as [|c r]; [done |]. exists c, r. split; [done | by apply Z.leb_le].
Qed.

Lemma Sscanf_itoa n : 0 <= n < 2 ^ 63 -> Sscanf_d (itoa n) = Some n.
Proof.
  intros Hn. destruct (itoa_spec n Hn) as (Hd & Hne & Hf). unfold Sscanf_d.
  destruct (itoa n) as [|c s] eqn:E; [done |]. pose proof (proj1 (proj1 (Forall_cons _ _ _) Hf)) as Hc.
  destruct (digit_no_space c Hc) as (H1 & H2 & H3 & H4 & H5).
  assert (Hs : SkipSpace (S (length (c :: s))) (c :: s) = Some (c :: s)).
  { cbn [SkipSpace]. rewrite bool_decide_false, H1 by done. destruct (wide_space (c :: s)) as [w|] eqn:Hw; [| done].
    exfalso. unfold wide_space in Hw. apply List.find_some in Hw as [Hin Hp]. apply list_elem_of_In in Hin.
    destruct (wide_high w Hin) as (c' & r & -> & Hc'). rewrite has_prefix_cons in Hp. apply andb_true_iff in Hp as [Hp _].
    apply bool_decide_eq_true in Hp. subst. lia. }
  rewrite Hs. cbn [mbind option_bind]. rewrite bool_decide_false, bool_decide_false by done.
  assert (Ht : span_digits (c :: s) = c :: s).
  { unfold span_digits. rewrite (drop_while_all is_digit (c :: s) Hf). cbn [length]. rewrite Nat.sub_0_r. by rewrite take_ge. }
  rewrite Ht, bool_decide_false, Hd by done. cbn [mbind option_bind]. by rewrite (proj2 (Z.ltb_lt _ _)) by lia.
Qed.

(** ** The one-shot modes *)

(** A host that [net.SplitHostPort] takes as it is. *)
Definition plain_host (host : bytes) : Prop :=
  len host <= 255 /\ (":"%byte ∉ host) /\ ("["%byte ∉ host) /\ ("]"%byte ∉ host).

Lemma SplitHostPort_target host port : plain_host host -> 0 <= port < 65536 ->
  SplitHostPort (host ++ go! ":" ++ itoa port) = Some (host, itoa port).
Proof.
  intros (_ & Hc & Ho & Hcl) Hp. rewrite split_host_port by by apply itoa_port.
  rewrite !bool_decide_false; [done | naive_solver |].
  destruct host as [|c host]; [done |]. cbn. intros [= ->]. apply Ho. left.
Qed.

Lemma http_request_len host : 0 < len (http_request host) /\ len (http_request host) <= len host + 100.
Proof. pose proof (len_nonneg host). unfold http_request. zlen; unfold crlf, len; cbn; lia. Qed.

(** *** What the target reads *)

(** A header line: its name up to the colon, then a space and the value. *)
Definition parse_header (l : bytes) : option (bytes * bytes) :=
  i ← index_byte ":" l;
  match drop (S i) l with
  | x20 :: v => Some (take i l, v)
  | _ => None
  end.

(** The request line, the headers and what follows the blank line. *)
Definition parse_http_request (s : bytes) : option (bytes * list (bytes * bytes) * bytes) :=
  '(ls, body) ← head_lines (S (length s)) s;
  match ls with
  | [] => None
  | l :: hs => hs' ← mapM parse_header hs; Some (l, hs', body)
  end.

Lemma parse_header_host host : parse_header (go! "Host: " ++ host) = Some (go! "Host", host).
Proof. done. Qed.

Lemma http_request_lines host : http_request host =
  lines [go! "GET / HTTP/1.1"; go! "Host: " ++ host; go! "Connection: close"; go! "User-Agent: mxtr-testclient-v2"] ++ crlf ++ [].
Proof. unfold http_request, lines. cbn [fmap list_fmap concat]. by rewrite <-!app_assoc, !app_nil_r. Qed.

Lemma http_request_parses host : x0d ∉ host ->
  parse_http_request (http_request host) =
    Some (go! "GET / HTTP/1.1",
          [(go! "Host", host); (go! "Connection", go! "close"); (go! "User-Agent", go! "mxtr-testclient-v2")], []).
Proof.
  intros Hcr. unfold parse_http_request. rewrite http_request_lines, head_lines_lines.
  - cbn [mbind option_bind]. done.
  - assert (Hc : forall l, bool_decide (clean l) = true -> clean l) by (intros l; apply bool_decide_eq_true).
    repeat constructor; try (by vm_compute); try (apply not_elem_of_app; split; [| done]); by apply (bool_decide_eq_true _); vm_compute.
  - rewrite length_app. pose proof (length_lines
      [go! "GET / HTTP/1.1"; go! "Host: " ++ host; go! "Connection: close"; go! "User-Agent: mxtr-testclient-v2"]). cbn [length] in *. lia.
Qed.

(** *** Where the request goes *)

(** [runHTTPOnce] once the target has been taken apart. *)
Lemma runHTTPOnce_opened a host port p useTLS e acts s :
  plain_host host -> 0 <= port < 65536 -> client_target host port = Some p -> he_open e = true ->
  runHTTPOnce a (host ++ go! ":" ++ itoa port) useTLS e acts s =
    let cfg := InnerConfig host false in
    if useTLS && negb (he_tls e && he_cert e host) then Some ([HOpen p; HInnerTls cfg], HReturned (Some EInnerTls), s) else
    let sent := [HOpen p] ++ (if useTLS then [HInnerTls cfg] else []) ++ [HSend useTLS (http_request host)] in
    '(ok, s') ← http_send a useTLS (http_request host) e acts s;
    Some match ok with
         | Some true => (sent ++ [HCopy], HReturned None, s')
         | Some false => (sent, HReturned (Some EWrite), s')
         | None => (sent, HWaits, s')
         end.
Proof.
  intros Hh Hp Ht Ho. unfold runHTTPOnce. rewrite SplitHostPort_target, Sscanf_itoa by first [exact Hh | lia].
  cbv zeta. change (default 0 (Some port)) with port. by rewrite Z.mod_small, Ht, Ho by exact Hp.
Qed.

(** [C40] The one-shot modes reach the target they are given, for a host of at
    most 255 bytes without colons, brackets and carriage returns, and a port
    below 65536 (beyond: [http_port_unchecked]; IPv6 targets cannot be reached).
    For host:port the OPEN payload is one the server parses to the same
    host:port, and the request parses as GET / of that host, with the connection
    to be closed. https verifies: the request is sent, through the inner TLS
    connection, exactly if the handshake succeeds and the certificate is good
    for the host. http sends it on the stream, whatever the other goroutines of
    the client do meanwhile: if the write returns without an error and the
    connection has not failed, the server's read loop gets everybody's frames,
    of which this stream's is one DATA frame with the request; an error is
    reported as one of the write, and alone, with room in the window and on a
    healthy connection, it does return without. *)
Theorem http_target_on_server (a : aead) (AL : AeadLaws a) host port e :
  plain_host host -> x0d ∉ host -> 0 <= port < 65536 -> he_open e = true -> 0 <= he_sid e < 2 ^ 32 ->
  let target := host ++ go! ":" ++ itoa port in
  let req := http_request host in
  parse_http_request req =
    Some (go! "GET / HTTP/1.1",
          [(go! "Host", host); (go! "Connection", go! "close"); (go! "User-Agent", go! "mxtr-testclient-v2")], []) /\
  exists p, parseTarget p = Ok target /\
  (forall acts s, runHTTPOnce a target true e acts s = Some (
     let cfg := InnerConfig host false in
     if he_tls e && he_cert e host
     then if he_tls_write e then ([HOpen p; HInnerTls cfg; HSend true req; HCopy], HReturned None, s)
          else ([HOpen p; HInnerTls cfg; HSend true req], HReturned (Some EWrite), s)
     else ([HOpen p; HInnerTls cfg], HReturned (Some EInnerTls), s))) /\
  (forall acts s evs exit s', fresh_call s -> Forall others_fit acts ->
     runHTTPOnce a target false e acts s = Some (evs, exit, s') ->
     match exit with
     | HReturned None =>
         evs = [HOpen p; HSend false req; HCopy] /\
         (w_room (cw_conn s') = None -> forall segs, w_out (cw_conn s) ++ concat segs = w_out (cw_conn s') ->
            own_frames (cw_log s') = [SFrame (he_sid e) v2TypeData req] /\
            readStreamFrames (S (length (cw_log s'))) a (cw_seq s) (Reader segs EOF)
            = (log_frames (cw_log s'), Some (LoopRead (FrameIO EOF))))
     | HReturned (Some err) => err = EWrite /\ evs = [HOpen p; HSend false req]
     | HWaits => evs = [HOpen p; HSend false req]
     end) /\
  (forall os s, fresh_call s -> cw_closed s = false -> w_room (cw_conn s) = None ->
     (flowControlled (cw_win s) = true -> len req <= sendWindow (cw_win s)) ->
     exists k s', runHTTPOnce a target false e (cw_alone os k) s
       = Some ([HOpen p; HSend false req; HCopy], HReturned None, s') /\ w_room (cw_conn s') = None).
Proof.
  intros Hh Hcr Hp Ho Hsid target req. split; [by apply http_request_parses |].
  destruct (client_target_roundtrip host port (proj1 Hh) Hp) as (p & Ht & Hs). exists p. split; [exact Hs |].
  pose proof (fun tls acts s => runHTTPOnce_opened a host port p tls e acts s Hh Hp Ht Ho) as Hrun.
  fold target req in Hrun. split_and!.
  - intros acts s. rewrite Hrun. unfold http_send. cbn. destruct (he_tls e && he_cert e host); [| done]. by destruct (he_tls_write e).
  - intros acts s evs exit s' F Hfit. rewrite Hrun. unfold http_send. cbn [andb negb].
    destruct (streamWriter_Write a (he_sid e) req acts s) as [[pc s1]|] eqn:Ew; [| done]. cbn [mbind option_bind].
    destruct pc as [| | |off [er|]|]; intros [= <- <- <-]; try done. split; [done |]. intros Hroom segs E.
    destruct (upload_reads a (he_sid e) req acts s off s1 segs Hsid F Hfit Ew Hroom E) as (_ & H1 & H2).
    pose proof (http_request_len host) as Hl. fold req in Hl. destruct Hh as (Hh & _).
    rewrite pieces_one in H1 by (unfold maxStreamPayloadV2; lia). by split.
  - intros os s F Hc Hr Hw. destruct (write_completes a (he_sid e) req os s F Hc Hr Hw) as (k & s' & _ & Ew & Hr').
    exists k, s'. split; [| exact Hr']. rewrite Hrun. unfold http_send. cbn [andb negb]. by rewrite Ew.
Qed.

(** The port of [-target] is not validated: a service name is port 0, and a
    port beyond 65535 wraps. *)
Theorem http_port_unchecked a e acts s :
  let run target tls := (fun r => r.1.1) <$> runHTTPOnce a target tls e acts s in
  run (go! "matrix.org:https") true = run (go! "matrix.org:0") true /\
  run (go! "matrix.org:65616") true = run (go! "matrix.org:80") true.
Proof. by destruct e as [sid [] cert [] []]. Qed.

Module HttpWitness.
Definition host : bytes := go! "matrix.org".
Definition s0 : cw_state := CwState 3 false false (Window 4096 true false 4096 0 1) (Writer [] None) [].
(** A certificate for the host only. *)
Definition env : http_env := HttpEnv 1 true (fun name => bool_decide (name = host)) true true.
(** The read loop answers a PING while the request is on its way. *)
Definition acts : list cw_action :=
  [WriteWitness.own 0; Other (EvFrame (WriteWitness.os 1) (SFrame 0 v2TypePong (go! "ping"))); WriteWitness.own 2].
Definition run : list http_event * http_exit * cw_state :=
  default ([], HWaits, s0) (runHTTPOnce FrameWitness.key (go! "matrix.org:443") false env acts s0).
Definition segs : list bytes := MuxWitness.cut_at 3 (w_out (cw_conn run.2)).
Lemma host_plain : plain_host host.
Proof. split_and!; [vm_compute; discriminate | | |]; intros Hin; apply list_elem_of_In in Hin; vm_compute in Hin; intuition discriminate. Qed.
Lemma host_clean : x0d ∉ host.
Proof. intros Hin. apply list_elem_of_In in Hin. vm_compute in Hin. intuition discriminate. Qed.
Lemma s0_fresh : fresh_call s0.
Proof. split; [done | split; [discriminate | reflexivity] | done]. Qed.
Lemma acts_fit : Forall others_fit acts.
Proof. repeat constructor; vm_compute; discriminate. Qed.
End HttpWitness.

Lemma http_target_on_server_witness :
  exists p, parseTarget p = Ok (go! "matrix.org:443") /\
    HttpWitness.run.1 = ([HOpen p; HSend false (http_request HttpWitness.host); HCopy], HReturned None) /\
    own_frames (cw_log HttpWitness.run.2) = [SFrame 1 v2TypeData (http_request HttpWitness.host)] /\
    readStreamFrames 3 FrameWitness.key 3 (Reader HttpWitness.segs EOF)
    = ([SFrame 0 v2TypePong (go! "ping"); SFrame 1 v2TypeData (http_request HttpWitness.host)], Some (LoopRead (FrameIO EOF))).
Proof.
  destruct (http_target_on_server FrameWitness.key FrameWitness.key_laws HttpWitness.host 443 HttpWitness.env)
    as (_ & p & H1 & _ & H2 & _).
  - exact HttpWitness.host_plain.
  - exact HttpWitness.host_clean.
  - split; [discriminate | reflexivity].
  - reflexivity.
  - split; [discriminate | reflexivity].
  - exists p. split; [exact H1 |].
    destruct (H2 HttpWitness.acts HttpWitness.s0 HttpWitness.run.1.1 (HReturned None) HttpWitness.run.2) as (E & H3).
    + exact HttpWitness.s0_fresh.
    + exact HttpWitness.acts_fit.
    + vm_compute. reflexivity.
    + assert (Ee : HttpWitness.run.1.2 = HReturned None) by (vm_compute; reflexivity).
      destruct (H3 ltac:(vm_compute; reflexivity) HttpWitness.segs) as (H4 & H5); [apply MuxWitness.concat_cut |].
      split; [by rewrite (surjective_pairing HttpWitness.run.1), E, Ee |]. split; [exact H4 |].
      assert (El : log_frames (cw_log HttpWitness.run.2) =
        [SFrame 0 v2TypePong (go! "ping"); SFrame 1 v2TypeData (http_request HttpWitness.host)]) by (vm_compute; reflexivity).
      rewrite El in H5. assert (En : length (cw_log HttpWitness.run.2) = 2%nat) by (vm_compute; reflexivity).
      rewrite En in H5. exact H5.
Defined.
